(* ===== verification/_CoqProject ===== *)
-Q . S2P
Prelude.v
JsString.v
JsObject.v
Json.v
JsonFuel.v
JsonIntegers.v
ApiTypes.v
ApiClient.v
Queries.v
Html.v
UiKit.v
UiKitFacts.v
SchemaLayout.v
TupleSchemaParser.v
SchemaGraph.v
SchemaEvaluator.v
SchemaViewer.v
CreateTupleDialog.v
TuplesPage.v
AttributeEditor.v
AttributesPage.v
Explorer.v
Changelog.v
ChangelogPage.v
Shell.v
SchemaPage.v
GoLib.v
ServerModel.v
ServerSchema.v
ServerEngine.v
EngineTermination.v
EngineSpec.v
EngineDecision.v
EngineSharing.v
EngineSteps.v
EngineMoments.v
ServerStore.v
StoreFacts.v
ServerTenants.v
ServerApi.v
ServerDemo.v
EngineProperties.v
StoreProperties.v
SchemaProperties.v
TenantProperties.v
ApiFacts.v
ApiDemo.v
ApiProperties.v
ApiWrites.v
ApiIsolation.v
ServerRoutes.v
Utf8.v
GoJson.v
ServerReply.v
ReplyText.v
ServerWire.v
ReplyWire.v
EndToEnd.v
Concurrent.v
ConcurrentFacts.v
ConcurrentIsolation.v
ConcurrentChecks.v
ConcurrentAnswers.v
ConcurrentAnomaly.v
ConcurrentAtomic.v
ConcurrentProperties.v
DocsSite.v
