(* ===== verification/Prelude.v ===== *)
(** * ZanGuard: a verification development of its console and of its server

    ZanGuard is a relationship-based authorization server (Go, [src/pkg/]) with a
    web console to administer it (TypeScript and React, [src/console/]).  This
    library models both, and the configuration of the documentation site.  The console: the data it exchanges with the server, the
    requests it makes, the readers that extract types, relations and permissions
    from a schema's YAML text, and every page as a component with state, a rendered
    tree and handlers.  The server: the schema compiler and validator, the
    permission check, the memory store, the tenant lifecycle and every handler of
    the HTTP API, what it decodes and encodes, and its handlers running at the same
    time.  The two meet in ServerWire.v (a call of the client is received as the request
    it means), ReplyWire.v (what the client returns is what the server replied),
    EndToEnd.v (a tuple from the form to the store and back) and ChangelogPage.v (the
    page that reads the server's log).

    ** How a page is modelled

    A component (class [Component] of Html.v) has a [render] function from props
    and state to a tree of elements, whose handlers are messages, and an [update]
    function, the handlers: what each message does to the state and which effects
    (requests, notifications) it starts.  [arrives] says which messages come from
    the outside, such as a request that settles.  What the user can do is not
    postulated but read off the rendered tree ([offers]): the buttons that are not
    disabled, the items of a select, the inputs that are shown.  A [run] is a
    sequence of messages each of which was on offer or arrived, and the invariants
    are proved over the states runs reach.  JSX that only styles (class names,
    sizes, icons' classes, placeholders of inputs) is left out of the trees.

    ** How the server is modelled

    Go functions that return an error or may dereference a nil pointer return
    [res] (GoLib.v): a value, an error or a panic.  The store and the server are
    records; an operation takes the state and gives the state with its result, and
    the reading of the clock is an argument.  The recursive check threads its
    mutable visited set as a state ([walk]) and carries fuel.  A request is a value
    of [request] (ServerApi.v), [serve] the server's step, and [run] of ApiFacts.v a
    history of requests; a [serving] server was started as [cmd/server/main.go] does.
    For requests at the same time a handler is a [program] of atomic steps
    (Concurrent.v), one for each access under a mutex, and a schedule says which request
    moves next; [serve] is such a program running alone.  A check is then a [dialogue]
    (EngineSteps.v): the same functions as in ServerEngine.v, asking the store query by
    query, with the answers of different moments; with one store it is [Check].
    What is not the repository's code is an interface: [ExprLang] (expr-lang, which
    compiles and runs conditions), [TupleStore] (what a check asks of a store, which
    [memory_store] implements), [Decoders] (YAML, SHA-256, [time.Parse]), [GoAny],
    [AnyOut] and [TimeText] (what [encoding/json] makes of values of type [any] and of
    times), [JsExact] (integers up to 2^53 are exact doubles).

    ** The files of the console

    - Prelude.v: automation, hint databases, lemmas on lists and folds.
    - JsString.v, JsObject.v: the parts of JavaScript's strings (UTF-16 code
      units), [Map], [Set] and plain objects (integer keys first, ["__proto__"] not
      assigned) the console uses.
    - Json.v, JsonFuel.v, JsonIntegers.v: [JSON.stringify] and [JSON.parse] with
      their round trip; the grammar is read for any tree ([JsonShape]) and from any text
      of a tree ([doc]), so that the server's reader and writer share it; the fuel of the reader is proved enough for every text;
      doubles are the interface [JsNumber]/[JsNumberLaws], which the integers
      instantiate so that concrete inputs can be evaluated.
    - ApiTypes.v: [lib/api/types.ts] and the types of [check.ts].
    - ApiClient.v: [lib/api/*.ts], one request value per function, and the
      [beforeError] hook of [client.ts].
    - Queries.v: [lib/hooks/*.ts], the query keys, when a query is enabled, and what
      a mutation invalidates; that [invalidateQueries] matches keys by prefix is the
      interface [KeyMatching].
    - Html.v: trees, controls, components and runs.
    - UiKit.v, UiKitFacts.v: [components/ui/*.tsx], each component as the tree it
      renders over the primitives of radix-ui, cmdk and sonner; a page offers the
      same with its kit tags expanded.
    - SchemaLayout.v: the line loop the readers share and the canonical layout of a
      schema, from which expected results are computed.
    - TupleSchemaParser.v: [parseSchemaTypes] ([create-tuple-dialog.tsx]).
    - SchemaGraph.v: [parseTypes], [buildGraph] and the view ([schema-graph.tsx]).
    - SchemaEvaluator.v: [parseSchemaTypeInfos] (Module Reader) and the page that
      checks a permission ([schema-evaluator.tsx]).
    - SchemaViewer.v: [parseYamlSimple] and the cards ([schema-viewer.tsx]).
    - CreateTupleDialog.v: the dialog itself ([create-tuple-dialog.tsx]).
    - TuplesPage.v: [app/tuples/page.tsx], filters, table, display of a tuple, and
      the shared [empty-state.tsx].
    - AttributeEditor.v: [attribute-editor.tsx].
    - AttributesPage.v: [app/attributes/page.tsx], both tabs, with the life of the
      editor and the query cache.
    - Explorer.v: [app/explorer/page.tsx], [subject-tree.tsx], [tree-node.tsx].
    - ChangelogPage.v: [app/changelog/page.tsx], [changelog-table.tsx], over the
      server's log of Changelog.v.
    - Shell.v: the tenant store, the tenant selector, the sidebar, the header, the
      layout and [next.config.ts].
    - SchemaPage.v: [app/schema/page.tsx], [schema-editor.tsx], [schema-meta.tsx].

    ** The files of the server

    - Changelog.v: the log of a tenant, how it grows and is read from a number on.
    - GoLib.v: what is used of Go: strings as bytes, errors, [res], the interface
      [ExprLang].
    - ServerModel.v: [pkg/model/].
    - ServerSchema.v: [pkg/schema/types.go], [compiler.go], [validator.go].
    - ServerEngine.v: [pkg/engine/]: the walks, conditions, the schema registry,
      [Check].  EngineTermination.v: checks end.  EngineSpec.v: the inductive
      specification [grounded] of what a permission grants; allows are grounded.
      EngineDecision.v: for unions a deny is final too.  EngineSharing.v: what the
      shared visited set and the top-level condition do.  EngineSteps.v: the check as a
      dialogue with the store.  EngineMoments.v: what it decides and that it ends when the
      answers come from different moments ([granted], the specification over them).
    - ServerStore.v: [pkg/storage/memory/store.go].  StoreFacts.v: its loops, its
      invariant, the separation of tenants.
    - ServerTenants.v: [pkg/tenant/].
    - ServerApi.v: [pkg/api/] and the start of [cmd/server/main.go].  ApiFacts.v:
      each request as store operations on the tenant it names.
    - ServerRoutes.v: [registerRoutes] and its dispatch.
    - Concurrent.v: the handlers as programs, schedules.  ConcurrentFacts.v: programs
      and handlers, the steps of a request, the invariant between them.
      ConcurrentAtomic.v: the reduction of atomic requests to one step.
      ConcurrentIsolation.v: runs with and without the other tenants' requests.
      ConcurrentChecks.v: a thread as a function of its moments, and what explains an
      allow.  ConcurrentAnswers.v: fair schedules, and replies that are replies.
      ConcurrentAnomaly.v: an allow that no moment allows.
    - Utf8.v: UTF-16 and UTF-8.  GoJson.v: [readJSON] and the request types.
      ServerReply.v: [writeJSON] and the reply types.  ReplyText.v: what is written is
      JSON.

    ** The documentation site

    - DocsSite.v: [docs-site/*.js], the sidebar and the configuration; the routes of
      Docusaurus are the interface [DocsRoutes].

    ** The files of both

    - ServerWire.v: calls received.  ReplyWire.v: replies read.  EndToEnd.v: calls,
      handlers and replies composed.

    ** The theorems of the server

    - ServerDemo.v, ApiDemo.v: concrete servers for the witnesses.
    - EngineProperties.v, StoreProperties.v, SchemaProperties.v, TenantProperties.v,
      ApiProperties.v, ApiWrites.v, ApiIsolation.v, ConcurrentProperties.v.

    ** What the theorems about the console show

    - Readers: on a schema in the canonical layout each reader returns what the
      schema says; on every text the three line readers agree with each other
      (a simulation between their loops).  The viewer's own reader is characterised
      exactly, with the permissions it loses.
    - Forms: a tuple or a check can only be submitted if it conforms to the schema
      shown, one request at a time, with what is on the screen; a delete is of the
      tuple the confirmation displays; the badge is the last outcome.
    - Requests: a body parsed back is what was entered; equal query keys mean equal
      requests; tuple writes refresh every tuple list; every request reaches the
      server through the rewrites from every page and there the handler it means.
    - Graphs: nodes and edges of the schema graph and of the subject tree are
      exactly those of the types and of the tree.
    - Paging: Load More shows the whole log once and in order.
    - Editors: saving without editing changes nothing, for plain keys and strings;
      opening, first saving and switching entities and tenants.
    - Behaviours a maintainer should know are theorems too: stale rows and texts
      after a switch to something cached, the frozen subject graph, strings that
      change type, lost permissions.

    ** What the theorems about the server show

    - Check: it always ends; an allow is grounded in tuples and conditions; on
      schemas of unions it decides the specification, and without an error when
      the depth limit covers what can be reached.  Two arrows to one target and
      conditions of inherited permissions do not do what a reader would expect, and
      theorems say what they do.
    - Store: an invariant of every history of operations; the slice of tuples
      refines a map from identity keys; paging of tenants with its overflow.
    - Schemas: what compiles is well formed; the validator is exact.
    - Tenants: the manager refines the lifecycle state machine; deleted is final
      as long as commands are served one at a time; which identifiers are accepted.
    - API: an invariant of the started server over all requests; every request is
      answered; evaluations fail closed; tenants do not notice each other; the
      status codes of a write, how long a tuple lives, loading a schema.
    - At the same time: requests on tenant data are atomic under every interleaving;
      an invariant holds between all steps; the requests of a tenant run as if those of the
      others were not there; every request is answered under every fair schedule; an
      allow is explained by what the store answered at the steps of its check.
      Transitions of a tenant, schema loads and checks are not atomic: a deletion can be
      lost, the engine and the server can keep different schemas, a check can allow
      what no moment allows.

    ** What the theorems about both show

    - Every call of the console is received as what it means, and what it returns is
      what was replied, with the same texts; a tuple typed into the form is listed with
      the texts typed until the console deletes it.

    ** Fuel and bounds

    [parse] gives its reader twice the length of the text plus two calls, which
    JsonFuel.v shows to be enough for every text.  [visit] of ChangelogPage.v
    presses Load More at most once per entry of the log plus one, enough for the
    log to be covered.  A check has [check_fuel], the depth limit plus two calls,
    enough whatever tuples and schema say ([check_always_answers]).  Sequence numbers
    wrap at 2^64, the sum of offset and limit at 2^63.  The same fuel is enough for a check
    whose store changes ([check_schema_settles]).  Every other definition is
    structurally recursive.

    ** What is not modelled

    Of the console: styling, with the class-name tables of the UI kit; the
    transport (ky), the cache policies of react-query beyond the facts above
    (staleness times, retries, garbage collection), the persistence of the tenant
    store, the search of cmdk, dragging of graph nodes; dagre is a parameter.  Runs
    of the tuples page, the explorer, the changelog page and the evaluator are taken
    between changes of their props; the attributes page follows its query cache, the
    schema page also follows changes of tenant, but not a save that settles after
    its editor was unmounted.

    Of the server: the PostgreSQL store, whose behaviour is that of SQL and of its
    driver; percent-encoded path segments and queries (the client's path values are
    taken to be unreserved characters); the texts of errors, logging, environment
    variables, listening.

    Of the documentation site: the text of its pages, the themes and the copyright line. *)

From Stdlib Require Export Lia NArith ZArith.
From stdpp Require Export strings relations gmap prelude.

(** ** Automation shared by every file *)

(** The rewriting rules of the string, list and view-tree functions. *)
Create HintDb console.
Create Rewrite HintDb console_rw.
(** The controls of each widget. *)
Create Rewrite HintDb controls_rw.

(** Destruct one level of conjunctions and existentials everywhere. *)
Ltac destruct_hyps :=
  repeat match goal with
  | H : _ ∧ _ |- _ => destruct H
  | H : ∃ _, _ |- _ => destruct H
  | H : (_, _) = (_, _) |- _ => injection H as H; subst
  end.

(** Turn the boolean tests of the models into propositions. *)
Ltac bool_prop :=
  repeat match goal with
  | H : bool_decide _ = true |- _ => apply bool_decide_eq_true in H
  | H : bool_decide _ = false |- _ => apply bool_decide_eq_false in H
  | H : _ && _ = true |- _ => apply andb_true_iff in H as [? ?]
  | H : _ || _ = false |- _ => apply orb_false_iff in H as [? ?]
  | H : negb _ = true |- _ => apply negb_true_iff in H
  | H : negb _ = false |- _ => apply negb_false_iff in H
  end.

(** A decidable fact about literals, by evaluation. *)
Ltac decide_literal := solve [apply (bool_decide_unpack _); vm_compute; exact I].

(** ** Lists *)

Section Lists.
Context {A B : Type}.
Implicit Types (l k : list A) (f : A → B) (p : A → bool).

Lemma fmap_alter f (g : A → A) (h : B → B) l i :
(∀ x, f (g x) = h (f x)) → f <$> alter g i l = alter h i (f <$> l).
Proof.
intros H. revert i. induction l as [|x l IH]; intros [|i]; [done..| |].
- cbn. by rewrite H.
- cbn. f_equal. apply IH.
Qed.

Lemma fmap_alter_keep f (g : A → A) l i :
(∀ x, f (g x) = f x) → f <$> alter g i l = f <$> l.
Proof. intros H. rewrite (fmap_alter _ _ id) by done. by apply list_alter_id. Qed.

Lemma NoDup_snoc l x : NoDup l → x ∉ l → NoDup (l ++ [x]).
Proof.
intros Hl Hx. apply NoDup_app. split_and!; [done| |apply NoDup_singleton].
by intros y Hy ->%list_elem_of_singleton.
Qed.

Lemma not_pos_length l : ¬ 0 < length l → l = [].
Proof. destruct l; simpl; [done|lia]. Qed.

Lemma pos_length_not_nil l : l ≠ [] → 0 < length l.
Proof. destruct l; simpl; [done|lia]. Qed.

Lemma last_default_cons l x d : List.last (x :: l) d = List.last l x.
Proof.
revert x d. induction l as [|y l IH]; intros x d; [done|].
change (List.last (y :: l) d = List.last (y :: l) x). by rewrite !IH.
Qed.

Lemma last_default l x : last (x :: l) = Some (List.last l x).
Proof.
revert x. induction l as [|y l IH]; intros x; [done|].
change (last (x :: y :: l)) with (last (y :: l)). by rewrite IH, last_default_cons.
Qed.

Lemma foldl_snoc {C} (g : C → A → C) c l x :
foldl g c (l ++ [x]) = g (foldl g c l) x.
Proof. by rewrite foldl_app. Qed.
End Lists.

(** A loop whose effect on one component [p] of its state is a fold: nested
    loops project to one fold over the concatenated inner entries. *)
Lemma foldl_project {A C M D} (p : A → M) (g : A → C → A) (q : M → D → M)
    (h : C → list D) (l : list C) (a : A) :
  (∀ a c, p (g a c) = foldl q (p a) (h c)) →
  p (foldl g a l) = foldl q (p a) (concat (h <$> l)).
Proof.
  intros H. revert a. induction l as [|c l IH]; intros a; [done|].
  rewrite fmap_cons. simpl. by rewrite IH, H, foldl_app.
Qed.

Lemma elem_of_concat_fmap {C D} (f : C → list D) l x :
  x ∈ concat (f <$> l) ↔ ∃ y, y ∈ l ∧ x ∈ f y.
Proof.
  induction l as [|y l IH]; cbn.
  - split; [by intros ?%elem_of_nil|by intros (y & ?%elem_of_nil & _)].
  - rewrite elem_of_app. change (list_fmap _ _ f l) with (f <$> l). rewrite IH.
    setoid_rewrite elem_of_cons. split.
    + intros [?|(z & ? & ?)]; eauto.
    + intros (z & [->|?] & ?); eauto.
Qed.

Section Folds.
Context {C D : Type} (g : C → D → C).
Implicit Types (l : list D).

(** What every iteration keeps, the loop keeps. *)
Lemma foldl_keep (P : C → Prop) l a :
(∀ a x, x ∈ l → P a → P (g a x)) → P a → P (foldl g a l).
Proof.
revert a. induction l as [|x l IH]; intros a Hg Ha; [done|]. simpl.
apply IH; [|apply Hg; [by left|done]]. intros a' y Hy. apply Hg. by right.
Qed.

(** What one iteration establishes and the others keep holds at the end. *)
Lemma foldl_establish (P : C → Prop) l a x :
x ∈ l → (∀ a, P (g a x)) → (∀ a y, P a → P (g a y)) → P (foldl g a l).
Proof.
intros Hx Hest Hkeep. revert a. induction l as [|y l IH]; intros a; [by apply elem_of_nil in Hx|].
apply elem_of_cons in Hx as [->|Hx]; simpl; [|by apply IH].
apply foldl_keep; auto.
Qed.
End Folds.

(** [Array.prototype.find]: the first element that satisfies the test. *)
Fixpoint find {A} (p : A → bool) (l : list A) : option A :=
  match l with
  | [] => None
  | x :: l => if p x then Some x else find p l
  end.

Section Find.
Context {A : Type} (p : A → bool).

Lemma find_Some l x : find p l = Some x → x ∈ l ∧ p x = true.
Proof.
induction l as [|y l IH]; simpl; [done|].
destruct (p y) eqn:E; [intros [= ->]; by split; [left|]|].
intros [??]%IH. by split; [right|].
Qed.

Lemma find_None l : find p l = None ↔ ∀ x, x ∈ l → p x = false.
Proof.
induction l as [|y l IH]; simpl.
{ split; [|done]. by intros _ x ?%elem_of_nil. }
setoid_rewrite elem_of_cons. destruct (p y) eqn:E.
- split; [done|]. intros H. rewrite H in E; [done|by left].
- rewrite IH. split; [intros H x [->|?]; auto|auto].
Qed.

End Find.

Lemma find_fmap {A B} (f : A → B) (p : B → bool) (l : list A) :
  find p (f <$> l) = f <$> find (λ x, p (f x)) l.
Proof. induction l as [|x l IH]; [done|]. cbn. by destruct (p (f x)). Qed.

(** ** Results of awaited calls: a promise that resolves or rejects *)

Inductive settled (A E : Type) :=
  | Resolved (a : A)
  | Rejected (e : E).
Arguments Resolved {A E} a.
Arguments Rejected {A E} e.
