(* ===== verification/JsString.v ===== *)
(** * JavaScript strings

    A JavaScript string is a sequence of UTF-16 code units, modelled as a list
    of numbers.  The functions are those of [String.prototype] that the console
    calls, with the lemmas about them that the components share. *)

From S2P Require Import Prelude.
From Stdlib Require Import Ascii DecimalFacts DecimalN.

Declare Scope js_scope.
Delimit Scope js_scope with js.
Open Scope js_scope.

Abbreviation jstring := (list N).

(** An ASCII literal of the source as its code units. *)
Definition js (s : string) : jstring := N_of_ascii <$> String.list_ascii_of_string s.
Arguments js s%_string.

(** The code units the source names in its literals. *)
Abbreviation NL := 10%N.
Abbreviation SPACE := 32%N.
Abbreviation DQUOTE := 34%N.
Abbreviation HASH := 35%N.
Abbreviation SQUOTE := 39%N.
Abbreviation COMMA := 44%N.
Abbreviation DASH := 45%N.
Abbreviation SLASH := 47%N.
Abbreviation COLON := 58%N.
Abbreviation LBRACKET := 91%N.
Abbreviation BACKSLASH := 92%N.
Abbreviation RBRACKET := 93%N.
Abbreviation LBRACE := 123%N.
Abbreviation RBRACE := 125%N.
Abbreviation ARROW := 8594%N.

(** ** Operations *)

(** A string in a boolean position: only the empty string is falsy. *)
Definition truthy (s : jstring) : bool :=
  match s with [] => false | _ => true end.

(** [a || b] on strings. *)
Definition js_or (a b : jstring) : jstring := if truthy a then a else b.

(** WhiteSpace and LineTerminator of ECMAScript, what [trim] removes. *)
Definition is_ws (c : N) : bool :=
  (bool_decide (9 ≤ c ≤ 13) || bool_decide (c = 32) || bool_decide (c = 160)
   || bool_decide (c = 5760) || bool_decide (8192 ≤ c ≤ 8202)
   || bool_decide (c = 8232) || bool_decide (c = 8233) || bool_decide (c = 8239)
   || bool_decide (c = 8287) || bool_decide (c = 12288)
   || bool_decide (c = 65279))%N.

Fixpoint trimStart (s : jstring) : jstring :=
  match s with
  | c :: s' => if is_ws c then trimStart s' else s
  | [] => []
  end.

Definition trimEnd (s : jstring) : jstring := reverse (trimStart (reverse s)).

Definition trim (s : jstring) : jstring := trimEnd (trimStart s).

Definition startsWith (s p : jstring) : bool := bool_decide (p `prefix_of` s).

Definition endsWith (s p : jstring) : bool := bool_decide (p `suffix_of` s).

(** [s.slice(from)] and [s.slice(from, to)], negative indices from the end. *)
Definition slice_index (len : nat) (i : Z) : nat :=
  if (i <? 0)%Z then Z.to_nat (Z.max (Z.of_nat len + i) 0)
  else Nat.min (Z.to_nat i) len.

Definition slice (s : jstring) (from : Z) (to : option Z) : jstring :=
  let len := length s in
  let a := slice_index len from in
  let b := slice_index len (default (Z.of_nat len) to) in
  take (b - a) (drop a s).

(** [s.split(c)] for a separator of one code unit. *)
Fixpoint split (c : N) (s : jstring) : list jstring :=
  match s with
  | [] => [[]]
  | x :: s' =>
      if bool_decide (x = c) then [] :: split c s'
      else match split c s' with
           | w :: ws => (x :: w) :: ws
           | [] => [[x]]
           end
  end.

(** [l.join(sep)]. *)
Fixpoint join (sep : jstring) (l : list jstring) : jstring :=
  match l with
  | [] => []
  | [x] => x
  | x :: l' => x ++ sep ++ join sep l'
  end.

(** [s.includes(c)] for one code unit. *)
Definition includes (s : jstring) (c : N) : bool := bool_decide (c ∈ s).

(** [s.indexOf(c)] for one code unit, [-1] when there is none. *)
Fixpoint indexOf (s : jstring) (c : N) : Z :=
  match s with
  | [] => -1
  | x :: s' =>
      if bool_decide (x = c) then 0
      else let i := indexOf s' c in if (i <? 0)%Z then i else (i + 1)%Z
  end.

(** [s.replace(/^['"]|['"]$/g, "")]: one quote character at each end. *)
Definition is_quote (c : N) : bool := bool_decide (c = SQUOTE) || bool_decide (c = DQUOTE).

Definition drop_quote (s : jstring) : jstring :=
  match s with
  | c :: s' => if is_quote c then s' else s
  | [] => []
  end.

Definition replace_end_quotes (s : jstring) : jstring :=
  reverse (drop_quote (reverse (drop_quote s))).

(** Decimal text of a natural number, what a template literal prints. *)
Fixpoint uint_units (d : Decimal.uint) : jstring :=
  match d with
  | Decimal.Nil => []
  | Decimal.D0 d => 48 :: uint_units d
  | Decimal.D1 d => 49 :: uint_units d
  | Decimal.D2 d => 50 :: uint_units d
  | Decimal.D3 d => 51 :: uint_units d
  | Decimal.D4 d => 52 :: uint_units d
  | Decimal.D5 d => 53 :: uint_units d
  | Decimal.D6 d => 54 :: uint_units d
  | Decimal.D7 d => 55 :: uint_units d
  | Decimal.D8 d => 56 :: uint_units d
  | Decimal.D9 d => 57 :: uint_units d
  end%N.

Definition js_of_N (n : N) : jstring := uint_units (N.to_uint n).

(** [String(n)] for an integer [n] with [|n| < 10^21]. *)
Definition js_of_Z (z : Z) : jstring :=
  match z with
  | Zneg p => DASH :: js_of_N (Npos p)
  | _ => js_of_N (Z.to_N z)
  end.

Definition is_digit (c : N) : bool := bool_decide (48 ≤ c ≤ 57)%N.

#[global] Arguments js : simpl never.
#[global] Arguments trim : simpl never.
#[global] Arguments trimEnd : simpl never.
#[global] Arguments slice : simpl never.
#[global] Arguments startsWith : simpl never.
#[global] Arguments endsWith : simpl never.

(** ** White space *)

(** Text that neither starts nor ends with white space, and is not empty. *)
Definition solid (s : jstring) : bool :=
  match head s, last s with
  | Some c, Some d => negb (is_ws c) && negb (is_ws d)
  | _, _ => false
  end.

(** A line of [n] spaces followed by [s]. *)
Definition indented (n : nat) (s : jstring) : jstring := replicate n SPACE ++ s.

Section Trim.
Implicit Types (s t : jstring) (c : N).

Lemma trimStart_head s :
(∀ c, head s = Some c → is_ws c = false) → trimStart s = s.
Proof. destruct s as [|c s]; intros H; simpl; [done|]. by rewrite (H c). Qed.

Lemma trimStart_spaces n s : trimStart (replicate n SPACE ++ s) = trimStart s.
Proof. induction n; simpl; [done|]. done. Qed.

Lemma trimStart_suffix s : trimStart s `suffix_of` s.
Proof.
induction s as [|c s IH]; simpl; [done|].
destruct (is_ws c); [by apply suffix_cons_r|done].
Qed.

Lemma trimEnd_prefix s : trimEnd s `prefix_of` s.
Proof.
unfold trimEnd. rewrite <-(reverse_involutive s) at 2.
destruct (trimStart_suffix (reverse s)) as [k Hk]. rewrite Hk at 2.
rewrite reverse_app. by exists (reverse k).
Qed.

Lemma trimEnd_last s : (∀ c, last s = Some c → is_ws c = false) → trimEnd s = s.
Proof.
intros H. unfold trimEnd. rewrite trimStart_head, reverse_involutive; [done|].
intros c Hc. apply H. by rewrite <-head_reverse.
Qed.

Lemma trimStart_head_not_ws s c : head (trimStart s) = Some c → is_ws c = false.
Proof.
induction s as [|d s IH]; simpl; [done|].
destruct (is_ws d) eqn:E; [done|]. by intros [= <-].
Qed.

Lemma trimEnd_last_not_ws s c : last (trimEnd s) = Some c → is_ws c = false.
Proof.
unfold trimEnd. rewrite last_reverse. apply trimStart_head_not_ws.
Qed.

Lemma prefix_head s t c : s `prefix_of` t → head s = Some c → head t = Some c.
Proof. intros [k ->]. by destruct s. Qed.

(** [trim] leaves text with no white space at either end. *)
Lemma trim_solid s : trim s = [] ∨ solid (trim s) = true.
Proof.
destruct (trim s) as [|c t] eqn:E; [by left|right]. unfold solid. rewrite <-E.
assert (Hh : head (trim s) = Some c) by by rewrite E.
rewrite Hh. destruct (last (trim s)) as [d|] eqn:Hl;
  [|apply last_None in Hl; by rewrite E in Hl].
unfold trim in Hl, Hh. apply trimEnd_last_not_ws in Hl. rewrite Hl.
eapply prefix_head in Hh; [|apply trimEnd_prefix].
apply trimStart_head_not_ws in Hh. by rewrite Hh.
Qed.

Lemma solid_cons s : solid s = true → ∃ c s', s = c :: s' ∧ is_ws c = false.
Proof.
unfold solid. destruct s as [|c s]; [done|]. simpl.
case_match; [|done]. intros [?%negb_true_iff ?]%andb_true_iff. eauto.
Qed.

Lemma solid_trimStart s : solid s = true → trimStart s = s.
Proof. intros (c & s' & -> & Hc)%solid_cons. simpl. by rewrite Hc. Qed.

Lemma solid_trim s : solid s = true → trim s = s.
Proof.
intros H. unfold trim. rewrite solid_trimStart by done.
apply trimEnd_last. intros c Hc. unfold solid in H. rewrite Hc in H.
destruct (head s); [|done]. by apply andb_true_iff in H as [_ ?%negb_true_iff].
Qed.

Lemma solid_truthy s : solid s = true → truthy s = true.
Proof. by destruct s. Qed.

Lemma trim_indented n s : solid s = true → trim (indented n s) = s.
Proof.
intros H. unfold indented, trim. rewrite trimStart_spaces.
by apply solid_trim.
Qed.

Lemma trimStart_indented n s : solid s = true → trimStart (indented n s) = s.
Proof. intros H. unfold indented. rewrite trimStart_spaces. by apply solid_trimStart. Qed.

Lemma trimEnd_indented n s : solid s = true → trimEnd (indented n s) = indented n s.
Proof.
intros H. apply trimEnd_last. intros c Hc. unfold indented in Hc.
rewrite last_app in Hc. unfold solid in H.
destruct (head s); [|done]. destruct (last s); [|done]. simplify_eq.
by apply andb_true_iff in H as [_ ?%negb_true_iff].
Qed.

Lemma solid_snoc s c : solid s = true → is_ws c = false → solid (s ++ [c]) = true.
Proof.
intros (d & s' & -> & Hd)%solid_cons Hc. unfold solid.
rewrite last_snoc. simpl. by rewrite Hd, Hc.
Qed.

Lemma solid_app s k t : solid s = true → solid t = true → solid (s ++ k ++ t) = true.
Proof.
unfold solid. intros Hs Ht. rewrite !last_app.
destruct s as [|c s]; [done|]. simpl in *.
destruct (last t) as [d|]; [|by destruct (head t)].
destruct (head t); [|done]. destruct (last (c :: s)); [|done].
apply andb_true_iff in Hs as [-> _]. by apply andb_true_iff in Ht as [_ ->].
Qed.

Lemma length_indented n s : (length (indented n s) - length s = n)%nat.
Proof. unfold indented. rewrite length_app, length_replicate. lia. Qed.
End Trim.

#[export] Hint Resolve solid_snoc solid_truthy : console.
#[export] Hint Rewrite @trim_indented @trimStart_indented @trimEnd_indented
  @solid_trim length_indented using (by auto with console) : console_rw.

(** ** Splitting and joining *)

Section Split.
Implicit Types (s t : jstring) (c : N) (l : list jstring).

Lemma split_not_nil c s : split c s ≠ [].
Proof. induction s; simpl; repeat case_match; done. Qed.

Lemma split_no_sep c s : c ∉ s → split c s = [s].
Proof.
induction s as [|x s IH]; simpl; [done|].
intros [? ?]%not_elem_of_cons. rewrite bool_decide_eq_false_2 by done.
by rewrite IH.
Qed.

(** What precedes the first separator is determined. *)
Lemma app_sep_inj c s s' t t' :
c ∉ s → c ∉ s' → s ++ c :: t = s' ++ c :: t' → s = s' ∧ t = t'.
Proof.
revert s'. induction s as [|d s IH]; intros [|d' s'] Hs Hs' [=]; subst; [done|..].
- by destruct Hs'; left.
- by destruct Hs; left.
- apply not_elem_of_cons in Hs as [_ Hs], Hs' as [_ Hs'].
  by edestruct (IH s') as [-> ->].
Qed.

(** The same with an optional tail. *)
Lemma app_opt_sep_inj c s s' t t' :
c ∉ s → c ∉ s' →
s ++ (if truthy t then c :: t else []) = s' ++ (if truthy t' then c :: t' else []) →
s = s' ∧ t = t'.
Proof.
intros Hs Hs'. destruct t as [|d t], t' as [|d' t']; cbn [truthy].
- by intros ?%app_inv_tail.
- rewrite List.app_nil_r. intros ->. destruct Hs. apply elem_of_app. right. by left.
- rewrite List.app_nil_r. intros <-. destruct Hs'. apply elem_of_app. right. by left.
- by intros ?%app_sep_inj.
Qed.

Lemma split_app_sep c s t : c ∉ s → split c (s ++ c :: t) = s :: split c t.
Proof.
induction s as [|x s IH]; simpl; [by rewrite bool_decide_eq_true_2|].
intros [? ?]%not_elem_of_cons. rewrite bool_decide_eq_false_2 by done.
by rewrite IH.
Qed.

Lemma split_app c s t : split c (s ++ c :: t) = split c s ++ split c t.
Proof.
induction s as [|x s IH]; simpl; [by rewrite bool_decide_eq_true_2|].
rewrite IH. case_bool_decide; [done|].
destruct (split c s) as [|w ws] eqn:E; [by destruct (split_not_nil c s)|done].
Qed.

(** Splitting the joined pieces gives them back. *)
Lemma split_join c l :
l ≠ [] → Forall (λ s, c ∉ s) l → split c (join [c] l) = l.
Proof.
intros Hl Hf. induction Hf as [|s l Hs Hf IH]; [done|].
destruct l as [|t l]; [by apply split_no_sep|].
change (join [c] (s :: t :: l)) with (s ++ c :: join [c] (t :: l)).
rewrite split_app_sep by done. by rewrite IH.
Qed.

End Split.

(** ** Slices, prefixes and suffixes *)

Section Slice.
Implicit Types (s t : jstring) (c : N).

Lemma slice_drop_last s c : slice (s ++ [c]) 0 (Some (-1)%Z) = s.
Proof.
unfold slice, slice_index. simpl. rewrite length_app. simpl.
replace (Z.to_nat _ - 0)%nat with (length s) by lia.
by rewrite drop_0, take_app_length.
Qed.

Lemma slice_from s (n : nat) : slice s (Z.of_nat n) None = drop n s.
Proof.
unfold slice, slice_index. simpl.
rewrite !(proj2 (Z.ltb_ge _ _)), !Nat2Z.id by lia.
rewrite take_ge by (rewrite length_drop; lia).
destruct (Nat.le_ge_cases n (length s)); [by rewrite Nat.min_l|].
by rewrite Nat.min_r, !drop_ge by lia.
Qed.

Lemma slice_inner2 s b c d : slice (b :: c :: s ++ [d]) 2 (Some (-1)%Z) = s.
Proof.
unfold slice, slice_index. simpl. rewrite length_app. simpl.
replace (Z.to_nat _ - 2)%nat with (length s) by lia.
by rewrite drop_0, take_app_length.
Qed.

Lemma slice_inner s c d : slice (c :: s ++ [d]) 1 (Some (-1)%Z) = s.
Proof.
unfold slice, slice_index. simpl. rewrite length_app. simpl.
replace (Z.to_nat _ - 1)%nat with (length s) by lia.
by rewrite drop_0, take_app_length.
Qed.

Lemma endsWith_snoc s c : endsWith (s ++ [c]) [c] = true.
Proof. apply bool_decide_eq_true_2. by exists s. Qed.

Lemma endsWith_last s c : endsWith s [c] = bool_decide (last s = Some c).
Proof.
apply bool_decide_ext. rewrite last_Some. split; intros [k Hk]; by exists k.
Qed.

Lemma startsWith_app s t : startsWith (s ++ t) s = true.
Proof. apply bool_decide_eq_true_2. by exists t. Qed.

Lemma startsWith_cons s c d : startsWith (c :: s) [d] = bool_decide (c = d).
Proof.
apply bool_decide_ext. split; [by intros [k [= ->]]|intros ->]. by exists s.
Qed.

Lemma replace_end_quotes_id s :
(∀ c, head s = Some c → is_quote c = false) →
(∀ c, last s = Some c → is_quote c = false) →
replace_end_quotes s = s.
Proof.
assert (Hd : ∀ t, (∀ c, head t = Some c → is_quote c = false) → drop_quote t = t).
{ intros [|c t] H; simpl; [done|]. by rewrite (H c). }
intros Hh Hl. unfold replace_end_quotes.
by rewrite (Hd s), Hd, reverse_involutive by (rewrite ?head_reverse; done).
Qed.

Lemma indexOf_app s c t : c ∉ s → indexOf (s ++ c :: t) c = Z.of_nat (length s).
Proof.
induction s as [|x s IH]; simpl; [by rewrite bool_decide_eq_true_2|].
intros [? ?]%not_elem_of_cons. rewrite bool_decide_eq_false_2, IH by done.
destruct (Z.ltb_spec (Z.of_nat (length s)) 0); lia.
Qed.

Lemma truthy_true s : truthy s = true ↔ s ≠ [].
Proof. by destruct s. Qed.
End Slice.

#[export] Hint Rewrite slice_drop_last slice_inner endsWith_snoc startsWith_app : console_rw.

(** ** Decimal text *)

Section Decimal.
Lemma uint_units_digits d : Forall (λ c, is_digit c = true) (uint_units d).
Proof. induction d; simpl; repeat constructor; done. Qed.

Lemma uint_units_inj d e : uint_units d = uint_units e → d = e.
Proof. revert e. induction d; intros []; simpl; intros; simplify_eq; f_equal; auto. Qed.

Lemma js_of_N_digits n : Forall (λ c, is_digit c = true) (js_of_N n).
Proof. apply uint_units_digits. Qed.

#[export] Instance js_of_N_inj : Inj (=) (=) js_of_N.
Proof.
intros n m H. apply uint_units_inj in H.
by rewrite <-(DecimalN.Unsigned.of_to n), H, DecimalN.Unsigned.of_to.
Qed.

Lemma js_of_N_not_nil n : js_of_N n ≠ [].
Proof.
intros H. destruct n as [|p]; [done|].
assert (H0 : N.to_uint (Npos p) = Decimal.Nil) by by apply uint_units_inj.
apply (f_equal N.of_uint) in H0. by rewrite DecimalN.Unsigned.of_to in H0.
Qed.

Lemma not_digit_not_in c n : is_digit c = false → c ∉ js_of_N n.
Proof.
intros Hc Hin. pose proof (js_of_N_digits n) as H.
rewrite Forall_forall in H. apply H in Hin. congruence.
Qed.
End Decimal.
