(* ===== verification/JsObject.v ===== *)
(** * JavaScript maps, sets and plain objects

    [Map] and [Set] iterate in insertion order.  A plain object lists its own
    keys with the array indices first, in ascending order, then the other keys
    in order of creation; assigning to its ["__proto__"] changes the prototype
    and creates no own key. *)

From stdpp Require Import sorting.
From S2P Require Import Prelude JsString.

(** ** Map and Set *)

Section Map.
Context {K V : Type} `{EqDecision K}.
Implicit Types (m : list (K * V)) (k : K) (v : V).

Fixpoint map_get m k : option V :=
match m with
| [] => None
| (k', v) :: m => if bool_decide (k = k') then Some v else map_get m k
end.

Fixpoint map_set m k v : list (K * V) :=
match m with
| [] => [(k, v)]
| (k', v') :: m =>
    if bool_decide (k = k') then (k', v) :: m else (k', v') :: map_set m k v
end.

Definition map_has m k : bool := match map_get m k with Some _ => true | None => false end.

Definition map_values m : list V := snd <$> m.
Definition map_keys m : list K := fst <$> m.

(** [new Map(entries)] *)
Definition map_of (entries : list (K * V)) : list (K * V) :=
foldl (λ m e, map_set m (fst e) (snd e)) [] entries.
End Map.

Section SetOps.
Context {A : Type} `{EqDecision A}.

Definition set_has (s : list A) (x : A) : bool := bool_decide (x ∈ s).
Definition set_add (s : list A) (x : A) : list A := if set_has s x then s else s ++ [x].
Definition set_delete (s : list A) (x : A) : list A :=
List.filter (λ y, negb (bool_decide (y = x))) s.

(** [[...new Set(l)]] *)
Definition unique (l : list A) : list A := foldl set_add [] l.
End SetOps.

(** ** Plain objects *)

Abbreviation jobject V := (list (jstring * V)).

Definition digits_value (s : jstring) : N := foldl (λ a c, 10 * a + (c - 48))%N 0%N s.

(** A key that is the decimal text of an array index. *)
Definition array_index (k : jstring) : option N :=
  let n := digits_value k in
  if forallb is_digit k && bool_decide (js_of_N n = k) && bool_decide (n < 4294967295)%N
  then Some n else None.

Section Object.
Context {V : Type}.
Implicit Types (o : jobject V) (k : jstring) (v : V).

Fixpoint insert_index (i : N) (k : jstring) (v : V) o : jobject V :=
match o with
| [] => [(k, v)]
| (k', v') :: o' =>
    match array_index k' with
    | Some j => if bool_decide (j < i)%N then (k', v') :: insert_index i k v o' else (k, v) :: o
    | None => (k, v) :: o
    end
end.

(** Defining an own property. *)
Definition obj_set o k v : jobject V :=
if map_has o k then map_set o k v
else match array_index k with
     | Some i => insert_index i k v o
     | None => o ++ [(k, v)]
     end.

(** [o[k] = v] on an object whose prototype is [Object.prototype]. *)
Definition obj_assign o k v : jobject V :=
if bool_decide (k = js "__proto__") then o else obj_set o k v.

Definition obj_of (entries : list (jstring * V)) : jobject V :=
foldl (λ o e, obj_set o (fst e) (snd e)) [] entries.

(** The order [Object.keys] guarantees. *)
Definition key_before (a b : jstring) : Prop :=
match array_index a, array_index b with
| Some i, Some j => (i < j)%N
| Some _, None => True
| None, Some _ => False
| None, None => a ≠ b
end.

Definition obj_wf o : Prop := StronglySorted key_before (fst <$> o).
End Object.

(** ** Facts *)

Section MapFacts.
Context {K V : Type} `{EqDecision K}.
Implicit Types (m : list (K * V)) (k : K) (v : V).

Lemma map_get_None m k : map_get m k = None ↔ k ∉ map_keys m.
Proof.
induction m as [|[k' v] m IH]; simpl; [by split; [intros _ Hin; inversion Hin|]|].
rewrite not_elem_of_cons. case_bool_decide; [naive_solver|]. rewrite IH. tauto.
Qed.

Lemma map_set_new m k v : k ∉ map_keys m → map_set m k v = m ++ [(k, v)].
Proof.
induction m as [|[k' v'] m IH]; simpl; [done|].
intros [? ?]%not_elem_of_cons. rewrite bool_decide_eq_false_2, IH by done. done.
Qed.

Lemma map_set_keys m k v :
map_keys (map_set m k v) = if map_has m k then map_keys m else map_keys m ++ [k].
Proof.
unfold map_has. induction m as [|[k' v'] m IH]; simpl; [done|].
case_bool_decide as E; simpl; [done|].
unfold map_keys in IH |- *. simpl. rewrite IH. by destruct (map_get m k).
Qed.

Lemma map_get_set m k k' v :
map_get (map_set m k v) k' = if bool_decide (k' = k) then Some v else map_get m k'.
Proof.
induction m as [|[k2 v2] m IH]; simpl; [done|].
destruct (decide (k = k2)) as [->|?].
- rewrite bool_decide_eq_true_2 by done. simpl. by case_bool_decide.
- rewrite (bool_decide_eq_false_2 (k = k2)) by done. simpl.
  destruct (decide (k' = k2)) as [->|?].
  + by rewrite bool_decide_eq_true_2, bool_decide_eq_false_2.
  + by rewrite (bool_decide_eq_false_2 (k' = k2)).
Qed.

Lemma map_keys_NoDup_set m k v : NoDup (map_keys m) → NoDup (map_keys (map_set m k v)).
Proof.
rewrite map_set_keys. unfold map_has. destruct (map_get m k) eqn:E; [done|].
apply map_get_None in E. intros Hm. by apply NoDup_snoc.
Qed.

Lemma map_get_In m k v : NoDup (map_keys m) → (k, v) ∈ m → map_get m k = Some v.
Proof.
induction m as [|[k' v'] m IH]; simpl; [by intros _ ?%elem_of_nil|].
intros [Hk Hm]%NoDup_cons [[= -> ->]|Hin]%elem_of_cons; [by rewrite bool_decide_eq_true_2|].
rewrite bool_decide_eq_false_2; [auto|]. intros ->. apply Hk.
by apply (list_elem_of_fmap_2 fst) in Hin.
Qed.

Lemma map_has_elem m k : map_has m k = bool_decide (k ∈ map_keys m).
Proof.
unfold map_has. symmetry. destruct (map_get m k) eqn:E.
- apply bool_decide_eq_true_2, dec_stable. rewrite <-map_get_None. congruence.
- by apply bool_decide_eq_false_2, map_get_None.
Qed.

(** A map with distinct keys is its keys paired with what they look up. *)
Lemma map_rebuild (d : V) m :
NoDup (map_keys m) → m = (λ k, (k, default d (map_get m k))) <$> map_keys m.
Proof.
intros Hnd. unfold map_keys. rewrite <-list_fmap_compose.
rewrite <-(list_fmap_id m) at 1. apply list_fmap_ext. intros i [k v] Hi. simpl.
by rewrite (map_get_In m k v) by (done || by eapply list_elem_of_lookup_2).
Qed.

Lemma map_of_NoDup (l : list (K * V)) : NoDup (map_keys l) → map_of l = l.
Proof.
unfold map_of, map_keys. intros Hnd.
enough (∀ p, NoDup ((p ++ l).*1) → foldl (λ m e, map_set m e.1 e.2) p l = p ++ l) as H
  by by apply (H []).
clear Hnd. induction l as [|[k v] l IH]; intros p Hp; simpl; [by rewrite app_nil_r|].
rewrite map_set_new.
- rewrite IH; [by rewrite <-app_assoc|by rewrite <-app_assoc].
- rewrite fmap_app in Hp. apply NoDup_app in Hp as (_ & Hp & _).
  intros Hk. by apply (Hp k Hk), elem_of_cons; left.
Qed.

End MapFacts.

Section SetFacts.
Context {A : Type} `{EqDecision A}.
Implicit Types (s l : list A).

Lemma elem_of_set_add s x y : x ∈ set_add s y ↔ x ∈ s ∨ x = y.
Proof.
unfold set_add, set_has. case_bool_decide; [naive_solver|].
rewrite elem_of_app, list_elem_of_singleton. done.
Qed.

Lemma set_has_delete s x : set_has (set_delete s x) x = false.
Proof.
apply bool_decide_eq_false_2. unfold set_delete. intros H.
apply list_elem_of_In, filter_In in H as [_ H]. by rewrite bool_decide_eq_true_2 in H.
Qed.

Lemma NoDup_set_add s x : NoDup s → NoDup (set_add s x).
Proof.
intros Hs. unfold set_add, set_has. case_bool_decide; [done|]. by apply NoDup_snoc.
Qed.

Lemma unique_gen s l :
NoDup s → NoDup (foldl set_add s l) ∧ ∀ x, x ∈ foldl set_add s l ↔ x ∈ s ∨ x ∈ l.
Proof.
revert s. induction l as [|y l IH]; intros s Hs; simpl.
{ split; [done|]. intros x. rewrite elem_of_nil. tauto. }
destruct (IH (set_add s y)) as [Hnd Hin]; [by apply NoDup_set_add|]. split; [done|].
intros x. rewrite Hin, elem_of_set_add, elem_of_cons. tauto.
Qed.

Lemma unique_snoc l x : unique (l ++ [x]) = set_add (unique l) x.
Proof. unfold unique. by rewrite foldl_app. Qed.

Lemma unique_NoDup l : NoDup (unique l).
Proof. apply unique_gen, NoDup_nil_2. Qed.

Lemma elem_of_unique l x : x ∈ unique l ↔ x ∈ l.
Proof.
destruct (unique_gen [] l) as [_ H]; [apply NoDup_nil_2|].
unfold unique. rewrite H, elem_of_nil. tauto.
Qed.
End SetFacts.

Section ObjectFacts.
Context {V : Type}.
Implicit Types (o : jobject V) (k : jstring) (v : V).

Lemma key_before_ne a b : key_before a b → a ≠ b.
Proof. unfold key_before. intros H ->. destruct (array_index b); [lia|done]. Qed.

Lemma insert_index_last i k v o :
(∀ k', k' ∈ fst <$> o → ∃ j, array_index k' = Some j ∧ (j < i)%N) →
insert_index i k v o = o ++ [(k, v)].
Proof.
induction o as [|[k' v'] o IH]; intros H; simpl; [done|].
destruct (H k') as (j & -> & Hj); [by left|].
rewrite bool_decide_eq_true_2, IH by (intros; try apply H; try right; done). done.
Qed.

(** A key after all those present goes to the end. *)
Lemma obj_set_last o k v :
Forall (λ k', key_before k' k) (fst <$> o) → obj_set o k v = o ++ [(k, v)].
Proof.
rewrite Forall_forall. intros H. unfold obj_set, map_has.
assert (map_get o k = None) as ->.
{ apply map_get_None. intros Hk%H. by apply key_before_ne in Hk. }
destruct (array_index k) as [i|] eqn:E; [|done].
apply insert_index_last. intros k' Hk%H. unfold key_before in Hk. rewrite E in Hk.
destruct (array_index k') as [j|]; [eauto|done].
Qed.

(** Rebuilding an object from its entries gives it back. *)
Lemma obj_of_wf o : obj_wf o → obj_of o = o.
Proof.
intros Hwf. unfold obj_of.
enough (∀ p, StronglySorted key_before (fst <$> p ++ o) →
  foldl (λ o e, obj_set o e.1 e.2) p o = p ++ o) as H by by apply (H []).
clear Hwf. induction o as [|[k v] o IH]; intros p Hp; simpl; [by rewrite app_nil_r|].
rewrite obj_set_last.
- rewrite IH; [by rewrite <-app_assoc|]. by rewrite <-app_assoc.
- rewrite fmap_app in Hp. apply StronglySorted_app in Hp as (Hp & _).
  apply Forall_forall. intros k' Hk'. apply Hp; [done|]. by left.
Qed.

Lemma map_get_app o o' k :
map_get (o ++ o') k = match map_get o k with Some v => Some v | None => map_get o' k end.
Proof. induction o as [|[k' v] o IH]; simpl; [done|]. by case_bool_decide. Qed.

Lemma map_get_insert_index i k v o k' :
map_get o k = None →
map_get (insert_index i k v o) k' = if bool_decide (k' = k) then Some v else map_get o k'.
Proof.
induction o as [|[k2 v2] o IH]; simpl; [done|].
destruct (decide (k = k2)) as [?|Hk2]; [by rewrite bool_decide_eq_true_2|].
rewrite (bool_decide_eq_false_2 (k = k2)) by done. intros Ho.
destruct (array_index k2) as [j|]; [destruct (bool_decide (j < i)%N)|]; simpl.
- rewrite IH by done. destruct (decide (k' = k)) as [->|Hk'].
  + by rewrite (bool_decide_eq_false_2 (k = k2)), bool_decide_eq_true_2 by done.
  + by rewrite (bool_decide_eq_false_2 (k' = k)) by done.
- done.
- done.
Qed.

(** Reading back a property after defining one. *)
Lemma map_get_obj_set o k v k' :
map_get (obj_set o k v) k' = if bool_decide (k' = k) then Some v else map_get o k'.
Proof.
unfold obj_set, map_has. destruct (map_get o k) eqn:E; [apply map_get_set|].
destruct (array_index k) as [i|]; [by apply map_get_insert_index|].
rewrite map_get_app. simpl. case_bool_decide; [by subst; rewrite E|].
by destruct (map_get o k').
Qed.

Lemma map_get_obj_assign o k v k' :
k ≠ js "__proto__" →
map_get (obj_assign o k v) k' = if bool_decide (k' = k) then Some v else map_get o k'.
Proof.
intros Hk. unfold obj_assign. rewrite bool_decide_eq_false_2 by done. apply map_get_obj_set.
Qed.

Lemma map_has_obj_set o k v : map_has (obj_set o k v) k = true.
Proof. unfold map_has. by rewrite map_get_obj_set, bool_decide_eq_true_2. Qed.

Lemma map_set_insert_index i k v w o :
map_get o k = None → map_set (insert_index i k v o) k w = insert_index i k w o.
Proof.
induction o as [|[k2 v2] o IH]; simpl; [by rewrite bool_decide_eq_true_2|].
destruct (decide (k = k2)) as [?|Hk]; [by rewrite bool_decide_eq_true_2|].
rewrite (bool_decide_eq_false_2 (k = k2)) by done. intros Ho.
destruct (array_index k2) as [j|]; [destruct (bool_decide (j < i)%N)|]; simpl;
  rewrite ?(bool_decide_eq_true_2 (k = k)), ?(bool_decide_eq_false_2 (k = k2)) by done;
  [by rewrite IH|done..].
Qed.

(** Updating the property just defined. *)
Lemma map_set_obj_set o k v w : map_set (obj_set o k v) k w = obj_set o k w.
Proof.
assert (Hss : ∀ m, map_set (map_set m k v) k w = map_set m k w).
{ induction m as [|[k2 v2] m IH]; simpl; [by rewrite bool_decide_eq_true_2|].
  destruct (bool_decide (k = k2)) eqn:E; simpl; rewrite E; [done|by rewrite IH]. }
unfold obj_set, map_has. destruct (map_get o k) eqn:E; [apply Hss|].
destruct (array_index k) as [i|]; [by apply map_set_insert_index|].
apply map_get_None in E.
rewrite <-(map_set_new o k v), <-(map_set_new o k w) by done. apply Hss.
Qed.

Lemma obj_assign_no_proto o k v :
map_has o (js "__proto__") = false → map_has (obj_assign o k v) (js "__proto__") = false.
Proof.
unfold obj_assign. case_bool_decide as Hk; [done|]. unfold map_has.
by rewrite map_get_obj_set, bool_decide_eq_false_2.
Qed.
End ObjectFacts.
