(* ===== verification/Json.v ===== *)
(** * JSON values, [JSON.stringify] and [JSON.parse]

    The console keeps attribute values as JSON text in its editor.  Values and the
    two functions follow ECMAScript: well-formed [stringify] (lone surrogates are
    escaped), and the strict JSON grammar.  Numbers are doubles; reading and
    printing them is the interface [JsNumber], what ECMAScript promises of
    [Number::toString] and [StringToNumber]. *)

From stdpp Require Import sorting.
From S2P Require Import Prelude JsString JsObject.

(** ** Characters of the JSON grammar *)

Definition is_json_ws (c : N) : bool :=
  bool_decide (c = 32 ∨ c = 9 ∨ c = 10 ∨ c = 13)%N.

Fixpoint skip_ws (s : jstring) : jstring :=
  match s with
  | c :: s' => if is_json_ws c then skip_ws s' else s
  | [] => []
  end.

(** The text after the character [c], when it comes first. *)
Definition strip (c : N) (s : jstring) : option jstring :=
  match s with
  | d :: s' => if bool_decide (d = c) then Some s' else None
  | [] => None
  end.

(** The characters a number token is made of. *)
Definition num_char (c : N) : bool :=
  is_digit c || bool_decide (c = 43 ∨ c = 45 ∨ c = 46 ∨ c = 69 ∨ c = 101)%N.

(** ** Number tokens: [-? int frac? exp?] *)

Fixpoint digits (s : jstring) : jstring * jstring :=
  match s with
  | c :: s' => if is_digit c then let (d, r) := digits s' in (c :: d, r) else ([], s)
  | [] => ([], [])
  end.

Definition scan_int (s : jstring) : option (jstring * jstring) :=
  match strip 48 s with
  | Some s' => Some ([48%N], s')
  | None => match digits s with ([], _) => None | dr => Some dr end
  end.

Definition scan_frac (s : jstring) : option (jstring * jstring) :=
  match strip 46 s with
  | Some s' => match digits s' with ([], _) => None | (d, r) => Some (46%N :: d, r) end
  | None => Some ([], s)
  end.

Definition scan_exp_digits (mark : jstring) (s : jstring) : option (jstring * jstring) :=
  match digits s with ([], _) => None | (d, r) => Some (mark ++ d, r) end.

Definition is_exp (c : N) : bool := bool_decide (c = 69 ∨ c = 101)%N.
Definition is_sign (c : N) : bool := bool_decide (c = 43 ∨ c = 45)%N.

Definition scan_exp (s : jstring) : option (jstring * jstring) :=
  match s with
  | c :: s' =>
      if is_exp c then
        match s' with
        | d :: s'' => if is_sign d then scan_exp_digits [c; d] s'' else scan_exp_digits [c] s'
        | [] => None
        end
      else Some ([], s)
  | [] => Some ([], [])
  end.

(** The token at the start of the text, and the text after it. *)
Definition scan_number (s : jstring) : option (jstring * jstring) :=
  let (sign, s1) := match strip 45 s with Some s' => ([45%N], s') | None => ([], s) end in
  match scan_int s1 with
  | None => None
  | Some (i, s2) =>
      match scan_frac s2 with
      | None => None
      | Some (f, s3) =>
          match scan_exp s3 with
          | None => None
          | Some (e, s4) => Some (sign ++ i ++ f ++ e, s4)
          end
      end
  end.

(** ** Numbers *)

Class JsNumber := {
  number : Type;
  number_eq_dec :: EqDecision number;
  print_number : number → jstring;    (* [Number::toString] of a finite double *)
  read_number : jstring → number;     (* the value of a number token *)
  negative_zero : number → bool;
  is_zero : number → bool             (* [0] or [-0], the falsy finite numbers *)
}.

(** What ECMAScript promises: the text of a finite double is a JSON number token
    of number characters, and reads back as the double, except that [-0] prints
    as [0]. *)
Class JsNumberLaws `(!JsNumber) : Prop := {
  print_number_token n : scan_number (print_number n) = Some (print_number n, []);
  print_number_head n :
    ∃ c s, print_number n = c :: s ∧ (is_digit c || bool_decide (c = 45)%N) = true;
  read_print_number n : negative_zero n = false → read_number (print_number n) = n
}.

(** ** Values *)

Section Json.
Context `{!JsNumber}.

Inductive json :=
| JNull
| JBool (b : bool)
| JNumber (n : number)
| JString (s : jstring)
| JArray (l : list json)
| JObject (o : jobject json).

Section Ind.
Context (P : json → Prop).
Hypothesis (Pnull : P JNull) (Pbool : ∀ b, P (JBool b)) (Pnum : ∀ n, P (JNumber n))
(Pstr : ∀ s, P (JString s)) (Parr : ∀ l, Forall P l → P (JArray l))
(Pobj : ∀ o, Forall (λ e, P (snd e)) o → P (JObject o)).

Fixpoint json_deep_ind (v : json) : P v :=
match v with
| JNull => Pnull
| JBool b => Pbool b
| JNumber n => Pnum n
| JString s => Pstr s
| JArray l =>
  Parr l ((fix go l : Forall P l :=
    match l with
    | [] => List.Forall_nil _
    | v :: l => List.Forall_cons _ _ _ (json_deep_ind v) (go l)
    end) l)
| JObject o =>
  Pobj o ((fix go (o : jobject json) : Forall (λ e, P (snd e)) o :=
    match o with
    | [] => List.Forall_nil _
    | e :: o => List.Forall_cons _ _ _ (json_deep_ind (snd e)) (go o)
    end) o)
end.
End Ind.

(** ** [JSON.stringify] *)

Definition hex_digit (n : N) : N := if bool_decide (n < 10)%N then (48 + n)%N else (87 + n)%N.

(** Four hexadecimal digits in lower case. *)
Definition unicode_escape (c : N) : jstring :=
[BACKSLASH; 117; hex_digit (c / 4096 mod 16); hex_digit (c / 256 mod 16);
 hex_digit (c / 16 mod 16); hex_digit (c mod 16)]%N.

Definition is_lead (c : N) : bool := bool_decide (55296 ≤ c ≤ 56319)%N.
Definition is_trail (c : N) : bool := bool_decide (56320 ≤ c ≤ 57343)%N.

(** One code unit that is not half of a surrogate pair. *)
Definition quote_unit (c : N) : jstring :=
if bool_decide (c = 8)%N then [BACKSLASH; 98%N]
else if bool_decide (c = 9)%N then [BACKSLASH; 116%N]
else if bool_decide (c = 10)%N then [BACKSLASH; 110%N]
else if bool_decide (c = 12)%N then [BACKSLASH; 102%N]
else if bool_decide (c = 13)%N then [BACKSLASH; 114%N]
else if bool_decide (c = DQUOTE) then [BACKSLASH; DQUOTE]
else if bool_decide (c = BACKSLASH) then [BACKSLASH; BACKSLASH]
else if bool_decide (c < 32)%N || is_lead c || is_trail c then unicode_escape c
else [c].

Fixpoint quote_body (s : jstring) : jstring :=
match s with
| [] => []
| c :: s' =>
    match s' with
    | d :: s'' => if is_lead c && is_trail d then c :: d :: quote_body s''
                  else quote_unit c ++ quote_body s'
    | [] => quote_unit c
    end
end.

Definition quote (s : jstring) : jstring := DQUOTE :: quote_body s ++ [DQUOTE].

Fixpoint stringify (v : json) : jstring :=
match v with
| JNull => js "null"
| JBool true => js "true"
| JBool false => js "false"
| JNumber n => print_number n
| JString s => quote s
| JArray l => LBRACKET :: join [COMMA] (stringify <$> l) ++ [RBRACKET]
| JObject o =>
    LBRACE :: join [COMMA] ((λ e, quote (fst e) ++ COLON :: stringify (snd e)) <$> o) ++ [RBRACE]
end.

End Json.

(** ** Reading *)

(** What a reader of JSON texts builds. *)
Class JsonShape := {
  shape : Type;
  shape_null : shape;
  shape_bool : bool → shape;
  shape_number : jstring → shape;
  shape_string : jstring → shape;
  shape_array : list shape → shape;
  shape_object : list (jstring * shape) → shape }.

Section Parser.
Context {JS : JsonShape}.

Definition hex_value (c : N) : option N :=
if is_digit c then Some (c - 48)%N
else if bool_decide (97 ≤ c ≤ 102)%N then Some (c - 87)%N
else if bool_decide (65 ≤ c ≤ 70)%N then Some (c - 55)%N
else None.

Definition hex4 (a b c d : N) : option N :=
match hex_value a, hex_value b, hex_value c, hex_value d with
| Some a, Some b, Some c, Some d => Some (4096 * a + 256 * b + 16 * c + d)%N
| _, _, _, _ => None
end.

(** The single-character escapes. *)
Definition simple_escape (c : N) : option N :=
if bool_decide (c = DQUOTE ∨ c = BACKSLASH ∨ c = SLASH) then Some c
else if bool_decide (c = 98)%N then Some 8%N
else if bool_decide (c = 102)%N then Some 12%N
else if bool_decide (c = 110)%N then Some 10%N
else if bool_decide (c = 114)%N then Some 13%N
else if bool_decide (c = 116)%N then Some 9%N
else None.

(** The characters of a string up to its closing quote. *)
Fixpoint parse_chars (s : jstring) : option (jstring * jstring) :=
match s with
| [] => None
| c :: s =>
    if bool_decide (c = DQUOTE) then Some ([], s)
    else if bool_decide (c < 32)%N then None
    else if bool_decide (c = BACKSLASH) then
      match s with
      | [] => None
      | e :: s =>
          if bool_decide (e = 117)%N then
            match s with
            | h1 :: h2 :: h3 :: h4 :: s =>
                match hex4 h1 h2 h3 h4, parse_chars s with
                | Some u, Some (t, r) => Some (u :: t, r)
                | _, _ => None
                end
            | _ => None
            end
          else match simple_escape e, parse_chars s with
               | Some u, Some (t, r) => Some (u :: t, r)
               | _, _ => None
               end
      end
    else match parse_chars s with
         | Some (t, r) => Some (c :: t, r)
         | None => None
         end
end.

(** [s] without the prefix [p]. *)
Fixpoint expect (p s : jstring) : option jstring :=
match p, s with
| [], _ => Some s
| c :: p, d :: s => if bool_decide (c = d) then expect p s else None
| _ :: _, [] => None
end.

(** The tree the grammar builds, for any values: [JSON.parse] makes [json] of it, the
  server's decoder its own tree.  A number is given as its token, an object as its
  members in the order of the text. *)
(** Values, the elements of an array after its first bracket, the members of an
  object after its first brace; [fuel] bounds the number of calls; the fuel [parse]
  starts with is enough for every text (JsonFuel.v). *)
Fixpoint parse_value (fuel : nat) (s : jstring) {struct fuel} : option (shape * jstring) :=
match fuel with
| O => None
| S fuel =>
    match skip_ws s with
    | [] => None
    | c :: s' =>
        if bool_decide (c = DQUOTE) then
          match parse_chars s' with Some (t, r) => Some (shape_string t, r) | None => None end
        else if bool_decide (c = LBRACKET) then
          match strip RBRACKET (skip_ws s') with
          | Some r => Some (shape_array [], r)
          | None => match parse_elements fuel s' with
                 | Some (l, r) => Some (shape_array l, r) | None => None end
          end
        else if bool_decide (c = LBRACE) then
          match strip RBRACE (skip_ws s') with
          | Some r => Some (shape_object [], r)
          | None => match parse_members fuel s' with
                 | Some (l, r) => Some (shape_object l, r) | None => None end
          end
        else if bool_decide (c = 110)%N then
          match expect (js "ull") s' with Some r => Some (shape_null, r) | None => None end
        else if bool_decide (c = 116)%N then
          match expect (js "rue") s' with Some r => Some (shape_bool true, r) | None => None end
        else if bool_decide (c = 102)%N then
          match expect (js "alse") s' with Some r => Some (shape_bool false, r) | None => None end
        else match scan_number (c :: s') with
             | Some (t, r) => Some (shape_number t, r)
             | None => None
             end
    end
end
with parse_elements (fuel : nat) (s : jstring) {struct fuel} : option (list shape * jstring) :=
match fuel with
| O => None
| S fuel =>
    match parse_value fuel s with
    | None => None
    | Some (v, r) =>
        match strip RBRACKET (skip_ws r) with
        | Some r => Some ([v], r)
        | None =>
            match strip COMMA (skip_ws r) with
            | Some r => match parse_elements fuel r with
                        | Some (l, r) => Some (v :: l, r) | None => None end
            | None => None
            end
        end
    end
end
with parse_members (fuel : nat) (s : jstring) {struct fuel}
  : option (list (jstring * shape) * jstring) :=
match fuel with
| O => None
| S fuel =>
    match strip DQUOTE (skip_ws s) with
    | None => None
    | Some s1 =>
        match parse_chars s1 with
        | None => None
        | Some (k, r) =>
            match strip COLON (skip_ws r) with
            | None => None
            | Some r =>
                match parse_value fuel r with
                | None => None
                | Some (v, r) =>
                    match strip RBRACE (skip_ws r) with
                    | Some r => Some ([(k, v)], r)
                    | None =>
                        match strip COMMA (skip_ws r) with
                        | Some r => match parse_members fuel r with
                                    | Some (l, r) => Some ((k, v) :: l, r) | None => None end
                        | None => None
                        end
                    end
                end
            end
        end
    end
end.

(** A whole text. *)
Definition parse_text (s : jstring) : option shape :=
match parse_value (2 * length s + 2) s with
| Some (v, r) => match skip_ws r with [] => Some v | _ => None end
| None => None
end.
End Parser.

(** [JSON.parse], [None] when it throws: the members of an object become the own
    properties of a plain object. *)
#[export] Instance json_shape `{!JsNumber} : JsonShape := {|
  shape := json; shape_null := JNull; shape_bool := JBool; shape_number t := JNumber (read_number t);
  shape_string := JString; shape_array := JArray; shape_object l := JObject (obj_of l) |}.

Definition parse `{!JsNumber} (s : jstring) : option json := parse_text s.

Arguments json {_}.
Arguments JNull {_}.
Arguments JBool {_} b.
Arguments JString {_} s.

(** ** Strings read back *)

Section Strings.
Implicit Types (s r : jstring) (c : N).

Lemma hex_value_digit n : (n < 16)%N → hex_value (hex_digit n) = Some n.
Proof.
intros Hn. unfold hex_digit, hex_value, is_digit. destruct (N.lt_ge_cases n 10).
- rewrite (bool_decide_eq_true_2 (n < 10)%N), bool_decide_eq_true_2 by lia. f_equal. lia.
- rewrite (bool_decide_eq_false_2 (n < 10)%N), bool_decide_eq_false_2 by lia.
  rewrite bool_decide_eq_true_2 by lia. f_equal. lia.
Qed.

Lemma hex4_escape c : (c < 65536)%N →
hex4 (hex_digit (c / 4096 mod 16)) (hex_digit (c / 256 mod 16))
  (hex_digit (c / 16 mod 16)) (hex_digit (c mod 16)) = Some c.
Proof.
intros Hc. unfold hex4. rewrite !hex_value_digit by (apply N.mod_lt; lia). f_equal.
change 4096%N with (16 * 16 * 16)%N at 2. change 256%N with (16 * 16)%N at 2.
rewrite <-!N.Div0.div_div.
pose proof (N.div_mod c 16). pose proof (N.div_mod (c / 16) 16).
pose proof (N.div_mod (c / 16 / 16) 16).
assert (c / 16 / 16 / 16 < 16)%N by (repeat apply N.Div0.div_lt_upper_bound; lia).
rewrite (N.mod_small (c / 16 / 16 / 16)) by done. lia.
Qed.

Lemma parse_plain c s : c ≠ DQUOTE → c ≠ BACKSLASH → (32 ≤ c)%N →
parse_chars (c :: s) =
  match parse_chars s with Some (t, r) => Some (c :: t, r) | None => None end.
Proof.
intros Hq Hb Hc. simpl. rewrite (bool_decide_eq_false_2 (c = 34%N)) by done.
rewrite (bool_decide_eq_false_2 (c < 32)%N) by lia.
by rewrite (bool_decide_eq_false_2 (c = 92%N)).
Qed.

Lemma parse_escape c s : (c < 65536)%N →
parse_chars (unicode_escape c ++ s) =
  match parse_chars s with Some (t, r) => Some (c :: t, r) | None => None end.
Proof. intros Hc. unfold unicode_escape. cbn -[hex4 hex_digit]. by rewrite hex4_escape. Qed.

Lemma parse_quote_unit c s t r :
parse_chars s = Some (t, r) → parse_chars (quote_unit c ++ s) = Some (c :: t, r).
Proof.
intros Hs. unfold quote_unit.
repeat (case_bool_decide; [subst c; simpl; by rewrite Hs|]).
destruct (bool_decide (c < 32)%N || is_lead c || is_trail c) eqn:E.
- rewrite parse_escape, Hs; [done|]. unfold is_lead, is_trail in E.
  apply orb_true_iff in E as [[E|E]%orb_true_iff|E]; apply bool_decide_eq_true in E; lia.
- bool_prop. simpl app. rewrite parse_plain, Hs by (done || lia). done.
Qed.

Lemma is_lead_range c : is_lead c = true → (55296 ≤ c ≤ 56319)%N.
Proof. apply bool_decide_eq_true. Qed.

Lemma is_trail_range c : is_trail c = true → (56320 ≤ c ≤ 57343)%N.
Proof. apply bool_decide_eq_true. Qed.

(** The quoted text of a string reads back as the string. *)
Lemma parse_quote s r : parse_chars (quote_body s ++ DQUOTE :: r) = Some (s, r).
Proof.
induction s as [s IH] using (induction_ltof1 _ (@length N)); unfold ltof in IH.
destruct s as [|c s]; [done|]. cbn [quote_body]. destruct s as [|d s].
{ by apply parse_quote_unit. }
destruct (is_lead c && is_trail d) eqn:E.
- apply andb_true_iff in E as [Hc%is_lead_range Hd%is_trail_range].
  cbn [app]. rewrite !parse_plain by lia. rewrite IH by (simpl; lia). done.
- rewrite <-app_assoc. apply parse_quote_unit, IH. simpl. lia.
Qed.

Lemma expect_app p s : expect p (p ++ s) = Some s.
Proof. induction p as [|c p IH]; simpl; [done|]. by rewrite bool_decide_eq_true_2. Qed.
End Strings.

(** ** Number tokens in a longer text *)

(** What may follow a number: the end of the text or no number character. *)
Definition stops (r : jstring) : Prop := ∀ c, head r = Some c → num_char c = false.

Section Tokens.
Implicit Types (s d r : jstring) (c : N).

Lemma digits_app s r :
stops r → digits (s ++ r) = (fst (digits s), snd (digits s) ++ r).
Proof.
intros Hr. induction s as [|c s IH]; simpl.
- destruct r as [|c r]; [done|]. simpl. specialize (Hr c eq_refl).
  unfold num_char in Hr. by apply orb_false_iff in Hr as [-> _].
- destruct (is_digit c); [|done]. rewrite IH. by destruct (digits s).
Qed.

Lemma stops_strip c r : num_char c = true → stops r → strip c r = None.
Proof.
intros Hc Hr. destruct r as [|d r]; [done|]. simpl. case_bool_decide; [|done]. subst.
by rewrite (Hr c eq_refl) in Hc.
Qed.

Lemma strip_app c s r : s ≠ [] → strip c (s ++ r) = (λ s', s' ++ r) <$> strip c s.
Proof. destruct s; [done|]. intros _. simpl. by case_bool_decide. Qed.

Lemma scan_int_app s i u r :
stops r → scan_int s = Some (i, u) → scan_int (s ++ r) = Some (i, u ++ r).
Proof.
intros Hr. unfold scan_int. destruct s as [|c s]; [done|].
rewrite strip_app by done. destruct (strip 48 (c :: s)); [by intros [= <- <-]|].
cbn [fmap option_fmap option_map]. rewrite digits_app by done.
destruct (digits (c :: s)) as [[|d ds] u']; [done|]. by intros [= <- <-].
Qed.

Lemma scan_frac_app s f u r :
stops r → scan_frac s = Some (f, u) → scan_frac (s ++ r) = Some (f, u ++ r).
Proof.
intros Hr. unfold scan_frac. destruct s as [|c s].
{ intros [= <- <-]. simpl. by rewrite stops_strip. }
rewrite strip_app by done. destruct (strip 46 (c :: s)) as [s'|]; simpl; [|by intros [= <- <-]].
rewrite digits_app by done. destruct (digits s') as [[|d ds] u']; simpl; [done|].
by intros [= <- <-].
Qed.

Lemma scan_exp_digits_app mark s e u r :
stops r → scan_exp_digits mark s = Some (e, u) →
scan_exp_digits mark (s ++ r) = Some (e, u ++ r).
Proof.
intros Hr. unfold scan_exp_digits. rewrite digits_app by done.
destruct (digits s) as [[|d ds] u']; simpl; [done|]. by intros [= <- <-].
Qed.

Lemma scan_exp_app s e u r :
stops r → scan_exp s = Some (e, u) → scan_exp (s ++ r) = Some (e, u ++ r).
Proof.
intros Hr. unfold scan_exp. destruct s as [|c s]; simpl.
{ intros [= <- <-]. destruct r as [|c r]; [done|].
  pose proof (Hr c eq_refl) as Hc. unfold num_char in Hc. apply orb_false_iff in Hc as [_ Hc].
  apply bool_decide_eq_false in Hc. unfold is_exp. rewrite bool_decide_eq_false_2; [done|]. lia. }
destruct (is_exp c); [|by intros [= <- <-]]. destruct s as [|d s]; [done|]. simpl.
destruct (is_sign d); [by apply scan_exp_digits_app|].
by apply (scan_exp_digits_app [c] (d :: s)).
Qed.

Lemma scan_number_app t r :
stops r → scan_number t = Some (t, []) → scan_number (t ++ r) = Some (t, r).
Proof.
intros Hr Ht. assert (Hnil : t ≠ []) by by intros ->.
revert Ht. unfold scan_number.
assert (Hsign : match strip 45 (t ++ r) with Some s' => ([45%N], s') | None => ([], t ++ r) end =
  let (sg, s1) := match strip 45 t with Some s' => ([45%N], s') | None => ([], t) end in (sg, s1 ++ r)).
{ rewrite strip_app by done. by destruct (strip 45 t). }
rewrite Hsign. clear Hsign.
destruct (match strip 45 t with Some s' => _ | None => _ end) as [sg s1].
destruct (scan_int s1) as [[i s2]|] eqn:Ei; [|done].
destruct (scan_frac s2) as [[f s3]|] eqn:Ef; [|done].
destruct (scan_exp s3) as [[e s4]|] eqn:Ee; [|done].
intros [= Ht ->]. rewrite (scan_int_app _ _ _ _ Hr Ei), (scan_frac_app _ _ _ _ Hr Ef).
by rewrite (scan_exp_app _ _ _ _ Hr Ee), Ht.
Qed.
End Tokens.

(** ** Texts of trees *)

(** A tree with its text: the token of a number, and of a string what stands between its
    quotes next to the string it means. *)
Inductive doc :=
  | DNull
  | DBool (b : bool)
  | DNumber (token : jstring)
  | DString (raw s : jstring)
  | DArray (l : list doc)
  | DObject (o : list ((jstring * jstring) * doc)).

Definition quoted (raw : jstring) : jstring := DQUOTE :: raw ++ [DQUOTE].

Fixpoint doc_text (d : doc) : jstring :=
  match d with
  | DNull => js "null"
  | DBool true => js "true"
  | DBool false => js "false"
  | DNumber t => t
  | DString raw _ => quoted raw
  | DArray l => LBRACKET :: join [COMMA] (doc_text <$> l) ++ [RBRACKET]
  | DObject o =>
      LBRACE :: join [COMMA] ((λ e, quoted e.1.1 ++ COLON :: doc_text e.2) <$> o) ++ [RBRACE]
  end.

Definition number_token (t : jstring) : Prop :=
  scan_number t = Some (t, []) ∧ ∃ c s, t = c :: s ∧ (is_digit c || bool_decide (c = 45)%N) = true.

Definition raw_reads (raw s : jstring) : Prop := ∀ r, parse_chars (raw ++ DQUOTE :: r) = Some (s, r).

Inductive doc_ok : doc → Prop :=
  | ok_null : doc_ok DNull
  | ok_bool b : doc_ok (DBool b)
  | ok_number t : number_token t → doc_ok (DNumber t)
  | ok_string raw s : raw_reads raw s → doc_ok (DString raw s)
  | ok_array l : Forall doc_ok l → doc_ok (DArray l)
  | ok_object o : Forall (λ e, raw_reads e.1.1 e.1.2) o → Forall (λ e, doc_ok e.2) o → doc_ok (DObject o).

Section DocInd.
Context (P : doc → Prop).
Hypothesis (Pnull : P DNull) (Pbool : ∀ b, P (DBool b)) (Pnum : ∀ t, P (DNumber t))
(Pstr : ∀ raw s, P (DString raw s)) (Parr : ∀ l, Forall P l → P (DArray l))
(Pobj : ∀ o, Forall (λ e, P e.2) o → P (DObject o)).

Fixpoint doc_deep_ind (d : doc) : P d :=
match d with
| DNull => Pnull
| DBool b => Pbool b
| DNumber t => Pnum t
| DString raw s => Pstr raw s
| DArray l =>
  Parr l ((fix go l : Forall P l :=
    match l with
    | [] => List.Forall_nil _
    | d :: l => List.Forall_cons _ _ _ (doc_deep_ind d) (go l)
    end) l)
| DObject o =>
  Pobj o ((fix go (o : list ((jstring * jstring) * doc)) : Forall (λ e, P e.2) o :=
    match o with
    | [] => List.Forall_nil _
    | e :: o => List.Forall_cons _ _ _ (doc_deep_ind e.2) (go o)
    end) o)
end.
End DocInd.

Section ReadDoc.
Context {JS : JsonShape}.
Implicit Types (d : doc) (r : jstring).

(** What a reader builds of the text. *)
Fixpoint doc_value d : shape :=
match d with
| DNull => shape_null
| DBool b => shape_bool b
| DNumber t => shape_number t
| DString _ s => shape_string s
| DArray l => shape_array (doc_value <$> l)
| DObject o => shape_object ((λ e, (e.1.2, doc_value e.2)) <$> o)
end.

(** A character a value can start with. *)
Definition starts_value (c : N) : Prop :=
is_json_ws c = false ∧ c ≠ RBRACKET ∧ c ≠ RBRACE.

Lemma doc_head d : doc_ok d → ∃ c s, doc_text d = c :: s ∧ starts_value c.
Proof.
unfold starts_value, is_json_ws. intros [|[]|t [_ (c & s & -> & Hd)]|raw s|l|o];
  try (eexists _, _; split; [reflexivity|by vm_compute]).
exists c, s. split; [done|].
unfold is_digit in Hd. rewrite bool_decide_eq_false.
apply orb_true_iff in Hd as [Hd|Hd]; apply bool_decide_eq_true in Hd; lia.
Qed.

Lemma doc_skip d r : doc_ok d → skip_ws (doc_text d ++ r) = doc_text d ++ r.
Proof. intros Hd. destruct (doc_head d Hd) as (c & s & -> & Hc & _). simpl. by rewrite Hc. Qed.

Lemma stops_char c r : num_char c = false → stops (c :: r).
Proof. intros Hc d [= <-]. done. Qed.

Lemma token_first t r c s :
number_token t → t ++ r = c :: s →
bool_decide (c = DQUOTE) = false ∧ bool_decide (c = LBRACKET) = false ∧
bool_decide (c = LBRACE) = false ∧ bool_decide (c = 110)%N = false ∧
bool_decide (c = 116)%N = false ∧ bool_decide (c = 102)%N = false.
Proof.
intros [_ (d & u & -> & Hd)]. intros [= <- <-].
rewrite !bool_decide_eq_false. unfold is_digit in Hd.
apply orb_true_iff in Hd as [Hd|Hd]; apply bool_decide_eq_true in Hd; lia.
Qed.

Lemma parse_token t fuel r :
number_token t → stops r → parse_value (S fuel) (t ++ r) = Some (shape_number t, r).
Proof.
intros Ht Hr. pose proof (doc_skip (DNumber t) r (ok_number t Ht)) as Hskip. simpl in Hskip |- *.
rewrite Hskip. destruct (t ++ r) as [|c s] eqn:E.
{ destruct Ht as [_ (d & u & -> & _)]. done. }
destruct (token_first t r c s Ht E) as (-> & -> & -> & -> & -> & ->).
rewrite <-E, scan_number_app; [done|done|by apply Ht].
Qed.

Definition reads d : Prop := ∀ fuel r,
2 * length (doc_text d) ≤ fuel → stops r → parse_value fuel (doc_text d ++ r) = Some (doc_value d, r).

Lemma join_cons {A} (f : A → jstring) x y l :
join [COMMA] (f <$> x :: y :: l) = f x ++ COMMA :: join [COMMA] (f <$> y :: l).
Proof. done. Qed.

Lemma doc_pos d : doc_ok d → 1 ≤ length (doc_text d).
Proof. intros Hd. destruct (doc_head d Hd) as (c & s & -> & _). simpl. lia. Qed.

Lemma strip_same c s : is_json_ws c = false → strip c (skip_ws (c :: s)) = Some s.
Proof. intros Hc. simpl. rewrite Hc. simpl. by rewrite bool_decide_eq_true_2. Qed.

Lemma strip_other c h s : is_json_ws h = false → h ≠ c → strip c (skip_ws (h :: s)) = None.
Proof. intros Hd Hne. simpl. rewrite Hd. simpl. by rewrite bool_decide_eq_false_2. Qed.

Lemma strip_value c d s : doc_ok d → c = RBRACKET ∨ c = RBRACE → strip c (skip_ws (doc_text d ++ s)) = None.
Proof.
intros Hok. destruct (doc_head d Hok) as (h & t & -> & Hd & ? & ?). intros Hc.
apply strip_other; [done|]. by destruct Hc; subst.
Qed.

Lemma parse_elements_S fuel s :
parse_elements (S fuel) s =
  match parse_value fuel s with
  | None => None
  | Some (v, r) =>
      match strip RBRACKET (skip_ws r) with
      | Some r => Some ([v], r)
      | None =>
          match strip COMMA (skip_ws r) with
          | Some r => match parse_elements fuel r with
                      | Some (l, r) => Some (v :: l, r) | None => None end
          | None => None
          end
      end
  end.
Proof. done. Qed.

Lemma parse_elements_join l fuel r :
l ≠ [] → Forall doc_ok l → Forall reads l → 2 * length (join [COMMA] (doc_text <$> l)) + 1 ≤ fuel →
parse_elements fuel (join [COMMA] (doc_text <$> l) ++ RBRACKET :: r) = Some (doc_value <$> l, r).
Proof.
intros Hne Hok Hl. revert fuel. induction Hl as [|v l Hv Hl IH]; [done|]. intros fuel Hf.
apply Forall_cons in Hok as [Hokv Hok].
destruct fuel as [|fuel]; [lia|]. rewrite parse_elements_S. destruct l as [|w l].
- cbn [fmap list_fmap join] in *. rewrite Hv by (lia || by apply stops_char).
  by rewrite strip_same.
- rewrite join_cons in *. rewrite length_app in Hf. cbn [length] in Hf.
  rewrite <-app_assoc, <-app_comm_cons, Hv by (lia || by apply stops_char).
  rewrite strip_other, strip_same by done.
  pose proof (doc_pos v Hokv). rewrite IH by (done || lia). done.
Qed.

Definition member (e : (jstring * jstring) * doc) : jstring := quoted e.1.1 ++ COLON :: doc_text e.2.

Lemma member_app k d r :
member (k, d) ++ r = DQUOTE :: k.1 ++ DQUOTE :: COLON :: doc_text d ++ r.
Proof. unfold member, quoted. cbn [fst snd]. by rewrite <-!app_comm_cons, <-!app_assoc. Qed.

Lemma member_length k d : length (doc_text d) + 3 ≤ length (member (k, d)).
Proof.
unfold member, quoted. cbn [fst snd]. rewrite length_app. cbn [length].
rewrite length_app. cbn [length]. lia.
Qed.

(** What [parse_members] does once the key has been read. *)
Lemma parse_members_S fuel k d s r :
raw_reads k.1 k.2 → 2 * length (doc_text d) ≤ fuel → reads d → stops s →
parse_members (S fuel) (member (k, d) ++ s) =
  match strip RBRACE (skip_ws s) with
  | Some r => Some ([(k.2, doc_value d)], r)
  | None =>
      match strip COMMA (skip_ws s) with
      | Some r => match parse_members fuel r with
                  | Some (l, r) => Some ((k.2, doc_value d) :: l, r) | None => None end
      | None => None
      end
  end.
Proof.
intros Hk Hf Hv Hs. rewrite member_app. cbn [parse_members].
by rewrite strip_same, Hk, strip_same, Hv.
Qed.

Lemma parse_members_join o fuel r :
o ≠ [] → Forall (λ e, raw_reads e.1.1 e.1.2) o → Forall (λ e, reads e.2) o →
2 * length (join [COMMA] (member <$> o)) + 1 ≤ fuel →
parse_members fuel (join [COMMA] (member <$> o) ++ RBRACE :: r) =
  Some ((λ e, (e.1.2, doc_value e.2)) <$> o, r).
Proof.
intros Hne Hk Ho. revert fuel. induction Ho as [|[k v] o Hv Ho IH]; [done|]. intros fuel Hf.
apply Forall_cons in Hk as [Hk Hks].
pose proof (member_length k v). destruct fuel as [|fuel]; [lia|]. destruct o as [|e o].
- cbn [fmap list_fmap join] in *.
  by rewrite parse_members_S, strip_same by (done || lia || by apply stops_char).
- rewrite join_cons in *. rewrite length_app in Hf. cbn [length] in Hf.
  rewrite <-app_assoc, <-app_comm_cons.
  rewrite parse_members_S, strip_other, strip_same by (done || lia || by apply stops_char).
  rewrite IH by (done || lia). done.
Qed.

Lemma parse_array fuel w l r :
Forall doc_ok (w :: l) → Forall reads (w :: l) → 2 * length (doc_text (DArray (w :: l))) ≤ S fuel →
parse_value (S fuel) (doc_text (DArray (w :: l)) ++ r) = Some (doc_value (DArray (w :: l)), r).
Proof.
intros Hok Hl Hf. cbn [doc_text] in *. cbn [length] in Hf. rewrite length_app in Hf. cbn [length] in Hf.
rewrite <-app_comm_cons, <-app_assoc. cbn [parse_value skip_ws app].
change (is_json_ws LBRACKET) with false. cbv iota.
change (bool_decide (LBRACKET = DQUOTE)) with false.
change (bool_decide (LBRACKET = LBRACKET)) with true. cbv iota.
rewrite (parse_elements_join (w :: l)) by (done || lia).
apply Forall_cons in Hok as [Hw _].
destruct l; [cbn [fmap list_fmap join]|rewrite join_cons, <-app_assoc];
  by rewrite strip_value by auto.
Qed.

Lemma parse_object fuel e o r :
Forall (λ e, raw_reads e.1.1 e.1.2) (e :: o) → Forall (λ e, reads e.2) (e :: o) →
2 * length (doc_text (DObject (e :: o))) ≤ S fuel →
parse_value (S fuel) (doc_text (DObject (e :: o)) ++ r) = Some (doc_value (DObject (e :: o)), r).
Proof.
intros Hk Ho Hf. cbn [doc_text] in *. cbn [length] in Hf. rewrite length_app in Hf.
cbn [length] in Hf. change (λ e, quoted e.1.1 ++ COLON :: doc_text e.2) with member in *.
rewrite <-app_comm_cons, <-app_assoc. cbn [parse_value skip_ws app].
change (is_json_ws LBRACE) with false. cbv iota.
change (bool_decide (LBRACE = DQUOTE)) with false.
change (bool_decide (LBRACE = LBRACKET)) with false.
change (bool_decide (LBRACE = LBRACE)) with true. cbv iota.
rewrite (parse_members_join (e :: o)) by (done || lia).
destruct e as [k v], o; [cbn [fmap list_fmap join]|rewrite join_cons, <-app_assoc];
  by rewrite member_app, strip_other.
Qed.

(** Every tree is read back from its own text, and the reading stops right after it. *)
Lemma parse_value_doc d : doc_ok d → reads d.
Proof.
induction d as [|b|t|raw s|l IH|o IH] using doc_deep_ind; intros Hok fuel r Hf Hr;
  pose proof (doc_pos _ Hok) as Hpos; (destruct fuel as [|fuel]; [lia|]); inversion Hok as [| |? Ht|? ? Hs|? Hl|? Hk Ho]; subst.
- done.
- by destruct b.
- by apply parse_token.
- cbn [doc_text]. unfold quoted. rewrite <-app_comm_cons, <-app_assoc. cbn [parse_value].
  change (skip_ws (DQUOTE :: ?s)) with (DQUOTE :: s). cbv iota.
  change (bool_decide (DQUOTE = DQUOTE)) with true. cbv iota.
  cbn [app]. by rewrite Hs.
- destruct l as [|w l]; [done|]. apply parse_array; [done| |done].
  rewrite Forall_forall in IH, Hl |- *. auto.
- destruct o as [|e o]; [done|]. apply parse_object; [done| |done].
  rewrite Forall_forall in IH, Ho |- *. auto.
Qed.

Lemma parse_text_doc d : doc_ok d → parse_text (doc_text d) = Some (doc_value d).
Proof.
intros Hd. unfold parse_text. rewrite <-(app_nil_r (doc_text d)) at 2.
by rewrite (parse_value_doc d Hd) by (done || lia).
Qed.
End ReadDoc.

(** ** [JSON.parse] inverts [JSON.stringify] *)

Section RoundTrip.
Context `{!JsNumber, !JsNumberLaws _} {JS : JsonShape}.
Implicit Types (v : json) (r : jstring).

(** Values as the server sends them: objects in key order, no negative zero. *)
Inductive json_wf : json → Prop :=
| wf_null : json_wf JNull
| wf_bool b : json_wf (JBool b)
| wf_number n : negative_zero n = false → json_wf (JNumber n)
| wf_string s : json_wf (JString s)
| wf_array l : Forall json_wf l → json_wf (JArray l)
| wf_object o : obj_wf o → Forall (λ e, json_wf (snd e)) o → json_wf (JObject o).

(** What a reader builds of the text of a value. *)
Fixpoint shape_of (v : json) : shape :=
match v with
| JNull => shape_null
| JBool b => shape_bool b
| JNumber n => shape_number (print_number n)
| JString s => shape_string s
| JArray l => shape_array (shape_of <$> l)
| JObject o => shape_object ((λ e, (e.1, shape_of e.2)) <$> o)
end.

(** The value with its text. *)
Fixpoint doc_of (v : json) : doc :=
match v with
| JNull => DNull
| JBool b => DBool b
| JNumber n => DNumber (print_number n)
| JString s => DString (quote_body s) s
| JArray l => DArray (doc_of <$> l)
| JObject o => DObject ((λ e, ((quote_body e.1, e.1), doc_of e.2)) <$> o)
end.

Lemma doc_of_text v : doc_text (doc_of v) = stringify v.
Proof.
induction v as [|b|n|s|l IH|o IH] using json_deep_ind; cbn [doc_of doc_text stringify]; try done.
- do 3 f_equal. rewrite <-list_fmap_compose. by apply Forall_fmap_ext.
- do 3 f_equal. rewrite <-list_fmap_compose. apply Forall_fmap_ext.
  eapply Forall_impl; [exact IH|]. intros e He. cbn. by rewrite He.
Qed.

Lemma doc_of_value v : doc_value (doc_of v) = shape_of v.
Proof.
induction v as [|b|n|s|l IH|o IH] using json_deep_ind; cbn [doc_of doc_value shape_of]; try done.
- f_equal. rewrite <-list_fmap_compose. by apply Forall_fmap_ext.
- f_equal. rewrite <-list_fmap_compose. apply Forall_fmap_ext.
  eapply Forall_impl; [exact IH|]. intros e He. cbn. by rewrite He.
Qed.

Lemma doc_of_ok v : doc_ok (doc_of v).
Proof.
induction v as [|b|n|s|l IH|o IH] using json_deep_ind; cbn [doc_of]; try by constructor.
- constructor. split; [apply print_number_token|apply print_number_head].
- constructor. intros r. apply parse_quote.
- constructor. by apply Forall_fmap.
- constructor; apply Forall_fmap; [|done]. apply Forall_forall. intros e _ r. apply parse_quote.
Qed.

Lemma parse_text_stringify v : parse_text (stringify v) = Some (shape_of v).
Proof. rewrite <-doc_of_text, <-doc_of_value. apply parse_text_doc, doc_of_ok. Qed.
End RoundTrip.

(** [JSON.parse] gives a well-formed value back. *)
Lemma shape_of_wf `{!JsNumberLaws JN} v : json_wf v → shape_of v = v.
Proof.
induction v as [|b|n|s|l IH|o IH] using json_deep_ind; intros Hwf;
  inversion Hwf as [| |? Hn| |? Hl|? Ho Hvs]; subst; cbn [shape_of]; [done|done| |done|..].
- cbn. by rewrite read_print_number.
- cbn. f_equal. rewrite Forall_forall in IH, Hl. rewrite <-(list_fmap_id l) at 2.
  apply list_fmap_ext. intros i w Hw. apply list_elem_of_lookup_2 in Hw. cbn. auto.
- assert (Heq : (λ e : jstring * json, (e.1, shape_of e.2 : json)) <$> o = o).
  { rewrite Forall_forall in IH, Hvs. rewrite <-(list_fmap_id o) at 2.
    apply list_fmap_ext. intros i [k w] Hw. apply list_elem_of_lookup_2 in Hw. cbn.
    pose proof (IH _ Hw (Hvs _ Hw)) as E. cbn in E. by rewrite E. }
  change (JObject (obj_of ((λ e : jstring * json, (e.1, shape_of e.2 : json)) <$> o)) = JObject o).
  by rewrite Heq, obj_of_wf.
Qed.

Lemma parse_stringify `{!JsNumberLaws JN} v : json_wf v → parse (stringify v) = Some v.
Proof. intros Hwf. unfold parse. by rewrite parse_text_stringify, shape_of_wf. Qed.
