(* ===== verification/JsonFuel.v ===== *)
(** * The fuel of [JSON.parse] is enough

    Every call of the reader consumes text, so the fuel [parse] starts with never
    runs out: more fuel gives the same answer, on every text, JSON or not.  A text
    [parse] refuses is therefore one that is not JSON. *)

From S2P Require Import Prelude JsString JsObject Json.

(** ** What each piece consumes *)

Lemma skip_ws_length s : length (skip_ws s) ≤ length s.
Proof. induction s as [|c s IH]; simpl; [done|]. destruct (is_json_ws c); simpl; lia. Qed.

Lemma strip_length c s r : strip c s = Some r → length s = S (length r).
Proof. destruct s as [|d s]; simpl; [done|]. case_bool_decide; [|done]. by intros [= <-]. Qed.

Lemma strip_skip_length c s r : strip c (skip_ws s) = Some r → length r < length s.
Proof. intros H%strip_length. pose proof (skip_ws_length s). lia. Qed.

Lemma expect_length p s r : expect p s = Some r → length r ≤ length s.
Proof.
  revert s. induction p as [|c p IH]; intros s; simpl; [by intros [= ->]|].
  destruct s as [|d s]; [done|]. case_bool_decide; [|done]. intros Hr%IH. simpl. lia.
Qed.

Lemma parse_chars_length s t r : parse_chars s = Some (t, r) → length r < length s.
Proof.
  remember (length s) as n eqn:Hn. revert s t r Hn.
  induction n as [n IH] using lt_wf_ind. intros s t r ->.
  assert (Hrec : ∀ s' t' r', length s' < length s → parse_chars s' = Some (t', r') →
    length r' < length s) by (intros s' t' r' Hl H; pose proof (IH _ Hl _ _ _ eq_refl H); lia).
  clear IH. destruct s as [|c s]; [done|]. cbn [parse_chars length] in *.
  case_bool_decide; [intros [= <- <-]; lia|].
  case_bool_decide; [done|]. case_bool_decide.
  - destruct s as [|e s]; [done|]. case_bool_decide.
    + destruct s as [|h1 [|h2 [|h3 [|h4 s]]]]; try done. destruct (hex4 h1 h2 h3 h4); [|done].
      destruct (parse_chars s) as [[t' r']|] eqn:E; [|done]. intros [= <- <-].
      eapply Hrec; [|exact E]. simpl. lia.
    + destruct (simple_escape e); [|done]. destruct (parse_chars s) as [[t' r']|] eqn:E; [|done].
      intros [= <- <-]. eapply Hrec; [|exact E]. simpl. lia.
  - destruct (parse_chars s) as [[t' r']|] eqn:E; [|done]. intros [= <- <-].
    eapply Hrec; [|exact E]. lia.
Qed.

Lemma digits_length s d r : digits s = (d, r) → length s = length d + length r.
Proof.
  revert d r. induction s as [|c s IH]; intros d r; simpl; [by intros [= <- <-]|].
  destruct (is_digit c); [|by intros [= <- <-]]. destruct (digits s) as [d' r'].
  intros [= <- <-]. simpl. by rewrite (IH d' r').
Qed.

Lemma scan_int_length s i r : scan_int s = Some (i, r) → length r < length s.
Proof.
  unfold scan_int. destruct (strip 48 s) as [s'|] eqn:E.
  { intros [= <- <-]. apply strip_length in E. lia. }
  destruct (digits s) as [[|c d] u] eqn:D; [done|]. intros [= <- <-].
  apply digits_length in D. simpl in D. lia.
Qed.

Lemma scan_frac_length s f r : scan_frac s = Some (f, r) → length r ≤ length s.
Proof.
  unfold scan_frac. destruct (strip 46 s) as [s'|] eqn:E; [|by intros [= <- <-]].
  destruct (digits s') as [[|c d] u] eqn:D; [done|]. intros [= <- <-].
  apply digits_length in D. apply strip_length in E. simpl in D. lia.
Qed.

Lemma scan_exp_length s e r : scan_exp s = Some (e, r) → length r ≤ length s.
Proof.
  assert (Hd : ∀ mark s, scan_exp_digits mark s = Some (e, r) → length r ≤ length s).
  { intros mark s'. unfold scan_exp_digits. destruct (digits s') as [[|c d] u] eqn:D; [done|].
    intros [= <- <-]. apply digits_length in D. lia. }
  unfold scan_exp. destruct s as [|c s]; [by intros [= <- <-]|].
  destruct (is_exp c); [|by intros [= <- <-]]. destruct s as [|d s]; [done|].
  destruct (is_sign d); intros H%Hd; simpl in *; lia.
Qed.

Lemma scan_number_length s t r : scan_number s = Some (t, r) → length r < length s.
Proof.
  unfold scan_number.
  assert (Hs : ∀ sg s1, match strip 45 s with Some s' => ([45%N], s') | None => ([], s) end = (sg, s1) →
    length s1 ≤ length s).
  { intros sg s1. destruct (strip 45 s) eqn:E; intros [= <- <-]; [apply strip_length in E; lia|done]. }
  destruct (match strip 45 s with Some _ => _ | None => _ end) as [sg s1].
  specialize (Hs sg s1 eq_refl).
  destruct (scan_int s1) as [[i s2]|] eqn:Ei; [|done].
  destruct (scan_frac s2) as [[f s3]|] eqn:Ef; [|done].
  destruct (scan_exp s3) as [[e s4]|] eqn:Ee; [|done]. intros [= <- <-].
  apply scan_int_length in Ei. apply scan_frac_length in Ef. apply scan_exp_length in Ee. lia.
Qed.

(** ** Values, elements and members *)

Section Fuel.
Context {JS : JsonShape}.
Implicit Types (s r : jstring) (fuel : nat).

(** The lengths of the texts left by the pieces read so far. *)
Ltac lengths :=
repeat match goal with
| H : strip _ (skip_ws _) = Some _ |- _ => apply strip_skip_length in H
| H : parse_chars _ = Some _ |- _ => apply parse_chars_length in H
| H : expect _ _ = Some _ |- _ => apply expect_length in H
| H : scan_number _ = Some _ |- _ => apply scan_number_length in H
end.

Lemma consumes fuel s :
(∀ v r, parse_value fuel s = Some (v, r) → length r < length s) ∧
(∀ l r, parse_elements fuel s = Some (l, r) → length r < length s) ∧
(∀ l r, parse_members fuel s = Some (l, r) → length r < length s).
Proof.
revert s. induction fuel as [|fuel IH]; intros s; [done|].
assert (Hv := λ s, proj1 (IH s)). assert (He := λ s, proj1 (proj2 (IH s))).
assert (Hm := λ s, proj2 (proj2 (IH s))). clear IH. split_and!.
- intros v r. cbn [parse_value]. pose proof (skip_ws_length s) as Hs.
  destruct (skip_ws s) as [|c s']; [done|]. simpl in Hs.
  repeat (case_match; simplify_eq/=; try done); intros; simplify_eq;
    repeat match goal with
    | H : parse_elements _ _ = Some _ |- _ => apply He in H
    | H : parse_members _ _ = Some _ |- _ => apply Hm in H
    end; lengths; simpl in *; lia.
- intros l r. cbn [parse_elements].
  repeat (case_match; simplify_eq/=; try done); intros; simplify_eq;
    repeat match goal with
    | H : parse_value _ _ = Some _ |- _ => apply Hv in H
    | H : parse_elements _ _ = Some _ |- _ => apply He in H
    end; lengths; lia.
- intros l r. cbn [parse_members].
  repeat (case_match; simplify_eq/=; try done); intros; simplify_eq;
    repeat match goal with
    | H : parse_value _ _ = Some _ |- _ => apply Hv in H
    | H : parse_members _ _ = Some _ |- _ => apply Hm in H
    end; lengths; lia.
Qed.

Lemma value_consumes fuel s v r : parse_value fuel s = Some (v, r) → length r < length s.
Proof. apply consumes. Qed.

Lemma fuel_enough s :
(∀ f g, 2 * length s + 2 ≤ f → 2 * length s + 2 ≤ g → parse_value f s = parse_value g s) ∧
(∀ f g, 2 * length s + 3 ≤ f → 2 * length s + 3 ≤ g → parse_elements f s = parse_elements g s) ∧
(∀ f g, 2 * length s + 3 ≤ f → 2 * length s + 3 ≤ g → parse_members f s = parse_members g s).
Proof.
remember (length s) as n eqn:Hn. revert s Hn.
induction n as [n IH] using lt_wf_ind. intros s ->.
assert (Hv : ∀ r, length r < length s → ∀ f g, 2 * length r + 2 ≤ f → 2 * length r + 2 ≤ g →
  parse_value f r = parse_value g r) by (intros r Hr; by apply (IH _ Hr r eq_refl)).
assert (He : ∀ r, length r < length s → ∀ f g, 2 * length r + 3 ≤ f → 2 * length r + 3 ≤ g →
  parse_elements f r = parse_elements g r) by (intros r Hr; by apply (IH _ Hr r eq_refl)).
assert (Hm : ∀ r, length r < length s → ∀ f g, 2 * length r + 3 ≤ f → 2 * length r + 3 ≤ g →
  parse_members f r = parse_members g r) by (intros r Hr; by apply (IH _ Hr r eq_refl)).
clear IH.
assert (Hvs : ∀ f g, 2 * length s + 2 ≤ f → 2 * length s + 2 ≤ g → parse_value f s = parse_value g s).
{ intros [|f] [|g] Hf Hg; [lia..|]. cbn [parse_value]. pose proof (skip_ws_length s) as Hs.
  destruct (skip_ws s) as [|c s']; [done|]. simpl in Hs.
  by rewrite (He s' ltac:(lia) f g), (Hm s' ltac:(lia) f g) by lia. }
split_and!; [done| |].
- intros [|f] [|g] Hf Hg; [lia..|]. rewrite !parse_elements_S, (Hvs f g) by lia.
  destruct (parse_value g s) as [[v r]|] eqn:Er; [|done]. apply value_consumes in Er.
  destruct (strip RBRACKET (skip_ws r)); [done|].
  destruct (strip COMMA (skip_ws r)) as [r'|] eqn:Er'; [|done]. lengths.
  by rewrite (He r' ltac:(lia) f g) by lia.
- intros [|f] [|g] Hf Hg; [lia..|]. cbn [parse_members].
  destruct (strip DQUOTE (skip_ws s)) as [s1|] eqn:E1; [|done].
  destruct (parse_chars s1) as [[k r]|] eqn:E2; [|done].
  destruct (strip COLON (skip_ws r)) as [r1|] eqn:E3; [|done]. lengths.
  rewrite (Hv r1 ltac:(lia) f g) by lia.
  destruct (parse_value g r1) as [[v r2]|] eqn:E4; [|done]. apply value_consumes in E4.
  destruct (strip RBRACE (skip_ws r2)); [done|].
  destruct (strip COMMA (skip_ws r2)) as [r3|] eqn:E5; [|done]. lengths.
  by rewrite (Hm r3 ltac:(lia) f g) by lia.
Qed.

(** Whatever fuel beyond that of [parse_text] is given, the answer is that of [parse_text]. *)
Lemma parse_fuel s fuel :
2 * length s + 2 ≤ fuel →
parse_text s =
  match parse_value fuel s with
  | Some (v, r) => match skip_ws r with [] => Some v | _ => None end
  | None => None
  end.
Proof. intros Hf. unfold parse_text. by rewrite (proj1 (fuel_enough s) _ fuel). Qed.
End Fuel.
