(* ===== verification/JsonIntegers.v ===== *)
(** * An instance of the number interface: integers

    [JsNumber] holds of the doubles of JavaScript; this file shows it can hold, with
    the integers, whose texts are the decimal numerals.  The instance serves the
    concrete runs of the other files. *)

From Stdlib Require Import DecimalFacts DecimalN.
From S2P Require Import Prelude JsString JsObject Json.

(** The integer a token starts with; a fraction or an exponent is cut off. *)
Definition read_integer (t : jstring) : Z :=
  match strip 45 t with
  | Some s => (- Z.of_N (digits_value (fst (digits s))))%Z
  | None => Z.of_N (digits_value (fst (digits t)))
  end.

#[export] Instance integers : JsNumber := {|
  number := Z;
  print_number := js_of_Z;
  read_number := read_integer;
  negative_zero _ := false;
  is_zero z := bool_decide (z = 0%Z)
|}.

Lemma nzhead_no_zero d e : Decimal.nzhead d ≠ Decimal.D0 e.
Proof. induction d; simpl; done. Qed.

Lemma js_of_N_head n c s : n ≠ 0%N → js_of_N n = c :: s → c ≠ 48%N.
Proof.
  intros Hn Hc ->. unfold js_of_N in Hc.
  destruct (N.to_uint n) as [|d|d|d|d|d|d|d|d|d|d] eqn:E; simplify_eq/=.
  pose proof (DecimalN.Unsigned.to_of (N.to_uint n)) as Hnorm.
  rewrite DecimalN.Unsigned.of_to, E in Hnorm. unfold Decimal.unorm in Hnorm.
  destruct (Decimal.nzhead (Decimal.D0 d)) eqn:Hz; simplify_eq/=; [|by apply nzhead_no_zero in Hz].
  apply Hn. by rewrite <-(DecimalN.Unsigned.of_to n), E.
Qed.

Lemma digits_all s : Forall (λ c, is_digit c = true) s → digits s = (s, []).
Proof. induction 1 as [|c s Hc Hs IH]; simpl; [done|]. by rewrite Hc, IH. Qed.

Lemma scan_int_numeral n : scan_int (js_of_N n) = Some (js_of_N n, []).
Proof.
  destruct (decide (n = 0%N)) as [->|Hn]; [done|].
  unfold scan_int. destruct (js_of_N n) as [|c s] eqn:E; [by apply js_of_N_not_nil in E|].
  pose proof (js_of_N_head n c s Hn E) as Hc. simpl strip. rewrite bool_decide_eq_false_2 by done.
  rewrite digits_all; [done|]. rewrite <-E. apply js_of_N_digits.
Qed.

(** The value of a numeral, digit by digit from the left. *)
Lemma of_uint_acc_units d acc :
  foldl (λ a c, 10 * a + (c - 48))%N (Npos acc) (uint_units d) = Npos (Pos.of_uint_acc d acc).
Proof.
  revert acc. induction d as [|d IH|d IH|d IH|d IH|d IH|d IH|d IH|d IH|d IH|d IH]; intros acc;
    cbn [uint_units foldl Pos.of_uint_acc]; [done|..]; rewrite <-IH; f_equal; lia.
Qed.

Lemma of_uint_units d : digits_value (uint_units d) = N.of_uint d.
Proof.
  unfold digits_value. induction d; cbn [uint_units foldl]; [done|exact IHd|..];
    cbn; apply of_uint_acc_units.
Qed.

Lemma digits_value_numeral n : digits_value (js_of_N n) = n.
Proof. unfold js_of_N. by rewrite of_uint_units, DecimalN.Unsigned.of_to. Qed.

Lemma numeral_head n : ∃ c s, js_of_N n = c :: s ∧ is_digit c = true.
Proof.
  pose proof (js_of_N_digits n) as Hd. destruct (js_of_N n) as [|c s] eqn:E.
  { by apply js_of_N_not_nil in E. }
  inversion Hd; subst. eauto.
Qed.

Lemma strip_sign_numeral n : strip 45 (js_of_N n) = None.
Proof.
  destruct (numeral_head n) as (c & s & -> & Hc). simpl.
  rewrite bool_decide_eq_false_2; [done|]. by intros ->.
Qed.

Lemma scan_numeral n : scan_number (js_of_N n) = Some (js_of_N n, []).
Proof. unfold scan_number. rewrite strip_sign_numeral, scan_int_numeral. simpl. by rewrite app_nil_r. Qed.

Lemma scan_negative n : scan_number (DASH :: js_of_N n) = Some (DASH :: js_of_N n, []).
Proof. unfold scan_number. cbn [strip]. simpl. rewrite scan_int_numeral. simpl. by rewrite app_nil_r. Qed.

#[export] Instance integers_laws : JsNumberLaws integers.
Proof.
  split.
  - intros [|p|p]; [apply scan_numeral..|apply scan_negative].
  - intros z. cbn [print_number integers].
    assert (H : ∀ n, ∃ c s, js_of_N n = c :: s ∧ (is_digit c || bool_decide (c = 45)%N) = true).
    { intros n. destruct (numeral_head n) as (c & s & -> & Hc). exists c, s. by rewrite Hc. }
    destruct z; [apply H..|]. by eexists _, _.
  - intros z _. cbn [print_number read_number integers]. unfold read_integer.
    destruct z as [|p|p]; [done| |].
    + unfold js_of_Z. rewrite strip_sign_numeral, digits_all by apply js_of_N_digits.
      cbn [fst]. rewrite digits_value_numeral. done.
    + unfold js_of_Z. cbn [strip]. rewrite bool_decide_eq_true_2 by done.
      rewrite digits_all by apply js_of_N_digits. cbn [fst]. by rewrite digits_value_numeral.
Qed.
