(* ===== verification/ApiTypes.v ===== *)
(** * The types of the management API

    [console/src/lib/api/types.ts] and the request types of [check.ts].  An
    optional field [x?: T] is an [option]; [Record<string, unknown>] is a plain
    object of JSON values; sequence numbers and counts are integers. *)

From S2P Require Import Prelude JsString JsObject Json.

Inductive TenantStatus := pending | active | suspended | deleted.
Inductive SchemaMode := own | shared | inherited.
Inductive ChangeOp := INSERT | DELETE | UPDATE.

#[export] Instance TenantStatus_eq_dec : EqDecision TenantStatus.
Proof. solve_decision. Defined.
#[export] Instance ChangeOp_eq_dec : EqDecision ChangeOp.
Proof. solve_decision. Defined.

(** The text of an enumeration value. *)
Definition status_text (s : TenantStatus) : jstring :=
  match s with
  | pending => js "pending" | active => js "active"
  | suspended => js "suspended" | deleted => js "deleted"
  end.

Definition op_text (o : ChangeOp) : jstring :=
  match o with INSERT => js "INSERT" | DELETE => js "DELETE" | UPDATE => js "UPDATE" end.

Record SchemaResponse := MkSchemaResponse {
  sr_tenant_id : jstring;
  hash : jstring;
  version : jstring;
  schema_source : jstring;
  compiled_at : jstring }.

Record SubjectRef := MkSubjectRef {
  sub_Type : jstring;
  sub_ID : jstring;
  sub_Relation : option jstring }.

#[export] Instance SubjectRef_eq_dec : EqDecision SubjectRef.
Proof. solve_decision. Defined.

(** [Children] may be [null]. *)
Inductive SubjectTree := MkSubjectTree {
  Subject : SubjectRef;
  Children : option (list SubjectTree) }.

Record ExpandRequest := MkExpandRequest {
  ex_object_type : jstring;
  ex_object_id : jstring;
  ex_relation : jstring }.

Record CheckRequest := MkCheckRequest {
  ck_subject_type : jstring;
  ck_subject_id : jstring;
  ck_resource_type : jstring;
  ck_resource_id : jstring;
  ck_action : jstring }.

Record CheckResponse := MkCheckResponse { decision : bool }.

Record TupleFilter := MkTupleFilter {
  f_object_type : option jstring;
  f_object_id : option jstring;
  f_relation : option jstring;
  f_subject_type : option jstring;
  f_subject_id : option jstring;
  f_subject_relation : option jstring }.

#[export] Instance TupleFilter_eq_dec : EqDecision TupleFilter.
Proof. solve_decision. Defined.

(** [{}] *)
Definition no_filter : TupleFilter := MkTupleFilter None None None None None None.

Section WithJson.
Context `{!JsNumber}.

Record TenantConfig := MkTenantConfig {
max_tuples : Z;
max_requests_per_sec : Z;
cache_ttl_override : option (option Z);     (* absent, [null] or a number *)
allowed_object_types : option (list jstring);
retention_days : Z;
sync_enabled : bool;
webhook_url : option jstring;
cfg_metadata : option (jobject json) }.

Record Tenant := MkTenant {
t_id : jstring;
display_name : jstring;
parent_tenant_id : option jstring;
status : TenantStatus;
schema_mode : SchemaMode;
shared_schema_ref : option jstring;
config : TenantConfig;
t_created_at : jstring;
t_updated_at : jstring }.

Record RelationTuple := MkRelationTuple {
rt_tenant_id : jstring;
rt_object_type : jstring;
rt_object_id : jstring;
rt_relation : jstring;
rt_subject_type : jstring;
rt_subject_id : jstring;
rt_subject_relation : option jstring;
rt_subject_tenant_id : option jstring;
rt_attributes : option (jobject json);
rt_created_at : jstring;
rt_updated_at : jstring;
source_system : option jstring;
external_id : option jstring }.

Record ChangelogEntry := MkChangelogEntry {
seq_no : Z;
ce_tenant_id : jstring;
op : ChangeOp;
ce_tuple : option RelationTuple;   (* the table guards [entry.tuple &&] *)
ts : jstring;
actor : jstring;
ce_source : jstring;
meta : option (jobject json) }.

Record TupleRequest := MkTupleRequest {
tr_object_type : jstring;
tr_object_id : jstring;
tr_relation : jstring;
tr_subject_type : jstring;
tr_subject_id : jstring;
tr_subject_relation : option jstring;
tr_attributes : option (jobject json) }.

Record BatchTuplesRequest := MkBatchTuplesRequest { batch_tuples : list TupleRequest }.

Record ListTenantsResponse := MkListTenantsResponse {
tenants : list Tenant;
lt_count : Z }.

Record TuplesResponse := MkTuplesResponse {
tuples : option (list RelationTuple);   (* the page guards [data.tuples ?? []] *)
tu_count : Z }.

Record ChangelogResponse := MkChangelogResponse {
entries : option (list ChangelogEntry);
cl_count : Z;
latest_sequence : Z }.

Record AttributesResponse := MkAttributesResponse { attributes : jobject json }.

Record ObjectAttributesItem := MkObjectAttributesItem {
oa_tenant_id : jstring;
oa_object_type : jstring;
oa_object_id : jstring;
oa_attributes : jobject json;
oa_updated_at : jstring }.

Record SubjectAttributesItem := MkSubjectAttributesItem {
sa_tenant_id : jstring;
sa_subject_type : jstring;
sa_subject_id : jstring;
sa_attributes : jobject json;
sa_updated_at : jstring }.

Record ListObjectAttributesResponse := MkListObjectAttributesResponse {
objects : option (list ObjectAttributesItem);
lo_count : Z }.

Record ListSubjectAttributesResponse := MkListSubjectAttributesResponse {
subjects : option (list SubjectAttributesItem);
ls_count : Z }.
End WithJson.
