(* ===== verification/ApiClient.v ===== *)
(** * The API client

    [console/src/lib/api/]: each function builds one HTTP request, modelled as a
    value (the transport, [ky], is not part of the repository), and
    [client.ts]'s [beforeError] hook, which rewrites the error of a failed one. *)

From S2P Require Import Prelude JsString JsObject Json JsonIntegers ApiTypes.

Inductive http_method := GET | POST | PUT | HTTP_DELETE.

#[export] Instance http_method_eq_dec : EqDecision http_method.
Proof. solve_decision. Defined.

Section Requests.
Context `{!JsNumber}.

Inductive payload :=
| NoBody
| JsonBody (v : json)
| RawBody (s : jstring).

Record request := MkRequest {
method : http_method;
url : jstring;
searchParams : jobject jstring;
headers : jobject jstring;
body : payload }.

Definition get (u : jstring) (ps : jobject jstring) : request := MkRequest GET u ps [] NoBody.

(** [if (v) searchParams.k = v] for an optional string. *)
Definition param (k : string) (v : option jstring) (ps : jobject jstring) : jobject jstring :=
match v with
| Some s => if truthy s then obj_assign ps (js k) s else ps
| None => ps
end.

(** [if (n !== undefined) searchParams.k = String(n)] *)
Definition number_param (k : string) (n : option Z) (ps : jobject jstring) : jobject jstring :=
match n with Some z => obj_assign ps (js k) (js_of_Z z) | None => ps end.

(** [if (n) searchParams.k = String(n)]: zero is not sent. *)
Definition truthy_number_param (k : string) (n : option Z) (ps : jobject jstring) : jobject jstring :=
match n with
| Some z => if bool_decide (z = 0)%Z then ps else obj_assign ps (js k) (js_of_Z z)
| None => ps
end.

Definition slash (a b : jstring) : jstring := a ++ SLASH :: b.

(** [api/v1/t/${tenantId}] *)
Definition tenant_path (tenantId : jstring) : jstring := js "api/v1/t/" ++ tenantId.

(** A JSON object literal; fields that are [undefined] are not sent. *)
Definition fields (l : list (jstring * option json)) : json :=
JObject (obj_of (omap (λ e, (λ v, (fst e, v)) <$> snd e) l)).

Definition str_field (k : string) (v : jstring) : jstring * option json := (js k, Some (JString v)).

(** *** [attributes.ts] *)

Definition listObjectAttributes (tenantId : jstring) (objectType : option jstring) : request :=
get (tenant_path tenantId ++ js "/attributes/objects") (param "type" objectType []).

Definition listSubjectAttributes (tenantId : jstring) (subjectType : option jstring) : request :=
get (tenant_path tenantId ++ js "/attributes/subjects") (param "type" subjectType []).

Definition object_attributes_path (tenantId objectType objectId : jstring) : jstring :=
tenant_path tenantId ++ js "/attributes/objects/" ++ slash objectType objectId.

Definition subject_attributes_path (tenantId subjectType subjectId : jstring) : jstring :=
tenant_path tenantId ++ js "/attributes/subjects/" ++ slash subjectType subjectId.

Definition getObjectAttributes (tenantId objectType objectId : jstring) : request :=
get (object_attributes_path tenantId objectType objectId) [].

Definition attributes_body (a : jobject json) : payload :=
JsonBody (fields [(js "attributes", Some (JObject a))]).

Definition setObjectAttributes (tenantId objectType objectId : jstring) (a : jobject json) : request :=
MkRequest PUT (object_attributes_path tenantId objectType objectId) [] [] (attributes_body a).

Definition getSubjectAttributes (tenantId subjectType subjectId : jstring) : request :=
get (subject_attributes_path tenantId subjectType subjectId) [].

Definition setSubjectAttributes (tenantId subjectType subjectId : jstring) (a : jobject json) : request :=
MkRequest PUT (subject_attributes_path tenantId subjectType subjectId) [] [] (attributes_body a).

(** *** [changelog.ts] *)

Definition readChangelog (tenantId : jstring) (since_seq limit : option Z) : request :=
get (tenant_path tenantId ++ js "/changelog")
  (number_param "limit" limit (number_param "since_seq" since_seq [])).

(** *** [check.ts] *)

Definition check_body (req : CheckRequest) : json :=
fields [
  (js "subject", Some (fields [str_field "type" (ck_subject_type req); str_field "id" (ck_subject_id req)]));
  (js "resource", Some (fields [str_field "type" (ck_resource_type req); str_field "id" (ck_resource_id req)]));
  (js "action", Some (fields [str_field "name" (ck_action req)]))].

Definition checkPermission (tenantId : jstring) (req : CheckRequest) : request :=
MkRequest POST (js "access/v1/evaluation") [] [(js "X-Tenant-ID", tenantId)]
  (JsonBody (check_body req)).

(** *** [expand.ts] *)

Definition expandRelation (tenantId : jstring) (req : ExpandRequest) : request :=
MkRequest POST (tenant_path tenantId ++ js "/expand") [] []
  (JsonBody (fields [str_field "object_type" (ex_object_type req);
     str_field "object_id" (ex_object_id req); str_field "relation" (ex_relation req)])).

(** *** [schemas.ts] *)

Definition schema_path (tenantId : jstring) : jstring :=
js "api/v1/tenants/" ++ tenantId ++ js "/schema".

Definition getSchema (tenantId : jstring) : request := get (schema_path tenantId) [].

Definition loadSchema (tenantId yaml : jstring) : request :=
MkRequest PUT (schema_path tenantId) [] [(js "Content-Type", js "application/yaml")] (RawBody yaml).

(** *** [tenants.ts] *)

Definition listTenants (p_status p_parent : option jstring) (limit offset : option Z) : request :=
get (js "api/v1/tenants")
  (truthy_number_param "offset" offset (truthy_number_param "limit" limit
     (param "parent_id" p_parent (param "status" p_status [])))).

Definition getTenant (tenantId : jstring) : request := get (js "api/v1/tenants/" ++ tenantId) [].

(** *** [tuples.ts] *)

Definition filter_params (f : TupleFilter) : jobject jstring :=
param "subject_relation" (f_subject_relation f)
  (param "subject_id" (f_subject_id f)
    (param "subject_type" (f_subject_type f)
      (param "relation" (f_relation f)
        (param "object_id" (f_object_id f)
          (param "object_type" (f_object_type f) []))))).

Definition readTuples (tenantId : jstring) (filter : option TupleFilter) : request :=
get (tenant_path tenantId ++ js "/tuples") (filter_params (default no_filter filter)).

Definition tuple_json (t : TupleRequest) : json :=
fields [str_field "object_type" (tr_object_type t); str_field "object_id" (tr_object_id t);
  str_field "relation" (tr_relation t); str_field "subject_type" (tr_subject_type t);
  str_field "subject_id" (tr_subject_id t);
  (js "subject_relation", JString <$> tr_subject_relation t);
  (js "attributes", JObject <$> tr_attributes t)].

Definition writeTuple (tenantId : jstring) (t : TupleRequest) : request :=
MkRequest POST (tenant_path tenantId ++ js "/tuples") [] [] (JsonBody (tuple_json t)).

Definition writeTuplesBatch (tenantId : jstring) (b : BatchTuplesRequest) : request :=
MkRequest POST (tenant_path tenantId ++ js "/tuples/batch") [] []
  (JsonBody (fields [(js "tuples", Some (JArray (tuple_json <$> batch_tuples b)))])).

Definition deleteTuple (tenantId : jstring) (t : TupleRequest) : request :=
MkRequest HTTP_DELETE (tenant_path tenantId ++ js "/tuples") [] [] (JsonBody (tuple_json t)).

(** *** [client.ts]: the [beforeError] hook *)

(** A failed call; [message] may be given any value by the hook. *)
Record api_error := MkApiError {
message : json;
details : option json }.

Definition json_truthy (v : json) : bool :=
match v with
| JNull => false
| JBool b => b
| JNumber n => negb (is_zero n)
| JString s => truthy s
| JArray _ | JObject _ => true
end.

(** [v.k] for a key that no built-in prototype has: [None] when it throws,
  [Some None] when it is undefined. *)
Definition member_of (v : json) (k : jstring) : option (option json) :=
match v with
| JNull => None
| JObject o => Some (map_get o k)
| _ => Some None
end.

(** [v || d] on an optional value. *)
Definition or_else (v : option json) (d : json) : json :=
match v with Some x => if json_truthy x then x else d | None => d end.

Definition truthy_opt (v : option json) : bool :=
match v with Some x => json_truthy x | None => false end.

(** [response] is the text of the response, when there is one. *)
Definition beforeError (error : api_error) (response : option jstring) : api_error :=
match response with
| None => error
| Some text =>
    match parse text with
    | None => error
    | Some b =>
        match member_of b (js "error"), member_of b (js "details") with
        | Some e, Some d =>
            MkApiError (or_else e (message error)) (if truthy_opt d then d else details error)
        | _, _ => error
        end
    end
end.
End Requests.

(** ** What is sent *)

Section Sent.
Context `{!JsNumber}.

Lemma param_get k v ps k' :
js k ≠ js "__proto__" →
map_get (param k v ps) k' =
if bool_decide (k' = js k) && truthy (default [] v) then v else map_get ps k'.
Proof.
intros Hk. destruct v as [s|]; simpl; [|by rewrite andb_false_r].
destruct (truthy s); [|by rewrite andb_false_r].
rewrite map_get_obj_assign, andb_true_r by done. done.
Qed.

(** The value of a filter's field by its query parameter. *)
Definition filter_field (f : TupleFilter) (k : jstring) : option jstring :=
if bool_decide (k = js "object_type") then f_object_type f
else if bool_decide (k = js "object_id") then f_object_id f
else if bool_decide (k = js "relation") then f_relation f
else if bool_decide (k = js "subject_type") then f_subject_type f
else if bool_decide (k = js "subject_id") then f_subject_id f
else if bool_decide (k = js "subject_relation") then f_subject_relation f
else None.

Lemma filter_params_lookup t f k v :
map_get (searchParams (readTuples t (Some f))) k = Some v ↔
filter_field f k = Some v ∧ v ≠ [].
Proof.
cbn [readTuples get searchParams default]. unfold filter_params, filter_field.
rewrite !param_get by decide_literal.
assert (Hf : ∀ o : option jstring,
  (if truthy (default [] o) then o else None) = Some v ↔ o = Some v ∧ v ≠ []).
{ intros [[|c s]|]; simpl; naive_solver. }
repeat match goal with
| |- context [bool_decide (k = js ?l)] =>
    destruct (decide (k = js l)) as [->|];
    [repeat match goal with |- context [bool_decide (js ?a = js ?b)] =>
       let d := eval vm_compute in (bool_decide (js a = js b)) in
       replace (bool_decide (js a = js b)) with d by done end; simpl; apply Hf
    |rewrite (bool_decide_eq_false_2 (k = js l)) by done; simpl]
end.
simpl. naive_solver.
Qed.

Lemma tenant_path_inj t s s' : tenant_path t ++ s = tenant_path t ++ s' → s = s'.
Proof. apply app_inv_head. Qed.

(** Objects whose type has no "/" have distinct attribute URLs: two objects of
  a tenant never share the record that is read and written. *)
Theorem object_path_inj t ty id ty' id' :
SLASH ∉ ty → SLASH ∉ ty' →
url (getObjectAttributes t ty id) = url (getObjectAttributes t ty' id') →
ty = ty' ∧ id = id'.
Proof.
intros Hty Hty'. cbn [getObjectAttributes get url]. unfold object_attributes_path.
intros [_ Hs]%tenant_path_inj%app_inj_1; [|done]. by apply app_sep_inj in Hs.
Qed.

(** The paths are built without encoding: when the type has a "/", two
  different objects share one URL. *)
Theorem object_path_collision t :
url (getObjectAttributes t (js "a/b") (js "c")) = url (getObjectAttributes t (js "a") (js "b/c")).
Proof. reflexivity. Qed.
End Sent.

(** ** What is sent, read back *)

Section Decode.
Context `{!JsNumber, !JsNumberLaws _}.

Definition as_string (v : json) : option jstring :=
match v with JString s => Some s | _ => None end.
Definition as_object (v : json) : option (jobject json) :=
match v with JObject o => Some o | _ => None end.

(** An optional field: absent, or a value of the right kind. *)
Definition optional {A} (read : json → option A) (v : option json) : option (option A) :=
match v with None => Some None | Some x => Some <$> read x end.

(** The server's view of a tuple body ([TupleRequest]). *)
Definition tuple_of_json (v : json) : option TupleRequest :=
o ← as_object v;
ot ← map_get o (js "object_type") ≫= as_string;
oi ← map_get o (js "object_id") ≫= as_string;
r ← map_get o (js "relation") ≫= as_string;
st ← map_get o (js "subject_type") ≫= as_string;
si ← map_get o (js "subject_id") ≫= as_string;
sr ← optional as_string (map_get o (js "subject_relation"));
a ← optional as_object (map_get o (js "attributes"));
Some (MkTupleRequest ot oi r st si sr a).

(** An object literal with well-formed values. *)
Ltac literal_object_wf :=
vm_compute; apply wf_object;
  [unfold obj_wf; repeat constructor; intros [=]
  |repeat (apply List.Forall_cons; [cbn [snd]; solve [apply wf_string | auto]|]);
   apply List.Forall_nil].

Lemma tuple_json_wf t :
(∀ a, tr_attributes t = Some a → json_wf (JObject a)) → json_wf (tuple_json t).
Proof.
destruct t as [ot oi r st si sr a]. cbn [tr_attributes]. intros Ha.
unfold tuple_json, fields. destruct sr as [sr|], a as [a|]; literal_object_wf.
Qed.

(** The body of a tuple write or delete, parsed back as the server does, is the
  tuple that was entered, optional fields included. *)
Theorem tuple_body_read_back tenant t :
(∀ a, tr_attributes t = Some a → json_wf (JObject a)) →
∃ v, body (writeTuple tenant t) = JsonBody v ∧ body (deleteTuple tenant t) = JsonBody v ∧
  parse (stringify v) ≫= tuple_of_json = Some t.
Proof.
intros Hwf. exists (tuple_json t). split_and!; [done..|].
rewrite parse_stringify by by apply tuple_json_wf.
by destruct t as [? ? ? ? ? [?|] [?|]]; vm_compute.
Qed.

(** When the server answers with an error object, the error the user sees
  has its message, and its details when there are some; when the response
  is not JSON (or there is none) the error is left as it was. *)
Theorem beforeError_message (error : api_error) (msg : jstring) (d : option json) :
msg ≠ [] → (∀ v, d = Some v → json_wf v) →
beforeError error (Some (stringify (fields [str_field "error" msg; (js "details", d)]))) =
  MkApiError (JString msg) (if truthy_opt d then d else details error).
Proof.
intros Hmsg Hd. unfold beforeError. rewrite parse_stringify.
- by destruct d as [d|], msg as [|c msg]; vm_compute.
- destruct d as [d|]; literal_object_wf.
Qed.
End Decode.

Lemma beforeError_message_witness :
  beforeError (H := integers) (MkApiError (JString (js "HTTP 404")) None)
    (Some (stringify (fields [str_field "error" (js "no schema"); (js "details", None)]))) =
  MkApiError (JString (js "no schema")) None.
Proof. apply (beforeError_message (H := integers)); [done|intros v [=]]. Defined.

Lemma object_path_inj_witness : js "a" = js "a" ∧ js "b/c" = js "b/c".
Proof.
  apply (object_path_inj (H := integers) (js "t") (js "a") (js "b/c")); [decide_literal..|done].
Defined.

Lemma tuple_body_read_back_witness :
  let t := MkTupleRequest (js "doc") (js "d1") (js "viewer") (js "group") (js "g1")
    (Some (js "member")) None in
  ∃ v, body (H := integers) (writeTuple (js "acme") t) = JsonBody v ∧
    body (deleteTuple (js "acme") t) = JsonBody v ∧
    parse (stringify v) ≫= tuple_of_json = Some t.
Proof. apply (tuple_body_read_back (H := integers)). intros a [=]. Defined.
