(* ===== verification/Queries.v ===== *)
(** * Queries and mutations

    [console/src/lib/hooks/]: the query keys, what each hook fetches and when it is
    enabled, and the keys each mutation invalidates.  The cache itself is
    react-query's; the one thing the hooks rely on, that [invalidateQueries]
    matches keys by prefix, is the interface [KeyMatching]. *)

From S2P Require Import Prelude JsString JsObject Json JsonIntegers ApiTypes ApiClient.

(** An element of a query key; an object is its defined fields, what the hash of
    the key depends on. *)
Inductive key_part :=
  | KStr (s : jstring)
  | KNum (z : Z)
  | KObj (fields : list (jstring * jstring)).

Abbreviation query_key := (list key_part).

#[export] Instance key_part_eq_dec : EqDecision key_part.
Proof. solve_decision. Defined.

Definition is_str (k : key_part) : bool := match k with KStr _ => true | _ => false end.

(** [invalidateQueries] and partial keys: the documented behaviour for a key
    made of strings. *)
Class KeyMatching (matches : query_key → query_key → bool) : Prop :=
  matches_prefix p k : forallb is_str p = true → matches p k = bool_decide (p `prefix_of` k).

Definition prefix_match (p k : query_key) : bool := bool_decide (p `prefix_of` k).

#[export] Instance prefix_matching : KeyMatching prefix_match.
Proof. done. Qed.

Section Hooks.
Context `{!JsNumber}.

Record query := MkQuery {
queryKey : query_key;
queryFn : request;
query_enabled : bool;
retry : bool }.

Record mutation (V : Type) := MkMutation {
mutationFn : V → request;
invalidates : list query_key }.    (* [onSuccess] *)
Arguments MkMutation {V}.
Arguments mutationFn {V}.
Arguments invalidates {V}.

(** [t ?? ""] *)
Definition or_empty (t : option jstring) : jstring := default [] t.

(** [!!t] *)
Definition present (t : option jstring) : bool :=
match t with Some s => truthy s | None => false end.

(** [tenantId!] in a template: [null] prints as such. *)
Definition forced (t : option jstring) : jstring := default (js "null") t.

(** *** [use-tuples.ts] *)

Definition field_part (k : string) (v : option jstring) : list (jstring * jstring) :=
match v with Some s => [(js k, s)] | None => [] end.

Definition filter_part (f : TupleFilter) : key_part :=
KObj (field_part "object_id" (f_object_id f) ++ field_part "object_type" (f_object_type f)
  ++ field_part "relation" (f_relation f) ++ field_part "subject_id" (f_subject_id f)
  ++ field_part "subject_relation" (f_subject_relation f)
  ++ field_part "subject_type" (f_subject_type f)).

Definition tuple_all : query_key := [KStr (js "tuples")].
Definition tuple_lists : query_key := tuple_all ++ [KStr (js "list")].
Definition tuple_list (tenantId : jstring) (f : TupleFilter) : query_key :=
tuple_lists ++ [KStr tenantId; filter_part f].

Definition useTuples (tenantId : option jstring) (filter : option TupleFilter) : query :=
MkQuery (tuple_list (or_empty tenantId) (default no_filter filter))
  (readTuples (forced tenantId) filter) (present tenantId) true.

Definition useWriteTuple (tenantId : jstring) : mutation TupleRequest :=
MkMutation (writeTuple tenantId) [tuple_lists].

Definition useWriteTuplesBatch (tenantId : jstring) : mutation BatchTuplesRequest :=
MkMutation (writeTuplesBatch tenantId) [tuple_lists].

Definition useDeleteTuple (tenantId : jstring) : mutation TupleRequest :=
MkMutation (deleteTuple tenantId) [tuple_lists].

(** *** [use-attributes.ts] *)

Definition attribute_all : query_key := [KStr (js "attributes")].
Definition attribute_objectList (tenantId : jstring) (type : option jstring) : query_key :=
attribute_all ++ [KStr (js "objectList"); KStr tenantId; KStr (or_empty type)].
Definition attribute_subjectList (tenantId : jstring) (type : option jstring) : query_key :=
attribute_all ++ [KStr (js "subjectList"); KStr tenantId; KStr (or_empty type)].
Definition attribute_object (tenantId type id : jstring) : query_key :=
attribute_all ++ [KStr (js "object"); KStr tenantId; KStr type; KStr id].
Definition attribute_subject (tenantId type id : jstring) : query_key :=
attribute_all ++ [KStr (js "subject"); KStr tenantId; KStr type; KStr id].

Definition useListObjectAttributes (tenantId : option jstring) (objectType : option jstring) : query :=
MkQuery (attribute_objectList (or_empty tenantId) objectType)
  (listObjectAttributes (forced tenantId) objectType) (present tenantId) true.

Definition useListSubjectAttributes (tenantId : option jstring) (subjectType : option jstring) : query :=
MkQuery (attribute_subjectList (or_empty tenantId) subjectType)
  (listSubjectAttributes (forced tenantId) subjectType) (present tenantId) true.

Definition useObjectAttributes (tenantId : option jstring) (objectType objectId : jstring) : query :=
MkQuery (attribute_object (or_empty tenantId) objectType objectId)
  (getObjectAttributes (forced tenantId) objectType objectId)
  (present tenantId && truthy objectType && truthy objectId) false.

Definition useSubjectAttributes (tenantId : option jstring) (subjectType subjectId : jstring) : query :=
MkQuery (attribute_subject (or_empty tenantId) subjectType subjectId)
  (getSubjectAttributes (forced tenantId) subjectType subjectId)
  (present tenantId && truthy subjectType && truthy subjectId) false.

Definition useSaveObjectAttributes (tenantId objectType objectId : jstring) : mutation (jobject json) :=
MkMutation (setObjectAttributes tenantId objectType objectId)
  [attribute_object tenantId objectType objectId; attribute_objectList tenantId None].

Definition useSaveSubjectAttributes (tenantId subjectType subjectId : jstring) : mutation (jobject json) :=
MkMutation (setSubjectAttributes tenantId subjectType subjectId)
  [attribute_subject tenantId subjectType subjectId; attribute_subjectList tenantId None].

(** *** [use-changelog.ts] *)

Definition changelog_list (tenantId : jstring) (sinceSeq limit : Z) : query_key :=
[KStr (js "changelog"); KStr tenantId; KNum sinceSeq; KNum limit].

Definition useChangelog (tenantId : option jstring) (sinceSeq limit : option Z) : query :=
MkQuery (changelog_list (or_empty tenantId) (default 0%Z sinceSeq) (default 100%Z limit))
  (readChangelog (forced tenantId) sinceSeq (Some (default 100%Z limit))) (present tenantId) true.

(** *** [use-check.ts], [use-expand.ts] *)

Definition useCheck (tenantId : jstring) : mutation CheckRequest :=
MkMutation (checkPermission tenantId) [].

Definition useExpand (tenantId : jstring) : mutation ExpandRequest :=
MkMutation (expandRelation tenantId) [].

(** *** [use-schema.ts] *)

Definition schema_detail (tenantId : jstring) : query_key := [KStr (js "schema"); KStr tenantId].

Definition useSchema (tenantId : option jstring) : query :=
MkQuery (schema_detail (or_empty tenantId)) (getSchema (forced tenantId)) (present tenantId) false.

Definition useSaveSchema (tenantId : jstring) : mutation jstring :=
MkMutation (loadSchema tenantId) [schema_detail tenantId].

(** *** [use-tenants.ts] *)

Definition tenant_lists : query_key := [KStr (js "tenants"); KStr (js "list")].
Definition tenant_list (p_status : option jstring) : query_key :=
tenant_lists ++ [KObj (field_part "status" p_status)].
Definition tenant_detail (id : jstring) : query_key :=
[KStr (js "tenants"); KStr (js "detail"); KStr id].

(** [filters] is absent or [{ status? }]. *)
Definition useTenants (filters : option (option jstring)) : query :=
MkQuery (tenant_list (default None filters)) (listTenants (default None filters) None None None)
  true true.

Definition useTenant (tenantId : option jstring) : query :=
MkQuery (tenant_detail (or_empty tenantId)) (getTenant (forced tenantId)) (present tenantId) true.
End Hooks.

Arguments mutationFn {_ V}.
Arguments invalidates {_ V}.

(** ** What a component does to the outside: requests and notifications *)

Section Effects.
Context `{!JsNumber}.

Inductive effect :=
| Send (r : request)
| ToastSuccess (text : jstring)
| ToastError (text : json).

(** [(err as Error).message || d] *)
Definition error_text (e : api_error) (d : string) : json :=
if json_truthy (message e) then message e else JString (js d).
End Effects.

(** ** The cache after a mutation *)

Section Invalidation.
Context (matches : query_key → query_key → bool) `{!KeyMatching matches} `{!JsNumber}.

(** The cached queries still fresh after the [onSuccess] of a mutation. *)
Definition invalidated {V} (m : mutation V) (k : query_key) : bool :=
existsb (λ p, matches p k) (invalidates m).

Definition still_fresh {V} (m : mutation V) (cache : list query_key) : list query_key :=
List.filter (λ k, negb (invalidated m k)) cache.

Lemma invalidated_prefix {V} (m : mutation V) k p :
p ∈ invalidates m → forallb is_str p = true → p `prefix_of` k → invalidated m k = true.
Proof.
intros Hp Hs Hk. apply existsb_exists. exists p. split; [by apply list_elem_of_In|].
rewrite matches_prefix by done. by apply bool_decide_eq_true.
Qed.

Lemma not_invalidated {V} (m : mutation V) k :
(∀ p, p ∈ invalidates m → forallb is_str p = true ∧ ¬ (p `prefix_of` k)) →
invalidated m k = false.
Proof.
intros Hnp. apply not_true_is_false. intros (p & Hp%list_elem_of_In & Hm)%existsb_exists.
destruct (Hnp p Hp) as [Hs Hn]. rewrite matches_prefix in Hm by done.
by apply bool_decide_eq_true in Hm.
Qed.
End Invalidation.

(** Decide prefixes of keys built from literals. *)
Ltac prefix_solve :=
  repeat match goal with
  | H : _ `prefix_of` _ |- _ => destruct H as [? H]; simplify_eq/=
  | |- _ `prefix_of` _ => eexists; reflexivity
  end.

(** ** All the uses of query hooks *)

Inductive hook_use :=
  | UseTuples (t : option jstring) (f : option TupleFilter)
  | UseListObjects (t type : option jstring)
  | UseListSubjects (t type : option jstring)
  | UseObject (t : option jstring) (type id : jstring)
  | UseSubject (t : option jstring) (type id : jstring)
  | UseChangelog (t : option jstring) (since : Z) (limit : option Z)
  | UseSchema (t : option jstring)
  | UseTenants (filters : option (option jstring))
  | UseTenant (t : option jstring).

Definition query_of `{!JsNumber} (u : hook_use) : query :=
  match u with
  | UseTuples t f => useTuples t f
  | UseListObjects t ty => useListObjectAttributes t ty
  | UseListSubjects t ty => useListSubjectAttributes t ty
  | UseObject t ty id => useObjectAttributes t ty id
  | UseSubject t ty id => useSubjectAttributes t ty id
  | UseChangelog t since limit => useChangelog t (Some since) limit
  | UseSchema t => useSchema t
  | UseTenants fs => useTenants fs
  | UseTenant t => useTenant t
  end.

Section Keys.
Lemma field_part_get k k' (v : option jstring) (rest : list (jstring * jstring)) :
map_get (field_part k v ++ rest) k' =
if bool_decide (k' = js k) then match v with Some s => Some s | None => map_get rest k' end
else map_get rest k'.
Proof. destruct v; simpl; case_bool_decide; done. Qed.

Definition part_fields (k : key_part) : list (jstring * jstring) :=
match k with KObj l => l | _ => [] end.

(** A filter is determined by its part of the key. *)
Lemma filter_part_inj f g : filter_part f = filter_part g → f = g.
Proof.
intros Hfg.
assert (Hget : ∀ h, h = MkTupleFilter
  (map_get (part_fields (filter_part h)) (js "object_type"))
  (map_get (part_fields (filter_part h)) (js "object_id"))
  (map_get (part_fields (filter_part h)) (js "relation"))
  (map_get (part_fields (filter_part h)) (js "subject_type"))
  (map_get (part_fields (filter_part h)) (js "subject_id"))
  (map_get (part_fields (filter_part h)) (js "subject_relation"))).
{ intros [[] [] [] [] [] []]; reflexivity. }
by rewrite (Hget f), (Hget g), Hfg.
Qed.

Lemma present_Some t : present t = true → ∃ s, t = Some s ∧ s ≠ [].
Proof. destruct t as [s|]; [|done]. intros ?%truthy_true. eauto. Qed.

Lemma param_or_empty k ty ty' ps : or_empty ty = or_empty ty' → param k ty ps = param k ty' ps.
Proof. destruct ty as [[|]|], ty' as [[|]|]; simpl; intros; simplify_eq; done. Qed.
End Keys.

(** ** Properties *)

Section Properties.
Context (matches : query_key → query_key → bool) `{!KeyMatching matches} `{!JsNumber}.

Lemma still_fresh_elem {V} (m : mutation V) cache k :
k ∈ still_fresh matches m cache ↔ k ∈ cache ∧ invalidated matches m k = false.
Proof.
unfold still_fresh. rewrite !list_elem_of_In, List.filter_In, negb_true_iff. done.
Qed.

Lemma lists_not_fresh {V} (m : mutation V) cache k :
tuple_lists ∈ invalidates m → k ∈ still_fresh matches m cache → ¬ tuple_lists `prefix_of` k.
Proof.
rewrite still_fresh_elem. intros Hm [_ Hk] Hp.
by rewrite (invalidated_prefix matches m k tuple_lists) in Hk.
Qed.

(** After a tuple is written, deleted, or a batch is written, no cached tuple
  list is still fresh, whatever its tenant and filter: the table never keeps
  showing a list from before the write. *)
Theorem tuple_mutations_refresh_lists t t' f cache :
(tuple_list t' f ∉ still_fresh matches (useWriteTuple t) cache) ∧
(tuple_list t' f ∉ still_fresh matches (useWriteTuplesBatch t) cache) ∧
(tuple_list t' f ∉ still_fresh matches (useDeleteTuple t) cache).
Proof.
split_and!; intros Hk; (eapply lists_not_fresh in Hk; [|by left]);
  apply Hk; eexists; reflexivity.
Qed.

(** Saving the attributes of an object refreshes exactly that object's query
  and the unfiltered object list of the tenant: a list filtered by a type
  stays fresh, so an object just added does not appear in it. *)
Theorem save_object_refreshes t ty id u :
invalidated matches (useSaveObjectAttributes t ty id) (queryKey (query_of u)) = true ↔
(∃ t' ty', u = UseListObjects t' ty' ∧ or_empty t' = t ∧ or_empty ty' = []) ∨
(∃ t', u = UseObject t' ty id ∧ or_empty t' = t).
Proof.
split.
- intros Hinv. apply not_false_iff_true in Hinv.
  destruct (decide (attribute_object t ty id `prefix_of` queryKey (query_of u))) as [Hp|Hp].
  { right. destruct u; prefix_solve. injection Hp as <- <- <- <-. eauto. }
  destruct (decide (attribute_objectList t None `prefix_of` queryKey (query_of u))) as [Hq|Hq].
  { left. destruct u; prefix_solve. injection Hq as <- <- <-. eauto 10. }
  exfalso. apply Hinv, not_invalidated; [done|].
  intros p Hin. repeat (apply elem_of_cons in Hin as [->|Hin]; [done|]).
  by apply elem_of_nil in Hin.
- intros [(t' & ty' & -> & <- & Hty)|(t' & -> & <-)].
  + apply (invalidated_prefix _ _ _ (attribute_objectList (or_empty t') None));
      [by right; left|done|]. simpl. unfold attribute_objectList. by rewrite Hty.
  + by apply (invalidated_prefix _ _ _ (attribute_object (or_empty t') ty id)); [left| |].
Qed.
End Properties.



(** With a cache that matches keys by prefix. *)
Lemma tuple_mutations_refresh_lists_witness :
  let list := tuple_list (js "acme") no_filter in
  list ∉ still_fresh (H := integers) prefix_match (useDeleteTuple (js "acme")) [list].
Proof.
  exact (proj2 (proj2 (tuple_mutations_refresh_lists (H := integers) prefix_match
    (js "acme") (js "acme") no_filter [tuple_list (js "acme") no_filter]))).
Defined.

Lemma save_object_refreshes_witness :
  invalidated (H := integers) prefix_match (useSaveObjectAttributes (js "acme") (js "doc") (js "1"))
    (queryKey (query_of (UseListObjects (Some (js "acme")) None))) = true.
Proof.
  apply (save_object_refreshes (H := integers) prefix_match (js "acme") (js "doc") (js "1")).
  left. exists (Some (js "acme")), None. done.
Defined.
