(* ===== verification/Html.v ===== *)
(** * Rendered trees and components

    A React component is modelled by the tree it renders from its props and
    state, whose handlers are messages, and by what each message does to the
    state and sends to the outside.  The tree keeps the tags, texts, values,
    [disabled] flags and handlers of the JSX; props that only style
    ([className], [style], [size], [placeholder], icons' classes) are left out.

    What a user can do at a state is read off the tree: [offers]. *)

From S2P Require Import Prelude JsString.

Inductive prop (M : Type) :=
  | Attr (name : string) (v : jstring)
  | Flag (name : string) (b : bool)
  | OnClick (m : M)
  | OnChange (f : jstring → M)        (* a text input: [e.target.value] *)
  | OnValueChange (f : jstring → M)   (* a Select: the value of the item chosen *)
  | OnSubmit (m : M)
  | OnEnter (m : M)                   (* [onKeyDown] with [e.key === "Enter"] *)
  | OnOpenChange (f : bool → M).
Arguments Attr {M} name%_string v.
Arguments Flag {M} name%_string b.
Arguments OnClick {M} m.
Arguments OnChange {M} f.
Arguments OnValueChange {M} f.
Arguments OnSubmit {M} m.
Arguments OnEnter {M} m.
Arguments OnOpenChange {M} f.

Inductive html (M : Type) :=
  | Text (s : jstring)
  | El (tag : string) (ps : list (prop M)) (kids : list (html M)).
Arguments Text {M} s.
Arguments El {M} tag%_string ps kids.

(** A literal text and an element without props. *)
Abbreviation T s := (Text (js s)) (only parsing).
Abbreviation E tag kids := (El tag [] kids) (only parsing).

(** [{b && x}] in a list of children. *)
Definition when {A} (b : bool) (l : list A) : list A := if b then l else [].

(** ** Controls *)

Inductive control (M : Type) :=
  | Click (m : M)
  | Type_ (f : jstring → M)
  | Choose (values : list jstring) (f : jstring → M)
  | Toggle (f : bool → M).
Arguments Click {M} m.
Arguments Type_ {M} f.
Arguments Choose {M} values f.
Arguments Toggle {M} f.

Section Controls.
Context {M : Type}.
Implicit Types (h : html M) (ps : list (prop M)).

Definition flag (name : string) ps : bool :=
existsb (λ p, match p with Flag n b => bool_decide (n = name) && b | _ => false end) ps.

Definition attr (name : string) ps : list jstring :=
concat ((λ p, match p with
              | Attr n v => if bool_decide (n = name) then [v] else []
              | _ => [] end) <$> ps).

(** The items of a select, and the primitive the UI kit renders them as. *)
Definition is_item (tag : string) : bool :=
bool_decide (tag = "SelectItem"%string) || bool_decide (tag = "SelectPrimitive.Item"%string).

(** The values of the [SelectItem]s below an element. *)
Fixpoint items h : list jstring :=
match h with
| Text _ => []
| El tag ps kids =>
    (if is_item tag then attr "value" ps else [])
    ++ concat (items <$> kids)
end.

(** An enabled submit button below the form: without one, a form with a
  disabled submit button is not submitted, by Enter either. *)
Fixpoint can_submit h : bool :=
match h with
| Text _ => false
| El tag ps kids =>
    (bool_decide (js "submit" ∈ attr "type" ps) && negb (flag "disabled" ps))
    || existsb can_submit kids
end.

Definition prop_controls (kids : list (html M)) (p : prop M) : list (control M) :=
match p with
| Attr _ _ | Flag _ _ => []
| OnClick m | OnEnter m => [Click m]
| OnChange f => [Type_ f]
| OnValueChange f => [Choose (concat (items <$> kids)) f]
| OnSubmit m => if existsb can_submit kids then [Click m] else []
| OnOpenChange f => [Toggle f]
end.

Fixpoint controls h : list (control M) :=
match h with
| Text _ => []
| El _ ps kids =>
    (if flag "disabled" ps then [] else concat (prop_controls kids <$> ps))
    ++ concat (controls <$> kids)
end.

Definition fires (c : control M) (m : M) : Prop :=
match c with
| Click m' => m = m'
| Type_ f => ∃ v, m = f v
| Choose vs f => ∃ v, v ∈ vs ∧ m = f v
| Toggle f => ∃ b, m = f b
end.

(** The user can send [m] from what is on the screen. *)
Definition offers (hs : list (html M)) (m : M) : Prop :=
∃ c, c ∈ concat (controls <$> hs) ∧ fires c m.
End Controls.

(** A subtree of another component, whose messages are wrapped. *)
Section Map.
Context {M N : Type} (w : M → N).

Definition map_prop (p : prop M) : prop N :=
match p with
| Attr n v => Attr n v
| Flag n b => Flag n b
| OnClick m => OnClick (w m)
| OnChange f => OnChange (λ v, w (f v))
| OnValueChange f => OnValueChange (λ v, w (f v))
| OnSubmit m => OnSubmit (w m)
| OnEnter m => OnEnter (w m)
| OnOpenChange f => OnOpenChange (λ b, w (f b))
end.

Fixpoint map_html (h : html M) : html N :=
match h with
| Text s => Text s
| El tag ps kids => El tag (map_prop <$> ps) (map_html <$> kids)
end.
End Map.

(** Induction over a tree and its children. *)
Section Induction.
Context {M : Type} (P : html M → Prop).
Hypothesis (Htext : ∀ s, P (Text s)) (Hel : ∀ tag ps kids, Forall P kids → P (El tag ps kids)).

Fixpoint html_deep_ind (h : html M) : P h :=
match h with
| Text s => Htext s
| El tag ps kids =>
    Hel tag ps kids
      ((fix go (l : list (html M)) : Forall P l :=
          match l with
          | [] => List.Forall_nil _
          | k :: l => List.Forall_cons _ _ _ (html_deep_ind k) (go l)
          end) kids)
end.
End Induction.

(** What a wrapped subtree offers is what the subtree offers, wrapped. *)
Section MapFacts.
Context {M N : Type} (w : M → N).
Implicit Types (h : html M) (ps : list (prop M)).

Definition map_control (c : control M) : control N :=
match c with
| Click m => Click (w m)
| Type_ f => Type_ (λ v, w (f v))
| Choose vs f => Choose vs (λ v, w (f v))
| Toggle f => Toggle (λ b, w (f b))
end.

Lemma flag_map name ps : flag name (map_prop w <$> ps) = flag name ps.
Proof.
unfold flag. induction ps as [|q ps IH]; [done|]. cbn. by f_equal; [destruct q|exact IH].
Qed.

Lemma attr_map name ps : attr name (map_prop w <$> ps) = attr name ps.
Proof.
unfold attr. induction ps as [|q ps IH]; [done|]. cbn. by f_equal; [destruct q|apply IH].
Qed.

Lemma concat_map_kids {A} (f : html N → list A) (g : html M → list A) kids :
Forall (λ h, f (map_html w h) = g h) kids →
concat (f <$> (map_html w <$> kids)) = concat (g <$> kids).
Proof. induction 1 as [|h kids Hh Hkids IH]; [done|]. cbn. by f_equal. Qed.

Lemma items_map h : items (map_html w h) = items h.
Proof.
induction h as [s|tag ps kids IH] using html_deep_ind; [done|]. simpl.
rewrite attr_map. f_equal. by apply concat_map_kids.
Qed.

Lemma can_submit_map h : can_submit (map_html w h) = can_submit h.
Proof.
induction h as [s|tag ps kids IH] using html_deep_ind; [done|]. simpl.
rewrite attr_map, flag_map. f_equal. induction IH as [|k kids Hk Hkids IH]; [done|].
cbn. by f_equal.
Qed.

Lemma prop_controls_map kids q :
prop_controls (map_html w <$> kids) (map_prop w q) = map_control <$> prop_controls kids q.
Proof.
destruct q; try done; simpl.
- do 2 f_equal. apply concat_map_kids, Forall_true. apply items_map.
- replace (existsb can_submit (map_html w <$> kids)) with (existsb can_submit kids);
    [by destruct (existsb can_submit kids)|].
  induction kids as [|k kids IH]; [done|]. cbn. by rewrite can_submit_map, IH.
Qed.

Lemma concat_fmap_fmap {A B} (g : A → B) (l : list (list A)) :
g <$> concat l = concat ((λ k : list A, g <$> k) <$> l).
Proof. induction l as [|x l IH]; [done|]. cbn. by rewrite fmap_app, IH. Qed.

Lemma controls_map h : controls (map_html w h) = map_control <$> controls h.
Proof.
induction h as [s|tag ps kids IH] using html_deep_ind; [done|]. simpl.
rewrite flag_map, fmap_app. f_equal.
- destruct (flag "disabled" ps); [done|]. rewrite concat_fmap_fmap.
  clear IH. induction ps as [|q ps IHp]; [done|]. cbn.
  change (list_fmap _ _ (map_html w) kids) with (map_html w <$> kids).
  rewrite prop_controls_map. f_equal. exact IHp.
- rewrite concat_fmap_fmap. induction IH as [|k kids Hk Hkids IH]; [done|].
  cbn. rewrite Hk. f_equal. exact IH.
Qed.

Lemma offers_map (hs : list (html M)) c n :
c ∈ concat (controls <$> (map_html w <$> hs)) → fires c n → ∃ m, n = w m ∧ offers hs m.
Proof.
rewrite <-list_fmap_compose, elem_of_concat_fmap. intros (h & Hh & Hc) Hn.
simpl in Hc. rewrite controls_map in Hc. apply list_elem_of_fmap in Hc as (c' & -> & Hc).
assert (∃ m, n = w m ∧ fires c' m) as (m & -> & Hm).
{ destruct c'; simpl in *; destruct_hyps; subst; eauto 6. }
exists m. split; [done|]. exists c'. split; [|done]. apply elem_of_concat_fmap. eauto.
Qed.
End MapFacts.

(** The text on the screen. *)
Fixpoint shown {M} (h : html M) : jstring :=
  match h with
  | Text s => s
  | El _ _ kids => concat (shown <$> kids)
  end.

(** ** Components *)

(** [render] from props and state; [update] is the handler of each message, with
    the effects it starts; [arrives] tells which messages the outside may send
    (a promise settles) at a state. *)
Class Component (Props St Msg Eff : Type) := {
  render : Props → St → list (html Msg);
  update : Props → St → Msg → St * list Eff;
  arrives : Props → St → Msg → Prop
}.

Section Runs.
Context {Props St Msg Eff} `{comp : !Component Props St Msg Eff} (p : Props).
Implicit Types (s : St) (m : Msg).

Definition enabled s m : Prop := offers (render p s) m ∨ arrives p s m.

Definition after s m : St := fst (update p s m).
Definition sends s m : list Eff := snd (update p s m).

(** A run: the messages handled since [s0], each enabled when it came. *)
Inductive run (s0 : St) : list Msg → St → Prop :=
| run_start : run s0 [] s0
| run_message ms s m : run s0 ms s → enabled s m → run s0 (ms ++ [m]) (after s m).

Definition reachable (s0 s : St) : Prop := ∃ ms, run s0 ms s.

Lemma run_invariant (I : St → Prop) s0 ms s :
I s0 → (∀ s m, I s → enabled s m → I (after s m)) → run s0 ms s → I s.
Proof. intros H0 Hstep. induction 1; eauto. Qed.

Lemma reachable_invariant (I : St → Prop) s0 s :
I s0 → (∀ s m, I s → enabled s m → I (after s m)) → reachable s0 s → I s.
Proof. intros H0 Hstep [ms Hrun]. by eapply run_invariant. Qed.

Lemma run_cons s0 m ms s : enabled s0 m → run (after s0 m) ms s → run s0 (m :: ms) s.
Proof.
intros Hm. induction 1 as [|ms s m' Hrun IH Hm'].
- apply (run_message s0 []); [constructor|done].
- by apply (run_message s0 (m :: ms)).
Qed.

Lemma reachable_refl s : reachable s s.
Proof. exists []. constructor. Qed.

Lemma reachable_step s0 s m : reachable s0 s → enabled s m → reachable s0 (after s m).
Proof. intros [ms Hrun] Hm. exists (ms ++ [m]). by constructor. Qed.
End Runs.

#[export] Hint Resolve reachable_refl reachable_step : console.

(** The number of messages of a kind in a run. *)
Definition count {A} (q : A → bool) (ms : list A) : nat := length (List.filter q ms).

Lemma count_snoc {A} (q : A → bool) ms m :
  count q (ms ++ [m]) = count q ms + if q m then 1 else 0.
Proof. unfold count. rewrite List.filter_app, length_app. simpl. by destruct (q m). Qed.

(** ** The inputs and selects of [components/ui] *)

Section Widgets.
Context {M : Type}.
Implicit Types (f : jstring → M) (v : jstring) (vs : list jstring).

Definition input v f : html M := El "Input" [Attr "value" v; OnChange f] [].

Definition input_disabled (disabled : bool) v f : html M :=
El "Input" [Attr "value" v; OnChange f; Flag "disabled" disabled] [].

(** An input that also acts on the Enter key. *)
Definition input_enter v f (m : M) : html M :=
El "Input" [Attr "value" v; OnChange f; OnEnter m] [].

Definition select_item v (label : html M) : html M := El "SelectItem" [Attr "value" v] [label].

(** A [Select] over the given [SelectItem]s. *)
Definition select v f (placeholder : string) (kids : list (html M)) : html M :=
El "Select" [Attr "value" v; OnValueChange f]
  [E "SelectTrigger" [El "SelectValue" [Attr "placeholder" (js placeholder)] []];
   E "SelectContent" kids].

Definition select_disabled (disabled : bool) v f (placeholder : string) (kids : list (html M)) : html M :=
El "Select" [Attr "value" v; OnValueChange f; Flag "disabled" disabled]
  [E "SelectTrigger" [El "SelectValue" [Attr "placeholder" (js placeholder)] []];
   E "SelectContent" kids].

Definition select_of v f (placeholder : string) vs : html M :=
select v f placeholder ((λ x, select_item x (Text x)) <$> vs).

(** [<Button type="submit" disabled={...}>] *)
Definition submit_button (disabled : bool) (kids : list (html M)) : html M :=
El "Button" [Attr "type" (js "submit"); Flag "disabled" disabled] kids.

(** [<Dialog open={...} onOpenChange={...}>]: its content exists while it is open. *)
Definition dialog (open : bool) (f : bool → M) (trigger content : list (html M)) : html M :=
El "Dialog" [Flag "open" open; OnOpenChange f]
  (trigger ++ when open [E "DialogContent" content]).

Definition form_el (m : M) (kids : list (html M)) : html M := El "form" [OnSubmit m] kids.

Definition button (disabled : bool) (m : M) (kids : list (html M)) : html M :=
El "Button" [OnClick m; Flag "disabled" disabled] kids.

Lemma items_text vs : concat (items <$> ((λ x, select_item x (Text x) : html M) <$> vs)) = vs.
Proof. induction vs as [|v vs IH]; [done|]. cbn. by rewrite <-IH at 2. Qed.

Lemma controls_text vs :
concat (controls <$> ((λ x, select_item x (Text x) : html M) <$> vs)) = [].
Proof. by induction vs. Qed.

Lemma controls_input v f : controls (input v f) = [Type_ f].
Proof. done. Qed.

Lemma controls_input_enter v f m : controls (input_enter v f m) = [Type_ f; Click m].
Proof. done. Qed.

Lemma controls_input_disabled d v f :
controls (input_disabled d v f) = if d then [] else [Type_ f].
Proof. by destruct d. Qed.

Lemma controls_select v f ph kids :
concat (controls <$> kids) = [] →
controls (select v f ph kids) = [Choose (concat (items <$> kids)) f].
Proof. intros H. cbn. change (list_fmap _ _ controls kids) with (controls <$> kids). by rewrite H, !app_nil_r. Qed.

Lemma controls_select_of v f ph vs : controls (select_of v f ph vs) = [Choose vs f].
Proof. unfold select_of. by rewrite controls_select, items_text by apply controls_text. Qed.

Lemma controls_button d m kids :
controls (button d m kids) = (if d then [] else [Click m]) ++ concat (controls <$> kids).
Proof. unfold button. by destruct d. Qed.

Lemma controls_el tag kids : controls (El tag [] kids : html M) = concat (controls <$> kids).
Proof. done. Qed.

Lemma controls_cons (h : html M) (hs : list (html M)) :
concat (controls <$> (h :: hs)) = controls h ++ concat (controls <$> hs).
Proof. done. Qed.

Lemma controls_nil : concat (controls <$> ([] : list (html M))) = [].
Proof. done. Qed.

Lemma controls_app (hs ks : list (html M)) :
concat (controls <$> (hs ++ ks)) = concat (controls <$> hs) ++ concat (controls <$> ks).
Proof. by rewrite fmap_app, concat_app. Qed.

Lemma controls_when b (hs : list (html M)) :
concat (controls <$> (when b hs)) = if b then concat (controls <$> hs) else [].
Proof. by destruct b. Qed.

Lemma controls_if (b : bool) (hs ks : list (html M)) :
concat (controls <$> (if b then hs else ks)) =
if b then concat (controls <$> hs) else concat (controls <$> ks).
Proof. by destruct b. Qed.

Lemma controls_if1 (b : bool) (h k : html M) :
controls (if b then h else k) = if b then controls h else controls k.
Proof. by destruct b. Qed.

Lemma controls_attr name v tag ps kids :
controls (El tag (Attr name v :: ps) kids : html M) = controls (El tag ps kids).
Proof. done. Qed.

Lemma controls_click tag m kids :
controls (El tag [OnClick m] kids : html M) = Click m :: concat (controls <$> kids).
Proof. done. Qed.

Lemma controls_submit_button d kids :
controls (submit_button d kids) = concat (controls <$> kids).
Proof. by destruct d. Qed.

Lemma controls_dialog b (f : bool → M) trigger content :
controls (dialog b f trigger content) =
Toggle f :: concat (controls <$> trigger) ++ if b then concat (controls <$> content) else [].
Proof.
unfold dialog. destruct b; cbn;
  by rewrite !fmap_app, !concat_app; cbn; rewrite ?app_nil_r.
Qed.

Lemma controls_open tag b (f : bool → M) kids :
controls (El tag [Flag "open" b; OnOpenChange f] kids) = Toggle f :: concat (controls <$> kids).
Proof. done. Qed.

Lemma controls_form (m : M) kids :
controls (form_el m kids) =
(if existsb can_submit kids then [Click m] else []) ++ concat (controls <$> kids).
Proof. unfold form_el. cbn. by rewrite app_nil_r. Qed.

Lemma submit_el tag kids : can_submit (El tag [] kids : html M) = existsb can_submit kids.
Proof. done. Qed.

Lemma submit_cons (h : html M) hs : existsb can_submit (h :: hs) = can_submit h || existsb can_submit hs.
Proof. done. Qed.

Lemma submit_nil : existsb can_submit ([] : list (html M)) = false.
Proof. done. Qed.

Lemma submit_app (hs ks : list (html M)) :
existsb can_submit (hs ++ ks) = existsb can_submit hs || existsb can_submit ks.
Proof. apply existsb_app. Qed.

Lemma submit_when b (hs : list (html M)) :
existsb can_submit (when b hs) = b && existsb can_submit hs.
Proof. by destruct b. Qed.

Lemma submit_leaf s : can_submit (Text s : html M) = false.
Proof. done. Qed.

Lemma submit_input v f : can_submit (input v f) = false.
Proof. done. Qed.

Lemma submit_input_disabled d v f : can_submit (input_disabled d v f) = false.
Proof. done. Qed.

Lemma submit_select_of v f ph vs : can_submit (select_of v f ph vs) = false.
Proof. cbn. rewrite orb_false_r. by induction vs. Qed.

Lemma submit_submit_button d kids :
can_submit (submit_button d kids) = negb d || existsb can_submit kids.
Proof. by destruct d. Qed.

Lemma submit_if (b : bool) (h k : html M) :
can_submit (if b then h else k) = if b then can_submit h else can_submit k.
Proof. by destruct b. Qed.

Lemma if_same {A} (b : bool) (x : A) : (if b then x else x) = x.
Proof. by destruct b. Qed.

Lemma controls_leaf s : controls (Text s : html M) = [].
Proof. done. Qed.

Lemma elem_of_controls {A} (f : A → html M) (l : list A) c :
c ∈ concat (controls <$> (f <$> l)) ↔ ∃ x, x ∈ l ∧ c ∈ controls (f x).
Proof. rewrite <-list_fmap_compose, elem_of_concat_fmap. done. Qed.

Lemma elem_of_controls_imap {A} (f : nat → A → html M) (l : list A) c :
c ∈ concat (controls <$> imap f l) ↔ ∃ i x, l !! i = Some x ∧ c ∈ controls (f i x).
Proof.
rewrite elem_of_concat_fmap. split.
- intros (h & (i & x & -> & Hx)%elem_of_lookup_imap_1 & Hc). eauto.
- intros (i & x & Hx & Hc). exists (f i x). split; [by apply elem_of_lookup_imap_2|done].
Qed.

End Widgets.

#[global] Arguments input : simpl never.
#[global] Arguments input_disabled : simpl never.
#[global] Arguments input_enter : simpl never.
#[global] Arguments select : simpl never.
#[global] Arguments select_disabled : simpl never.
#[global] Arguments select_of : simpl never.
#[global] Arguments button : simpl never.
#[global] Arguments submit_button : simpl never.
#[global] Arguments dialog : simpl never.
#[global] Arguments form_el : simpl never.
#[export] Hint Rewrite @controls_input @controls_input_enter @controls_input_disabled @controls_select_of
  @controls_button @controls_el @controls_leaf @controls_cons @controls_nil @controls_app
  @controls_when @controls_if @controls_if1 @controls_attr @controls_click
  @controls_submit_button @controls_dialog @controls_open @controls_form
  @submit_el @submit_cons @submit_nil @submit_app @submit_when @submit_leaf @submit_input
  @submit_input_disabled @submit_select_of @submit_submit_button @submit_if @if_same
  orb_false_l orb_false_r andb_false_r : controls_rw.

(** The names a select over [names], or an input shown when there are none, accepts. *)
Definition choosable (names : list jstring) (v : jstring) : Prop := names = [] ∨ v ∈ names.

(** The controls of a rendered tree, one case per control that can send the
    message. *)
Ltac offers_cases H :=
  let c := fresh "c" in let Hc := fresh "Hc" in let Hm := fresh "Hm" in
  destruct H as (c & Hc & Hm); autorewrite with controls_rw in Hc;
  repeat match goal with
  | H : _ ∈ concat (controls <$> (map_html _ <$> _)) |- _ =>
      apply (offers_map _ _ _ _ H) in Hm as (? & Hm & ?); clear H
  | H : _ ∈ concat (controls <$> imap _ _) |- _ =>
      apply elem_of_controls_imap in H as (? & ? & ? & H); cbv beta in H; autorewrite with controls_rw in H
  | H : _ ∈ concat (controls <$> (_ <$> _)) |- _ =>
      apply elem_of_controls in H as (? & ? & H); cbv beta in H; autorewrite with controls_rw in H
  | H : _ ∈ _ ++ _ |- _ => apply elem_of_app in H as [H|H]
  | H : _ ∈ _ :: _ |- _ => apply elem_of_cons in H as [->|H]
  | H : _ ∈ [] |- _ => by apply elem_of_nil in H
  | H : _ ∈ (if ?b then _ else _) |- _ => destruct b eqn:?
  end; try (simpl in Hm; destruct_hyps; subst); simplify_eq; bool_prop; try done.

(** A message the [n]th control of a concrete screen sends. *)
Ltac offer n :=
  eexists; split; [apply (list_elem_of_lookup_2 _ n); reflexivity|simpl; repeat first [reflexivity | eexists]].
