(* ===== verification/UiKit.v ===== *)
(** * The UI kit

    [console/src/components/ui/]: each component of the kit as the tree it renders
    from its props and children, over the primitives of [radix-ui], [cmdk] and
    [sonner], which are tags here.  A component keeps the name of the source.  As in
    Html.v, [className] and what only styles ([style], [icons]) are left out.

    [expand] replaces the tags of the kit in a tree of a page by what the kit
    renders for them; [UiKitFacts.v] shows that the user can do the same. *)

From S2P Require Import Prelude JsString Html.

Section Props.
Context {M : Type}.
Implicit Types (p : prop M) (ps fixed : list (prop M)).

(** The name of a prop that is not a handler. *)
Definition prop_name p : option string :=
match p with Attr n _ | Flag n _ => Some n | _ => None end.

Definition named (names : list string) p : bool :=
match prop_name p with Some n => bool_decide (n ∈ names) | None => false end.

(** [{a, b, ...props}]: the props without those taken out by name. *)
Definition without (names : list string) ps : list (prop M) :=
base.filter (λ p, named names p = false) ps.

(** [<Tag a={..} b={..} {...props}>]: a prop of the caller replaces the fixed one of
  the same name. *)
Definition spread fixed ps : list (prop M) :=
base.filter (λ p, named (omap prop_name ps) p = false) fixed ++ ps.

(** [name = d] of a parameter list, for a text and for a boolean. *)
Definition attr_or (name d : string) ps : jstring := default (js d) (last (attr name ps)).

Definition flags (name : string) ps : list bool :=
omap (λ p, match p with Flag n b => if bool_decide (n = name) then Some b else None | _ => None end) ps.

Definition flag_or (name : string) (d : bool) ps : bool := default d (last (flags name ps)).

(** [as={name}] of a prop that may be undefined. *)
Definition given_attr (name as_ : string) ps : list (prop M) := (λ v, Attr as_ v) <$> attr name ps.
Definition given_flag (name as_ : string) ps : list (prop M) := (λ b, Flag as_ b) <$> flags name ps.

Definition data_slot (s : string) : prop M := Attr "data-slot" (js s).

(** An element with its fixed props, then the rest of the caller's. *)
Definition jsx (tag : string) fixed (taken : list string) ps (kids : list (html M)) : html M :=
El tag (spread fixed (without taken ps)) kids.
End Props.

Section Kit.
Context {M : Type}.
Implicit Types (ps : list (prop M)) (kids : list (html M)).

(** ** badge.tsx, button.tsx, card.tsx *)

Definition Badge ps kids : html M :=
let Comp := if flag_or "asChild" false ps then "Slot.Root" else "span" in
jsx Comp [data_slot "badge"; Attr "data-variant" (attr_or "variant" "default" ps)] ["variant"; "asChild"] ps kids.

Definition Button ps kids : html M :=
let Comp := if flag_or "asChild" false ps then "Slot.Root" else "button" in
jsx Comp [data_slot "button"; Attr "data-variant" (attr_or "variant" "default" ps);
          Attr "data-size" (attr_or "size" "default" ps)] ["variant"; "size"; "asChild"] ps kids.

Definition Card ps kids : html M := jsx "div" [data_slot "card"] [] ps kids.
Definition CardHeader ps kids : html M := jsx "div" [data_slot "card-header"] [] ps kids.
Definition CardTitle ps kids : html M := jsx "div" [data_slot "card-title"] [] ps kids.
Definition CardDescription ps kids : html M := jsx "div" [data_slot "card-description"] [] ps kids.
Definition CardAction ps kids : html M := jsx "div" [data_slot "card-action"] [] ps kids.
Definition CardContent ps kids : html M := jsx "div" [data_slot "card-content"] [] ps kids.
Definition CardFooter ps kids : html M := jsx "div" [data_slot "card-footer"] [] ps kids.

(** ** dialog.tsx *)

Definition Dialog ps kids : html M := jsx "DialogPrimitive.Root" [data_slot "dialog"] [] ps kids.
Definition DialogTrigger ps kids : html M := jsx "DialogPrimitive.Trigger" [data_slot "dialog-trigger"] [] ps kids.
Definition DialogPortal ps kids : html M := jsx "DialogPrimitive.Portal" [data_slot "dialog-portal"] [] ps kids.
Definition DialogClose ps kids : html M := jsx "DialogPrimitive.Close" [data_slot "dialog-close"] [] ps kids.
Definition DialogOverlay ps kids : html M := jsx "DialogPrimitive.Overlay" [data_slot "dialog-overlay"] [] ps kids.

Definition DialogContent ps kids : html M :=
DialogPortal [data_slot "dialog-portal"] [
  DialogOverlay [] [];
  jsx "DialogPrimitive.Content" [data_slot "dialog-content"] ["showCloseButton"] ps
    (kids ++ when (flag_or "showCloseButton" true ps)
      [El "DialogPrimitive.Close" [data_slot "dialog-close"] [E "XIcon" []; E "span" [T "Close"]]])].

Definition DialogHeader ps kids : html M := jsx "div" [data_slot "dialog-header"] [] ps kids.

Definition DialogFooter ps kids : html M :=
jsx "div" [data_slot "dialog-footer"] ["showCloseButton"] ps
  (kids ++ when (flag_or "showCloseButton" false ps)
    [El "DialogPrimitive.Close" [Flag "asChild" true] [Button [Attr "variant" (js "outline")] [T "Close"]]]).

Definition DialogTitle ps kids : html M := jsx "DialogPrimitive.Title" [data_slot "dialog-title"] [] ps kids.
Definition DialogDescription ps kids : html M := jsx "DialogPrimitive.Description" [data_slot "dialog-description"] [] ps kids.

(** ** command.tsx *)

Definition Command ps kids : html M := jsx "CommandPrimitive" [data_slot "command"] [] ps kids.

Definition CommandDialog ps kids : html M :=
Dialog (without ["title"; "description"; "showCloseButton"] ps) [
  DialogHeader [] [
    DialogTitle [] [Text (attr_or "title" "Command Palette" ps)];
    DialogDescription [] [Text (attr_or "description" "Search for a command to run..." ps)]];
  DialogContent [Flag "showCloseButton" (flag_or "showCloseButton" true ps)] [Command [] kids]].

Definition CommandInput ps kids : html M :=
El "div" [data_slot "command-input-wrapper"] [
  E "SearchIcon" [];
  jsx "CommandPrimitive.Input" [data_slot "command-input"] [] ps kids].

Definition CommandList ps kids : html M := jsx "CommandPrimitive.List" [data_slot "command-list"] [] ps kids.
Definition CommandEmpty ps kids : html M := jsx "CommandPrimitive.Empty" [data_slot "command-empty"] [] ps kids.
Definition CommandGroup ps kids : html M := jsx "CommandPrimitive.Group" [data_slot "command-group"] [] ps kids.
Definition CommandSeparator ps kids : html M := jsx "CommandPrimitive.Separator" [data_slot "command-separator"] [] ps kids.
Definition CommandItem ps kids : html M := jsx "CommandPrimitive.Item" [data_slot "command-item"] [] ps kids.
Definition CommandShortcut ps kids : html M := jsx "span" [data_slot "command-shortcut"] [] ps kids.

(** ** dropdown-menu.tsx *)

Definition DropdownMenu ps kids : html M := jsx "DropdownMenuPrimitive.Root" [data_slot "dropdown-menu"] [] ps kids.
Definition DropdownMenuPortal ps kids : html M :=
jsx "DropdownMenuPrimitive.Portal" [data_slot "dropdown-menu-portal"] [] ps kids.
Definition DropdownMenuTrigger ps kids : html M :=
jsx "DropdownMenuPrimitive.Trigger" [data_slot "dropdown-menu-trigger"] [] ps kids.

Definition DropdownMenuContent ps kids : html M :=
E "DropdownMenuPrimitive.Portal" [
  jsx "DropdownMenuPrimitive.Content"
    [data_slot "dropdown-menu-content"; Attr "sideOffset" (attr_or "sideOffset" "4" ps)] ["sideOffset"] ps kids].

Definition DropdownMenuGroup ps kids : html M :=
jsx "DropdownMenuPrimitive.Group" [data_slot "dropdown-menu-group"] [] ps kids.

Definition DropdownMenuItem ps kids : html M :=
jsx "DropdownMenuPrimitive.Item"
  ([data_slot "dropdown-menu-item"] ++ given_flag "inset" "data-inset" ps ++
   [Attr "data-variant" (attr_or "variant" "default" ps)]) ["inset"; "variant"] ps kids.

(** The mark before a checked item. *)
Definition ItemIndicator (icon : string) : html M :=
E "span" [E "DropdownMenuPrimitive.ItemIndicator" [E icon []]].

Definition DropdownMenuCheckboxItem ps kids : html M :=
jsx "DropdownMenuPrimitive.CheckboxItem"
  ([data_slot "dropdown-menu-checkbox-item"] ++ given_flag "checked" "checked" ps) ["checked"] ps
  (ItemIndicator "CheckIcon" :: kids).

Definition DropdownMenuRadioGroup ps kids : html M :=
jsx "DropdownMenuPrimitive.RadioGroup" [data_slot "dropdown-menu-radio-group"] [] ps kids.

Definition DropdownMenuRadioItem ps kids : html M :=
jsx "DropdownMenuPrimitive.RadioItem" [data_slot "dropdown-menu-radio-item"] [] ps (ItemIndicator "CircleIcon" :: kids).

Definition DropdownMenuLabel ps kids : html M :=
jsx "DropdownMenuPrimitive.Label" ([data_slot "dropdown-menu-label"] ++ given_flag "inset" "data-inset" ps) ["inset"] ps kids.

Definition DropdownMenuSeparator ps kids : html M :=
jsx "DropdownMenuPrimitive.Separator" [data_slot "dropdown-menu-separator"] [] ps kids.
Definition DropdownMenuShortcut ps kids : html M := jsx "span" [data_slot "dropdown-menu-shortcut"] [] ps kids.
Definition DropdownMenuSub ps kids : html M := jsx "DropdownMenuPrimitive.Sub" [data_slot "dropdown-menu-sub"] [] ps kids.

Definition DropdownMenuSubTrigger ps kids : html M :=
jsx "DropdownMenuPrimitive.SubTrigger"
  ([data_slot "dropdown-menu-sub-trigger"] ++ given_flag "inset" "data-inset" ps) ["inset"] ps
  (kids ++ [E "ChevronRightIcon" []]).

Definition DropdownMenuSubContent ps kids : html M :=
jsx "DropdownMenuPrimitive.SubContent" [data_slot "dropdown-menu-sub-content"] [] ps kids.

(** ** input.tsx, label.tsx, popover.tsx *)

Definition Input ps kids : html M :=
jsx "input" (given_attr "type" "type" ps ++ [data_slot "input"]) ["type"] ps kids.

Definition Label ps kids : html M := jsx "LabelPrimitive.Root" [data_slot "label"] [] ps kids.

Definition Popover ps kids : html M := jsx "PopoverPrimitive.Root" [data_slot "popover"] [] ps kids.
Definition PopoverTrigger ps kids : html M := jsx "PopoverPrimitive.Trigger" [data_slot "popover-trigger"] [] ps kids.

Definition PopoverContent ps kids : html M :=
E "PopoverPrimitive.Portal" [
  jsx "PopoverPrimitive.Content"
    [data_slot "popover-content"; Attr "align" (attr_or "align" "center" ps);
     Attr "sideOffset" (attr_or "sideOffset" "4" ps)] ["align"; "sideOffset"] ps kids].

Definition PopoverAnchor ps kids : html M := jsx "PopoverPrimitive.Anchor" [data_slot "popover-anchor"] [] ps kids.
Definition PopoverHeader ps kids : html M := jsx "div" [data_slot "popover-header"] [] ps kids.
Definition PopoverTitle ps kids : html M := jsx "div" [data_slot "popover-title"] [] ps kids.
Definition PopoverDescription ps kids : html M := jsx "p" [data_slot "popover-description"] [] ps kids.

(** ** select.tsx *)

Definition Select ps kids : html M := jsx "SelectPrimitive.Root" [data_slot "select"] [] ps kids.
Definition SelectGroup ps kids : html M := jsx "SelectPrimitive.Group" [data_slot "select-group"] [] ps kids.
Definition SelectValue ps kids : html M := jsx "SelectPrimitive.Value" [data_slot "select-value"] [] ps kids.

Definition SelectTrigger ps kids : html M :=
jsx "SelectPrimitive.Trigger" [data_slot "select-trigger"; Attr "data-size" (attr_or "size" "default" ps)] ["size"] ps
  (kids ++ [El "SelectPrimitive.Icon" [Flag "asChild" true] [E "ChevronDownIcon" []]]).

Definition SelectScrollUpButton ps kids : html M :=
jsx "SelectPrimitive.ScrollUpButton" [data_slot "select-scroll-up-button"] [] ps [E "ChevronUpIcon" []].
Definition SelectScrollDownButton ps kids : html M :=
jsx "SelectPrimitive.ScrollDownButton" [data_slot "select-scroll-down-button"] [] ps [E "ChevronDownIcon" []].

Definition SelectContent ps kids : html M :=
E "SelectPrimitive.Portal" [
  jsx "SelectPrimitive.Content"
    [data_slot "select-content"; Attr "position" (attr_or "position" "item-aligned" ps);
     Attr "align" (attr_or "align" "center" ps)] ["position"; "align"] ps
    [SelectScrollUpButton [] []; E "SelectPrimitive.Viewport" kids; SelectScrollDownButton [] []]].

Definition SelectLabel ps kids : html M := jsx "SelectPrimitive.Label" [data_slot "select-label"] [] ps kids.

Definition SelectItem ps kids : html M :=
jsx "SelectPrimitive.Item" [data_slot "select-item"] [] ps [
  El "span" [data_slot "select-item-indicator"] [E "SelectPrimitive.ItemIndicator" [E "CheckIcon" []]];
  E "SelectPrimitive.ItemText" kids].

Definition SelectSeparator ps kids : html M := jsx "SelectPrimitive.Separator" [data_slot "select-separator"] [] ps kids.

(** ** separator.tsx, sheet.tsx, skeleton.tsx, sonner.tsx *)

Definition Separator ps kids : html M :=
jsx "SeparatorPrimitive.Root"
  [data_slot "separator"; Flag "decorative" (flag_or "decorative" true ps);
   Attr "orientation" (attr_or "orientation" "horizontal" ps)] ["orientation"; "decorative"] ps kids.

Definition Sheet ps kids : html M := jsx "SheetPrimitive.Root" [data_slot "sheet"] [] ps kids.
Definition SheetTrigger ps kids : html M := jsx "SheetPrimitive.Trigger" [data_slot "sheet-trigger"] [] ps kids.
Definition SheetClose ps kids : html M := jsx "SheetPrimitive.Close" [data_slot "sheet-close"] [] ps kids.
Definition SheetPortal ps kids : html M := jsx "SheetPrimitive.Portal" [data_slot "sheet-portal"] [] ps kids.
Definition SheetOverlay ps kids : html M := jsx "SheetPrimitive.Overlay" [data_slot "sheet-overlay"] [] ps kids.

Definition SheetContent ps kids : html M :=
SheetPortal [] [
  SheetOverlay [] [];
  jsx "SheetPrimitive.Content" [data_slot "sheet-content"] ["side"; "showCloseButton"] ps
    (kids ++ when (flag_or "showCloseButton" true ps)
      [E "SheetPrimitive.Close" [E "XIcon" []; E "span" [T "Close"]]])].

Definition SheetHeader ps kids : html M := jsx "div" [data_slot "sheet-header"] [] ps kids.
Definition SheetFooter ps kids : html M := jsx "div" [data_slot "sheet-footer"] [] ps kids.
Definition SheetTitle ps kids : html M := jsx "SheetPrimitive.Title" [data_slot "sheet-title"] [] ps kids.
Definition SheetDescription ps kids : html M := jsx "SheetPrimitive.Description" [data_slot "sheet-description"] [] ps kids.

Definition Skeleton ps kids : html M := jsx "div" [data_slot "skeleton"] [] ps kids.

(** [theme] is what [useTheme] gives. *)
Definition Toaster (theme : option jstring) ps kids : html M :=
jsx "Sonner" [Attr "theme" (default (js "system") theme)] [] ps kids.

(** ** table.tsx, tabs.tsx, tooltip.tsx *)

Definition Table ps kids : html M :=
El "div" [data_slot "table-container"] [jsx "table" [data_slot "table"] [] ps kids].

Definition TableHeader ps kids : html M := jsx "thead" [data_slot "table-header"] [] ps kids.
Definition TableBody ps kids : html M := jsx "tbody" [data_slot "table-body"] [] ps kids.
Definition TableFooter ps kids : html M := jsx "tfoot" [data_slot "table-footer"] [] ps kids.
Definition TableRow ps kids : html M := jsx "tr" [data_slot "table-row"] [] ps kids.
Definition TableHead ps kids : html M := jsx "th" [data_slot "table-head"] [] ps kids.
Definition TableCell ps kids : html M := jsx "td" [data_slot "table-cell"] [] ps kids.
Definition TableCaption ps kids : html M := jsx "caption" [data_slot "table-caption"] [] ps kids.

Definition Tabs ps kids : html M :=
let orientation := attr_or "orientation" "horizontal" ps in
jsx "TabsPrimitive.Root" [data_slot "tabs"; Attr "data-orientation" orientation; Attr "orientation" orientation]
  ["orientation"] ps kids.

Definition TabsList ps kids : html M :=
jsx "TabsPrimitive.List" [data_slot "tabs-list"; Attr "data-variant" (attr_or "variant" "default" ps)] ["variant"] ps kids.

Definition TabsTrigger ps kids : html M := jsx "TabsPrimitive.Trigger" [data_slot "tabs-trigger"] [] ps kids.
Definition TabsContent ps kids : html M := jsx "TabsPrimitive.Content" [data_slot "tabs-content"] [] ps kids.

Definition TooltipProvider ps kids : html M :=
jsx "TooltipPrimitive.Provider"
  [data_slot "tooltip-provider"; Attr "delayDuration" (attr_or "delayDuration" "0" ps)] ["delayDuration"] ps kids.

Definition Tooltip ps kids : html M := jsx "TooltipPrimitive.Root" [data_slot "tooltip"] [] ps kids.
Definition TooltipTrigger ps kids : html M := jsx "TooltipPrimitive.Trigger" [data_slot "tooltip-trigger"] [] ps kids.

Definition TooltipContent ps kids : html M :=
E "TooltipPrimitive.Portal" [
  jsx "TooltipPrimitive.Content"
    [data_slot "tooltip-content"; Attr "sideOffset" (attr_or "sideOffset" "0" ps)] ["sideOffset"] ps
    (kids ++ [E "TooltipPrimitive.Arrow" []])].

(** ** Pages over the kit *)

Section Expand.
Context (theme : option jstring).

(** What the pages import; the scroll buttons are used by [SelectContent] alone. *)
Definition components : list (string * (list (prop M) → list (html M) → html M)) := [
  ("Badge", Badge); ("Button", Button); ("Card", Card); ("CardHeader", CardHeader); ("CardTitle", CardTitle);
  ("CardDescription", CardDescription); ("CardAction", CardAction); ("CardContent", CardContent);
  ("CardFooter", CardFooter); ("Dialog", Dialog); ("DialogTrigger", DialogTrigger); ("DialogPortal", DialogPortal);
  ("DialogClose", DialogClose); ("DialogOverlay", DialogOverlay); ("DialogContent", DialogContent);
  ("DialogHeader", DialogHeader); ("DialogFooter", DialogFooter); ("DialogTitle", DialogTitle);
  ("DialogDescription", DialogDescription); ("Command", Command); ("CommandDialog", CommandDialog);
  ("CommandInput", CommandInput); ("CommandList", CommandList); ("CommandEmpty", CommandEmpty);
  ("CommandGroup", CommandGroup); ("CommandSeparator", CommandSeparator); ("CommandItem", CommandItem);
  ("CommandShortcut", CommandShortcut); ("DropdownMenu", DropdownMenu); ("DropdownMenuPortal", DropdownMenuPortal);
  ("DropdownMenuTrigger", DropdownMenuTrigger); ("DropdownMenuContent", DropdownMenuContent);
  ("DropdownMenuGroup", DropdownMenuGroup); ("DropdownMenuItem", DropdownMenuItem);
  ("DropdownMenuCheckboxItem", DropdownMenuCheckboxItem); ("DropdownMenuRadioGroup", DropdownMenuRadioGroup);
  ("DropdownMenuRadioItem", DropdownMenuRadioItem); ("DropdownMenuLabel", DropdownMenuLabel);
  ("DropdownMenuSeparator", DropdownMenuSeparator); ("DropdownMenuShortcut", DropdownMenuShortcut);
  ("DropdownMenuSub", DropdownMenuSub); ("DropdownMenuSubTrigger", DropdownMenuSubTrigger);
  ("DropdownMenuSubContent", DropdownMenuSubContent); ("Input", Input); ("Label", Label); ("Popover", Popover);
  ("PopoverTrigger", PopoverTrigger); ("PopoverContent", PopoverContent); ("PopoverAnchor", PopoverAnchor);
  ("PopoverHeader", PopoverHeader); ("PopoverTitle", PopoverTitle); ("PopoverDescription", PopoverDescription);
  ("Select", Select); ("SelectGroup", SelectGroup); ("SelectValue", SelectValue); ("SelectTrigger", SelectTrigger);
  ("SelectContent", SelectContent); ("SelectLabel", SelectLabel); ("SelectItem", SelectItem);
  ("SelectSeparator", SelectSeparator); ("Separator", Separator); ("Sheet", Sheet); ("SheetTrigger", SheetTrigger);
  ("SheetClose", SheetClose); ("SheetPortal", SheetPortal); ("SheetOverlay", SheetOverlay);
  ("SheetContent", SheetContent); ("SheetHeader", SheetHeader); ("SheetFooter", SheetFooter);
  ("SheetTitle", SheetTitle); ("SheetDescription", SheetDescription); ("Skeleton", Skeleton); ("Table", Table);
  ("TableHeader", TableHeader); ("TableBody", TableBody); ("TableFooter", TableFooter); ("TableRow", TableRow);
  ("TableHead", TableHead); ("TableCell", TableCell); ("TableCaption", TableCaption); ("Tabs", Tabs);
  ("TabsList", TabsList); ("TabsTrigger", TabsTrigger); ("TabsContent", TabsContent);
  ("TooltipProvider", TooltipProvider); ("Tooltip", Tooltip); ("TooltipTrigger", TooltipTrigger);
  ("TooltipContent", TooltipContent);
  ("Toaster", Toaster theme)].

Definition kit (tag : string) : option (list (prop M) → list (html M) → html M) :=
snd <$> find (λ c, bool_decide (c.1 = tag)) components.

Fixpoint expand (h : html M) : html M :=
match h with
| Text s => Text s
| El tag ps kids => default (El tag) (kit tag) ps (expand <$> kids)
end.
End Expand.
End Kit.
