(* ===== verification/UiKitFacts.v ===== *)
(** * What the UI kit renders

    Each component of the kit is transparent: the tree it renders has the controls,
    the select items and the submit buttons of the element it stands for.  So a page
    offers the user the same with its kit tags expanded, which is what
    [kit_keeps_offers] says; [expand_complete] says that no kit tag is left. *)

From S2P Require Import Prelude JsString Html UiKit.

Open Scope nat_scope.

(** ** Faces *)

Section Faces.
Context {M : Type}.
Implicit Types (h : html M) (ps fixed : list (prop M)) (kids : list (html M)).

(** What the rest of a page sees of a tree, and of the children of an element. *)
Definition face h := (controls h, items h, can_submit h).

Definition kids_face kids := (concat (controls <$> kids), concat (items <$> kids), existsb can_submit kids).

(** Two lists of props that act alike. *)
Definition same_props ps qs : Prop :=
attr "value" ps = attr "value" qs ∧ attr "type" ps = attr "type" qs ∧ flag "disabled" ps = flag "disabled" qs ∧
∀ kids, concat (prop_controls kids <$> ps) = concat (prop_controls kids <$> qs).

Lemma prop_controls_face kids kids' p : kids_face kids = kids_face kids' → prop_controls kids p = prop_controls kids' p.
Proof. unfold kids_face. intros [= _ H1 H2]. destruct p; try done; cbn; [by rewrite H1|by rewrite H2]. Qed.

Lemma element_face tag tag' ps qs kids kids' :
is_item tag = is_item tag' → same_props ps qs → kids_face kids = kids_face kids' →
face (El tag ps kids) = face (El tag' qs kids').
Proof.
intros Ht (Hv & Hty & Hd & Hc) Hk.
assert (Hp : concat (prop_controls kids <$> ps) = concat (prop_controls kids' <$> qs)).
{ rewrite Hc. f_equal. apply list_fmap_ext. intros _ p _. by apply prop_controls_face. }
unfold kids_face in Hk. injection Hk as H1 H2 H3. unfold face. cbn [controls items can_submit].
by rewrite Ht, Hv, Hty, Hd, Hp, H1, H2, H3.
Qed.

(** ** Props *)

Lemma same_props_refl ps : same_props ps ps.
Proof. by split_and!. Qed.

Lemma same_props_trans ps qs rs : same_props ps qs → same_props qs rs → same_props ps rs.
Proof. intros (A1 & A2 & A3 & A4) (B1 & B2 & B3 & B4). split_and!; [congruence..|]. intros kids. by rewrite A4. Qed.

(** A prop that neither acts nor is looked at. *)
Definition idle (p : prop M) : bool :=
match p with
| Attr n _ => negb (bool_decide (n = "value")) && negb (bool_decide (n = "type"))
| Flag n _ => negb (bool_decide (n = "disabled"))
| _ => false
end.

Lemma idle_cons p ps : idle p = true → same_props (p :: ps) ps.
Proof.
intros Hp. destruct p; try done; cbn in Hp; bool_prop; unfold same_props, attr, flag; cbn.
- rewrite !(bool_decide_eq_false_2 (_ = _)) by done. by split_and!.
- rewrite (bool_decide_eq_false_2 (_ = _)) by done. by split_and!.
Qed.

Lemma cons_same p ps qs : same_props ps qs → same_props (p :: ps) (p :: qs).
Proof.
intros (H1 & H2 & H3 & H4). unfold same_props, attr, flag in *. cbn. rewrite H1, H2, H3.
split_and!; [done..|]. intros kids. by rewrite H4.
Qed.

Lemma idle_filter (P : prop M → Prop) `{!∀ p, Decision (P p)} ps :
(∀ p, p ∈ ps → ¬ P p → idle p = true) → same_props (base.filter P ps) ps.
Proof.
intros Hidle. induction ps as [|p ps IH]; [apply same_props_refl|]. rewrite filter_cons.
assert (Hps : same_props (base.filter P ps) ps) by (apply IH; intros q Hq; apply Hidle; by right).
destruct (decide (P p)) as [Hp|Hp]; [by apply cons_same|].
eapply same_props_trans; [exact Hps|]. assert (Hi : idle p = true) by (apply Hidle; [by left|done]).
destruct (idle_cons p ps Hi) as (H1 & H2 & H3 & H4). by split_and!.
Qed.

(** The names taken out of the props of a component. *)
Definition spare (names : list string) : bool :=
forallb (λ n, negb (bool_decide (n = "value")) && negb (bool_decide (n = "type")) && negb (bool_decide (n = "disabled"))) names.

Lemma without_same names ps : spare names = true → same_props (without names ps) ps.
Proof.
intros Hn. apply idle_filter. intros p _ Hp. apply not_false_is_true in Hp. unfold named in Hp.
destruct p as [n v|n b| | | | | |]; try done; cbn in Hp; bool_prop;
  apply forallb_forall with (x := n) in Hn; [|by apply list_elem_of_In| |by apply list_elem_of_In]; bool_prop; cbn; bool_prop;
  by rewrite ?bool_decide_eq_false_2.
Qed.

Lemma idle_app fixed ps : forallb idle fixed = true → same_props (fixed ++ ps) ps.
Proof.
induction fixed as [|p fixed IH]; [intros _; apply same_props_refl|]. cbn. intros Hall. bool_prop.
eapply same_props_trans; [by apply idle_cons|by apply IH].
Qed.

Lemma idle_filtered (P : prop M → Prop) `{!∀ p, Decision (P p)} fixed :
forallb idle fixed = true → forallb idle (base.filter P fixed) = true.
Proof.
intros Hall. apply forallb_forall. intros p Hp%list_elem_of_In. apply list_elem_of_filter in Hp as [_ Hp].
apply (proj1 (forallb_forall idle fixed) Hall). by apply list_elem_of_In.
Qed.

Lemma spread_same fixed taken ps :
forallb idle fixed = true → spare taken = true → same_props (spread fixed (without taken ps)) ps.
Proof.
intros Hf Ht. eapply same_props_trans; [|by apply (without_same taken)]. apply idle_app. by apply idle_filtered.
Qed.

Lemma given_idle name as_ ps : bool_decide (as_ = "disabled") = false → forallb idle (given_flag name as_ ps) = true.
Proof.
intros Ha. apply forallb_forall. intros p Hp%list_elem_of_In. unfold given_flag in Hp.
apply list_elem_of_fmap in Hp as (b & -> & _). cbn. by rewrite Ha.
Qed.

(** ** Elements *)

Lemma jsx_face tag tag' fixed taken ps kids kids' :
is_item tag = is_item tag' → forallb idle fixed = true → spare taken = true →
kids_face kids = kids_face kids' → face (jsx tag fixed taken ps kids) = face (El tag' ps kids').
Proof. intros. apply element_face; [done|by apply spread_same|done]. Qed.

(** A decoration has no face, and an element without handlers has its children's. *)
Lemma kids_face_app kids kids' : kids_face kids' = ([], [], false) → kids_face (kids ++ kids') = kids_face kids.
Proof.
unfold kids_face. intros [= H1 H2 H3]. rewrite !fmap_app, !concat_app, existsb_app, H1, H2, H3.
by rewrite !app_nil_r, orb_false_r.
Qed.

Lemma kids_face_cons h kids : face h = ([], [], false) → kids_face (h :: kids) = kids_face kids.
Proof. unfold face, kids_face. intros [= H1 H2 H3]. cbn. by rewrite H1, H2, H3. Qed.

Lemma kids_face_wrap tag ps kids :
is_item tag = false → forallb idle ps = true → kids_face [El tag ps kids] = kids_face kids.
Proof.
intros Ht Hi. destruct (idle_app ps [] Hi) as (Hv & Hty & Hd & Hc). rewrite app_nil_r in Hv, Hty, Hd, Hc.
unfold kids_face. cbn. rewrite Ht, Hty, Hd, Hc. cbn. by rewrite !app_nil_r, orb_false_r.
Qed.

Lemma kids_face_one h : kids_face [h] = face h.
Proof. unfold kids_face, face. cbn. by rewrite !app_nil_r, orb_false_r. Qed.

Lemma kids_face_when b kids : kids_face kids = ([], [], false) → kids_face (when b kids) = ([], [], false).
Proof. by destruct b. Qed.

(** A wrapper without handlers around one tree. *)
Lemma wrap_face tag ps h : is_item tag = false → forallb idle ps = true → face (El tag ps [h]) = face h.
Proof. intros Ht Hi. rewrite <-!kids_face_one. by rewrite kids_face_wrap, kids_face_one. Qed.
End Faces.

(** ** The components *)

Section Components.
Context {M : Type}.
Implicit Types (h : html M) (ps : list (prop M)) (kids : list (html M)).

Definition transparent (c : string * (list (prop M) → list (html M) → html M)) : Prop :=
∀ ps kids, face (c.2 ps kids) = face (El c.1 ps kids).

(** An element with fixed props; its children are the caller's. *)
Ltac plain := intros ps kids; apply jsx_face; reflexivity.

(** ... and decorations around them. *)
Ltac decorated :=
intros ps kids; apply jsx_face; [reflexivity|by rewrite ?forallb_app, ?given_idle by reflexivity|reflexivity|];
repeat first [rewrite kids_face_cons by reflexivity
             |rewrite kids_face_app by (try apply kids_face_when; reflexivity)]; reflexivity.

Lemma DialogContent_transparent : transparent ("DialogContent", DialogContent).
Proof.
intros ps kids. cbn [fst snd]. unfold DialogContent, DialogPortal, jsx. rewrite <-kids_face_one.
rewrite kids_face_wrap, kids_face_cons, kids_face_one by reflexivity. revert ps kids. decorated.
Qed.

Lemma DialogContent_face ps kids : face (DialogContent ps kids) = face (El "DialogContent" ps kids).
Proof. exact (DialogContent_transparent ps kids). Qed.

Lemma SheetContent_transparent : transparent ("SheetContent", SheetContent).
Proof.
intros ps kids. cbn [fst snd]. unfold SheetContent, SheetPortal, jsx. rewrite <-kids_face_one.
rewrite kids_face_wrap, kids_face_cons, kids_face_one by reflexivity. revert ps kids. decorated.
Qed.

Lemma CommandDialog_transparent : transparent ("CommandDialog", CommandDialog).
Proof.
intros ps kids. cbn [fst snd]. unfold CommandDialog, Dialog. set (qs := without _ ps).
assert (Hq : same_props qs ps) by (by apply without_same).
transitivity (face (El "CommandDialog" qs kids)); [|by apply element_face].
apply jsx_face; [done..|]. rewrite kids_face_cons by reflexivity. rewrite kids_face_one, DialogContent_face.
rewrite <-kids_face_one, kids_face_wrap by reflexivity. unfold Command, jsx. by rewrite kids_face_wrap by reflexivity.
Qed.

Lemma CommandInput_transparent : transparent ("CommandInput", CommandInput).
Proof.
intros ps kids. cbn [fst snd]. unfold CommandInput. rewrite <-kids_face_one.
rewrite kids_face_wrap, kids_face_cons, kids_face_one by reflexivity. revert ps kids. plain.
Qed.

(** [Input] takes its [type] out and puts it back first. *)
Lemma attr_app name ps qs : attr name (ps ++ qs) = attr name ps ++ attr name qs.
Proof. unfold attr. by rewrite fmap_app, concat_app. Qed.

Lemma flag_app name ps qs : flag name (ps ++ qs) = flag name ps || flag name qs.
Proof. unfold flag. by rewrite existsb_app. Qed.

Lemma without_type ps :
attr "value" (without ["type"%string] ps) = attr "value" ps ∧ attr "type" (without ["type"%string] ps) = [] ∧
flag "disabled" (without ["type"%string] ps) = flag "disabled" ps ∧
∀ kids, concat (prop_controls kids <$> without ["type"%string] ps) = concat (prop_controls kids <$> ps).
Proof.
induction ps as [|p ps (H1 & H2 & H3 & H4)]; [done|]. unfold without in *. rewrite filter_cons.
destruct (named ["type"%string] p) eqn:E.
- rewrite decide_False by done. destruct p as [n v|n b| | | | | |]; try done; unfold named in E; cbn in E; bool_prop;
    set_unfold in E; destruct E as [->|[]]; unfold attr, flag in *; cbn in *; by split_and!.
- rewrite decide_True by done. unfold attr, flag in *. cbn. rewrite H1, H3. split_and!; [done| |done|intros kids; by rewrite H4].
  destruct p as [n v|n b| | | | | |]; try done. unfold named in E. cbn in E. bool_prop. cbn.
  rewrite bool_decide_eq_false_2; [done|]. intros ->. apply E. by left.
Qed.

Lemma given_type ps :
attr "value" (given_attr "type" "type" ps) = [] ∧ attr "type" (given_attr "type" "type" ps) = attr "type" ps ∧
flag "disabled" (given_attr "type" "type" ps) = false ∧
∀ kids, concat (prop_controls kids <$> given_attr "type" "type" ps) = [].
Proof.
unfold given_attr. induction (attr "type" ps) as [|v l (H1 & H2 & H3 & H4)]; [done|].
unfold attr, flag in *. cbn in *. rewrite H2. by split_and!.
Qed.

Lemma named_without name v ps : named (omap prop_name (without [name] ps)) (Attr name v : prop M) = false.
Proof.
unfold named. cbn. apply bool_decide_eq_false_2. intros (p & Hp & Hn)%list_elem_of_omap.
unfold without in Hp. apply list_elem_of_filter in Hp as [Hp _]. unfold named in Hp. rewrite Hn in Hp. bool_prop.
apply Hp. by left.
Qed.

Lemma input_props ps :
same_props (spread (given_attr "type" "type" ps ++ [data_slot "input"]) (without ["type"%string] ps)) ps.
Proof.
set (rest := without ["type"%string] ps). unfold spread. rewrite filter_app.
assert (base.filter (λ p, named (omap prop_name rest) p = false) (given_attr "type" "type" ps) = given_attr "type" "type" ps) as ->.
{ unfold given_attr. induction (attr "type" ps) as [|v l IH]; [done|]. rewrite fmap_cons, filter_cons_True, IH; [done|].
  apply named_without. }
rewrite <-app_assoc. destruct (without_type ps) as (W1 & W2 & W3 & W4). fold rest in W1, W2, W3, W4.
destruct (given_type ps) as (G1 & G2 & G3 & G4).
assert (Hslot : same_props (base.filter (λ p, named (omap prop_name rest) p = false) [data_slot "input"] ++ rest) rest)
  by (apply idle_app, idle_filtered; reflexivity).
destruct Hslot as (S1 & S2 & S3 & S4). unfold same_props. rewrite !attr_app in *. rewrite !flag_app in *.
rewrite S1, S2, S3, G1, G2, G3, W1, W2, W3. split_and!; [done|by rewrite app_nil_r|done|].
intros kids. rewrite fmap_app, concat_app, G4, S4. apply W4.
Qed.

Lemma Input_transparent : transparent ("Input", Input).
Proof. intros ps kids. apply element_face; [done|apply input_props|done]. Qed.

Lemma SelectContent_transparent : transparent ("SelectContent", SelectContent).
Proof.
intros ps kids. cbn [fst snd]. unfold SelectContent. rewrite wrap_face by reflexivity. apply jsx_face; [reflexivity..|].
rewrite kids_face_cons by reflexivity.
change [?a; ?b] with ([a] ++ [b]). rewrite kids_face_app by reflexivity. by rewrite kids_face_wrap by reflexivity.
Qed.

Lemma SelectItem_transparent : transparent ("SelectItem", SelectItem).
Proof.
intros ps kids. apply jsx_face; [reflexivity..|]. rewrite kids_face_cons by reflexivity.
by rewrite kids_face_wrap by reflexivity.
Qed.

(** A component with [asChild]. *)
Ltac slotted := intros ps kids; apply jsx_face; [cbn; by case_match|reflexivity..].

(** A component in a portal, or in a container. *)
Ltac contained :=
intros ps kids; etransitivity; [apply wrap_face; reflexivity|]; apply jsx_face; [reflexivity..|];
first [reflexivity|by rewrite kids_face_app by reflexivity].

Lemma components_transparent theme : Forall transparent (components theme).
Proof.
unfold components.
repeat first [apply List.Forall_nil
             |apply List.Forall_cons;
              [first [plain|decorated|slotted|apply DialogContent_transparent|apply SheetContent_transparent
                     |apply CommandDialog_transparent|apply CommandInput_transparent|apply Input_transparent
                     |apply SelectContent_transparent|apply SelectItem_transparent|contained]|]].
Qed.

Lemma kit_component theme tag (f : list (prop M) → list (html M) → html M) :
kit theme tag = Some f → (tag, f) ∈ components theme.
Proof.
unfold kit. destruct (find _ _) as [[t g]|] eqn:E; [|done]. intros [= <-].
apply find_Some in E as [Hc Ht%bool_decide_eq_true]. cbn in Ht. by subst.
Qed.

Lemma expand_face theme h : face (expand theme h) = face h.
Proof.
induction h as [s|tag ps kids IH] using html_deep_ind; [done|]. cbn [expand].
assert (Hk : kids_face (expand theme <$> kids) = kids_face kids).
{ induction IH as [|k kids Hk _ IHk]; [done|]. unfold kids_face, face in *. cbn.
  injection Hk as H1 H2 H3. injection IHk as K1 K2 K3. by rewrite H1, H2, H3, K1, K2, K3. }
transitivity (face (El tag ps (expand theme <$> kids))).
- destruct (kit theme tag) as [f|] eqn:E; [|done].
  exact (proj1 (Forall_forall _ _) (components_transparent theme) _ (kit_component theme tag f E) ps _).
- apply element_face; [done|apply same_props_refl|done].
Qed.

(** ** Tags *)

(** Every tag of a tree. *)
Fixpoint tags h : list string :=
match h with
| Text _ => []
| El tag _ kids => tag :: concat (tags <$> kids)
end.

(** No tag of the kit is left. *)
Definition primitive theme h : Prop := Forall (λ t, kit (M := M) theme t = None) (tags h).

Lemma primitive_text theme s : primitive theme (Text s).
Proof. apply List.Forall_nil. Qed.

Lemma primitive_el theme tag ps kids :
kit (M := M) theme tag = None → Forall (primitive theme) kids → primitive theme (El tag ps kids).
Proof.
intros Ht Hk. apply List.Forall_cons; [done|]. induction Hk as [|k kids Hp _ IH]; [apply List.Forall_nil|].
cbn. by apply Forall_app.
Qed.

Definition renders_primitive theme (c : string * (list (prop M) → list (html M) → html M)) : Prop :=
∀ ps kids, Forall (primitive theme) kids → primitive theme (c.2 ps kids).

Ltac only_primitives :=
intros ps kids Hkids; cbn [snd];
repeat first
  [assumption
  |progress cbv delta [DialogContent DialogPortal DialogOverlay DialogFooter Button CommandDialog Dialog DialogHeader
     DialogTitle DialogDescription Command CommandInput SheetContent SheetPortal SheetOverlay SelectContent
     SelectScrollUpButton SelectScrollDownButton SelectItem Table TooltipContent ItemIndicator jsx when Badge] beta zeta
  |apply primitive_text
  |apply primitive_el; [first [reflexivity|by case_match]|]
  |apply List.Forall_cons
  |apply List.Forall_nil
  |apply Forall_app; split
  |case_match].

Lemma components_primitive theme : Forall (renders_primitive theme) (components theme).
Proof. unfold components. repeat first [apply List.Forall_nil|apply List.Forall_cons; [only_primitives|]].
Qed.
End Components.

#[local] Arguments kit : simpl never.

(** ** Properties *)

(** C28: A page offers the user the same whether its tags of the UI kit are opaque or
  expanded into what the kit renders: no component of the kit drops a handler, a
  [disabled] flag, an item or a submit button of its caller, nor adds one. *)
Theorem kit_keeps_offers {M} theme (hs : list (html M)) (m : M) :
  offers (expand theme <$> hs) m ↔ offers hs m.
Proof.
  assert (Hc : controls <$> (expand theme <$> hs) = controls <$> hs).
  { rewrite <-list_fmap_compose. apply list_fmap_ext. intros _ h _. cbn.
    pose proof (expand_face theme h) as Hf. unfold face in Hf. by injection Hf. }
  unfold offers. by rewrite Hc.
Qed.

(** Expanding is complete: the tree of a page is left with the tags of HTML and of the
  primitive libraries only, and expanding it again changes nothing. *)
Theorem expand_complete {M} theme (h : html M) :
  primitive theme (expand theme h) ∧ expand theme (expand theme h) = expand theme h.
Proof.
  assert (Hp : primitive theme (expand theme h)).
  { induction h as [s|tag ps kids IH] using html_deep_ind; [apply primitive_text|]. cbn [expand].
    assert (Hk : Forall (primitive theme) (expand theme <$> kids)) by (by apply Forall_fmap).
    destruct (kit theme tag) as [f|] eqn:E; [|by apply primitive_el].
    exact (proj1 (Forall_forall _ _) (components_primitive theme) _ (kit_component theme tag f E) ps _ Hk). }
  split; [done|]. generalize dependent (expand theme h). intros k Hk.
  induction k as [s|tag ps kids IH] using html_deep_ind; [done|]. unfold primitive in Hk. cbn in Hk.
  apply Forall_cons in Hk as [Ht Hk]. cbn [expand]. rewrite Ht. cbn. f_equal.
  clear Ht. induction IH as [|k kids Hkid _ IHk]; [done|]. cbn in *. apply Forall_app in Hk as [H1 H2].
  f_equal; [by apply Hkid|by apply IHk].
Qed.
