(* ===== verification/SchemaLayout.v ===== *)
(** * Schema text: line scanning and the canonical layout

    The console carries four line-oriented readers of the YAML schema source.
    Three of them ([create-tuple-dialog.tsx], [schema-graph.tsx],
    [schema-evaluator.tsx]) open their loop with the same four lines, modelled
    here once as [for_lines].  The file also gives the abstract schema and the
    canonical layout ([configs/examples/] is written in it), the specification
    the readers are compared with. *)

From S2P Require Import Prelude JsString.

(** ** The loop the readers share *)

(** [if (!rawLine.trim() || rawLine.trimStart().startsWith("#")) continue;] *)
Definition skip_line (rawLine : jstring) : bool :=
  negb (truthy (trim rawLine)) || startsWith (trimStart rawLine) (js "#").

(** [rawLine.length - rawLine.trimStart().length] *)
Definition line_indent (rawLine : jstring) : nat :=
  length rawLine - length (trimStart rawLine).

(** One iteration: skip, or run the body on the indent and the trimmed line. *)
Definition scan_line {St} (body : St → nat → jstring → St) (st : St) (rawLine : jstring) : St :=
  if skip_line rawLine then st else body st (line_indent rawLine) (trim rawLine).

Definition for_lines {St} (body : St → nat → jstring → St) (st : St) (source : jstring) : St :=
  foldl (scan_line body) st (split NL source).

(** ** The abstract schema *)

Record relation_decl := RelationDecl {
  rd_name : jstring;
  rd_inline : bool;              (* [types: [a, b]] or one [- a] per line *)
  rd_types : list jstring }.

Record permission_decl := PermissionDecl {
  pd_name : jstring;
  pd_body : list (bool * jstring) }.  (* [true]: a list item, two deeper *)

Record type_decl := TypeDecl {
  td_name : jstring;
  td_attributes : list (jstring * jstring);
  td_relations : list relation_decl;
  td_permissions : list permission_decl }.

(** ** The canonical layout: logical lines as (indent, text) *)

Abbreviation logical := (nat * jstring)%type.

Definition lay (l : logical) : jstring := indented (fst l) (snd l).

Definition key (k : jstring) : jstring := k ++ [COLON].

Definition relation_lines (r : relation_decl) : list logical :=
  (6, key (rd_name r)) ::
  if rd_inline r
  then [(8, js "types: " ++ LBRACKET :: join (js ", ") (rd_types r) ++ [RBRACKET])]
  else (8, js "types:") :: ((λ t, (10, js "- " ++ t)) <$> rd_types r).

Definition attribute_line (a : jstring * jstring) : logical :=
  (6, key (fst a) ++ SPACE :: snd a).

Definition body_line (b : bool * jstring) : logical := (if fst b then 10 else 8, snd b).

Definition permission_lines (p : permission_decl) : list logical :=
  (6, key (pd_name p)) :: (body_line <$> pd_body p).

Definition section_lines (name : jstring) (ls : list logical) : list logical :=
  match ls with [] => [] | _ => (4, key name) :: ls end.

Definition type_lines (t : type_decl) : list logical :=
  (2, key (td_name t)) ::
  section_lines (js "attributes") (attribute_line <$> td_attributes t) ++
  section_lines (js "relations") (concat (relation_lines <$> td_relations t)) ++
  section_lines (js "permissions") (concat (permission_lines <$> td_permissions t)).

Definition schema_lines (header : list jstring) (ts : list type_decl) : list logical :=
  ((λ h, (0, h)) <$> header) ++ (0, js "types:") :: concat (type_lines <$> ts).

Definition schema_text (header : list jstring) (ts : list type_decl) : jstring :=
  join [NL] (lay <$> schema_lines header ts).

(** ** Well-formed schemas *)

Definition ref_char (c : N) : bool :=
  negb (is_ws c) && forallb (λ d, bool_decide (c ≠ d))
    [COLON; COMMA; LBRACKET; RBRACKET; SQUOTE; DQUOTE].

Definition ref_ok (s : jstring) : bool := truthy s && forallb ref_char s.

Definition name_ok (s : jstring) : bool :=
  ref_ok s && forallb (λ c, bool_decide (c ≠ HASH)) s && bool_decide (head s ≠ Some DASH).

(** Text a line may hold: no line break, no surrounding space, no comment. *)
Definition text_ok (s : jstring) : bool :=
  solid s && forallb (λ c, bool_decide (c ≠ NL)) s && bool_decide (head s ≠ Some HASH).

Definition relation_ok (r : relation_decl) : bool :=
  name_ok (rd_name r) && forallb ref_ok (rd_types r).

Definition attribute_ok (a : jstring * jstring) : bool := name_ok (fst a) && name_ok (snd a).

Definition permission_ok (p : permission_decl) : bool :=
  name_ok (pd_name p) && forallb (text_ok ∘ snd) (pd_body p).

Definition type_ok (t : type_decl) : bool :=
  name_ok (td_name t) && forallb attribute_ok (td_attributes t)
  && forallb relation_ok (td_relations t) && forallb permission_ok (td_permissions t).

Definition header_ok (h : jstring) : bool := text_ok h && bool_decide (h ≠ js "types:").

Definition schema_ok (header : list jstring) (ts : list type_decl) : bool :=
  forallb header_ok header && forallb type_ok ts.

Definition logical_ok (l : logical) : bool := text_ok (snd l).

(** The types of [configs/examples/gdrive.zanguard.yaml]. *)
Definition inline_relation (n : string) (ts : list string) : relation_decl :=
  RelationDecl (js n) true (js <$> ts).
Definition resolve (n r : string) : permission_decl :=
  PermissionDecl (js n) [(false, js "resolve: " ++ js r)].
Definition union (n : string) (items : list string) : permission_decl :=
  PermissionDecl (js n) ((false, js "union:") :: ((λ i, (true, js "- " ++ js i)) <$> items)).

Definition drive_schema : list type_decl := [
  TypeDecl (js "user")
    [(js "clearance_level", js "int"); (js "department", js "string"); (js "region", js "string")]
    [] [];
  TypeDecl (js "group") []
    [inline_relation "member" ["user"]; inline_relation "admin" ["user"]]
    [resolve "manage" "admin"];
  TypeDecl (js "folder") []
    [inline_relation "owner" ["user"]; inline_relation "viewer" ["user"; "group#member"];
     inline_relation "parent" ["folder"]]
    [union "view" ["viewer"; "owner"; "parent->view"]; resolve "edit" "owner"];
  TypeDecl (js "document")
    [(js "classification", js "string"); (js "department", js "string")]
    [inline_relation "owner" ["user"]; inline_relation "editor" ["user"; "group#member"];
     inline_relation "viewer" ["user"; "group#member"]; inline_relation "parent" ["folder"]]
    [union "view" ["viewer"; "editor"; "owner"; "parent->view"];
     union "edit" ["editor"; "owner"]; resolve "delete" "owner"; resolve "share" "owner"]].

(** ** Facts about names and lines *)

Section Text.
Implicit Types (s t n : jstring) (c : N) (l : logical) (ls : list logical).

Lemma forallb_elem {A} (p : A → bool) (k : list A) x :
forallb p k = true → x ∈ k → p x = true.
Proof. rewrite forallb_forall. intros H Hx. by apply H, list_elem_of_In. Qed.

Lemma forallb_Forall {A} (p : A → bool) (k : list A) :
forallb p k = true ↔ Forall (λ x, p x = true) k.
Proof. by rewrite forallb_forall, List.Forall_forall. Qed.

Lemma no_ws_solid s : truthy s = true → forallb (λ c, negb (is_ws c)) s = true → solid s = true.
Proof.
intros Hs H. unfold solid. destruct s as [|c s]; [done|]. simpl head.
destruct (last (c :: s)) as [d|] eqn:E; [|by apply last_None in E].
apply last_Some in E as [k E].
assert (Hd : d ∈ c :: s) by (rewrite E; apply elem_of_app; right; by left).
apply (forallb_elem _ _ d H) in Hd. apply andb_true_iff in H as [Hc _].
simpl in Hc, Hd |- *. by rewrite Hc, Hd.
Qed.

Lemma ref_char_spec c : ref_char c = true →
is_ws c = false ∧ c ≠ COLON ∧ c ≠ COMMA ∧ c ≠ LBRACKET ∧ c ≠ RBRACKET ∧ is_quote c = false.
Proof.
unfold ref_char, is_quote. simpl. intros H.
repeat (apply andb_true_iff in H as [?%bool_decide_eq_true H] || apply andb_true_iff in H as [?%negb_true_iff H]).
repeat split; try done. by rewrite !bool_decide_eq_false_2.
Qed.

Lemma ref_ok_chars s c : ref_ok s = true → c ∈ s → ref_char c = true.
Proof. intros [_ H]%andb_true_iff. by apply forallb_elem. Qed.

Lemma ref_ok_solid s : ref_ok s = true → solid s = true.
Proof.
intros [Hs H]%andb_true_iff. apply no_ws_solid; [done|].
apply forallb_Forall. apply forallb_Forall in H. eapply Forall_impl; [done|].
simpl. intros c Hc%ref_char_spec. by destruct Hc as [-> _].
Qed.

Lemma ref_ok_not_in s c : ref_ok s = true → ref_char c = false → c ∉ s.
Proof. intros H Hc Hin. apply (ref_ok_chars _ _ H) in Hin. congruence. Qed.

Lemma ref_ok_quotes s : ref_ok s = true → replace_end_quotes s = s.
Proof.
intros H. apply replace_end_quotes_id; intros c Hc;
  apply ref_char_spec, (ref_ok_chars s c H).
- destruct s; simplify_eq/=. by left.
- apply last_Some in Hc as [k ->]. apply elem_of_app. right. by left.
Qed.

Lemma name_ok_ref n : name_ok n = true → ref_ok n = true.
Proof. by intros [[? _]%andb_true_iff _]%andb_true_iff. Qed.

Lemma name_ok_head n : name_ok n = true → head n ≠ Some DASH ∧ head n ≠ Some HASH.
Proof.
intros [[_ H]%andb_true_iff ?%bool_decide_eq_true]%andb_true_iff. split; [done|].
destruct n as [|c n]; [done|]. intros [= ->]. by simpl in H.
Qed.

Lemma solid_head_text s :
text_ok s = true ↔ solid s = true ∧ (NL ∉ s) ∧ head s ≠ Some HASH.
Proof.
unfold text_ok. rewrite !andb_true_iff, bool_decide_eq_true, forallb_Forall.
assert (Hnl : Forall (λ c, bool_decide (c ≠ NL) = true) s ↔ ¬ (NL ∈ s)); [|rewrite Hnl; tauto].
rewrite Forall_forall. split.
- intros H Hin. by apply H, bool_decide_eq_true in Hin.
- intros H c Hc. apply bool_decide_eq_true. by intros ->.
Qed.

Lemma ref_ok_no_nl s : ref_ok s = true → NL ∉ s.
Proof. intros H. by eapply ref_ok_not_in. Qed.

Lemma name_ok_text n : name_ok n = true → text_ok n = true.
Proof.
intros H. apply solid_head_text. pose proof (name_ok_ref _ H) as Hr.
split_and!; [by apply ref_ok_solid|by apply ref_ok_no_nl|by apply name_ok_head].
Qed.

(** Appending text keeps the first character, hence the kind of line. *)
Lemma text_ok_app s k t :
text_ok s = true → NL ∉ k → NL ∉ t → solid t = true → text_ok (s ++ k ++ t) = true.
Proof.
rewrite !solid_head_text. intros (Hs & Hn & Hh) Hk Ht Hsol. split_and!.
- by apply solid_app.
- by rewrite !elem_of_app; intuition.
- by destruct s.
Qed.

Lemma name_ok_key n : name_ok n = true → text_ok (key n) = true.
Proof.
intros H%name_ok_text. apply (text_ok_app n [] [COLON]); [done|..|done];
  by rewrite ?elem_of_cons, ?elem_of_nil; intuition.
Qed.

Lemma name_ok_solid n : name_ok n = true → solid n = true.
Proof. auto using name_ok_ref, ref_ok_solid. Qed.

Lemma not_elem_of_join c sep ws :
c ∉ sep → Forall (λ w, c ∉ w) ws → c ∉ join sep ws.
Proof.
intros Hsep H. induction H as [|w ws Hw Hws IH]; [apply not_elem_of_nil|].
destruct ws as [|v ws]; [done|]. change (join sep (w :: v :: ws)) with (w ++ sep ++ join sep (v :: ws)).
rewrite !elem_of_app. intuition.
Qed.
End Text.

#[export] Hint Resolve name_ok_key name_ok_text name_ok_solid name_ok_ref ref_ok_solid
  ref_ok_no_nl ref_ok_quotes : console.

(** ** Lines that stay in the scan *)

Lemma scan_logical {St} (body : St → nat → jstring → St) st l :
  logical_ok l = true → scan_line body st (lay l) = body st (fst l) (snd l).
Proof.
  destruct l as [n t]. unfold logical_ok, lay. simpl.
  rewrite solid_head_text. intros (Hs & _ & Hh).
  unfold scan_line, skip_line, line_indent.
  rewrite !trim_indented, trimStart_indented, length_indented, solid_truthy by done. simpl.
  destruct (solid_cons _ Hs) as (c & t' & -> & Hc).
  unfold js. simpl. rewrite startsWith_cons.
  rewrite bool_decide_eq_false_2; [done|]. intros ->. by simpl in Hh.
Qed.

Lemma split_lay ls :
  ls ≠ [] → forallb logical_ok ls = true → split NL (join [NL] (lay <$> ls)) = lay <$> ls.
Proof.
  intros Hne Hok. apply split_join; [by destruct ls|].
  apply forallb_Forall in Hok. apply Forall_fmap. eapply Forall_impl; [done|]. simpl.
  intros [n t] (_ & Hnl & _)%solid_head_text. unfold lay, indented. simpl.
  rewrite elem_of_app. intros [H|H]; [|done].
  by apply elem_of_replicate in H as [? _].
Qed.

(** On text made of canonical lines the loop is a fold over the logical lines. *)
Lemma for_lines_lay {St} (body : St → nat → jstring → St) st ls :
  ls ≠ [] → forallb logical_ok ls = true →
  for_lines body st (join [NL] (lay <$> ls)) = foldl (λ st l, body st (fst l) (snd l)) st ls.
Proof.
  intros Hne Hok. unfold for_lines. rewrite split_lay by done.
  clear Hne. revert st. induction ls as [|l ls IH]; intros st; [done|].
  apply andb_true_iff in Hok as [Hl Hls]. simpl.
  rewrite scan_logical by done. by apply IH.
Qed.

(** Two loops whose bodies keep a relation keep it over every source. *)
Lemma for_lines_related {S1 S2} (R : S1 → S2 → Prop) b1 b2 s1 s2 source :
  (∀ s1 s2 n l, R s1 s2 → R (b1 s1 n l) (b2 s2 n l)) →
  R s1 s2 → R (for_lines b1 s1 source) (for_lines b2 s2 source).
Proof.
  intros Hb. unfold for_lines. generalize (split NL source). intros ls.
  revert s1 s2. induction ls as [|l ls IH]; intros s1 s2 HR; [done|]. simpl.
  apply IH. unfold scan_line. destruct (skip_line l); auto.
Qed.

(** What the body keeps, the loop keeps. *)
Lemma for_lines_keep {St} (P : St → Prop) body st source :
  (∀ st n l, P st → P (body st n l)) → P st → P (for_lines body st source).
Proof.
  intros Hb. apply foldl_keep. intros st' l _ H. unfold scan_line. destruct (skip_line l); auto.
Qed.

(** Blank lines and comment lines never change what the loop computes. *)
Lemma for_lines_skip {St} (body : St → nat → jstring → St) st a c b :
  NL ∉ c → skip_line c = true →
  for_lines body st (a ++ NL :: c ++ NL :: b) = for_lines body st (a ++ NL :: b).
Proof.
  intros Hnl Hskip. unfold for_lines. rewrite !split_app.
  rewrite (split_no_sep NL c), !foldl_app by done. simpl.
  by unfold scan_line at 2; rewrite Hskip.
Qed.

(** ** A well-formed schema is made of canonical lines *)

Section Lines.
Implicit Types (r : relation_decl) (p : permission_decl) (t : type_decl).

Lemma forallb_concat {A} (q : A → bool) (l : list (list A)) :
forallb q (concat l) = forallb (forallb q) l.
Proof. induction l as [|x l IH]; simpl; [done|]. by rewrite forallb_app, IH. Qed.

Lemma forallb_fmap {A B} (f : A → B) (q : B → bool) (l : list A) :
forallb q (f <$> l) = forallb (q ∘ f) l.
Proof. induction l as [|x l IH]; [done|]. cbn. by f_equal. Qed.

Lemma forallb_impl {A} (p q : A → bool) (l : list A) :
(∀ x, p x = true → q x = true) → forallb p l = true → forallb q l = true.
Proof. intros H. rewrite !forallb_Forall. intros Hl. by eapply Forall_impl. Qed.

Lemma relation_lines_ok r :
relation_ok r = true → forallb logical_ok (relation_lines r) = true.
Proof.
intros [Hn Ht]%andb_true_iff. unfold relation_lines. simpl.
apply andb_true_iff; split; [by apply name_ok_key|].
destruct (rd_inline r); simpl.
- rewrite andb_true_r. unfold logical_ok. simpl.
  apply (text_ok_app (js "types:") (SPACE :: LBRACKET :: join (js ", ") (rd_types r)) [RBRACKET]);
    [done| |decide_literal|done].
  rewrite !not_elem_of_cons. split_and!; [done..|].
  apply not_elem_of_join; [decide_literal|].
  apply forallb_Forall in Ht. eapply Forall_impl; [done|]. auto with console.
- rewrite forallb_fmap. eapply forallb_impl; [|done]. intros x Hx. simpl.
  apply (text_ok_app (js "-") [SPACE] x); auto with console; decide_literal.
Qed.

Lemma attribute_line_ok a : attribute_ok a = true → logical_ok (attribute_line a) = true.
Proof.
intros [Hk Hv]%andb_true_iff. unfold attribute_line, logical_ok. simpl.
apply (text_ok_app (key a.1) [SPACE] a.2); auto with console; decide_literal.
Qed.

Lemma permission_lines_ok p :
permission_ok p = true → forallb logical_ok (permission_lines p) = true.
Proof.
intros [Hn Hb]%andb_true_iff. simpl. apply andb_true_iff; split; [by apply name_ok_key|].
rewrite forallb_fmap. eapply forallb_impl; [|done]. done.
Qed.

Lemma section_lines_ok name ls :
text_ok (key name) = true → forallb logical_ok ls = true →
forallb logical_ok (section_lines name ls) = true.
Proof. intros Hn Hl. destruct ls; [done|]. simpl in *. by rewrite Hl, andb_true_r. Qed.

Lemma type_lines_ok t : type_ok t = true → forallb logical_ok (type_lines t) = true.
Proof.
unfold type_ok. rewrite !andb_true_iff. intros (((Hn & Ha) & Hr) & Hp).
unfold type_lines. simpl. rewrite !forallb_app, !andb_true_iff.
split_and!; [by apply name_ok_key|..]; apply section_lines_ok; try done.
- rewrite forallb_fmap. eapply forallb_impl; [|done]. apply attribute_line_ok.
- rewrite forallb_concat, forallb_fmap. eapply forallb_impl; [|done]. apply relation_lines_ok.
- rewrite forallb_concat, forallb_fmap. eapply forallb_impl; [|done]. apply permission_lines_ok.
Qed.

Lemma schema_lines_ok header ts :
schema_ok header ts = true → forallb logical_ok (schema_lines header ts) = true.
Proof.
intros [Hh Ht]%andb_true_iff. unfold schema_lines.
rewrite forallb_app, forallb_fmap. simpl. rewrite andb_true_iff. split.
- eapply forallb_impl; [|done]. by intros h [? _]%andb_true_iff.
- rewrite forallb_concat, forallb_fmap. eapply forallb_impl; [|done]. apply type_lines_ok.
Qed.
End Lines.

#[export] Hint Resolve type_lines_ok schema_lines_ok relation_lines_ok
  permission_lines_ok attribute_line_ok : console.

(** The lines of a section lie deeper than its key. *)
Lemma attribute_lines_deep l : Forall (λ l, 4 < l.1) (attribute_line <$> l).
Proof. apply Forall_fmap, Forall_true. intros a. simpl. lia. Qed.

Lemma permission_lines_deep l : Forall (λ l, 4 < l.1) (concat (permission_lines <$> l)).
Proof.
  apply Forall_concat, Forall_fmap, Forall_true. intros p. constructor; [simpl; lia|].
  apply Forall_fmap, Forall_true. intros [[] ?]; simpl; lia.
Qed.

Lemma relation_lines_deep l : Forall (λ l, 4 < l.1) (concat (relation_lines <$> l)).
Proof.
  apply Forall_concat, Forall_fmap, Forall_true. intros r. constructor; [simpl; lia|].
  destruct (rd_inline r); repeat constructor; try (simpl; lia).
  apply Forall_fmap, Forall_true. intros t. simpl. lia.
Qed.

(** ** Reading back the pieces of a canonical line *)

Section Pieces.
Implicit Types (ts : list jstring).

Lemma split_inline_list ts :
forallb ref_ok ts = true →
split COMMA (join (js ", ") ts) =
  match ts with [] => [[]] | t :: rest => t :: (cons SPACE <$> rest) end.
Proof.
destruct ts as [|t ts]; [done|]. intros [Ht Hts]%andb_true_iff.
revert t Ht. induction ts as [|u ts IH]; intros t Ht.
{ apply split_no_sep. by eapply ref_ok_not_in. }
apply andb_true_iff in Hts as [Hu Hts].
change (join (js ", ") (t :: u :: ts)) with (t ++ COMMA :: SPACE :: join (js ", ") (u :: ts)).
rewrite split_app_sep by (by eapply ref_ok_not_in). cbn [split].
rewrite bool_decide_eq_false_2, (IH Hts u Hu) by done. done.
Qed.

(** Splitting an inline list on commas, trimming and cleaning each item gives
  the references back, whatever cleaning leaves references alone. *)
Lemma inline_list_items (f : jstring → jstring) ts :
(∀ t, ref_ok t = true → f t = t) → f [] = [] → forallb ref_ok ts = true →
List.filter truthy ((λ item, f (trim item)) <$> split COMMA (join (js ", ") ts)) = ts.
Proof.
intros Hf Hnil Hts. rewrite split_inline_list by done.
destruct ts as [|t ts]; [cbn; change (trim []) with ([] : jstring); by rewrite Hnil|].
apply andb_true_iff in Hts as [Ht Hts].
assert (Htrim : ∀ u, ref_ok u = true → f (trim u) = u).
{ intros u Hu. rewrite solid_trim by (by apply ref_ok_solid). auto. }
assert (Htr : ∀ u, ref_ok u = true → truthy u = true) by auto with console.
cbn. rewrite Htrim, Htr by done. f_equal. clear Ht t.
induction ts as [|u ts IH]; [done|]. apply andb_true_iff in Hts as [Hu Hts].
cbn. change (trim (SPACE :: u)) with (trim u).
rewrite Htrim, Htr by done. f_equal. auto.
Qed.

Lemma key_endsWith n : endsWith (key n) [COLON] = true.
Proof. apply endsWith_snoc. Qed.

Lemma key_name n : name_ok n = true → trim (slice (key n) 0 (Some (-1)%Z)) = n.
Proof. intros H. unfold key. rewrite slice_drop_last. auto using solid_trim with console. Qed.

Lemma key_slice n : slice (key n) 0 (Some (-1)%Z) = n.
Proof. apply slice_drop_last. Qed.

Lemma alter_snoc {A} (f : A → A) (l : list A) x :
alter f (length l) (l ++ [x]) = l ++ [f x].
Proof.
rewrite <-(Nat.add_0_r (length l)) at 1. by rewrite alter_app_r.
Qed.

Lemma lookup_snoc {A} (l : list A) x : (l ++ [x]) !! length l = Some x.
Proof. by apply list_lookup_middle. Qed.
End Pieces.

#[export] Hint Rewrite key_endsWith key_slice @alter_snoc @lookup_snoc : console_rw.
#[export] Hint Rewrite key_name using (by auto with console) : console_rw.
