(* ===== verification/TupleSchemaParser.v ===== *)
(** * The schema reader of the create-tuple dialog

    [parseSchemaTypes] of [console/src/components/tuples/create-tuple-dialog.tsx]:
    a loop over the lines of the YAML source that keeps references to the type
    and the relation it is filling.  The pushed objects are the list [result];
    [currentType] and [currentRelation] are references, that is indices, into it. *)

From S2P Require Import Prelude JsString SchemaLayout.

Record SchemaRelation := MkSchemaRelation {
  relation_name : jstring;
  allowedTypes : list jstring }.

Record SchemaTypeInfo := MkSchemaTypeInfo {
  type_name : jstring;
  relations : list SchemaRelation }.

#[export] Instance SchemaRelation_eq_dec : EqDecision SchemaRelation.
Proof. solve_decision. Defined.
#[export] Instance SchemaTypeInfo_eq_dec : EqDecision SchemaTypeInfo.
Proof. solve_decision. Defined.

(** The local variables of the loop. *)
Record state := MkState {
  result : list SchemaTypeInfo;
  inTypesSection : bool;
  currentType : option nat;
  inRelations : bool;               (* [currentSection === "relations"] *)
  currentRelation : option nat;
  collectingTypesList : bool }.

Definition init : state := MkState [] false None false None false.

Definition stripQuotes (v : jstring) : jstring := replace_end_quotes v.

Definition parseInlineList (value : jstring) : list jstring :=
  let normalized := trim value in
  if negb (truthy normalized) then []
  else if startsWith normalized [LBRACKET] && endsWith normalized [RBRACKET] then
    List.filter truthy
      ((λ item, stripQuotes (trim item)) <$> split COMMA (slice normalized 1 (Some (-1)%Z)))
  else [stripQuotes normalized].

(** [currentType.relations.push(r)] and [currentRelation.allowedTypes.push(...ts)]. *)
Definition push_relation (r : SchemaRelation) (t : SchemaTypeInfo) : SchemaTypeInfo :=
  MkSchemaTypeInfo (type_name t) (relations t ++ [r]).

Definition push_types (ts : list jstring) (r : SchemaRelation) : SchemaRelation :=
  MkSchemaRelation (relation_name r) (allowedTypes r ++ ts).

Definition update_relation (f : SchemaRelation → SchemaRelation) (j : nat)
    (t : SchemaTypeInfo) : SchemaTypeInfo :=
  MkSchemaTypeInfo (type_name t) (alter f j (relations t)).

Definition relation_count (l : list SchemaTypeInfo) (i : nat) : nat :=
  match l !! i with Some t => length (relations t) | None => 0 end.

(** The body of the loop after the blank and comment test; every [continue] is
    a result. *)
Definition step (st : state) (indent : nat) (line : jstring) : state :=
  if bool_decide (indent = 0) then
    MkState (result st) (bool_decide (line = js "types:")) None false None false
  else if negb (inTypesSection st) then st
  else if bool_decide (indent = 2) && endsWith line [COLON] then
    let typeName := trim (slice line 0 (Some (-1)%Z)) in
    if negb (truthy typeName) then st
    else MkState (result st ++ [MkSchemaTypeInfo typeName []]) true
           (Some (length (result st))) false None false
  else match currentType st with
  | None => st
  | Some i =>
      if bool_decide (indent = 4) && endsWith line [COLON] then
        MkState (result st) true (Some i)
          (bool_decide (trim (slice line 0 (Some (-1)%Z)) = js "relations")) None false
      else if negb (inRelations st) then st
      else if bool_decide (indent = 6) && endsWith line [COLON] then
        let r := MkSchemaRelation (trim (slice line 0 (Some (-1)%Z))) [] in
        MkState (alter (push_relation r) i (result st)) true (Some i) true
          (Some (relation_count (result st) i)) false
      else match currentRelation st with
      | None => st
      | Some j =>
          let push ts := alter (update_relation (push_types ts) j) i (result st) in
          if bool_decide (indent = 8) && startsWith line (js "types:") then
            let rawTypes := trim (slice line 6 None) in
            if truthy rawTypes then
              MkState (push (parseInlineList rawTypes)) true (Some i) true (Some j) false
            else MkState (result st) true (Some i) true (Some j) true
          else if collectingTypesList st && bool_decide (10 ≤ indent)
                  && startsWith line [DASH] then
            let item := trim (slice line 1 None) in
            if truthy item then
              MkState (push [stripQuotes item]) true (Some i) true (Some j) true
            else st
          else if bool_decide (indent ≤ 8) then
            MkState (result st) true (Some i) true (Some j) false
          else st
      end
  end.

Definition parseSchemaTypes (source : jstring) : list SchemaTypeInfo :=
  result (for_lines step init source).

(** ** What it should compute on a schema in the canonical layout *)

Definition expected_relation (r : relation_decl) : SchemaRelation :=
  MkSchemaRelation (rd_name r) (rd_types r).

Definition expected_type (t : type_decl) : SchemaTypeInfo :=
  MkSchemaTypeInfo (td_name t) (expected_relation <$> td_relations t).

(** ** One step on each kind of canonical line *)

#[global] Arguments step : simpl never.

(** The loop body over logical lines. *)
Abbreviation run_lines := (foldl (λ st (l : logical), step st (fst l) (snd l))).

(** A state inside the [relations] section of the last type pushed. *)
Definition at_relation (R : list SchemaTypeInfo) (T : SchemaTypeInfo)
    (j : option nat) (c : bool) : state :=
  MkState (R ++ [T]) true (Some (length R)) true j c.

Ltac step_simpl :=
  intros; unfold step; simpl; autorewrite with console_rw; simpl; try done.

Section Steps.
Implicit Types (st : state) (R : list SchemaTypeInfo) (T : SchemaTypeInfo).

Lemma tuple_step_type st n :
inTypesSection st = true → name_ok n = true →
step st 2 (key n) =
  MkState (result st ++ [MkSchemaTypeInfo n []]) true (Some (length (result st))) false None false.
Proof.
intros Ht Hn. step_simpl. rewrite Ht. simpl. by rewrite solid_truthy by auto with console.
Qed.

Lemma tuple_step_section st i n :
inTypesSection st = true → currentType st = Some i → name_ok n = true →
step st 4 (key n) = MkState (result st) true (Some i) (bool_decide (n = js "relations")) None false.
Proof. intros Ht Hi Hn. step_simpl. by rewrite Ht, Hi. Qed.

(** Outside [relations], the lines of a section body change nothing. *)
Lemma tuple_step_other st indent line :
4 < indent → inRelations st = false → step st indent line = st.
Proof.
intros Hlt Hr. unfold step. rewrite !(bool_decide_eq_false_2 (indent = _)) by lia.
simpl. rewrite Hr. by repeat case_match.
Qed.

Lemma tuple_step_relation R T j c n :
name_ok n = true →
step (at_relation R T j c) 6 (key n) =
  at_relation R (push_relation (MkSchemaRelation n []) T) (Some (length (relations T))) false.
Proof.
intros Hn. step_simpl. unfold at_relation, relation_count. simpl.
by rewrite lookup_snoc.
Qed.

Lemma push_last_types R T r ts :
alter (update_relation (push_types ts) (length (relations T))) (length R)
  (R ++ [push_relation r T]) = R ++ [push_relation (push_types ts r) T].
Proof.
rewrite alter_snoc. unfold update_relation, push_relation. simpl. by rewrite alter_snoc.
Qed.

Lemma parse_inline_list ts :
forallb ref_ok ts = true →
parseInlineList (LBRACKET :: join (js ", ") ts ++ [RBRACKET]) = ts.
Proof.
intros Hts. unfold parseInlineList.
rewrite solid_trim by (by apply (solid_app [LBRACKET] (join (js ", ") ts) [RBRACKET])).
cbn [truthy negb]. rewrite startsWith_cons, app_comm_cons, endsWith_snoc.
rewrite bool_decide_eq_true_2, <-app_comm_cons, slice_inner by done.
apply inline_list_items; auto with console.
Qed.

Lemma step_inline R T r ts :
forallb ref_ok ts = true →
step (at_relation R (push_relation r T) (Some (length (relations T))) false) 8
  (js "types: " ++ LBRACKET :: join (js ", ") ts ++ [RBRACKET]) =
at_relation R (push_relation (push_types ts r) T) (Some (length (relations T))) false.
Proof.
intros Hts. set (line := js "types: " ++ LBRACKET :: join (js ", ") ts ++ [RBRACKET]).
unfold step, at_relation. simpl.
assert (Hraw : trim (slice line 6 None) = LBRACKET :: join (js ", ") ts ++ [RBRACKET]).
{ unfold line. change 6%Z with (Z.of_nat 6). rewrite slice_from.
  change (drop 6 _) with (indented 1 (LBRACKET :: join (js ", ") ts ++ [RBRACKET])).
  apply trim_indented. by apply (solid_app [LBRACKET] (join (js ", ") ts) [RBRACKET]). }
rewrite Hraw. simpl.
by rewrite parse_inline_list, push_last_types.
Qed.

Lemma step_block R T r c :
step (at_relation R (push_relation r T) (Some (length (relations T))) c) 8 (js "types:") =
at_relation R (push_relation r T) (Some (length (relations T))) true.
Proof. done. Qed.

Lemma step_item R T r t :
ref_ok t = true →
step (at_relation R (push_relation r T) (Some (length (relations T))) true) 10 (js "- " ++ t) =
at_relation R (push_relation (push_types [t] r) T) (Some (length (relations T))) true.
Proof.
intros Ht. change (js "- " ++ t) with (DASH :: SPACE :: t).
unfold step, at_relation. simpl.
assert (Hitem : trim (slice (DASH :: SPACE :: t) 1 None) = t).
{ change 1%Z with (Z.of_nat 1). rewrite slice_from. apply (trim_indented 1). auto with console. }
rewrite Hitem, solid_truthy by auto with console.
unfold stripQuotes. by rewrite ref_ok_quotes, push_last_types.
Qed.
End Steps.

(** ** A relation, a type, a schema *)

Lemma run_items R T r ts :
  forallb ref_ok ts = true →
  run_lines (at_relation R (push_relation r T) (Some (length (relations T))) true)
    ((λ t, (10, js "- " ++ t)) <$> ts) =
  at_relation R (push_relation (push_types ts r) T) (Some (length (relations T))) true.
Proof.
  revert r. induction ts as [|t ts IH]; intros r Hts.
  { destruct r as [n l]. unfold push_types. simpl. by rewrite app_nil_r. }
  apply andb_true_iff in Hts as [Ht Hts]. rewrite fmap_cons. cbn [foldl fst snd].
  rewrite step_item, IH by done. unfold push_types. simpl. by rewrite <-app_assoc.
Qed.

Lemma tuple_run_relation R T j c r :
  relation_ok r = true →
  ∃ j' c', run_lines (at_relation R T j c) (relation_lines r) =
    at_relation R (push_relation (expected_relation r) T) j' c'.
Proof.
  intros [Hn Hts]%andb_true_iff. unfold relation_lines. cbn [foldl fst snd].
  rewrite tuple_step_relation by done. destruct (rd_inline r); cbn [foldl fst snd].
  - rewrite step_inline by done. eauto.
  - rewrite step_block, run_items by done. eauto.
Qed.

Lemma tuple_run_relations R T j c rs :
  forallb relation_ok rs = true →
  ∃ j' c', run_lines (at_relation R T j c) (concat (relation_lines <$> rs)) =
    at_relation R (MkSchemaTypeInfo (type_name T) (relations T ++ (expected_relation <$> rs))) j' c'.
Proof.
  revert T j c. induction rs as [|r rs IH]; intros T j c Hrs.
  { exists j, c. destruct T. simpl. by rewrite app_nil_r. }
  apply andb_true_iff in Hrs as [Hr Hrs]. rewrite fmap_cons. cbn [concat].
  rewrite foldl_app. destruct (tuple_run_relation R T j c r Hr) as (j1 & c1 & ->).
  destruct (IH (push_relation (expected_relation r) T) j1 c1 Hrs) as (j2 & c2 & ->).
  exists j2, c2. unfold push_relation. simpl. by rewrite <-app_assoc.
Qed.

(** Attribute and permission lines lie deeper than 4 and are passed over. *)
Lemma tuple_run_other st ls :
  inRelations st = false → Forall (λ l, 4 < l.1) ls → run_lines st ls = st.
Proof.
  intros Hr. induction 1 as [|l ls Hl Hls IH]; [done|]. simpl. by rewrite tuple_step_other.
Qed.

Lemma tuple_run_section st name l ls :
  run_lines st (section_lines name (l :: ls)) = run_lines (step st 4 (key name)) (l :: ls).
Proof. done. Qed.

Lemma tuple_run_other_section R T j c b name ls :
  name_ok name = true → name ≠ js "relations" → Forall (λ l, 4 < l.1) ls →
  ∃ b' j' c', run_lines (MkState (R ++ [T]) true (Some (length R)) b j c) (section_lines name ls) =
    MkState (R ++ [T]) true (Some (length R)) b' j' c'.
Proof.
  intros Hname Hne Hls. destruct ls as [|l ls]; [eauto|]. rewrite tuple_run_section.
  rewrite (tuple_step_section _ (length R)) by done. rewrite bool_decide_eq_false_2 by done.
  rewrite tuple_run_other by done. eauto.
Qed.

Lemma tuple_run_type st t :
  inTypesSection st = true → type_ok t = true →
  ∃ b j c, run_lines st (type_lines t) =
    MkState (result st ++ [expected_type t]) true (Some (length (result st))) b j c.
Proof.
  intros Hin. unfold type_ok. rewrite !andb_true_iff. intros (((Hn & _) & Hr) & _).
  unfold type_lines. cbn [foldl fst snd]. rewrite tuple_step_type, !foldl_app by done.
  destruct (tuple_run_other_section (result st) (MkSchemaTypeInfo (td_name t) []) None false false
    (js "attributes") (attribute_line <$> td_attributes t)) as (b1 & j1 & c1 & ->);
    [done|done|apply attribute_lines_deep|].
  assert (∃ b j c, run_lines (MkState (result st ++ [MkSchemaTypeInfo (td_name t) []]) true
      (Some (length (result st))) b1 j1 c1)
      (section_lines (js "relations") (concat (relation_lines <$> td_relations t))) =
    MkState (result st ++ [expected_type t]) true (Some (length (result st))) b j c)
    as (b2 & j2 & c2 & ->).
  { unfold expected_type. destruct (td_relations t) as [|r rs]; [simpl; eauto|].
    change (run_lines ?s (section_lines ?n (concat (relation_lines <$> r :: rs)))) with
      (run_lines (step s 4 (key n)) (concat (relation_lines <$> r :: rs))).
    rewrite (tuple_step_section _ (length (result st))), bool_decide_eq_true_2 by done.
    destruct (tuple_run_relations (result st) (MkSchemaTypeInfo (td_name t) []) None false (r :: rs) Hr)
      as (j & c & H). exists true, j, c. exact H. }
  eapply tuple_run_other_section; [done|done|apply permission_lines_deep].
Qed.

Lemma tuple_run_types st ts :
  inTypesSection st = true → forallb type_ok ts = true →
  result (run_lines st (concat (type_lines <$> ts))) = result st ++ (expected_type <$> ts).
Proof.
  revert st. induction ts as [|t ts IH]; intros st Hin Hts; [by rewrite app_nil_r|].
  apply andb_true_iff in Hts as [Ht Hts]. rewrite fmap_cons. cbn [concat].
  rewrite foldl_app. destruct (tuple_run_type st t Hin Ht) as (b & j & c & ->).
  rewrite IH by done. simpl. by rewrite <-app_assoc.
Qed.

(** Lines above [types:] select no section. *)
Lemma tuple_run_header st h :
  result st = [] → result (run_lines st ((λ x, (0, x)) <$> h)) = [].
Proof. revert st. induction h as [|x h IH]; intros st H; [done|]. cbn. by apply IH. Qed.

(** No type has an empty name. *)
Lemma parseSchemaTypes_names source :
  Forall (λ n, truthy n = true) (type_name <$> parseSchemaTypes source).
Proof.
  apply (for_lines_keep (λ st, Forall (λ n, truthy n = true) (type_name <$> result st))); [|done].
  intros st n l H. unfold step. repeat case_match; simpl;
    rewrite ?fmap_app, ?fmap_alter_keep by done; try done.
  apply Forall_app. split; [done|]. apply Forall_singleton. by bool_prop.
Qed.

Lemma parse_canonical header ts :
  schema_ok header ts = true →
  parseSchemaTypes (schema_text header ts) = expected_type <$> ts.
Proof.
  intros Hok. unfold parseSchemaTypes, schema_text.
  rewrite for_lines_lay by (try (by destruct header); auto with console).
  unfold schema_lines. rewrite foldl_app. cbn [foldl fst snd].
  apply andb_true_iff in Hok as [_ Hts].
  set (st := step _ 0 _). rewrite tuple_run_types by done.
  unfold st. unfold step. simpl. by rewrite tuple_run_header.
Qed.

(** ** Properties *)

(** C26: On every schema written in the canonical layout, [parseSchemaTypes] returns
    exactly its types, their relations and the allowed subject types, in order,
    whether a [types:] list is inline or one item per line. *)
Theorem parseSchemaTypes_canonical header ts :
  schema_ok header ts = true →
  parseSchemaTypes (schema_text header ts) = expected_type <$> ts.
Proof. apply parse_canonical. Qed.

Lemma parseSchemaTypes_canonical_witness :
  parseSchemaTypes (schema_text [js "version: 1"] drive_schema) = expected_type <$> drive_schema
  ∧ (expected_type <$> drive_schema) ≠ [].
Proof.
  split; [apply (parseSchemaTypes_canonical [js "version: 1"] drive_schema); reflexivity|done].
Defined.

(** Blank lines and comment lines anywhere in the source change nothing of
    what [parseSchemaTypes] returns. *)
Theorem parseSchemaTypes_skips_comments a c b :
  NL ∉ c → skip_line c = true →
  parseSchemaTypes (a ++ NL :: c ++ NL :: b) = parseSchemaTypes (a ++ NL :: b).
Proof. intros ??. unfold parseSchemaTypes. by rewrite for_lines_skip. Qed.

Lemma parseSchemaTypes_skips_comments_witness :
  parseSchemaTypes (js "types:" ++ NL :: js "  # user:" ++ NL :: js "  group:") =
  [MkSchemaTypeInfo (js "group") []].
Proof.
  rewrite (parseSchemaTypes_skips_comments (js "types:") (js "  # user:") (js "  group:"));
    [reflexivity|decide_literal|reflexivity].
Defined.
