(* ===== verification/SchemaGraph.v ===== *)
(** * The schema graph

    [console/src/components/schema/schema-graph.tsx]: the reader [parseTypes],
    which keeps the types in a [Map] by name, and [buildGraph], which turns them
    into nodes and edges and lays them out with dagre (a parameter here). *)

From S2P Require Import Prelude JsString JsObject Html SchemaLayout.
From S2P Require TupleSchemaParser.

Record ParsedRelation := MkParsedRelation {
  relation : jstring;
  targets : list jstring }.

Record ParsedType := MkParsedType {
  name : jstring;
  relations : list ParsedRelation }.

#[export] Instance ParsedRelation_eq_dec : EqDecision ParsedRelation.
Proof. solve_decision. Defined.
#[export] Instance ParsedType_eq_dec : EqDecision ParsedType.
Proof. solve_decision. Defined.

(** ** The reader

    [heap] holds the type objects in order of creation; the [Map] [parsed] and the
    variables [currentType] and [currentRelation] hold references to them. *)
Record state := MkState {
  heap : list ParsedType;
  parsed : list (jstring * nat);
  inTypesSection : bool;
  currentType : option nat;
  inRelations : bool;
  currentRelation : option nat;
  collectingTypesList : bool }.

Definition init : state := MkState [] [] false None false None false.

Definition stripQuotes (value : jstring) : jstring := replace_end_quotes value.

Definition parseInlineList (value : jstring) : list jstring :=
  let normalized := trim value in
  if negb (truthy normalized) then []
  else if startsWith normalized [LBRACKET] && endsWith normalized [RBRACKET] then
    List.filter truthy
      ((λ item, stripQuotes (trim item)) <$> split COMMA (slice normalized 1 (Some (-1)%Z)))
  else [stripQuotes normalized].

Definition push_relation (r : ParsedRelation) (t : ParsedType) : ParsedType :=
  MkParsedType (name t) (relations t ++ [r]).

Definition push_targets (ts : list jstring) (r : ParsedRelation) : ParsedRelation :=
  MkParsedRelation (relation r) (targets r ++ ts).

Definition update_relation (f : ParsedRelation → ParsedRelation) (j : nat)
    (t : ParsedType) : ParsedType :=
  MkParsedType (name t) (alter f j (relations t)).

Definition relation_count (l : list ParsedType) (i : nat) : nat :=
  match l !! i with Some t => length (relations t) | None => 0 end.

Definition step (st : state) (indent : nat) (line : jstring) : state :=
  if bool_decide (indent = 0) then
    MkState (heap st) (parsed st) (bool_decide (line = js "types:")) None false None false
  else if negb (inTypesSection st) then st
  else if bool_decide (indent = 2) && endsWith line [COLON] then
    let typeName := trim (slice line 0 (Some (-1)%Z)) in
    if negb (truthy typeName) then st
    else MkState (heap st ++ [MkParsedType typeName []])
           (map_set (parsed st) typeName (length (heap st))) true
           (Some (length (heap st))) false None false
  else match currentType st with
  | None => st
  | Some i =>
      if bool_decide (indent = 4) && endsWith line [COLON] then
        MkState (heap st) (parsed st) true (Some i)
          (bool_decide (trim (slice line 0 (Some (-1)%Z)) = js "relations")) None false
      else if negb (inRelations st) then st
      else if bool_decide (indent = 6) && endsWith line [COLON] then
        let r := MkParsedRelation (trim (slice line 0 (Some (-1)%Z))) [] in
        MkState (alter (push_relation r) i (heap st)) (parsed st) true (Some i) true
          (Some (relation_count (heap st) i)) false
      else match currentRelation st with
      | None => st
      | Some j =>
          let push ts := alter (update_relation (push_targets ts) j) i (heap st) in
          if bool_decide (indent = 8) && startsWith line (js "types:") then
            let rawTypes := trim (slice line 6 None) in
            if truthy rawTypes then
              MkState (push (parseInlineList rawTypes)) (parsed st) true (Some i) true (Some j) false
            else MkState (heap st) (parsed st) true (Some i) true (Some j) true
          else if collectingTypesList st && bool_decide (10 ≤ indent)
                  && startsWith line [DASH] then
            let item := trim (slice line 1 None) in
            if truthy item then
              MkState (push [stripQuotes item]) (parsed st) true (Some i) true (Some j) true
            else st
          else if bool_decide (indent ≤ 8) then
            MkState (heap st) (parsed st) true (Some i) true (Some j) false
          else st
      end
  end.

(** [Array.from(parsed.values())], reading the references at the end. *)
Definition parseTypes (source : jstring) : list ParsedType :=
  let st := for_lines step init source in
  omap (λ i, heap st !! i) (map_values (parsed st)).

(** ** The graph builder *)

Record TypeNodeData := MkTypeNodeData {
  label : jstring;
  isExternal : bool;
  relCount : nat }.

Record Node := MkNode {
  node_id : jstring;
  node_data : TypeNodeData;
  position : Z * Z }.

Record Edge := MkEdge {
  edge_id : jstring;
  source : jstring;
  target : jstring;
  edge_label : jstring }.

(** The variables of the loop: the nodes pushed, the set of type names that have
    one, and the relation names collected per edge key. *)
Record builder := MkBuilder {
  nodes : list Node;
  addedTypes : list jstring;
  edgeRelations : list (jstring * list jstring) }.

Definition type_id (n : jstring) : jstring := js "type:" ++ n.

Definition declared_node (t : ParsedType) : Node :=
  MkNode (type_id (name t))
    (MkTypeNodeData (name t) false (length (relations t))) (0, 0)%Z.

Definition target_node (typesByName : list (jstring * ParsedType)) (targetType : jstring) : Node :=
  let targetDef := map_get typesByName targetType in
  MkNode (type_id targetType)
    (MkTypeNodeData targetType
       (match targetDef with Some _ => false | None => true end)
       (match targetDef with Some d => length (relations d) | None => 0 end)) (0, 0)%Z.

Definition edge_key (a b : jstring) : jstring := a ++ ARROW :: b.

(** [target.split("#")[0]] *)
Definition base_type (t : jstring) : jstring :=
  match split HASH t with w :: _ => w | [] => [] end.

Definition add_declared (b : builder) (t : ParsedType) : builder :=
  if set_has (addedTypes b) (name t) then b
  else MkBuilder (nodes b ++ [declared_node t]) (set_add (addedTypes b) (name t)) (edgeRelations b).

Definition add_target (typesByName : list (jstring * ParsedType)) (t : ParsedType)
    (r : ParsedRelation) (b : builder) (tgt : jstring) : builder :=
  let targetType := base_type tgt in
  if negb (truthy targetType) then b else
  let b :=
    if set_has (addedTypes b) targetType then b
    else MkBuilder (nodes b ++ [target_node typesByName targetType])
           (set_add (addedTypes b) targetType) (edgeRelations b) in
  let edgeKey := edge_key (name t) targetType in
  let rels := default [] (map_get (edgeRelations b) edgeKey) in
  MkBuilder (nodes b) (addedTypes b) (map_set (edgeRelations b) edgeKey (rels ++ [relation r])).

Definition add_type (typesByName : list (jstring * ParsedType)) (b : builder) (t : ParsedType) : builder :=
  foldl (λ b r, foldl (add_target typesByName t r) b (targets r)) (add_declared b t) (relations t).

Definition make_edge (e : jstring * list jstring) : Edge :=
  let (key, relNames) := e in
  let arrowIdx := indexOf key ARROW in
  let sourceType := slice key 0 (Some arrowIdx) in
  let targetType := slice key (arrowIdx + 1) None in
  MkEdge (js "edge:" ++ key) (type_id sourceType) (type_id targetType) (join (js ", ") relNames).

Definition types_by_name (l : list ParsedType) : list (jstring * ParsedType) :=
  map_of ((λ t, (name t, t)) <$> l).

Definition collect (parsedTypes : list ParsedType) : builder :=
  foldl (add_type (types_by_name parsedTypes)) (MkBuilder [] [] []) parsedTypes.

Section Layout.
(** [dagre.layout] on the node ids with their sizes and the edges: the centre
  of each node. *)
Context (dagre : list (jstring * (Z * Z)) → list (jstring * jstring) → jstring → Z * Z).

Definition place (ns : list Node) (es : list Edge) : list Node :=
let pos := dagre ((λ n, (node_id n, (160, 56)%Z)) <$> ns) ((λ e, (source e, target e)) <$> es) in
(λ n, MkNode (node_id n) (node_data n)
        (fst (pos (node_id n)) - 80, snd (pos (node_id n)) - 28)%Z) <$> ns.

Definition buildGraph (src : jstring) : list Node * list Edge :=
let b := collect (parseTypes src) in
let edges := make_edge <$> edgeRelations b in
(place (nodes b) edges, edges).

(** *** The canvas *)

(** [`${n} relation${n !== 1 ? "s" : ""}`] *)
Definition relations_text (n : nat) : jstring :=
js_of_N (N.of_nat n) ++ js " relation" ++ (if bool_decide (n = 1) then [] else js "s").

Definition TypeNode {M} (d : TypeNodeData) : html M :=
E "div" [
  El "Handle" [Attr "type" (js "target")] [];
  E "div" [
    E "div" [Text (label d)];
    E "div" [if isExternal d then T "external"
             else if bool_decide (0 < relCount d) then Text (relations_text (relCount d))
             else T "no relations"]];
  El "Handle" [Attr "type" (js "source")] []].

Definition SchemaGraph {M} (src : jstring) : list (html M) :=
let (ns, es) := buildGraph src in
if bool_decide (length ns = 0)
then [E "p" [T "Unable to parse schema relations for graph visualization."]]
else [E "div" [E "ReactFlow" (
  ((λ n, El "Node" [Attr "id" (node_id n)] [TypeNode (node_data n)]) <$> ns) ++
  ((λ e, El "Edge" [Attr "source" (source e); Attr "target" (target e)] [Text (edge_label e)]) <$> es))]].
End Layout.

(** ** The reader agrees with the one of the create-tuple dialog *)

Module Dialog := TupleSchemaParser.

Definition of_dialog_relation (r : Dialog.SchemaRelation) : ParsedRelation :=
  MkParsedRelation (Dialog.relation_name r) (Dialog.allowedTypes r).

Definition of_dialog (t : Dialog.SchemaTypeInfo) : ParsedType :=
  MkParsedType (Dialog.type_name t) (of_dialog_relation <$> Dialog.relations t).

Definition name_refs (names : list jstring) : list (jstring * nat) :=
  map_of (zip names (seq 0 (length names))).

Section Simulation.
Implicit Types (d : Dialog.state) (l : list Dialog.SchemaTypeInfo).

(** The state of this reader that corresponds to a state of the dialog's. *)
Definition sim d : state :=
MkState (of_dialog <$> Dialog.result d)
  (name_refs (Dialog.type_name <$> Dialog.result d))
  (Dialog.inTypesSection d) (Dialog.currentType d) (Dialog.inRelations d)
  (Dialog.currentRelation d) (Dialog.collectingTypesList d).

Lemma sim_alter f g i l :
(∀ t, of_dialog (f t) = g (of_dialog t)) →
of_dialog <$> alter f i l = alter g i (of_dialog <$> l).
Proof. apply fmap_alter. Qed.

Lemma names_alter f i l :
(∀ t, Dialog.type_name (f t) = Dialog.type_name t) →
Dialog.type_name <$> alter f i l = Dialog.type_name <$> l.
Proof.
apply fmap_alter_keep.
Qed.

Lemma of_dialog_push_relation r t :
of_dialog (Dialog.push_relation r t) = push_relation (of_dialog_relation r) (of_dialog t).
Proof. unfold of_dialog, push_relation. simpl. by rewrite fmap_app. Qed.

Lemma of_dialog_push_types ts j t :
of_dialog (Dialog.update_relation (Dialog.push_types ts) j t) =
update_relation (push_targets ts) j (of_dialog t).
Proof.
unfold of_dialog, update_relation. simpl. f_equal.
by apply fmap_alter.
Qed.

Lemma sim_relation_count l i :
relation_count (of_dialog <$> l) i = Dialog.relation_count l i.
Proof.
unfold relation_count, Dialog.relation_count. rewrite list_lookup_fmap.
destruct (l !! i); simpl; [by rewrite length_fmap|done].
Qed.

Lemma sim_push_relation d i r (x1 x2 : bool) c j :
sim (Dialog.MkState (alter (Dialog.push_relation r) i (Dialog.result d)) x1 c x2 j false) =
MkState (alter (push_relation (of_dialog_relation r)) i (of_dialog <$> Dialog.result d))
  (name_refs (Dialog.type_name <$> Dialog.result d)) x1 c x2 j false.
Proof.
unfold sim. simpl. rewrite names_alter by done.
by rewrite (sim_alter _ (push_relation (of_dialog_relation r))) by apply of_dialog_push_relation.
Qed.

Lemma sim_push_types d i j ts (x1 x2 x3 : bool) c k :
sim (Dialog.MkState (alter (Dialog.update_relation (Dialog.push_types ts) j) i (Dialog.result d))
  x1 c x2 k x3) =
MkState (alter (update_relation (push_targets ts) j) i (of_dialog <$> Dialog.result d))
  (name_refs (Dialog.type_name <$> Dialog.result d)) x1 c x2 k x3.
Proof.
unfold sim. simpl. rewrite names_alter by done.
by rewrite (sim_alter _ (update_relation (push_targets ts) j)) by apply of_dialog_push_types.
Qed.

Lemma name_refs_snoc names n :
name_refs (names ++ [n]) = map_set (name_refs names) n (length names).
Proof.
unfold name_refs. rewrite length_app, seq_app. simpl.
rewrite zip_with_app by (by rewrite length_seq). unfold map_of. by rewrite foldl_app.
Qed.

Lemma sim_push_type d n :
sim (Dialog.MkState (Dialog.result d ++ [Dialog.MkSchemaTypeInfo n []]) true
  (Some (length (Dialog.result d))) false None false) =
MkState ((of_dialog <$> Dialog.result d) ++ [MkParsedType n []])
  (map_set (name_refs (Dialog.type_name <$> Dialog.result d)) n (length (Dialog.result d)))
  true (Some (length (Dialog.result d))) false None false.
Proof.
unfold sim. cbn -[name_refs]. rewrite !fmap_app. cbn -[name_refs].
by rewrite name_refs_snoc, length_fmap.
Qed.

Lemma sim_step d indent line :
step (sim d) indent line = sim (Dialog.step d indent line).
Proof.
unfold step, Dialog.step. simpl. rewrite length_fmap.
destruct (bool_decide (indent = 0)); [done|].
destruct (Dialog.inTypesSection d) eqn:E1; simpl; [|done].
destruct (bool_decide (indent = 2) && _).
{ destruct (truthy _); simpl; [by rewrite sim_push_type|done]. }
destruct (Dialog.currentType d) as [i|] eqn:E2; [|done].
destruct (bool_decide (indent = 4) && _); [done|].
destruct (Dialog.inRelations d) eqn:E3; simpl; [|done].
destruct (bool_decide (indent = 6) && _).
{ by rewrite sim_push_relation, sim_relation_count. }
destruct (Dialog.currentRelation d) as [j|] eqn:E4; [|done].
destruct (bool_decide (indent = 8) && _).
{ destruct (truthy _); [by rewrite sim_push_types|done]. }
destruct (Dialog.collectingTypesList d && _ && _) eqn:E5.
{ destruct (truthy _); [by rewrite sim_push_types|done]. }
by destruct (bool_decide (indent ≤ 8)).
Qed.

Lemma sim_lines d ls :
foldl (scan_line step) (sim d) ls = sim (foldl (scan_line Dialog.step) d ls).
Proof.
revert d. induction ls as [|l ls IH]; intros d; [done|]. simpl. rewrite <-IH.
f_equal. unfold scan_line. by rewrite sim_step; destruct (skip_line l).
Qed.
End Simulation.

Section MapValues.
Context {K V W : Type} `{EqDecision K}.

Lemma map_set_fmap (g : V → W) (m : list (K * V)) k v :
map_set (prod_map id g <$> m) k (g v) = prod_map id g <$> map_set m k v.
Proof.
induction m as [|[k' v'] m IH]; simpl; [done|].
case_bool_decide; [done|]. cbn. f_equal. exact IH.
Qed.

Lemma map_of_fmap (g : V → W) (l : list (K * V)) :
map_of (prod_map id g <$> l) = prod_map id g <$> map_of l.
Proof.
unfold map_of.
enough (∀ m, foldl (λ m e, map_set m e.1 e.2) (prod_map id g <$> m) (prod_map id g <$> l) =
  prod_map id g <$> foldl (λ m e, map_set m e.1 e.2) m l) as H by apply (H []).
induction l as [|[k v] l IH]; intros m; [done|].
cbn. rewrite <-IH. f_equal. apply map_set_fmap.
Qed.

Lemma values_omap (g : V → option W) (m : list (K * V)) (m' : list (K * W)) :
prod_map id g <$> m = prod_map id Some <$> m' → omap g (map_values m) = map_values m'.
Proof.
unfold map_values. revert m'. induction m as [|[k v] m IH]; intros [|[k' w] m'] H;
  cbn in H; try done.
injection H as _ Hv H. cbn. rewrite Hv. f_equal. by apply IH.
Qed.
End MapValues.

(** Following the references of the [Map] gives the map of the final objects. *)
Lemma deref_names (h : list ParsedType) :
  omap (λ i, h !! i) (map_values (name_refs (name <$> h))) = map_values (types_by_name h).
Proof.
  unfold name_refs, types_by_name.
  assert (H : prod_map id (λ i, h !! i) <$> zip (name <$> h) (seq 0 (length (name <$> h))) =
              prod_map id Some <$> ((λ t, (name t, t)) <$> h)).
  { apply list_eq. intros i. rewrite !list_lookup_fmap, lookup_zip_with, list_lookup_fmap.
    destruct (h !! i) as [t|] eqn:E; simpl; [|done].
    rewrite lookup_seq_lt by (rewrite length_fmap; by apply lookup_lt_Some in E).
    simpl. by rewrite E. }
  apply (f_equal map_of) in H. rewrite !map_of_fmap in H.
  by apply values_omap.
Qed.

(** ** The builder *)

(** Grouping pushed values by key, what the loop does with [edgeRelations]. *)
Definition group_push {V} (m : list (jstring * list V)) (e : jstring * V) : list (jstring * list V) :=
  map_set m (fst e) (default [] (map_get m (fst e)) ++ [snd e]).

Definition group {V} (l : list (jstring * V)) : list (jstring * list V) := foldl group_push [] l.

Definition with_key {V} (k : jstring) (l : list (jstring * V)) : list V :=
  snd <$> List.filter (λ e, bool_decide (fst e = k)) l.

(** The (edge key, relation name) pairs the loop meets, in order. *)
Definition target_entries (t : ParsedType) (r : ParsedRelation) (tgt : jstring) : list (jstring * jstring) :=
  if truthy (base_type tgt) then [(edge_key (name t) (base_type tgt), relation r)] else [].

Definition edge_entries (types : list ParsedType) : list (jstring * jstring) :=
  concat ((λ t, concat ((λ r, concat (target_entries t r <$> targets r)) <$> relations t)) <$> types).

Section Group.
Context {V : Type}.
Implicit Types (l : list (jstring * V)).

Lemma with_key_snoc k l e :
with_key k (l ++ [e]) = if bool_decide (e.1 = k) then with_key k l ++ [e.2] else with_key k l.
Proof.
unfold with_key. rewrite List.filter_app, fmap_app. simpl.
case_bool_decide; [done|]. apply app_nil_r.
Qed.

Lemma with_key_nil k l : k ∉ l.*1 → with_key k l = [].
Proof.
induction l as [|e l IH]; [done|]. rewrite fmap_cons. intros [Hne Hl]%not_elem_of_cons.
unfold with_key. simpl. rewrite bool_decide_eq_false_2 by done. by apply IH.
Qed.

Lemma group_snoc l e : group (l ++ [e]) = group_push (group l) e.
Proof. unfold group. by rewrite foldl_app. Qed.

Lemma group_keys l : map_keys (group l) = unique (l.*1).
Proof.
induction l as [|[k v] l IH] using rev_ind; [done|].
rewrite group_snoc, fmap_app. change ([(k, v)].*1) with [k].
rewrite unique_snoc, <-IH. unfold group_push.
cbn [fst snd]. rewrite map_set_keys. unfold set_add, set_has.
by rewrite map_has_elem.
Qed.

Lemma group_get l k :
map_get (group l) k = if bool_decide (k ∈ l.*1) then Some (with_key k l) else None.
Proof.
induction l as [|[k' v] l IH] using rev_ind; [done|].
rewrite group_snoc. unfold group_push. cbn [fst snd].
rewrite map_get_set, with_key_snoc, fmap_app. change ([(k', v)].*1) with [k']. cbn [fst snd].
destruct (decide (k = k')) as [->|Hne].
- rewrite !bool_decide_eq_true_2 by (rewrite ?elem_of_app, ?list_elem_of_singleton; auto).
  (* the values pushed so far, none when the key is new *)
  assert (Hd : default [] (map_get (group l) k') = with_key k' l).
  { rewrite IH. case_bool_decide as Hin; [done|]. symmetry. by apply with_key_nil. }
  by rewrite Hd.
- rewrite (bool_decide_eq_false_2 (k = k')), (bool_decide_eq_false_2 (k' = k)), IH by done.
  erewrite bool_decide_ext; [done|]. rewrite elem_of_app, list_elem_of_singleton. tauto.
Qed.

(** One entry per distinct key, in order of first appearance, with all the
  values pushed under it. *)
Lemma group_spec l : group l = (λ k, (k, with_key k l)) <$> unique (l.*1).
Proof.
rewrite (map_rebuild [] (group l)) by (rewrite group_keys; apply unique_NoDup).
rewrite group_keys. apply list_fmap_ext. intros i k Hk%list_elem_of_lookup_2.
rewrite elem_of_unique in Hk. by rewrite group_get, bool_decide_eq_true_2.
Qed.
End Group.

(** ** What the builder collects *)

Section Collect.
Context (tbn : list (jstring * ParsedType)).
Implicit Types (b : builder) (t : ParsedType) (r : ParsedRelation).

Lemma add_declared_relations b t : edgeRelations (add_declared b t) = edgeRelations b.
Proof. unfold add_declared. by case_match. Qed.

Lemma add_target_relations t r b tgt :
edgeRelations (add_target tbn t r b tgt) =
foldl group_push (edgeRelations b) (target_entries t r tgt).
Proof.
unfold add_target, target_entries. destruct (truthy _); simpl; [|done].
unfold group_push. simpl. by case_match.
Qed.

Lemma add_type_relations b t :
edgeRelations (add_type tbn b t) =
foldl group_push (edgeRelations b)
  (concat ((λ r, concat (target_entries t r <$> targets r)) <$> relations t)).
Proof.
unfold add_type. rewrite <-(add_declared_relations b t).
apply foldl_project. intros b' r. apply foldl_project. intros b'' tgt.
apply add_target_relations.
Qed.

Lemma add_types_relations b l :
edgeRelations (foldl (add_type tbn) b l) = foldl group_push (edgeRelations b) (edge_entries l).
Proof. apply foldl_project, add_type_relations. Qed.

(** *** The nodes *)

(** What a node says of its type, given the declared types. *)
Definition node_ok (n : Node) : Prop :=
node_id n = type_id (label (node_data n)) ∧
(isExternal (node_data n) = true ↔ map_get tbn (label (node_data n)) = None) ∧
relCount (node_data n) =
  match map_get tbn (label (node_data n)) with Some d => length (relations d) | None => 0 end.

(** One node per added type, each correct. *)
Definition builder_ok b : Prop :=
addedTypes b = (λ n, label (node_data n)) <$> nodes b ∧
NoDup (addedTypes b) ∧ Forall node_ok (nodes b).

Lemma target_node_ok n : node_ok (target_node tbn n).
Proof. unfold node_ok. simpl. by destruct (map_get tbn n). Qed.

Lemma declared_node_ok t : map_get tbn (name t) = Some t → node_ok (declared_node t).
Proof. intros H. unfold node_ok. simpl. rewrite H. done. Qed.

Lemma builder_ok_push b n rels :
builder_ok b → node_ok n → (label (node_data n)) ∉ addedTypes b →
builder_ok (MkBuilder (nodes b ++ [n]) (set_add (addedTypes b) (label (node_data n))) rels).
Proof.
intros (Heq & Hnd & Hok) Hn Hnew. unfold builder_ok. simpl.
unfold set_add, set_has. rewrite bool_decide_eq_false_2 by done. split_and!.
- by rewrite fmap_app, Heq.
- apply NoDup_snoc; done.
- apply Forall_app; auto.
Qed.

Lemma add_declared_ok b t :
map_get tbn (name t) = Some t → builder_ok b → builder_ok (add_declared b t).
Proof.
intros Ht Hb. unfold add_declared.
destruct (set_has _ _) eqn:E; [done|]. apply bool_decide_eq_false in E.
apply (builder_ok_push b (declared_node t)); auto using declared_node_ok.
Qed.

Lemma add_target_ok t r b tgt : builder_ok b → builder_ok (add_target tbn t r b tgt).
Proof.
intros Hb. unfold add_target. destruct (truthy _); simpl; [|done].
destruct (set_has _ _) eqn:E; [exact Hb|]. apply bool_decide_eq_false in E. simpl.
by apply (builder_ok_push b (target_node tbn (base_type tgt))); [|apply target_node_ok|].
Qed.

Lemma add_type_ok b t : map_get tbn (name t) = Some t → builder_ok b → builder_ok (add_type tbn b t).
Proof.
intros Ht Hb. unfold add_type. apply foldl_keep; [|by apply add_declared_ok].
intros b' r _ Hb'. apply foldl_keep; [|done]. intros b'' tgt _. apply add_target_ok.
Qed.

(** *** The types that have a node only grow *)

Lemma add_declared_keeps b t x : x ∈ addedTypes b → x ∈ addedTypes (add_declared b t).
Proof. unfold add_declared. case_match; simpl; rewrite ?elem_of_set_add; auto. Qed.

Lemma add_declared_name b t : name t ∈ addedTypes (add_declared b t).
Proof.
unfold add_declared. destruct (set_has _ _) eqn:E; [by apply bool_decide_eq_true in E|].
simpl. rewrite elem_of_set_add. auto.
Qed.

Lemma add_target_keeps t r b tgt x : x ∈ addedTypes b → x ∈ addedTypes (add_target tbn t r b tgt).
Proof.
unfold add_target. destruct (truthy _); simpl; [|done].
case_match; simpl; rewrite ?elem_of_set_add; auto.
Qed.

Lemma add_target_base t r b tgt :
truthy (base_type tgt) = true → base_type tgt ∈ addedTypes (add_target tbn t r b tgt).
Proof.
unfold add_target. intros ->. simpl.
destruct (set_has _ _) eqn:E; simpl; [by apply bool_decide_eq_true in E|].
rewrite elem_of_set_add. auto.
Qed.

Lemma add_relations_keep t b rs x :
x ∈ addedTypes b →
x ∈ addedTypes (foldl (λ b r, foldl (add_target tbn t r) b (targets r)) b rs).
Proof.
intros Hx. set (P b := x ∈ addedTypes b).
apply (foldl_keep _ P); [|done]. intros b' r _ Hb'. apply (foldl_keep _ P); [|done].
intros b'' tgt _. apply add_target_keeps.
Qed.

Lemma add_type_keeps b t x : x ∈ addedTypes b → x ∈ addedTypes (add_type tbn b t).
Proof. intros Hx. by apply add_relations_keep, add_declared_keeps. Qed.

Lemma add_type_name b t : name t ∈ addedTypes (add_type tbn b t).
Proof. apply add_relations_keep, add_declared_name. Qed.

Lemma add_type_target b t r tgt :
r ∈ relations t → tgt ∈ targets r → truthy (base_type tgt) = true →
base_type tgt ∈ addedTypes (add_type tbn b t).
Proof.
intros Hr Htgt Htr. unfold add_type. set (P b := base_type tgt ∈ addedTypes b).
apply (foldl_establish _ P _ _ r); [done| |].
- intros b'. apply (foldl_establish _ P _ _ tgt); [done| |];
    unfold P; intros; auto using add_target_base, add_target_keeps.
- intros b' r' Hb'. apply (foldl_keep _ P); [|done]. intros b'' y _. apply add_target_keeps.
Qed.
End Collect.

Section Collected.
Implicit Types (l : list ParsedType).

Lemma collect_relations l : edgeRelations (collect l) = group (edge_entries l).
Proof. apply add_types_relations. Qed.

Lemma typed_keys l : map_keys ((λ t, (name t, t)) <$> l) = name <$> l.
Proof. unfold map_keys. by rewrite <-list_fmap_compose. Qed.

Lemma types_by_name_get l t :
NoDup (name <$> l) → t ∈ l → map_get (types_by_name l) (name t) = Some t.
Proof.
intros Hnd Ht. unfold types_by_name. rewrite map_of_NoDup by by rewrite typed_keys.
apply map_get_In; [by rewrite typed_keys|].
by apply (list_elem_of_fmap_2 (λ t, (name t, t))).
Qed.

Lemma types_by_name_None l n :
NoDup (name <$> l) → map_get (types_by_name l) n = None ↔ n ∉ name <$> l.
Proof.
intros Hnd. rewrite map_get_None. unfold types_by_name.
by rewrite map_of_NoDup, typed_keys by by rewrite typed_keys.
Qed.

Lemma collect_ok l : NoDup (name <$> l) → builder_ok (types_by_name l) (collect l).
Proof.
intros Hnd. unfold collect. apply foldl_keep.
- intros b t Ht. apply add_type_ok. by apply types_by_name_get.
- split_and!; [done|apply NoDup_nil_2|by constructor].
Qed.

Lemma collect_name l t : t ∈ l → name t ∈ addedTypes (collect l).
Proof.
intros Ht. unfold collect. apply (foldl_establish _ (λ b, name t ∈ addedTypes b) _ _ t); [done| |];
  intros; auto using add_type_name, add_type_keeps.
Qed.

Lemma collect_target l t r tgt :
t ∈ l → r ∈ relations t → tgt ∈ targets r → truthy (base_type tgt) = true →
base_type tgt ∈ addedTypes (collect l).
Proof.
intros Ht Hr Htgt Htr. unfold collect.
apply (foldl_establish _ (λ b, base_type tgt ∈ addedTypes b) _ _ t); [done| |];
  intros; eauto using add_type_target, add_type_keeps.
Qed.

Lemma edge_entries_elem l k v :
(k, v) ∈ edge_entries l ↔
∃ t r tgt, t ∈ l ∧ r ∈ relations t ∧ tgt ∈ targets r ∧ truthy (base_type tgt) = true ∧
  k = edge_key (name t) (base_type tgt) ∧ v = relation r.
Proof.
unfold edge_entries. rewrite elem_of_concat_fmap. setoid_rewrite elem_of_concat_fmap.
setoid_rewrite elem_of_concat_fmap. unfold target_entries. split.
- intros (t & Ht & r & Hr & tgt & Htgt & H).
  destruct (truthy _) eqn:E; [|by apply elem_of_nil in H].
  apply list_elem_of_singleton in H as [= -> ->]. eauto 10.
- intros (t & r & tgt & Ht & Hr & Htgt & Htr & -> & ->).
  exists t. split; [done|]. exists r. split; [done|]. exists tgt. split; [done|].
  rewrite Htr. by apply list_elem_of_singleton.
Qed.
End Collected.

(** *** Edge keys *)

Lemma edge_key_parts a b :
  ARROW ∉ a →
  let k := edge_key a b in
  slice k 0 (Some (indexOf k ARROW)) = a ∧ slice k (indexOf k ARROW + 1) None = b.
Proof.
  intros Ha. simpl. unfold edge_key. rewrite indexOf_app by done. split.
  - unfold slice, slice_index. simpl.
    rewrite (proj2 (Z.ltb_ge _ _)) by lia. rewrite Nat2Z.id, drop_0, Nat.sub_0_r, Nat.min_l.
    + apply take_app_length.
    + rewrite length_app. lia.
  - replace (Z.of_nat (length a) + 1)%Z with (Z.of_nat (S (length a))) by lia.
    rewrite slice_from. rewrite cons_middle, app_assoc. apply drop_app_length'.
    rewrite length_app. simpl. lia.
Qed.

Lemma make_edge_ends a b rels :
  ARROW ∉ a →
  make_edge (edge_key a b, rels) =
    MkEdge (js "edge:" ++ edge_key a b) (type_id a) (type_id b) (join (js ", ") rels).
Proof. intros Ha. unfold make_edge. destruct (edge_key_parts a b Ha) as [-> ->]. done. Qed.

(** *** Types read have distinct names *)

Lemma types_by_name_ok (l : list ParsedType) :
  Forall (λ e, e.1 = name e.2) (types_by_name l) ∧ NoDup (map_keys (types_by_name l)).
Proof.
  unfold types_by_name, map_of. apply foldl_keep; [|split; [by constructor|apply NoDup_nil_2]].
  intros m e (t & -> & Ht)%list_elem_of_fmap [Hm Hnd]. simpl. split; [|by apply map_keys_NoDup_set].
  clear Hnd. induction Hm as [|[k v] m Hk Hm IH]; simpl; [by repeat constructor|].
  case_bool_decide as E; constructor; simpl in *; congruence.
Qed.

Lemma parseTypes_map source :
  parseTypes source = map_values (types_by_name (of_dialog <$> Dialog.parseSchemaTypes source)).
Proof.
  unfold parseTypes, Dialog.parseSchemaTypes, for_lines.
  change init with (sim Dialog.init). rewrite sim_lines. simpl. rewrite <-deref_names.
  do 3 f_equal. by rewrite <-list_fmap_compose.
Qed.

Lemma parseTypes_names source : NoDup (name <$> parseTypes source).
Proof.
  rewrite parseTypes_map.
  destruct (types_by_name_ok (of_dialog <$> Dialog.parseSchemaTypes source)) as [Hn Hnd].
  revert Hn Hnd. generalize (types_by_name (of_dialog <$> Dialog.parseSchemaTypes source)).
  intros m Hn Hnd. unfold map_values, map_keys in *.
  replace (name <$> m.*2) with (m.*1); [done|]. rewrite <-list_fmap_compose.
  apply list_fmap_ext. intros i [k v] Hi. rewrite Forall_lookup in Hn. by apply (Hn i (k, v)).
Qed.

Lemma place_ids dagre ns es : node_id <$> place dagre ns es = node_id <$> ns.
Proof. unfold place. by rewrite <-list_fmap_compose. Qed.

Lemma place_data dagre ns es : node_data <$> place dagre ns es = node_data <$> ns.
Proof. unfold place. by rewrite <-list_fmap_compose. Qed.

#[export] Instance type_id_inj : Inj (=) (=) type_id.
Proof. intros a b H. by apply app_inv_head in H. Qed.

Section Graph.
Context (dagre : list (jstring * (Z * Z)) → list (jstring * jstring) → jstring → Z * Z).
Implicit Types (source : jstring).

Lemma graph_node_ids source :
node_id <$> (buildGraph dagre source).1 = type_id <$> addedTypes (collect (parseTypes source)).
Proof.
unfold buildGraph. simpl. rewrite place_ids.
destruct (collect_ok (parseTypes source)) as (-> & _ & Hok); [apply parseTypes_names|].
rewrite <-list_fmap_compose. apply list_fmap_ext. intros i n Hi.
rewrite Forall_lookup in Hok. by destruct (Hok i n Hi) as [? _].
Qed.

Lemma graph_node_data source n :
n ∈ (buildGraph dagre source).1 →
∃ m, m ∈ nodes (collect (parseTypes source)) ∧ node_data m = node_data n.
Proof.
intros Hn. apply (list_elem_of_fmap_2 node_data) in Hn. simpl in Hn.
rewrite place_data in Hn. apply list_elem_of_fmap in Hn as (m & ? & ?). eauto.
Qed.

Lemma graph_entry source k :
k ∈ (edge_entries (parseTypes source)).*1 →
∃ t r tgt, t ∈ parseTypes source ∧ r ∈ relations t ∧ tgt ∈ targets r ∧
  truthy (base_type tgt) = true ∧ k = edge_key (name t) (base_type tgt).
Proof.
intros ((k' & v) & -> & H)%list_elem_of_fmap.
apply edge_entries_elem in H as (t & r & tgt & ? & ? & ? & ? & ? & _). eauto 10.
Qed.
End Graph.

(** ** Properties *)

(** C27: On every source, the graph's reader returns what the dialog's reader
    returns, with a repeated type name collapsed to its last definition at the
    place of the first: the [Map] is the only difference between the two copies. *)
Theorem parseTypes_agrees source :
  parseTypes source = map_values (types_by_name (of_dialog <$> Dialog.parseSchemaTypes source)).
Proof. apply parseTypes_map. Qed.

(** The graph shows one node per type: ids are pairwise distinct, every
    declared type has a node that counts its relations, and a node is marked
    external exactly when its type is not declared. *)
Theorem buildGraph_nodes dagre source ns es :
  buildGraph dagre source = (ns, es) →
  NoDup (node_id <$> ns) ∧
  (∀ t, t ∈ parseTypes source →
    ∃ n, n ∈ ns ∧ node_data n = MkTypeNodeData (name t) false (length (relations t))) ∧
  (∀ n, n ∈ ns →
    isExternal (node_data n) = true ↔ label (node_data n) ∉ name <$> parseTypes source).
Proof.
  intros H. pose proof (parseTypes_names source) as Hnd.
  destruct (collect_ok _ Hnd) as (Hadd & Hadd_nd & Hok).
  rewrite Forall_forall in Hok.
  replace ns with ((buildGraph dagre source).1) by by rewrite H. clear H. split_and!.
  - rewrite graph_node_ids. apply NoDup_fmap_2; [apply _|done].
  - intros t Ht. pose proof (collect_name _ _ Ht) as Hname. rewrite Hadd in Hname.
    apply list_elem_of_fmap in Hname as (m & Hlabel & Hm).
    destruct (Hok m Hm) as (_ & Hext & Hcount).
    rewrite <-Hlabel, types_by_name_get in Hext, Hcount by done.
    assert (Hdata : node_data m ∈ node_data <$> (buildGraph dagre source).1)
      by (simpl; rewrite place_data; by apply list_elem_of_fmap_2).
    apply list_elem_of_fmap in Hdata as (n & Hn & ?). exists n. split; [done|].
    rewrite <-Hn. destruct (node_data m) as [lb ext cnt]; simpl in *. subst.
    f_equal. destruct ext; [|done]. by pose proof (proj1 Hext eq_refl).
  - intros n (m & Hm & <-)%graph_node_data. destruct (Hok m Hm) as (_ & -> & _).
    by apply types_by_name_None.
Qed.

Definition grid (ns : list (jstring * (Z * Z))) (_ : list (jstring * jstring)) (_ : jstring) : Z * Z :=
  (80 * Z.of_nat (length ns), 28)%Z.

Lemma buildGraph_nodes_witness :
  NoDup (node_id <$> (buildGraph grid (schema_text [] drive_schema)).1).
Proof.
  apply (buildGraph_nodes grid (schema_text [] drive_schema)
    (buildGraph grid (schema_text [] drive_schema)).1
    (buildGraph grid (schema_text [] drive_schema)).2). apply surjective_pairing.
Defined.

(** Every edge of the graph joins two of its nodes, and edge ids are pairwise
    distinct, when no declared type name holds the arrow character that the edge
    keys are cut at. *)
Theorem buildGraph_edges_closed dagre source ns es :
  (∀ t, t ∈ parseTypes source → ARROW ∉ name t) →
  buildGraph dagre source = (ns, es) →
  NoDup (edge_id <$> es) ∧
  ∀ e, e ∈ es → SchemaGraph.source e ∈ node_id <$> ns ∧ target e ∈ node_id <$> ns.
Proof.
  intros Harrow H.
  replace ns with ((buildGraph dagre source).1) by by rewrite H.
  replace es with ((buildGraph dagre source).2) by by rewrite H. clear H.
  rewrite graph_node_ids. simpl. rewrite collect_relations, group_spec. split.
  - rewrite <-!list_fmap_compose.
    rewrite (list_fmap_ext _ (app (js "edge:"))) by done.
    apply NoDup_fmap_2; [|apply unique_NoDup]. by intros a b ?%app_inv_head.
  - intros e ([k rels] & -> & Hk)%list_elem_of_fmap.
    apply list_elem_of_fmap in Hk as (k' & [= -> ->] & Hk).
    apply elem_of_unique, graph_entry in Hk as (t & r & tgt & Ht & Hr & Htgt & Htr & ->).
    rewrite make_edge_ends by auto. simpl.
    split; apply list_elem_of_fmap_2; eauto using collect_name, collect_target.
Qed.

Lemma buildGraph_edges_closed_witness :
  NoDup (edge_id <$> (buildGraph grid (schema_text [] (take 2 drive_schema))).2).
Proof.
  apply (buildGraph_edges_closed grid (schema_text [] (take 2 drive_schema))
    (buildGraph grid (schema_text [] (take 2 drive_schema))).1); [|apply surjective_pairing].
  intros t Ht. apply (forallb_elem (λ t, bool_decide (ARROW ∉ name t))) in Ht;
    [by apply bool_decide_eq_true in Ht|by vm_compute].
Defined.

(** The edges are one per distinct source and target pair, in order of first
    appearance, each labelled with every relation name that leads from the source
    to the target, in the order of the schema. *)
Theorem buildGraph_edges dagre source :
  let entries := edge_entries (parseTypes source) in
  (buildGraph dagre source).2 =
  (λ k, make_edge (k, with_key k entries)) <$> unique (entries.*1).
Proof. simpl. rewrite collect_relations, group_spec. by rewrite <-list_fmap_compose. Qed.
