(* ===== verification/SchemaEvaluator.v ===== *)
(** * The permission evaluator

    [console/src/components/schema/schema-evaluator.tsx]: the reader that finds
    the types and their permissions in the schema source, and the form that asks
    the server for a decision. *)

From S2P Require Import Prelude JsString JsObject Json JsonIntegers ApiTypes ApiClient Queries Html SchemaLayout.
From S2P Require TupleSchemaParser.

(** ** The schema reader *)

Module Reader.

Record SchemaTypeInfo := MkSchemaTypeInfo {
name : jstring;
permissions : list jstring }.

Record state := MkState {
result : list SchemaTypeInfo;
inTypesSection : bool;
currentType : option nat;           (* a reference into [result] *)
inPermissions : bool }.             (* [currentSection === "permissions"] *)

Definition init : state := MkState [] false None false.

Definition push_permission (p : jstring) (t : SchemaTypeInfo) : SchemaTypeInfo :=
MkSchemaTypeInfo (name t) (permissions t ++ [p]).

Definition step (st : state) (indent : nat) (line : jstring) : state :=
if bool_decide (indent = 0) then
  MkState (result st) (bool_decide (line = js "types:")) None false
else if negb (inTypesSection st) then st
else if bool_decide (indent = 2) && endsWith line [COLON] then
  let typeName := trim (slice line 0 (Some (-1)%Z)) in
  if negb (truthy typeName) then st
  else MkState (result st ++ [MkSchemaTypeInfo typeName []]) true
         (Some (length (result st))) false
else match currentType st with
| None => st
| Some i =>
    if bool_decide (indent = 4) && endsWith line [COLON] then
      MkState (result st) true (Some i)
        (bool_decide (trim (slice line 0 (Some (-1)%Z)) = js "permissions"))
    else if inPermissions st && bool_decide (indent = 6) && endsWith line [COLON] then
      MkState (alter (push_permission (trim (slice line 0 (Some (-1)%Z)))) i (result st))
        true (Some i) true
    else st
end.

Definition parseSchemaTypeInfos (source : jstring) : list SchemaTypeInfo :=
result (for_lines step init source).

Definition expected_type (t : type_decl) : SchemaTypeInfo :=
MkSchemaTypeInfo (td_name t) (pd_name <$> td_permissions t).

#[global] Arguments step : simpl never.

Abbreviation run_lines := (foldl (λ st (l : logical), step st (fst l) (snd l))).

Ltac step_simpl :=
intros; unfold step; simpl; autorewrite with console_rw; simpl; try done.

Section Steps.
Implicit Types (st : state) (R : list SchemaTypeInfo) (T : SchemaTypeInfo).

Lemma eval_step_type st n :
inTypesSection st = true → name_ok n = true →
step st 2 (key n) =
MkState (result st ++ [MkSchemaTypeInfo n []]) true (Some (length (result st))) false.
Proof.
intros Ht Hn. step_simpl. rewrite Ht. simpl. by rewrite solid_truthy by auto with console.
Qed.

Lemma eval_step_section st i n :
inTypesSection st = true → currentType st = Some i → name_ok n = true →
step st 4 (key n) = MkState (result st) true (Some i) (bool_decide (n = js "permissions")).
Proof. intros Ht Hi Hn. step_simpl. by rewrite Ht, Hi. Qed.

(** Lines that name no permission change nothing. *)
Lemma eval_step_other st l :
4 < l.1 → inPermissions st && bool_decide (l.1 = 6) && endsWith l.2 [COLON] = false →
step st l.1 l.2 = st.
Proof.
intros Hlt Hp. unfold step. rewrite Hp.
rewrite !(bool_decide_eq_false_2 (l.1 = 0)), !(bool_decide_eq_false_2 (l.1 = 2)),
!(bool_decide_eq_false_2 (l.1 = 4)) by lia.
simpl. by repeat case_match.
Qed.

Lemma eval_run_other st ls :
Forall (λ l, 4 < l.1 ∧ inPermissions st && bool_decide (l.1 = 6) && endsWith l.2 [COLON] = false) ls →
run_lines st ls = st.
Proof.
induction 1 as [|l ls [Hl Hp] Hls IH]; [done|]. simpl. by rewrite eval_step_other.
Qed.

Lemma eval_step_permission R T n :
name_ok n = true →
step (MkState (R ++ [T]) true (Some (length R)) true) 6 (key n) =
MkState (R ++ [push_permission n T]) true (Some (length R)) true.
Proof. intros. step_simpl. Qed.

Lemma eval_run_permissions R T ps :
forallb permission_ok ps = true →
run_lines (MkState (R ++ [T]) true (Some (length R)) true) (concat (permission_lines <$> ps)) =
MkState (R ++ [MkSchemaTypeInfo (name T) (permissions T ++ (pd_name <$> ps))])
true (Some (length R)) true.
Proof.
revert T. induction ps as [|p ps IH]; intros T Hps.
{ destruct T. simpl. by rewrite app_nil_r. }
apply andb_true_iff in Hps as [[Hn Hb]%andb_true_iff Hps]. rewrite fmap_cons. cbn [concat].
rewrite foldl_app. unfold permission_lines at 1. cbn [foldl fst snd].
rewrite eval_step_permission, (eval_run_other _ (body_line <$> pd_body p)) by
(done || (apply Forall_fmap, Forall_true; intros [[] ?]; simpl; split; (lia || done))).
rewrite IH by done. simpl. by rewrite <-app_assoc.
Qed.

(** Sections other than [permissions]. *)
Lemma eval_run_other_section R T b n ls :
name_ok n = true → n ≠ js "permissions" → Forall (λ l, 4 < l.1) ls →
∃ b', run_lines (MkState (R ++ [T]) true (Some (length R)) b) (section_lines n ls) =
MkState (R ++ [T]) true (Some (length R)) b'.
Proof.
intros Hn Hne Hls. destruct ls as [|l ls]; [eauto|].
change (section_lines n (l :: ls)) with ((4, key n) :: l :: ls). exists false.
cbn [foldl fst snd]. rewrite (eval_step_section _ (length R)), bool_decide_eq_false_2 by done.
apply (eval_run_other (MkState (R ++ [T]) true (Some (length R)) false) (l :: ls)).
eapply Forall_impl; [done|]. by intros k Hk.
Qed.
End Steps.

Lemma eval_run_type st t :
inTypesSection st = true → type_ok t = true →
∃ b, run_lines st (type_lines t) =
  MkState (result st ++ [expected_type t]) true (Some (length (result st))) b.
Proof.
intros Hin. unfold type_ok. rewrite !andb_true_iff. intros (((Hn & _) & Hr) & Hp).
unfold type_lines. cbn [foldl fst snd]. rewrite eval_step_type, !foldl_app by done.
destruct (eval_run_other_section (result st) (MkSchemaTypeInfo (td_name t) []) false
  (js "attributes") (attribute_line <$> td_attributes t)) as [b1 ->];
  [done|done|apply attribute_lines_deep|].
destruct (eval_run_other_section (result st) (MkSchemaTypeInfo (td_name t) []) b1
  (js "relations") (concat (relation_lines <$> td_relations t))) as [b2 ->];
  [done|done|apply relation_lines_deep|].
unfold expected_type. destruct (td_permissions t) as [|p ps]; [simpl; eauto|].
change (section_lines ?n (concat (permission_lines <$> p :: ps))) with
  ((4, key n) :: concat (permission_lines <$> p :: ps)).
cbn [foldl fst snd]. rewrite (eval_step_section _ (length (result st))), bool_decide_eq_true_2 by done.
exists true. by apply (eval_run_permissions (result st) (MkSchemaTypeInfo (td_name t) [])).
Qed.

Lemma eval_run_types st ts :
inTypesSection st = true → forallb type_ok ts = true →
result (run_lines st (concat (type_lines <$> ts))) = result st ++ (expected_type <$> ts).
Proof.
revert st. induction ts as [|t ts IH]; intros st Hin Hts; [by rewrite app_nil_r|].
apply andb_true_iff in Hts as [Ht Hts]. rewrite fmap_cons. cbn [concat].
rewrite foldl_app. destruct (eval_run_type st t Hin Ht) as [b ->].
rewrite IH by done. simpl. by rewrite <-app_assoc.
Qed.

Lemma eval_run_header st h :
result st = [] → result (run_lines st ((λ x, (0, x)) <$> h)) = [].
Proof. revert st. induction h as [|x h IH]; intros st H; [done|]. cbn. by apply IH. Qed.
End Reader.

(** ** The form *)

Inductive decision_shown := allow | deny.

#[export] Instance decision_eq_dec : EqDecision decision_shown.
Proof. solve_decision. Defined.

Record form := MkForm {
  resource_type : jstring;
  resource_id : jstring;
  action : jstring;
  subject_type : jstring;
  subject_id : jstring }.

Record eval_state := MkEval {
  the_form : form;
  decision : option decision_shown;
  isPending : bool }.                   (* [check.isPending] *)

(** [useState({...})], [useState(null)], an idle mutation. *)
Definition eval_init : eval_state := MkEval (MkForm [] [] [] [] []) None false.

Record eval_props := MkEvalProps {
  tenantId : jstring;
  schemaSource : jstring }.

Inductive eval_msg :=
  | SetSubjectType (v : jstring)
  | SetSubjectId (v : jstring)
  | TypeResourceType (v : jstring)      (* the [Input] shown without a schema *)
  | SelectResourceType (v : jstring)    (* the [Select]: also clears the action *)
  | SetAction (v : jstring)
  | SetResourceId (v : jstring)
  | HandleCheck
  | CheckSettled (r : settled CheckResponse unit).

Section Evaluator.
Context `{!JsNumber}.
Implicit Types (p : eval_props) (s : eval_state) (f : form).

Definition schemaTypes p : list Reader.SchemaTypeInfo :=
Reader.parseSchemaTypeInfos (schemaSource p).

Definition typeNames p : list jstring := Reader.name <$> schemaTypes p.

Definition actions_of (types : list Reader.SchemaTypeInfo) (type : jstring) : list jstring :=
if negb (truthy type) then []
else match find (λ t, bool_decide (Reader.name t = type)) types with
     | Some t => Reader.permissions t
     | None => []
     end.

Definition actionsForType p s : list jstring :=
actions_of (schemaTypes p) (resource_type (the_form s)).

Definition isValid f : bool :=
truthy (resource_type f) && truthy (resource_id f) && truthy (action f)
&& truthy (subject_type f) && truthy (subject_id f).

Definition hasSchema p : bool := bool_decide (0 < length (typeNames p)).

(** The argument of [check.mutateAsync]. *)
Definition check_request f : CheckRequest :=
MkCheckRequest (subject_type f) (subject_id f) (resource_type f) (resource_id f) (action f).

Definition set_form s f : eval_state := MkEval f (decision s) (isPending s).

Definition eval_update p s (m : eval_msg) : eval_state * list request :=
let f := the_form s in
match m with
| SetSubjectType v =>
    (set_form s (MkForm (resource_type f) (resource_id f) (action f) v (subject_id f)), [])
| SetSubjectId v =>
    (set_form s (MkForm (resource_type f) (resource_id f) (action f) (subject_type f) v), [])
| TypeResourceType v =>
    (set_form s (MkForm v (resource_id f) (action f) (subject_type f) (subject_id f)), [])
| SelectResourceType v =>
    (set_form s (MkForm v (resource_id f) [] (subject_type f) (subject_id f)), [])
| SetAction v =>
    (set_form s (MkForm (resource_type f) (resource_id f) v (subject_type f) (subject_id f)), [])
| SetResourceId v =>
    (set_form s (MkForm (resource_type f) v (action f) (subject_type f) (subject_id f)), [])
| HandleCheck =>
    (MkEval f None true, [mutationFn (useCheck (tenantId p)) (check_request f)])
| CheckSettled (Resolved r) =>
    (MkEval f (Some (if ApiTypes.decision r then allow else deny)) false, [])
| CheckSettled (Rejected _) => (MkEval f (Some deny) false, [])
end.

Definition decision_text (d : decision_shown) : string :=
match d with allow => "ALLOW" | deny => "DENY" end.

Definition eval_render p s : list (html eval_msg) :=
let f := the_form s in
[E "div" [
  E "div" [
    E "div" [
      E "p" [T "Subject"];
      E "div" [
        E "div" [E "Label" [T "Type *"];
          if hasSchema p then select_of (subject_type f) SetSubjectType "Select type" (typeNames p)
          else input (subject_type f) SetSubjectType];
        E "div" [E "Label" [T "ID *"]; input (subject_id f) SetSubjectId]]];
    E "div" [
      E "p" [T "Action"];
      E "div" [
        E "div" [E "Label" [T "Resource Type *"];
          if hasSchema p
          then select_of (resource_type f) SelectResourceType "Select type" (typeNames p)
          else input (resource_type f) TypeResourceType];
        E "div" [E "Label" [T "Permission *"];
          if bool_decide (0 < length (actionsForType p s))
          then select_of (action f) SetAction "Select permission" (actionsForType p s)
          else input_disabled (hasSchema p && negb (truthy (resource_type f))) (action f) SetAction]];
      E "div" [E "Label" [T "Resource ID *"]; input (resource_id f) SetResourceId]]];
  E "div"
    (button (negb (isValid f) || isPending s) HandleCheck
       [E (if isPending s then "Loader2" else "Play") []; T "Check"] ::
     match decision s with
     | Some d => [E "div" [E (match d with allow => "CheckCircle" | deny => "XCircle" end) [];
                           T (decision_text d)]]
     | None => []
     end)]].

(** A check settles only while one is pending. *)
Definition eval_arrives p s (m : eval_msg) : Prop :=
match m with CheckSettled _ => isPending s = true | _ => False end.

#[export] Instance evaluator : Component eval_props eval_state eval_msg request :=
{| render := eval_render; update := eval_update; arrives := eval_arrives |}.
End Evaluator.

(** ** What the user can do *)

Section EvaluatorFacts.
Context `{!JsNumber}.
Implicit Types (p : eval_props) (s : eval_state) (m : eval_msg) (ms : list eval_msg).

Lemma hasSchema_spec p : hasSchema p = negb (bool_decide (typeNames p = [])).
Proof.
unfold hasSchema. rewrite <-bool_decide_not. apply bool_decide_ext.
destruct (typeNames p); simpl; [naive_solver lia|split; [done|lia]].
Qed.

Definition user_can p s m : Prop :=
match m with
| SetSubjectType v => choosable (typeNames p) v
| SetSubjectId _ | SetResourceId _ => True
| TypeResourceType _ => typeNames p = []
| SelectResourceType v => v ∈ typeNames p
| SetAction v =>
    choosable (actionsForType p s) v ∧
    (typeNames p = [] ∨ actionsForType p s ≠ [] ∨ resource_type (the_form s) ≠ [])
| HandleCheck => isValid (the_form s) = true ∧ isPending s = false
| CheckSettled _ => False
end.

Lemma eval_offers p s m : offers (render p s) m → user_can p s m.
Proof.
cbn [render evaluator]. unfold eval_render. destruct (decision s); intros Ho;
  rewrite hasSchema_spec in Ho; offers_cases Ho; simpl; unfold choosable; auto;
  destruct (actionsForType p s) as [|a l]; simpl in *; try lia;
  (split; [auto|]);
  first [by right; left
        |match goal with H : _ && _ = false |- _ => apply andb_false_iff in H as [?|?] end;
         bool_prop; [by left|by right; right; apply truthy_true]].
Qed.

(** What the fields hold is blank or was on offer. *)
Definition blank_or_choosable (names : list jstring) (v : jstring) : Prop :=
v = [] ∨ choosable names v.

Definition form_ok p s : Prop :=
blank_or_choosable (typeNames p) (subject_type (the_form s)) ∧
blank_or_choosable (typeNames p) (resource_type (the_form s)) ∧
blank_or_choosable (actionsForType p s) (action (the_form s)).

Lemma no_types_no_actions p type : typeNames p = [] → actions_of (schemaTypes p) type = [].
Proof.
unfold typeNames, actions_of. intros ->%fmap_nil_inv. by destruct (truthy type).
Qed.

Lemma eval_form_ok_step p s m : form_ok p s → enabled p s m → form_ok p (after p s m).
Proof.
unfold form_ok, actionsForType. intros (Hs & Hr & Ha) [Hm%eval_offers|Hm].
- destruct m as [| | | | | | |[]]; simpl in *; unfold blank_or_choosable, choosable in *;
    try rewrite no_types_no_actions by done; tauto.
- by destruct m as [| | | | | | |[]].
Qed.

Lemma eval_form_ok_reachable p s : reachable p eval_init s → form_ok p s.
Proof.
apply reachable_invariant; [by repeat split; left|]. intros. by apply eval_form_ok_step.
Qed.

(** What the last check of a run came to. *)
Definition outcome_step (o : option decision_shown) m : option decision_shown :=
match m with
| HandleCheck => None
| CheckSettled (Resolved r) => Some (if ApiTypes.decision r then allow else deny)
| CheckSettled (Rejected _) => Some deny
| _ => o
end.

Definition outcome ms : option decision_shown := foldl outcome_step None ms.

Definition starts_check m : bool := match m with HandleCheck => true | _ => false end.
Definition settles_check m : bool := match m with CheckSettled _ => true | _ => false end.

Lemma run_outcome p ms s :
run p eval_init ms s →
decision s = outcome ms ∧
count starts_check ms = count settles_check ms + (if isPending s then 1 else 0) ∧
(isPending s = true → decision s = None).
Proof.
induction 1 as [|ms s m Hrun (Hd & Hc & Hp) Hm]; [done|].
unfold outcome. rewrite foldl_snoc, !count_snoc, Hc. fold (outcome ms). rewrite <-Hd.
destruct Hm as [Hm%eval_offers|Hm]; destruct m as [| | | | | | |[]]; simpl in *;
  destruct_hyps; repeat split; try done;
  repeat match goal with H : isPending s = _ |- _ => rewrite H end; lia.
Qed.
End EvaluatorFacts.

(** ** Properties *)

(** On every schema in the canonical layout the evaluator's reader returns its
    types in order, each with exactly its permissions. *)
Theorem parseSchemaTypeInfos_canonical header ts :
  schema_ok header ts = true →
  Reader.parseSchemaTypeInfos (schema_text header ts) = Reader.expected_type <$> ts.
Proof.
  intros Hok. unfold Reader.parseSchemaTypeInfos, schema_text.
  rewrite for_lines_lay by (try (by destruct header); auto with console).
  unfold schema_lines. rewrite foldl_app. cbn [foldl fst snd].
  apply andb_true_iff in Hok as [_ Hts].
  set (st := Reader.step _ 0 _). rewrite Reader.eval_run_types by done.
  unfold st, Reader.step. simpl. by rewrite Reader.eval_run_header.
Qed.

Lemma parseSchemaTypeInfos_canonical_witness :
  Reader.parseSchemaTypeInfos (schema_text [js "version: 1"] drive_schema) =
    Reader.expected_type <$> drive_schema ∧
  Reader.permissions <$> (Reader.expected_type <$> drive_schema) !! 1 = Some [js "manage"].
Proof.
  split; [apply (parseSchemaTypeInfos_canonical [js "version: 1"] drive_schema); reflexivity|done].
Defined.

(** On every source, well formed or not, the evaluator offers exactly the type
    names the create-tuple dialog offers: the two copies of the reader agree. *)
Theorem evaluator_dialog_types source :
  Reader.name <$> Reader.parseSchemaTypeInfos source =
  TupleSchemaParser.type_name <$> TupleSchemaParser.parseSchemaTypes source.
Proof.
  apply (for_lines_related (λ (a : Reader.state) (b : TupleSchemaParser.state),
    Reader.name <$> Reader.result a = TupleSchemaParser.type_name <$> TupleSchemaParser.result b ∧
    Reader.inTypesSection a = TupleSchemaParser.inTypesSection b ∧
    Reader.currentType a = TupleSchemaParser.currentType b)
    Reader.step TupleSchemaParser.step); [|done].
  intros a b n l (Hn & Ht & Hc).
  assert (Hlen : length (Reader.result a) = length (TupleSchemaParser.result b)).
  { apply (f_equal length) in Hn. by rewrite !length_fmap in Hn. }
  unfold Reader.step, TupleSchemaParser.step. rewrite Ht, Hc, Hlen.
  repeat case_match; simpl; rewrite ?fmap_app, ?fmap_alter_keep, ?Hn by done; bool_prop;
    split_and!; (congruence || done).
Qed.

Section CheckProperties.
Context `{!JsNumber}.
Implicit Types (p : eval_props) (s : eval_state) (ms : list eval_msg).

(** Filling the form of a tenant without a schema. *)
Definition demo_props : eval_props := MkEvalProps (js "acme") [].
Definition demo_filling : list eval_msg := [
SetSubjectType (js "user"); SetSubjectId (js "alice"); TypeResourceType (js "document");
SetAction (js "read"); SetResourceId (js "doc_1")].
Definition demo_filled : eval_state :=
MkEval (MkForm (js "document") (js "doc_1") (js "read") (js "user") (js "alice")) None false.

Lemma demo_fill ms s :
run demo_props demo_filled ms s → run demo_props eval_init (demo_filling ++ ms) s.
Proof.
intros Hrun. unfold demo_filling. cbn [app].
apply run_cons; [left; offer 0|]. apply run_cons; [left; offer 1|].
apply run_cons; [left; offer 2|]. apply run_cons; [left; offer 3|].
apply run_cons; [left; offer 4|]. exact Hrun.
Qed.


(** C19: Along every run, the badge shows what the last check came to: ALLOW
  only if the server's last decision was true, DENY if it was false or the
  request failed, nothing before the first check and while one is pending;
  and at most one check is in flight. *)
Theorem decision_is_last_outcome p ms s :
run p eval_init ms s →
decision s = outcome ms ∧
count starts_check ms = count settles_check ms + (if isPending s then 1 else 0) ∧
(isPending s = true → decision s = None).
Proof. apply run_outcome. Qed.

(** The badge is not cleared when the form is edited: after an ALLOW the
  subject can be changed and the page still says ALLOW for a check that was
  never made. *)
Theorem decision_survives_edit p s v :
decision (after p s (SetSubjectId v)) = decision s.
Proof. done. Qed.
End CheckProperties.


Lemma decision_is_last_outcome_witness :
  ∃ ms s, run (comp := evaluator (H := integers)) demo_props eval_init ms s ∧
    decision s = Some allow ∧ outcome ms = Some allow.
Proof.
  exists (demo_filling ++ [HandleCheck; CheckSettled (Resolved (MkCheckResponse true))]).
  eexists. assert (Hrun : run (comp := evaluator (H := integers)) demo_props eval_init
    (demo_filling ++ [HandleCheck; CheckSettled (Resolved (MkCheckResponse true))])
    (MkEval (the_form demo_filled) (Some allow) false)).
  { apply demo_fill. apply run_cons; [left; offer 5|]. apply run_cons; [by right|constructor]. }
  split; [exact Hrun|]. split; [reflexivity|].
  destruct (decision_is_last_outcome (H := integers) _ _ _ Hrun) as [Hd _]. by rewrite <-Hd.
Defined.
