(* ===== verification/SchemaViewer.v ===== *)
(** * The schema viewer

    [console/src/components/schema/schema-viewer.tsx]: [parseYamlSimple], the
    fourth reader of the schema source (it skips neither comments nor blank lines
    and looks only at indents), and the cards that show what it found. *)

From S2P Require Import Prelude JsString JsObject Json JsonIntegers Html SchemaLayout.

Inductive section_kind := Attributes | Relations | Permissions.

#[export] Instance section_kind_eq_dec : EqDecision section_kind.
Proof. solve_decision. Defined.

(** A permission is [{ raw }]. *)
Record ParsedType := MkParsedType {
  name : jstring;
  attributes : option (jobject jstring);
  relations : option (jobject (list jstring));
  permissions : option (jobject jstring) }.

Record state := MkState {
  types : list ParsedType;
  currentType : option ParsedType;
  currentSection : option section_kind;
  currentRelation : option jstring;
  currentPermission : option jstring;
  permissionBody : list jstring }.

Definition init : state := MkState [] None None None None [].

Definition section_of (s : jstring) : option section_kind :=
  if bool_decide (s = js "attributes") then Some Attributes
  else if bool_decide (s = js "relations") then Some Relations
  else if bool_decide (s = js "permissions") then Some Permissions
  else None.

(** [if (!t.k) t.k = {}; t.k[key] = v] *)
Definition assign {V} (o : option (jobject V)) (key : jstring) (v : V) : option (jobject V) :=
  Some (obj_assign (default [] o) key v).

Definition set_attribute (key val : jstring) (t : ParsedType) : ParsedType :=
  MkParsedType (name t) (assign (attributes t) key val) (relations t) (permissions t).

Definition set_relation (key : jstring) (ts : list jstring) (t : ParsedType) : ParsedType :=
  MkParsedType (name t) (attributes t) (assign (relations t) key ts) (permissions t).

(** [if (t.relations?.[key]) t.relations[key].types = ts] *)
Definition update_types (key : jstring) (ts : list jstring) (t : ParsedType) : ParsedType :=
  match relations t with
  | Some o => if map_has o key
              then MkParsedType (name t) (attributes t) (Some (map_set o key ts)) (permissions t)
              else t
  | None => t
  end.

(** [if (currentPermission && permissionBody.length > 0)] record it. *)
Definition flush_permission (p : option jstring) (body : list jstring) (t : ParsedType) : ParsedType :=
  match p with
  | Some k =>
      if truthy k && bool_decide (0 < length body)
      then MkParsedType (name t) (attributes t) (relations t) (assign (permissions t) k (join [NL] body))
      else t
  | None => t
  end.

Definition truthy_name (o : option jstring) : bool :=
  match o with Some k => truthy k | None => false end.

Definition is_bracket (c : N) : bool := bool_decide (c = LBRACKET) || bool_decide (c = RBRACKET).

(** [typesStr.replace(/[\[\]]/g, "").split(",").map(trim).filter(Boolean)] *)
Definition types_of (typesStr : jstring) : list jstring :=
  List.filter truthy (trim <$> split COMMA (List.filter (λ c, negb (is_bracket c)) typesStr)).

Definition indent_six (st : state) (t : ParsedType) (s : section_kind) (kv : jstring) : state :=
  match s with
  | Attributes =>
      if includes kv COLON then
        let parts := trim <$> split COLON kv in
        MkState (types st) (Some (set_attribute (nth 0 parts []) (nth 1 parts []) t))
          (currentSection st) (currentRelation st) (currentPermission st) (permissionBody st)
      else st
  | Relations =>
      if endsWith kv [COLON] then
        let r := slice kv 0 (Some (-1)%Z) in
        MkState (types st) (Some (set_relation r [] t)) (currentSection st) (Some r)
          (currentPermission st) (permissionBody st)
      else st
  | Permissions =>
      if endsWith kv [COLON] then
        MkState (types st) (Some (flush_permission (currentPermission st) (permissionBody st) t))
          (currentSection st) (currentRelation st) (Some (slice kv 0 (Some (-1)%Z))) []
      else st
  end.

Definition push_body (st : state) (s : jstring) : state :=
  MkState (types st) (currentType st) (currentSection st) (currentRelation st)
    (currentPermission st) (permissionBody st ++ [s]).

Definition indent_eight (st : state) (t : ParsedType) (text : jstring) : state :=
  if bool_decide (currentSection st = Some Relations) && truthy_name (currentRelation st)
     && startsWith text (js "types:") then
    MkState (types st)
      (Some (update_types (default [] (currentRelation st)) (types_of (trim (slice text 6 None))) t))
      (currentSection st) (currentRelation st) (currentPermission st) (permissionBody st)
  else if bool_decide (currentSection st = Some Permissions) && truthy_name (currentPermission st) then
    push_body st text
  else st.

(** The body of the loop. *)
Definition step (st : state) (line : jstring) : state :=
  let trimmed := trimEnd line in
  let indent := length line - length (trimStart line) in
  if bool_decide (indent = 2) && negb (startsWith trimmed [DASH]) && endsWith trimmed [COLON] then
    MkState (types st ++ option_list (currentType st))
      (Some (MkParsedType (slice trimmed 2 (Some (-1)%Z)) None None None)) None
      (currentRelation st) (currentPermission st) (permissionBody st)
  else if bool_decide (indent = 4) && endsWith (trim trimmed) [COLON] then
    match section_of (slice (trim trimmed) 0 (Some (-1)%Z)) with
    | Some s => MkState (types st) (currentType st) (Some s) None None (permissionBody st)
    | None => st
    end
  else match bool_decide (indent = 6), currentType st, currentSection st with
  | true, Some t, Some s => indent_six st t s (trim trimmed)
  | _, _, _ =>
      match bool_decide (indent = 8), currentType st with
      | true, Some t => indent_eight st t (trim trimmed)
      | _, _ =>
          if bool_decide (indent = 10) && bool_decide (currentSection st = Some Permissions)
          then push_body st (trim trimmed) else st
      end
  end.

Definition finish (st : state) : list ParsedType :=
  match currentType st with
  | Some t => types st ++ [flush_permission (currentPermission st) (permissionBody st) t]
  | None => types st
  end.

Definition parseYamlSimple (source : jstring) : list ParsedType :=
  finish (foldl step init (split NL source)).

(** ** The cards *)

Section Viewer.
Context `{!JsNumber} {M : Type}.
Implicit Types (t : ParsedType).

Definition badge (s : jstring) : html M := E "Badge" [Text s].

Definition section_table (title first second : string) (rows : list (html M)) : html M :=
E "div" [E "h4" [T title];
  E "Table" [
    E "TableHeader" [E "TableRow" [E "TableHead" [T first]; E "TableHead" [T second]]];
    E "TableBody" rows]].

Definition table_row (n : jstring) (cell : list (html M)) : html M :=
E "TableRow" [E "TableCell" [Text n]; E "TableCell" cell].

(** [{o && Object.keys(o).length > 0 && ...}] over [Object.entries(o)] *)
Definition section {V} (o : option (jobject V)) (title first second : string)
  (cell : V → list (html M)) : list (html M) :=
match o with
| Some l => when (bool_decide (0 < length l))
    [section_table title first second ((λ e, table_row (fst e) (cell (snd e))) <$> l)]
| None => []
end.

(** [def.raw || JSON.stringify(def)] *)
Definition definition_text (raw : jstring) : jstring :=
js_or raw (stringify (JObject [(js "raw", JString raw)])).

Definition type_card t : html M :=
E "Card" [E "CardHeader" [E "CardTitle" [Text (name t)]];
  E "CardContent" (
    section (attributes t) "Attributes" "Name" "Type" (λ ty, [badge ty]) ++
    section (relations t) "Relations" "Name" "Allowed Types"
      (λ ts, [E "div" (badge <$> ts)]) ++
    section (permissions t) "Permissions" "Name" "Definition"
      (λ raw, [Text (definition_text raw)]))].

Definition SchemaViewer (source : jstring) : list (html M) :=
let types := parseYamlSimple source in
if bool_decide (length types = 0)
then [E "p" [T "Unable to parse schema for visual display."]]
else [E "div" (type_card <$> types)].
End Viewer.

(** ** What it shows of a schema in the canonical layout *)

Definition expected_attributes (l : list (jstring * jstring)) : option (jobject jstring) :=
  foldl (λ o a, assign o (fst a) (snd a)) None l.

(** A list of types over several lines is not read. *)
Definition shown_types (r : relation_decl) : list jstring := if rd_inline r then rd_types r else [].

Definition expected_relations (l : list relation_decl) : option (jobject (list jstring)) :=
  foldl (λ o r, assign o (rd_name r) (shown_types r)) None l.

Definition body_text (p : permission_decl) : list jstring := snd <$> pd_body p.

Definition flush_decl (p : permission_decl) (t : ParsedType) : ParsedType :=
  flush_permission (Some (pd_name p)) (body_text p) t.

(** The type once its lines are read: a permission is recorded when the next
    one starts. *)
Definition before_end (t : type_decl) : ParsedType :=
  foldl (λ T p, flush_decl p T)
    (MkParsedType (td_name t) (expected_attributes (td_attributes t))
       (expected_relations (td_relations t)) None)
    (removelast (td_permissions t)).

Definition has_section (t : type_decl) : bool :=
  negb (bool_decide (td_attributes t = [])) || negb (bool_decide (td_relations t = []))
  || negb (bool_decide (td_permissions t = [])).

(** The permission being read at the end of a type: its own last one or, in a type
    without sections, the one left over from the types before. *)
Definition left_over (q : option permission_decl) (t : type_decl) : option permission_decl :=
  if has_section t then last (td_permissions t) else q.

Fixpoint viewed (q : option permission_decl) (ts : list type_decl) : list ParsedType :=
  match ts with
  | [] => []
  | [t] => [match left_over q t with Some p => flush_decl p (before_end t) | None => before_end t end]
  | t :: ts => before_end t :: viewed (left_over q t) ts
  end.

(** ** One step on each kind of canonical line *)

#[global] Arguments step : simpl never.

Section Steps.
Implicit Types (st : state) (T : ParsedType) (s : jstring).

(** The tests of a step on a line that is [n] spaces and solid text. *)
Lemma step_lay st (n : nat) s :
solid s = true → n ≠ 2 →
step st (lay (n, s)) =
  if bool_decide (n = 4) && endsWith s [COLON] then
    match section_of (slice s 0 (Some (-1)%Z)) with
    | Some k => MkState (types st) (currentType st) (Some k) None None (permissionBody st)
    | None => st
    end
  else match bool_decide (n = 6), currentType st, currentSection st with
  | true, Some t, Some k => indent_six st t k s
  | _, _, _ =>
      match bool_decide (n = 8), currentType st with
      | true, Some t => indent_eight st t s
      | _, _ =>
          if bool_decide (n = 10) && bool_decide (currentSection st = Some Permissions)
          then push_body st s else st
      end
  end.
Proof.
intros Hs Hn. unfold step, lay. cbn [fst snd].
rewrite trimEnd_indented, trimStart_indented, length_indented, trim_indented by done.
by rewrite (bool_decide_eq_false_2 (n = 2)) by done.
Qed.

Lemma viewer_step_type st k :
name_ok k = true →
step st (lay (2, key k)) =
  MkState (types st ++ option_list (currentType st)) (Some (MkParsedType k None None None)) None
    (currentRelation st) (currentPermission st) (permissionBody st).
Proof.
intros Hn%name_ok_key%solid_head_text. destruct Hn as (Hn & _).
unfold step, lay. cbn [fst snd].
rewrite trimEnd_indented, trimStart_indented, length_indented by done.
change (indented 2 (key k)) with (SPACE :: SPACE :: k ++ [COLON]).
rewrite startsWith_cons, slice_inner2.
change (SPACE :: SPACE :: k ++ [COLON]) with ((SPACE :: SPACE :: k) ++ [COLON]).
by rewrite endsWith_snoc.
Qed.

Lemma viewer_step_section st k kind :
solid (key k) = true → section_of k = Some kind →
step st (lay (4, key k)) = MkState (types st) (currentType st) (Some kind) None None (permissionBody st).
Proof.
intros Hk Hkind. rewrite step_lay, key_endsWith, key_slice, Hkind by done. done.
Qed.

(** A state inside a section of a type. *)
Definition inside (ts : list ParsedType) T (k : section_kind) (r p : option jstring)
  (body : list jstring) : state := MkState ts (Some T) (Some k) r p body.

Lemma step_attribute ts T r p b a :
attribute_ok a = true →
step (inside ts T Attributes r p b) (lay (attribute_line a)) =
inside ts (set_attribute (fst a) (snd a) T) Attributes r p b.
Proof.
intros Ha. pose proof (attribute_line_ok a Ha) as (Hs & _)%solid_head_text.
apply andb_true_iff in Ha as [Hk Hv].
unfold attribute_line in *. cbn [snd] in Hs. rewrite step_lay by done. simpl.
assert (Hline : key a.1 ++ SPACE :: a.2 = a.1 ++ COLON :: SPACE :: a.2).
{ unfold key. by rewrite <-app_assoc. }
rewrite Hline. unfold includes. rewrite bool_decide_eq_true_2 by set_solver.
rewrite split_app_sep by (eapply ref_ok_not_in; auto with console).
rewrite split_no_sep by (apply not_elem_of_cons; split; [done|];
  eapply ref_ok_not_in; auto with console).
simpl. change (SPACE :: a.2) with (indented 1 a.2).
by rewrite trim_indented, solid_trim by auto with console.
Qed.

Lemma viewer_step_relation ts T r p b k :
name_ok k = true →
step (inside ts T Relations r p b) (lay (6, key k)) =
inside ts (set_relation k [] T) Relations (Some k) p b.
Proof.
intros Hk%name_ok_key%solid_head_text. destruct Hk as [Hk _].
rewrite step_lay by done. simpl. by rewrite key_endsWith, key_slice.
Qed.

Lemma viewer_step_permission ts T r p b k :
name_ok k = true →
step (inside ts T Permissions r p b) (lay (6, key k)) =
inside ts (flush_permission p b T) Permissions r (Some k) [].
Proof.
intros Hk%name_ok_key%solid_head_text. destruct Hk as [Hk _].
rewrite step_lay by done. simpl. by rewrite key_endsWith, key_slice.
Qed.

Lemma step_body ts T r k b l :
truthy k = true → text_ok (snd l) = true →
step (inside ts T Permissions r (Some k) b) (lay (body_line l)) =
inside ts T Permissions r (Some k) (b ++ [snd l]).
Proof.
intros Hk (Hs & _)%solid_head_text. unfold body_line. rewrite step_lay; [|done|by destruct l as [[]]].
destruct l as [[] s]; simpl; [done|]. unfold indent_eight. simpl. by rewrite Hk.
Qed.
End Steps.

(** ** Relations *)

(** No relation is named ["__proto__"] in the object built so far. *)
Definition no_proto (T : ParsedType) : Prop :=
  map_has (default [] (relations T)) (js "__proto__") = false.

Abbreviation run_lines := (foldl (λ st (l : logical), step st (lay l))).

Section RelationSteps.
Implicit Types (st : state) (T : ParsedType) (s : jstring) (rs : list jstring).

Lemma update_set_relation k rs T :
no_proto T → update_types k rs (set_relation k [] T) = set_relation k rs T.
Proof.
intros Hp. unfold update_types, set_relation, assign, obj_assign. simpl.
case_bool_decide as Hk; [subst; by rewrite Hp|].
by rewrite map_has_obj_set, map_set_obj_set.
Qed.

Lemma no_proto_set k rs T : no_proto T → no_proto (set_relation k rs T).
Proof. apply obj_assign_no_proto. Qed.

Lemma types_of_inline rs :
forallb ref_ok rs = true → types_of (LBRACKET :: join (js ", ") rs ++ [RBRACKET]) = rs.
Proof.
intros Hrs. unfold types_of. cbn [List.filter negb is_bracket].
rewrite List.filter_app. cbn [List.filter].
change (negb (is_bracket LBRACKET)) with false. change (negb (is_bracket RBRACKET)) with false.
cbv iota. rewrite app_nil_r.
rewrite (List.forallb_filter_id (λ c, negb (is_bracket c)) (join (js ", ") rs)).
- by apply (inline_list_items (λ s, s)).
- assert (Hb : ∀ b, ref_char b = false → b ∉ js ", " → b ∉ join (js ", ") rs).
  { intros b Hb Hsep. apply not_elem_of_join; [done|]. apply forallb_Forall in Hrs.
    eapply Forall_impl; [done|]. simpl. intros x Hx. by eapply ref_ok_not_in. }
  apply forallb_Forall, Forall_forall. intros c Hc. apply negb_true_iff. unfold is_bracket.
  apply orb_false_iff. split; apply bool_decide_eq_false_2; intros ->;
    eapply Hb; try done; decide_literal.
Qed.

Lemma step_types ts T k p b rs :
truthy k = true → forallb ref_ok rs = true → no_proto T →
step (inside ts (set_relation k [] T) Relations (Some k) p b)
  (lay (8, js "types: " ++ LBRACKET :: join (js ", ") rs ++ [RBRACKET])) =
inside ts (set_relation k rs T) Relations (Some k) p b.
Proof.
intros Hk Hrs Hp. set (line := js "types: " ++ LBRACKET :: join (js ", ") rs ++ [RBRACKET]).
assert (Hinner : solid (LBRACKET :: join (js ", ") rs ++ [RBRACKET]) = true).
{ by apply (solid_app [LBRACKET] (join (js ", ") rs) [RBRACKET]). }
rewrite step_lay; [|by apply (solid_app (js "types:") [SPACE])|done].
change (bool_decide (8 = 4) && endsWith line [COLON]) with false.
unfold inside, indent_eight. simpl. rewrite Hk.
assert (Hraw : trim (slice line 6 None) = LBRACKET :: join (js ", ") rs ++ [RBRACKET]).
{ unfold line. change 6%Z with (Z.of_nat 6). rewrite slice_from.
  change (drop 6 _) with (indented 1 (LBRACKET :: join (js ", ") rs ++ [RBRACKET])).
  by apply trim_indented. }
rewrite Hraw. simpl. by rewrite types_of_inline, update_set_relation.
Qed.

(** A list over several lines leaves the relation empty. *)
Lemma run_block ts T k p b rs :
truthy k = true → no_proto T → Forall (λ s, solid s = true) rs →
run_lines (inside ts (set_relation k [] T) Relations (Some k) p b)
  ((8, js "types:") :: ((λ t, (10, js "- " ++ t)) <$> rs)) =
inside ts (set_relation k [] T) Relations (Some k) p b.
Proof.
intros Hk Hp Hrs. cbn [foldl].
assert (step (inside ts (set_relation k [] T) Relations (Some k) p b) (lay (8, js "types:")) =
  inside ts (set_relation k [] T) Relations (Some k) p b) as ->.
{ rewrite step_lay by done. unfold inside, indent_eight. simpl. rewrite Hk. simpl.
  by rewrite update_set_relation. }
induction Hrs as [|s rs Hs Hrs IH]; [done|]. rewrite fmap_cons. cbn [foldl].
rewrite step_lay; [|by apply (solid_app (js "-") [SPACE])|done]. exact IH.
Qed.

Lemma viewer_run_relation ts T r p b d :
relation_ok d = true → no_proto T →
run_lines (inside ts T Relations r p b) (relation_lines d) =
inside ts (set_relation (rd_name d) (shown_types d) T) Relations (Some (rd_name d)) p b.
Proof.
intros [Hn Hts]%andb_true_iff Hp. unfold relation_lines. cbn [foldl].
rewrite viewer_step_relation by done.
assert (Ht : truthy (rd_name d) = true) by auto using solid_truthy with console.
unfold shown_types. destruct (rd_inline d).
- cbn [foldl]. by rewrite step_types.
- rewrite run_block; [done..|]. apply forallb_Forall in Hts.
  eapply Forall_impl; [done|]. auto with console.
Qed.
End RelationSteps.

(** ** A section, a type, a schema *)

Definition set_attributes (l : list (jstring * jstring)) (T : ParsedType) : ParsedType :=
  foldl (λ T a, set_attribute (fst a) (snd a) T) T l.

Definition set_relations (l : list relation_decl) (T : ParsedType) : ParsedType :=
  foldl (λ T r, set_relation (rd_name r) (shown_types r) T) T l.

Definition flush_decls (l : list permission_decl) (T : ParsedType) : ParsedType :=
  foldl (λ T p, flush_decl p T) T l.

Section Sections.
Implicit Types (st : state) (T : ParsedType).

Lemma run_attributes ts T r p b l :
forallb attribute_ok l = true →
run_lines (inside ts T Attributes r p b) (attribute_line <$> l) =
inside ts (set_attributes l T) Attributes r p b.
Proof.
revert T. induction l as [|a l IH]; intros T Hl; [done|].
apply andb_true_iff in Hl as [Ha Hl]. rewrite fmap_cons. cbn [foldl].
by rewrite step_attribute, IH.
Qed.

Lemma viewer_run_relations ts T r p b l :
forallb relation_ok l = true → no_proto T →
∃ r', run_lines (inside ts T Relations r p b) (concat (relation_lines <$> l)) =
  inside ts (set_relations l T) Relations r' p b.
Proof.
revert T r. induction l as [|d l IH]; intros T r Hl Hp; [by exists r|].
apply andb_true_iff in Hl as [Hd Hl]. rewrite fmap_cons. cbn [concat].
rewrite foldl_app, viewer_run_relation by done. apply IH; [done|by apply no_proto_set].
Qed.

Lemma run_permission ts T r q b d :
permission_ok d = true →
run_lines (inside ts T Permissions r q b) (permission_lines d) =
inside ts (flush_permission q b T) Permissions r (Some (pd_name d)) (body_text d).
Proof.
intros [Hn Hb]%andb_true_iff. unfold permission_lines. cbn [foldl].
rewrite viewer_step_permission by done.
assert (Ht : truthy (pd_name d) = true) by auto using solid_truthy with console.
unfold body_text. change (snd <$> pd_body d) with ([] ++ (snd <$> pd_body d)).
generalize (@nil jstring) as acc. induction (pd_body d) as [|l body IH]; intros acc.
{ by rewrite app_nil_r. }
simpl in Hb. apply andb_true_iff in Hb as [Hl Hb]. rewrite fmap_cons. cbn [foldl].
rewrite step_body by done. rewrite IH by done. by rewrite <-app_assoc.
Qed.

Lemma viewer_run_permissions ts T r d l :
forallb permission_ok l = true →
run_lines (inside ts T Permissions r (Some (pd_name d)) (body_text d))
  (concat (permission_lines <$> l)) =
inside ts (flush_decls (removelast (d :: l)) T) Permissions r
  (Some (pd_name (List.last l d))) (body_text (List.last l d)).
Proof.
revert T d. induction l as [|e l IH]; intros T d Hl; [done|].
apply andb_true_iff in Hl as [He Hl]. rewrite fmap_cons. cbn [concat].
rewrite foldl_app, run_permission, IH by done.
by rewrite last_default_cons.
Qed.

Lemma set_attributes_eq l n o r p :
set_attributes l (MkParsedType n o r p) =
MkParsedType n (foldl (λ o a, assign o (fst a) (snd a)) o l) r p.
Proof. revert o. induction l as [|a l IH]; intros o; [done|]. apply IH. Qed.

Lemma set_relations_eq l n a o p :
set_relations l (MkParsedType n a o p) =
MkParsedType n a (foldl (λ o r, assign o (rd_name r) (shown_types r)) o l) p.
Proof. revert o. induction l as [|r l IH]; intros o; [done|]. apply IH. Qed.
End Sections.

(** The permission a state is in the middle of. *)
Definition pending (q : option permission_decl) (st : state) : Prop :=
  match q with
  | Some p => currentPermission st = Some (pd_name p) ∧ permissionBody st = body_text p
  | None => currentPermission st = None
  end.

Section Types.
Implicit Types (st : state) (T : ParsedType).

(** The section key and the lines of a section that is not empty. *)
Lemma viewer_run_section st k kind l ls :
solid (key k) = true → section_of k = Some kind →
run_lines st (section_lines k (l :: ls)) =
run_lines (MkState (types st) (currentType st) (Some kind) None None (permissionBody st)) (l :: ls).
Proof. intros Hk Hkind. unfold section_lines. cbn [foldl]. by rewrite (viewer_step_section st k kind). Qed.

(** What is left of a state between two sections of a type. *)
Definition between (ts : list ParsedType) T (q : option permission_decl) st : Prop :=
types st = ts ∧ currentType st = Some T ∧ pending q st.

Lemma run_attribute_section ts T q st l :
forallb attribute_ok l = true → between ts T q st →
between ts (set_attributes l T) (if bool_decide (l = []) then q else None)
  (run_lines st (section_lines (js "attributes") (attribute_line <$> l))).
Proof.
intros Hl (Hts & HT & Hq). destruct l as [|a l]; [done|].
rewrite fmap_cons, (viewer_run_section _ _ Attributes) by done. rewrite <-fmap_cons, HT.
change (MkState ?x (Some ?t) (Some ?k) ?r ?p ?b) with (inside x t k r p b).
by rewrite run_attributes.
Qed.

Lemma run_relation_section ts T q st l :
forallb relation_ok l = true → no_proto T → between ts T q st →
between ts (set_relations l T) (if bool_decide (l = []) then q else None)
  (run_lines st (section_lines (js "relations") (concat (relation_lines <$> l)))).
Proof.
intros Hl Hp (Hts & HT & Hq). destruct l as [|d l]; [done|].
destruct (viewer_run_relations (types st) T None None (permissionBody st) (d :: l) Hl Hp) as [r Hr].
rewrite fmap_cons in *. cbn [concat] in *. unfold relation_lines at 1 in Hr.
unfold relation_lines at 1. cbn [app] in *.
rewrite (viewer_run_section _ _ Relations), HT by done.
change (MkState ?x (Some ?t) (Some ?k) ?r ?p ?b) with (inside x t k r p b).
by rewrite Hr.
Qed.

Lemma run_permission_section ts T q st l :
forallb permission_ok l = true → between ts T q st →
between ts (flush_decls (removelast l) T) (if bool_decide (l = []) then q else last l)
  (run_lines st (section_lines (js "permissions") (concat (permission_lines <$> l)))).
Proof.
intros Hl (Hts & HT & Hq). destruct l as [|d l]; [done|].
apply andb_true_iff in Hl as [Hd Hl].
pose proof (run_permission (types st) T None None (permissionBody st) d Hd) as Hfirst.
rewrite fmap_cons. cbn [concat]. unfold permission_lines at 1. cbn [app].
rewrite (viewer_run_section _ _ Permissions), HT by done.
change (MkState ?x (Some ?t) (Some ?k) ?r ?p ?b) with (inside x t k r p b).
change (?x :: (?ys ++ ?zs)) with ((x :: ys) ++ zs). change ((6, key (pd_name d)) :: _) with (permission_lines d).
rewrite foldl_app, Hfirst, viewer_run_permissions by done. cbn [flush_permission].
by rewrite last_default.
Qed.

Lemma viewer_run_type q st t :
type_ok t = true → pending q st →
between (types st ++ option_list (currentType st)) (before_end t) (left_over q t)
  (run_lines st (type_lines t)).
Proof.
unfold type_ok. rewrite !andb_true_iff. intros (((Hn & Ha) & Hr) & Hp) Hq.
unfold type_lines. cbn [foldl]. rewrite viewer_step_type, !foldl_app by done.
set (st1 := MkState _ _ _ _ _ _).
assert (H1 : between (types st ++ option_list (currentType st))
  (MkParsedType (td_name t) None None None) q st1) by (by destruct q).
apply (run_attribute_section _ _ _ _ _ Ha) in H1. rewrite set_attributes_eq in H1.
apply (run_relation_section _ _ _ _ _ Hr) in H1; [|done]. rewrite set_relations_eq in H1.
apply (run_permission_section _ _ _ _ _ Hp) in H1.
unfold before_end, left_over, has_section. unfold flush_decls in H1.
destruct (td_attributes t), (td_relations t), (td_permissions t); exact H1.
Qed.

Lemma viewer_run_types q st ts :
forallb type_ok ts = true → pending q st → ts ≠ [] →
finish (run_lines st (concat (type_lines <$> ts))) =
types st ++ option_list (currentType st) ++ viewed q ts.
Proof.
revert q st. induction ts as [|t ts IH]; intros q st Hts Hq Hne; [done|].
apply andb_true_iff in Hts as [Ht Hts]. rewrite fmap_cons. cbn [concat]. rewrite foldl_app.
destruct (viewer_run_type q st t Ht Hq) as (H1 & H2 & H3).
set (st1 := run_lines st (type_lines t)) in *. destruct ts as [|t' ts].
- simpl. unfold finish. rewrite H2, H1, <-app_assoc. do 3 f_equal.
  destruct (left_over q t); simpl in H3; [by destruct H3 as [-> ->]|by rewrite H3].
- rewrite (IH (left_over q t)), H1, H2 by done. by rewrite <-!app_assoc.
Qed.
End Types.

(** Lines at the margin change nothing. *)
Lemma viewer_run_header st h :
  forallb header_ok h = true → run_lines st ((λ x, (0, x)) <$> h) = st.
Proof.
  induction h as [|x h IH]; intros Hh; [done|]. apply andb_true_iff in Hh as [Hx Hh].
  apply andb_true_iff in Hx as [(Hs & _)%solid_head_text _].
  rewrite fmap_cons. cbn [foldl]. rewrite step_lay by done. simpl. by apply IH.
Qed.

Lemma run_schema header ts :
  schema_ok header ts = true → ts ≠ [] →
  parseYamlSimple (schema_text header ts) = viewed None ts.
Proof.
  intros Hok Hne. unfold parseYamlSimple, schema_text.
  rewrite split_lay by (try (by destruct header); auto with console).
  apply andb_true_iff in Hok as [Hh Hts].
  assert (Hlay : ∀ st ls, foldl step st (lay <$> ls) = run_lines st ls).
  { intros st ls. revert st. induction ls as [|l ls IH]; intros st; [done|]. apply IH. }
  rewrite Hlay. unfold schema_lines. rewrite foldl_app, viewer_run_header by done. cbn [foldl].
  change (step init (lay (0, js "types:"))) with init.
  by rewrite (viewer_run_types None).
Qed.

(** ** Properties *)

(** The definition the viewer shows for a permission of a type. *)
Definition permission_shown (T : ParsedType) (k : jstring) : option jstring :=
  map_get (default [] (permissions T)) k.

Section Permissions.
Implicit Types (T : ParsedType) (d : permission_decl) (l : list permission_decl).

Lemma shown_flush d T k :
name_ok (pd_name d) = true → pd_name d ≠ js "__proto__" → pd_body d ≠ [] →
permission_shown (flush_decl d T) k =
if bool_decide (k = pd_name d) then Some (join [NL] (body_text d)) else permission_shown T k.
Proof.
intros Hn Hp Hb. unfold flush_decl, flush_permission.
rewrite solid_truthy by auto with console.
rewrite bool_decide_eq_true_2 by (unfold body_text; destruct (pd_body d); simpl; [done|lia]).
unfold permission_shown. simpl. by apply map_get_obj_assign.
Qed.

(** A permission the console can name and whose lines are not missing. *)
Definition showable d : Prop :=
permission_ok d = true ∧ pd_name d ≠ js "__proto__" ∧ pd_body d ≠ [].

Lemma showable_name d : showable d → name_ok (pd_name d) = true.
Proof. by intros ([? _]%andb_true_iff & _). Qed.

Lemma shown_flushes l T k :
Forall showable l → k ∉ (pd_name <$> l) →
permission_shown (flush_decls l T) k = permission_shown T k.
Proof.
intros Hl. revert T. induction Hl as [|d l Hd Hl IH]; intros T Hk; [done|].
rewrite fmap_cons in Hk. apply not_elem_of_cons in Hk as [Hne Hk].
change (flush_decls (d :: l) T) with (flush_decls l (flush_decl d T)).
rewrite IH by done. pose proof (showable_name d Hd). destruct Hd as (? & ? & ?).
by rewrite shown_flush, bool_decide_eq_false_2.
Qed.

Lemma shown_flushed l T d :
Forall showable l → NoDup (pd_name <$> l) → d ∈ l →
permission_shown (flush_decls l T) (pd_name d) = Some (join [NL] (body_text d)).
Proof.
intros Hl. revert T. induction Hl as [|e l He Hl IH]; intros T Hnd Hd; [by apply elem_of_nil in Hd|].
rewrite fmap_cons in Hnd. apply NoDup_cons in Hnd as [He' Hnd].
change (flush_decls (e :: l) T) with (flush_decls l (flush_decl e T)).
apply elem_of_cons in Hd as [->|Hd]; [|by apply IH].
rewrite shown_flushes by done. pose proof (showable_name e He). destruct He as (? & ? & ?).
by rewrite shown_flush, bool_decide_eq_true_2.
Qed.

Lemma name_flushes l T : name (flush_decls l T) = name T.
Proof.
revert T. induction l as [|d l IH]; intros T; [done|].
change (flush_decls (d :: l) T) with (flush_decls l (flush_decl d T)). rewrite IH.
unfold flush_decl, flush_permission. by destruct (_ && _).
Qed.

Lemma before_end_flushes t :
before_end t = flush_decls (removelast (td_permissions t))
  (MkParsedType (td_name t) (expected_attributes (td_attributes t))
     (expected_relations (td_relations t)) None).
Proof. done. Qed.

Lemma viewed_lookup q ts1 t t' ts2 :
viewed q (ts1 ++ t :: t' :: ts2) !! length ts1 = Some (before_end t).
Proof.
revert q. induction ts1 as [|u ts1 IH]; intros q; [done|].
destruct ts1 as [|u' ts1]; [done|]. apply (IH (left_over q u)).
Qed.

Lemma viewed_names q ts : name <$> viewed q ts = td_name <$> ts.
Proof.
revert q. induction ts as [|t ts IH]; intros q; [done|].
assert (Hn : name (before_end t) = td_name t) by apply name_flushes.
destruct ts as [|t' ts].
- cbn. f_equal. destruct (left_over q t) as [p|]; [|done].
  rewrite <-Hn. apply (name_flushes [p]).
- change (name (before_end t) :: (name <$> viewed (left_over q t) (t' :: ts)) =
    td_name t :: (td_name <$> t' :: ts)). by rewrite Hn, IH.
Qed.
End Permissions.

(** On a schema in the canonical layout the viewer finds every type with its
    attributes and its relations; lists of types over several lines are shown
    empty, and a permission is recorded only when the next one of its type starts
    or the text ends ([viewed]). *)
Theorem parseYamlSimple_canonical header ts :
  schema_ok header ts = true → ts ≠ [] →
  parseYamlSimple (schema_text header ts) = viewed None ts.
Proof. apply run_schema. Qed.

Lemma parseYamlSimple_canonical_witness :
  parseYamlSimple (schema_text [js "version: 1"] drive_schema) = viewed None drive_schema ∧
  name <$> viewed None drive_schema = js <$> ["user"; "group"; "folder"; "document"]%string.
Proof.
  split; [apply (parseYamlSimple_canonical [js "version: 1"] drive_schema); [reflexivity|done]|].
  by vm_compute.
Defined.

(** The last permission of every type but the last is lost: when another type
    follows, the card of the type shows its permissions with their definitions
    except the last one. *)
Theorem viewer_loses_last_permission header ts1 t t' ts2 ps p :
  schema_ok header (ts1 ++ t :: t' :: ts2) = true →
  td_permissions t = ps ++ [p] → NoDup (pd_name <$> td_permissions t) → Forall showable ps →
  ∃ T, parseYamlSimple (schema_text header (ts1 ++ t :: t' :: ts2)) !! length ts1 = Some T ∧
    name T = td_name t ∧ permission_shown T (pd_name p) = None ∧
    (∀ d, d ∈ ps → permission_shown T (pd_name d) = Some (join [NL] (body_text d))).
Proof.
  intros Hok Hps Hnd Hsh. exists (before_end t).
  rewrite run_schema, viewed_lookup by (done || by destruct ts1).
  rewrite before_end_flushes, name_flushes, Hps, removelast_last.
  rewrite Hps, fmap_app in Hnd. apply NoDup_app in Hnd as (Hnd & Hdisj & _).
  split_and!; [done|done| |by intros; apply shown_flushed].
  rewrite shown_flushes; [done|done|]. intros Hin. apply (Hdisj _ Hin). by left.
Qed.

Lemma viewer_loses_last_permission_witness :
  let ts := [TypeDecl (js "group") [] [] [resolve "see" "x"; resolve "manage" "admin"];
             TypeDecl (js "user") [] [] []] in
  ∃ T, parseYamlSimple (schema_text [] ts) !! 0 = Some T ∧ name T = js "group" ∧
    permission_shown T (js "manage") = None ∧
    (∀ d, d ∈ [resolve "see" "x"] → permission_shown T (pd_name d) = Some (join [NL] (body_text d))).
Proof.
  apply (viewer_loses_last_permission [] [] (TypeDecl (js "group") [] [] [resolve "see" "x"; resolve "manage" "admin"])
    (TypeDecl (js "user") [] [] []) [] [resolve "see" "x"] (resolve "manage" "admin"));
    [reflexivity|reflexivity|decide_literal|].
  repeat constructor; discriminate.
Defined.

(** When the last type has no sections, the lost permission of the type before
    is shown on its card: a permission the type does not have. *)
Theorem viewer_misplaces_permission header ts t t' ps p :
  schema_ok header (ts ++ [t; t']) = true → td_permissions t = ps ++ [p] → showable p →
  has_section t' = false →
  ∃ T, last (parseYamlSimple (schema_text header (ts ++ [t; t']))) = Some T ∧
    name T = td_name t' ∧
    permission_shown T (pd_name p) = Some (join [NL] (body_text p)).
Proof.
  intros Hok Hps Hp Ht'. rewrite run_schema by (done || by destruct ts).
  exists (flush_decl p (before_end t')). split_and!.
  - assert (Hlast : ∀ q, last (viewed q (ts ++ [t; t'])) = Some (flush_decl p (before_end t'))).
    { clear Hok. induction ts as [|u ts IH]; intros q.
      - simpl. unfold left_over at 1. rewrite Ht'. unfold left_over, has_section.
        rewrite Hps, last_snoc, (bool_decide_eq_false_2 (ps ++ [p] = [])) by by destruct ps.
        by rewrite orb_true_r.
      - specialize (IH (left_over q u)). destruct ts as [|u' ts]; [exact IH|].
        cbn [app viewed] in *. rewrite last_cons, IH. done. }
    apply Hlast.
  - etrans; [apply (name_flushes [p])|apply name_flushes].
  - destruct Hp as (Hok' & ? & ?). rewrite shown_flush; [by rewrite bool_decide_eq_true_2|..|done|done].
    by apply andb_true_iff in Hok' as [? _].
Qed.

Lemma viewer_misplaces_permission_witness :
  let ts := [TypeDecl (js "group") [] [] [resolve "manage" "admin"]; TypeDecl (js "user") [] [] []] in
  ∃ T, last (parseYamlSimple (schema_text [] ts)) = Some T ∧ name T = js "user" ∧
    permission_shown T (js "manage") = Some (js "resolve: admin").
Proof.
  apply (viewer_misplaces_permission [] [] (TypeDecl (js "group") [] [] [resolve "manage" "admin"])
    (TypeDecl (js "user") [] [] []) [] (resolve "manage" "admin"));
    [reflexivity|reflexivity| |reflexivity].
  repeat split; discriminate.
Defined.

(** The titles of the cards on the page. *)
Fixpoint card_titles {M} (h : html M) : list jstring :=
  match h with
  | Text _ => []
  | El tag _ kids =>
      if bool_decide (tag = "CardTitle"%string) then [concat (shown <$> kids)]
      else concat (card_titles <$> kids)
  end.

Section Titles.
Context {M : Type}.
Implicit Types (h : html M) (hs : list (html M)).

Definition untitled h : Prop := card_titles h = [].

Lemma untitled_el tag ps hs :
tag ≠ "CardTitle"%string → Forall untitled hs → untitled (El tag ps hs).
Proof.
intros Ht Hhs. unfold untitled. simpl. rewrite bool_decide_eq_false_2 by done.
induction Hhs as [|h hs Hh Hhs IH]; [done|]. cbn. by rewrite Hh, IH.
Qed.

Lemma untitled_section {V} (o : option (jobject V)) a b c (cell : V → list (html M)) :
(∀ v, Forall untitled (cell v)) → Forall untitled (section o a b c cell).
Proof.
intros Hcell. destruct o as [l|]; simpl; [|done]. unfold when.
case_bool_decide; [|done]. apply Forall_singleton.
apply untitled_el; [done|]. apply List.Forall_cons; [done|]. apply Forall_singleton.
apply untitled_el; [done|]. apply List.Forall_cons; [done|]. apply Forall_singleton.
apply untitled_el; [done|]. apply Forall_fmap, Forall_true. intros e. simpl.
apply untitled_el; [done|]. apply List.Forall_cons; [done|]. apply Forall_singleton.
by apply untitled_el.
Qed.

Lemma type_card_title `{!JsNumber} T : card_titles (M := M) (type_card T) = [name T].
Proof.
assert (Hc : untitled (El (M := M) "CardContent" [] (
    section (attributes T) "Attributes" "Name" "Type" (λ ty, [badge ty]) ++
    section (relations T) "Relations" "Name" "Allowed Types" (λ ts, [E "div" (badge <$> ts)]) ++
    section (permissions T) "Permissions" "Name" "Definition"
      (λ raw, [Text (definition_text raw)])))).
{ apply untitled_el; [done|]. repeat apply Forall_app_2; apply untitled_section; intros v;
    apply Forall_singleton; [done| |done].
  apply untitled_el; [done|]. by apply Forall_fmap, Forall_true. }
unfold type_card.
change (card_titles (El "Card" [] [?h; ?c])) with (card_titles h ++ card_titles c ++ []).
by rewrite Hc; cbn; rewrite ?app_nil_r.
Qed.
End Titles.

(** The page has one card per type of the schema, in order, titled with its name. *)
Theorem viewer_cards `{!JsNumber} {M} header ts :
  schema_ok header ts = true → ts ≠ [] →
  concat (card_titles <$> (SchemaViewer (M := M) (schema_text header ts))) = td_name <$> ts.
Proof.
  intros Hok Hne. unfold SchemaViewer. rewrite run_schema by done.
  rewrite <-(viewed_names None ts). rewrite bool_decide_eq_false_2.
  - cbn. rewrite app_nil_r. generalize (viewed None ts) as l.
    induction l as [|T l IH]; [done|].
    cbn -[type_card]. rewrite type_card_title. cbn. f_equal. exact IH.
  - destruct ts; [done|]. intros Hlen. apply nil_length_inv in Hlen.
    apply (f_equal (λ l, length (name <$> l))) in Hlen. by rewrite viewed_names in Hlen.
Qed.

Lemma viewer_cards_witness :
  concat (card_titles <$> (SchemaViewer (H := integers) (M := unit)
    (schema_text [js "version: 1"] drive_schema))) = js <$> ["user"; "group"; "folder"; "document"]%string.
Proof. rewrite (viewer_cards (H := integers)); [reflexivity|reflexivity|done]. Defined.
