(* ===== verification/CreateTupleDialog.v ===== *)
(** * The create-tuple dialog

    [console/src/components/tuples/create-tuple-dialog.tsx]: the form that writes
    a relation tuple, whose choices come from the schema
    ([TupleSchemaParser.parseSchemaTypes]). *)

From S2P Require Import Prelude JsString JsObject Json JsonIntegers ApiTypes ApiClient Queries Html SchemaLayout TupleSchemaParser.

Record form := MkForm {
  object_type : jstring;
  object_id : jstring;
  relation : jstring;
  subject_type : jstring;
  subject_id : jstring;
  subject_relation : jstring }.

Definition empty_form : form := MkForm [] [] [] [] [] [].

Record dialog_state := MkDialog {
  is_open : bool;
  the_form : form;
  isPending : bool }.                  (* [writeTuple.isPending] *)

Definition dialog_init : dialog_state := MkDialog false empty_form false.

(** The tenant and [schema?.source], once loaded. *)
Record dialog_props := MkDialogProps {
  tenantId : jstring;
  schema_data : option jstring }.

Section Dialog.
Context `{!JsNumber}.

Inductive dialog_msg :=
| SetOpen (b : bool)
| SelectObjectType (v : jstring)
| TypeObjectType (v : jstring)
| SetObjectId (v : jstring)
| SelectRelation (v : jstring)
| TypeRelation (v : jstring)
| SetSubjectType (v : jstring)
| SetSubjectId (v : jstring)
| SetSubjectRelation (v : jstring)
| Submit
| WriteSettled (r : settled unit api_error).

Implicit Types (p : dialog_props) (s : dialog_state) (f : form).

Definition schemaTypes p : list SchemaTypeInfo :=
match schema_data p with
| Some source => if truthy source then parseSchemaTypes source else []
| None => []
end.

Definition typeNames p : list jstring := type_name <$> schemaTypes p.

(** [schemaTypes.find((t) => t.name === v)?.relations ?? []] *)
Definition relations_of (types : list SchemaTypeInfo) (v : jstring) : list SchemaRelation :=
match find (λ t, bool_decide (type_name t = v)) types with
| Some t => relations t
| None => []
end.

Definition relationsForType p f : list SchemaRelation :=
if negb (truthy (object_type f)) then [] else relations_of (schemaTypes p) (object_type f).

(** [t.split("#")[0]] *)
Definition base_type (t : jstring) : jstring := nth 0 (split HASH t) [].

(** [[...new Set(ts.map((t) => t.split("#")[0]).filter(Boolean))]] *)
Definition base_types (ts : list jstring) : list jstring :=
unique (List.filter truthy (base_type <$> ts)).

(** [rel && rel.allowedTypes.length > 0 ? [...] : typeNames] *)
Definition allowed_subjects (names : list jstring) (rel : option SchemaRelation) : list jstring :=
match rel with
| Some r => if bool_decide (0 < length (allowedTypes r)) then base_types (allowedTypes r) else names
| None => names
end.

Definition find_relation (rels : list SchemaRelation) (v : jstring) : option SchemaRelation :=
find (λ r, bool_decide (relation_name r = v)) rels.

Definition subjectTypesForRelation p f : list jstring :=
allowed_subjects (typeNames p) (find_relation (relationsForType p f) (relation f)).

Definition isValid f : bool :=
truthy (object_type f) && truthy (object_id f) && truthy (relation f)
&& truthy (subject_type f) && truthy (subject_id f).

Definition hasSchema p : bool := bool_decide (0 < length (typeNames p)).

(** [allowed.length === 1 ? allowed[0] : ""] *)
Definition only (allowed : list jstring) : jstring :=
match allowed with [a] => a | _ => [] end.

(** The handlers of the two selects that fill other fields. *)
Definition select_object_type p v f : form :=
let autoRel := match relations_of (schemaTypes p) v with [r] => Some r | _ => None end in
let allowed := match autoRel with
               | Some r => allowed_subjects (typeNames p) (Some r)
               | None => [] end in
MkForm v (object_id f) (match autoRel with Some r => relation_name r | None => [] end)
  (only allowed) (subject_id f) (subject_relation f).

Definition select_relation p v f : form :=
let allowed := allowed_subjects (typeNames p) (find_relation (relationsForType p f) v) in
MkForm (object_type f) (object_id f) v (only allowed) (subject_id f) (subject_relation f).

(** The argument of [writeTuple.mutateAsync]; [form.subject_relation || undefined]. *)
Definition tuple_request f : TupleRequest :=
MkTupleRequest (object_type f) (object_id f) (relation f) (subject_type f) (subject_id f)
  (if truthy (subject_relation f) then Some (subject_relation f) else None) None.

Definition set_form s f : dialog_state := MkDialog (is_open s) f (isPending s).

Definition dialog_update p s (m : dialog_msg) : dialog_state * list effect :=
let f := the_form s in
match m with
| SetOpen b => (MkDialog b f (isPending s), [])
| SelectObjectType v => (set_form s (select_object_type p v f), [])
| TypeObjectType v =>
    (set_form s (MkForm v (object_id f) (relation f) (subject_type f) (subject_id f) (subject_relation f)), [])
| SetObjectId v =>
    (set_form s (MkForm (object_type f) v (relation f) (subject_type f) (subject_id f) (subject_relation f)), [])
| SelectRelation v => (set_form s (select_relation p v f), [])
| TypeRelation v =>
    (set_form s (MkForm (object_type f) (object_id f) v (subject_type f) (subject_id f) (subject_relation f)), [])
| SetSubjectType v =>
    (set_form s (MkForm (object_type f) (object_id f) (relation f) v (subject_id f) (subject_relation f)), [])
| SetSubjectId v =>
    (set_form s (MkForm (object_type f) (object_id f) (relation f) (subject_type f) v (subject_relation f)), [])
| SetSubjectRelation v =>
    (set_form s (MkForm (object_type f) (object_id f) (relation f) (subject_type f) (subject_id f) v), [])
| Submit =>
    (MkDialog (is_open s) f true, [Send (mutationFn (useWriteTuple (tenantId p)) (tuple_request f))])
| WriteSettled (Resolved _) =>
    (MkDialog false empty_form false, [ToastSuccess (js "Tuple created")])
| WriteSettled (Rejected e) =>
    (MkDialog (is_open s) f false, [ToastError (error_text e "Failed to create tuple")])
end.

Definition dialog_content p s : list (html dialog_msg) :=
let f := the_form s in
[E "DialogHeader" [E "DialogTitle" [T "Create Relation Tuple"]];
 form_el Submit [
   E "div" [
     E "div" [E "Label" [T "Object Type *"];
       if hasSchema p then select_of (object_type f) SelectObjectType "Select type" (typeNames p)
       else input (object_type f) TypeObjectType];
     E "div" [E "Label" [T "Object ID *"]; input (object_id f) SetObjectId]];
   E "div" [E "Label" [T "Relation *"];
     if bool_decide (0 < length (relationsForType p f))
     then select_of (relation f) SelectRelation "Select relation"
            (relation_name <$> relationsForType p f)
     else input_disabled (hasSchema p && negb (truthy (object_type f))) (relation f) TypeRelation];
   E "div" [
     E "div" [E "Label" [T "Subject Type *"];
       if bool_decide (0 < length (subjectTypesForRelation p f))
       then select_of (subject_type f) SetSubjectType "Select type" (subjectTypesForRelation p f)
       else input (subject_type f) SetSubjectType];
     E "div" [E "Label" [T "Subject ID *"]; input (subject_id f) SetSubjectId]];
   E "div" [E "Label" [T "Subject Relation "; E "span" [T "(optional)"]];
     input (subject_relation f) SetSubjectRelation];
   submit_button (negb (isValid f) || isPending s)
     (when (isPending s) [E "Loader2" []] ++ [T "Create"])]].

Definition dialog_render p s : list (html dialog_msg) :=
[dialog (is_open s) SetOpen
   [E "DialogTrigger" [E "Button" [E "Plus" []; T "Create Tuple"]]]
   (dialog_content p s)].

Definition dialog_arrives p s (m : dialog_msg) : Prop :=
match m with WriteSettled _ => isPending s = true | _ => False end.

#[export] Instance create_dialog : Component dialog_props dialog_state dialog_msg effect :=
{| render := dialog_render; update := dialog_update; arrives := dialog_arrives |}.
End Dialog.

(** ** What the user can do *)

Section DialogFacts.
Context `{!JsNumber}.
Implicit Types (p : dialog_props) (s : dialog_state) (f : form) (m : dialog_msg).

Definition user_can p s m : Prop :=
let f := the_form s in
match m with
| SetOpen _ => True
| SelectObjectType v => v ∈ typeNames p
| TypeObjectType _ => typeNames p = []
| SelectRelation v => v ∈ (relation_name <$> relationsForType p f)
| TypeRelation _ => relationsForType p f = []
| SetSubjectType v => choosable (subjectTypesForRelation p f) v
| SetObjectId _ | SetSubjectId _ | SetSubjectRelation _ => is_open s = true
| Submit => is_open s = true ∧ isValid f = true ∧ isPending s = false
| WriteSettled _ => False
end.

Lemma dialog_offers p s m : offers (render p s) m → user_can p s m.
Proof.
cbn [render create_dialog]. unfold dialog_render, dialog_content. intros Ho.
offers_cases Ho; simpl; unfold hasSchema, choosable in *; bool_prop;
  auto using not_pos_length.
Qed.

(** ** The form follows the schema *)

Definition blank_or_choosable (names : list jstring) (v : jstring) : Prop :=
v = [] ∨ choosable names v.

Definition form_ok p f : Prop :=
blank_or_choosable (typeNames p) (object_type f) ∧
blank_or_choosable (relation_name <$> relationsForType p f) (relation f) ∧
blank_or_choosable (subjectTypesForRelation p f) (subject_type f).

Lemma no_types_no_relations p f : typeNames p = [] → relationsForType p f = [].
Proof.
unfold typeNames, relationsForType, relations_of. intros ->%fmap_nil_inv.
by destruct (truthy _).
Qed.

Lemma only_choosable allowed : blank_or_choosable allowed (only allowed).
Proof.
destruct allowed as [|a [|]]; simpl; [by left| |by left].
right. right. by left.
Qed.

Lemma relationsForType_select p v f :
v ≠ [] → relationsForType p (select_object_type p v f) = relations_of (schemaTypes p) v.
Proof. intros Hv. unfold relationsForType. simpl. by destruct v. Qed.

Lemma typeNames_not_empty p v : v ∈ typeNames p → v ≠ [].
Proof.
unfold typeNames, schemaTypes. destruct (schema_data p) as [src|]; [|by intros ?%elem_of_nil].
destruct (truthy src); [|by intros ?%elem_of_nil]. intros Hv.
pose proof (parseSchemaTypes_names src) as Hn. rewrite Forall_forall in Hn.
by apply truthy_true, Hn.
Qed.

(** After a select, the subject type is the only one allowed, or blank. *)
Lemma select_object_type_ok p v f : v ∈ typeNames p → form_ok p (select_object_type p v f).
Proof.
intros Hv. pose proof (typeNames_not_empty p v Hv) as Hne.
split; [by right; right|]. unfold subjectTypesForRelation.
rewrite relationsForType_select by done. unfold select_object_type. simpl.
destruct (relations_of (schemaTypes p) v) as [|r [|r' rels]];
  [by split; left| |by split; left].
split; [right; right; by left|]. unfold find_relation. simpl.
rewrite bool_decide_eq_true_2 by done. apply only_choosable.
Qed.

Lemma select_relation_ok p v f :
form_ok p f → v ∈ (relation_name <$> relationsForType p f) → form_ok p (select_relation p v f).
Proof.
intros (Ho & _) Hv. split; [done|]. split; [by right; right|]. apply only_choosable.
Qed.

Lemma type_relation_ok p v f :
form_ok p f → relationsForType p f = [] →
form_ok p (MkForm (object_type f) (object_id f) v (subject_type f) (subject_id f) (subject_relation f)).
Proof.
intros (Ho & Hr & Hs) Hnil. split; [done|].
unfold subjectTypesForRelation in *. change (relationsForType p (MkForm _ _ v _ _ _)) with (relationsForType p f).
rewrite Hnil in *. split; [right; by left|exact Hs].
Qed.

Lemma type_object_type_ok p v f :
form_ok p f → typeNames p = [] →
form_ok p (MkForm v (object_id f) (relation f) (subject_type f) (subject_id f) (subject_relation f)).
Proof.
intros (Ho & Hr & Hs) Hnil. split; [right; by left|].
unfold subjectTypesForRelation in *. rewrite !no_types_no_relations in * by done.
split; [right; by left|exact Hs].
Qed.

Lemma dialog_form_ok_step p s m : form_ok p (the_form s) → enabled p s m → form_ok p (the_form (after p s m)).
Proof.
intros Hok [Hm%dialog_offers|Hm]; [|by destruct m as [| | | | | | | | | |[]]; try done; repeat split; left].
destruct m as [| | | | | | | | | |[]]; simpl in *; try done.
- by apply select_object_type_ok.
- by apply type_object_type_ok.
- by apply select_relation_ok.
- by apply type_relation_ok.
- destruct Hok as (? & ? & ?). split_and!; [done|done|by right].
Qed.

Lemma dialog_form_ok_reachable p s : reachable p dialog_init s → form_ok p (the_form s).
Proof.
apply (reachable_invariant p (λ s, form_ok p (the_form s))); [by repeat split; left|].
intros. by apply dialog_form_ok_step.
Qed.
End DialogFacts.

(** ** Properties *)

Section Canonical.
Context `{!JsNumber}.
Implicit Types (p : dialog_props) (s : dialog_state) (f : form) (ms : list dialog_msg).

(** Every reference of the schema names a type before its ["#"]. *)
Definition typed_refs (ts : list type_decl) : Prop :=
∀ t r ref, t ∈ ts → r ∈ td_relations t → ref ∈ rd_types r → base_type ref ≠ [].

Lemma canonical_types p header ts :
schema_ok header ts = true → schema_data p = Some (schema_text header ts) →
schemaTypes p = expected_type <$> ts.
Proof.
intros Hok Hp. unfold schemaTypes. rewrite Hp, <-(parse_canonical header ts) by done.
destruct (schema_text header ts); done.
Qed.

Lemma canonical_relations p header ts v :
schema_ok header ts = true → schema_data p = Some (schema_text header ts) →
v ∈ (td_name <$> ts) →
∃ t, t ∈ ts ∧ td_name t = v ∧
  relations_of (schemaTypes p) v = expected_relation <$> td_relations t.
Proof.
intros Hok Hp Hv. unfold relations_of. erewrite canonical_types, find_fmap by done. simpl.
destruct (find (λ x, bool_decide (td_name x = v)) ts) as [t|] eqn:E.
- apply find_Some in E as [Ht ?%bool_decide_eq_true]. exists t. done.
- rewrite find_None in E. apply list_elem_of_fmap in Hv as (t & -> & Ht).
  apply E in Ht. by rewrite bool_decide_eq_true_2 in Ht.
Qed.

Lemma base_types_elem refs v :
v ∈ base_types refs ↔ v ≠ [] ∧ ∃ ref, ref ∈ refs ∧ base_type ref = v.
Proof.
unfold base_types. rewrite elem_of_unique, list_elem_of_In, List.filter_In, truthy_true,
  <-list_elem_of_In, list_elem_of_fmap. naive_solver.
Qed.

Lemma chosen names v : blank_or_choosable names v → v ≠ [] → names ≠ [] → v ∈ names.
Proof. unfold blank_or_choosable, choosable. tauto. Qed.


Definition submits (m : dialog_msg) : bool := match m with Submit => true | _ => false end.
Definition settles (m : dialog_msg) : bool := match m with WriteSettled _ => true | _ => false end.
Definition is_write (e : effect) : bool := match e with Send _ => true | _ => false end.

(** C38: Every submit sends one request, which writes the tuple shown in the form
  to the tenant, an empty subject relation left out; the button is disabled
  while it is in flight, so there is never a second one; a success empties and
  closes the dialog, and a failure keeps it open with every field as it was
  and shows the server's message. *)
Theorem dialog_submits p ms s :
run p dialog_init ms s →
count submits ms = count settles ms + (if isPending s then 1 else 0) ∧
(offers (render p s) Submit →
  isPending s = false ∧
  sends p s Submit = [Send (writeTuple (tenantId p) (tuple_request (the_form s)))]) ∧
(∀ r, isPending s = true →
  let s' := after p s (WriteSettled r) in
  match r with
  | Resolved _ => is_open s' = false ∧ the_form s' = empty_form
  | Rejected e => is_open s' = is_open s ∧ the_form s' = the_form s ∧
      (∀ m, message e = JString m → m ≠ [] →
        sends p s (WriteSettled r) = [ToastError (JString m)])
  end).
Proof.
intros Hrun. split; [|split].
- induction Hrun as [|ms s m Hrun IH Hm]; [done|]. rewrite !count_snoc, IH.
  destruct Hm as [Hm%dialog_offers|Hm]; destruct m as [| | | | | | | | | |[]]; simpl in *;
    destruct_hyps; repeat match goal with H : isPending s = _ |- _ => rewrite H end; lia.
- by intros (_ & _ & Hp)%dialog_offers.
- intros [|e] Hp; [done|]. split_and!; [done..|]. intros m Hm Hne. unfold sends. simpl.
  unfold error_text. rewrite Hm. simpl. by destruct m.
Qed.
End Canonical.

(** A tenant whose documents are viewed by users and groups. *)
Definition demo_schema : list type_decl := [
  TypeDecl (js "user") [] [] [];
  TypeDecl (js "doc") [] [inline_relation "viewer" ["user#self"]] []].

Definition demo_props : dialog_props :=
  MkDialogProps (js "acme") (Some (schema_text [] demo_schema)).

(** Choosing the object type fills the relation and the subject type. *)
Definition demo_filling : list (@dialog_msg integers) :=
  [SetOpen true; SelectObjectType (js "doc"); SetObjectId (js "d1"); SetSubjectId (js "ann")].

Definition demo_filled : dialog_state :=
  MkDialog true (MkForm (js "doc") (js "d1") (js "viewer") (js "user") (js "ann") []) false.

Lemma demo_run : run (comp := create_dialog (H := integers)) demo_props dialog_init demo_filling demo_filled.
Proof.
  apply run_cons; [left; offer 0|]. apply run_cons; [left|].
  { eexists. split; [apply (list_elem_of_lookup_2 _ 1); reflexivity|].
    exists (js "doc"). split; [decide_literal|reflexivity]. }
  apply run_cons; [left; offer 2|]. apply run_cons; [left; offer 5|]. constructor.
Qed.


Lemma dialog_submits_witness :
  isPending demo_filled = false ∧
  sends (comp := create_dialog (H := integers)) demo_props demo_filled Submit =
    [Send (writeTuple (js "acme") (MkTupleRequest (js "doc") (js "d1") (js "viewer") (js "user")
       (js "ann") None None))].
Proof.
  apply (dialog_submits (H := integers) demo_props demo_filling demo_filled); [apply demo_run|].
  offer 1.
Defined.
