(* ===== verification/TuplesPage.v ===== *)
(** * The tuples page

    [console/src/app/tuples/page.tsx] with its filter bar, its table and the way a
    tuple is displayed ([components/tuples/]), and the empty state the pages share
    ([components/shared/empty-state.tsx]). *)

From S2P Require Import Prelude JsString JsObject Json JsonIntegers ApiTypes ApiClient Queries Html CreateTupleDialog.

(** ** Shared pieces *)

Section Pieces.
Context {M : Type}.

Definition EmptyState (icon title description : string) (action : list (html M)) : html M :=
E "div" ([E icon []; E "h3" [T title]; E "p" [T description]] ++
  when (bool_decide (0 < length action)) [E "div" action]).

(** [{r && <>...</>}] for an optional string. *)
Definition when_text (r : option jstring) (f : jstring → list (html M)) : list (html M) :=
match r with Some s => when (truthy s) (f s) | None => [] end.

Definition span (s : jstring) : html M := E "span" [Text s].

Definition TupleDisplay (objectType objectId relation subjectType subjectId : jstring)
  (subjectRelation : option jstring) : html M :=
E "code" ([span objectType; span (js ":"); span objectId; span (js "#"); span relation;
    span (js "@"); span subjectType; span (js ":"); span subjectId] ++
  when_text subjectRelation (λ r, [span (js "#"); span r])).

Definition display_tuple `{!JsNumber} (t : RelationTuple) : html M :=
TupleDisplay (rt_object_type t) (rt_object_id t) (rt_relation t) (rt_subject_type t)
  (rt_subject_id t) (rt_subject_relation t).

(** *** [tuple-filters.tsx] *)

Inductive filter_key := KObjectType | KObjectId | KRelation | KSubjectType | KSubjectId.

Definition field_of (f : TupleFilter) (k : filter_key) : option jstring :=
match k with
| KObjectType => f_object_type f | KObjectId => f_object_id f | KRelation => f_relation f
| KSubjectType => f_subject_type f | KSubjectId => f_subject_id f
end.

(** [{ ...filter, [field]: value || undefined }] *)
Definition update_filter (f : TupleFilter) (k : filter_key) (value : jstring) : TupleFilter :=
let v := if truthy value then Some value else None in
match k with
| KObjectType => MkTupleFilter v (f_object_id f) (f_relation f) (f_subject_type f) (f_subject_id f) (f_subject_relation f)
| KObjectId => MkTupleFilter (f_object_type f) v (f_relation f) (f_subject_type f) (f_subject_id f) (f_subject_relation f)
| KRelation => MkTupleFilter (f_object_type f) (f_object_id f) v (f_subject_type f) (f_subject_id f) (f_subject_relation f)
| KSubjectType => MkTupleFilter (f_object_type f) (f_object_id f) (f_relation f) v (f_subject_id f) (f_subject_relation f)
| KSubjectId => MkTupleFilter (f_object_type f) (f_object_id f) (f_relation f) (f_subject_type f) v (f_subject_relation f)
end.

#[global] Arguments update_filter : simpl never.

(** [Object.values(filter).some(Boolean)] *)
Definition hasFilters (f : TupleFilter) : bool :=
existsb present [f_object_type f; f_object_id f; f_relation f; f_subject_type f;
  f_subject_id f; f_subject_relation f].

Definition filter_input (f : TupleFilter) (label : string) (k : filter_key)
  (onChange : TupleFilter → M) : html M :=
E "div" [E "label" [T label];
  input (default [] (field_of f k)) (λ v, onChange (update_filter f k v))].

(** The search button has no handler. *)
Definition TupleFilters (f : TupleFilter) (onChange : TupleFilter → M) (onClear : M) : html M :=
E "div" [
  filter_input f "Object Type" KObjectType onChange;
  filter_input f "Object ID" KObjectId onChange;
  filter_input f "Relation" KRelation onChange;
  filter_input f "Subject Type" KSubjectType onChange;
  filter_input f "Subject ID" KSubjectId onChange;
  E "div" (E "Button" [E "Search" []] ::
    when (hasFilters f) [El "Button" [OnClick onClear] [E "X" []]])].
End Pieces.

(** ** The table *)

Section Table.
Context `{!JsNumber}.

Record table_props := MkTableProps {
tb_tenantId : jstring;
tb_tuples : list RelationTuple;
(* [new Date(s).toLocaleDateString()] in the browser's locale *)
tb_date : jstring → jstring }.

Record table_state := MkTable {
deleteTarget : option RelationTuple;
deleting : bool }.                       (* [deleteTuple.isPending] *)

Definition table_init : table_state := MkTable None false.

Inductive table_msg :=
| SetDeleteTarget (t : option RelationTuple)
| HandleDelete
| DeleteSettled (r : settled unit api_error).

Implicit Types (p : table_props) (s : table_state) (t : RelationTuple).

(** The argument of [deleteTuple.mutateAsync]. *)
Definition delete_request t : TupleRequest :=
MkTupleRequest (rt_object_type t) (rt_object_id t) (rt_relation t) (rt_subject_type t)
  (rt_subject_id t) (rt_subject_relation t) None.

Definition table_update p s (m : table_msg) : table_state * list effect :=
match m with
| SetDeleteTarget t => (MkTable t (deleting s), [])
| HandleDelete =>
    match deleteTarget s with
    | None => (s, [])
    | Some t => (MkTable (deleteTarget s) true,
                 [Send (mutationFn (useDeleteTuple (tb_tenantId p)) (delete_request t))])
    end
| DeleteSettled (Resolved _) => (MkTable None false, [ToastSuccess (js "Tuple deleted")])
| DeleteSettled (Rejected e) =>
    (MkTable (deleteTarget s) false, [ToastError (error_text e "Failed to delete tuple")])
end.

Definition tuple_row p t : html table_msg :=
E "TableRow" [
  E "TableCell" [display_tuple t];
  E "TableCell" [Text (tb_date p (rt_created_at t))];
  E "TableCell" [El "Button" [OnClick (SetDeleteTarget (Some t))] [E "Trash2" []]]].

Definition delete_content s : list (html table_msg) :=
[E "DialogHeader" [E "DialogTitle" [T "Delete Tuple"]];
 E "p" [T "Are you sure you want to delete this tuple? This action cannot be undone."]] ++
(match deleteTarget s with Some t => [E "div" [display_tuple t]] | None => [] end) ++
[E "DialogFooter" [
   El "Button" [OnClick (SetDeleteTarget None)] [T "Cancel"];
   button (deleting s) HandleDelete (when (deleting s) [E "Loader2" []] ++ [T "Delete"])]].

Definition table_render p s : list (html table_msg) :=
if bool_decide (length (tb_tuples p) = 0)
then [E "div" [T "No tuples found. Create one to get started."]]
else
  [E "Table" [
     E "TableHeader" [E "TableRow" [E "TableHead" [T "Tuple"]; E "TableHead" [T "Created"];
                                    E "TableHead" []]];
     E "TableBody" (tuple_row p <$> tb_tuples p)];
   dialog (bool_decide (is_Some (deleteTarget s))) (λ _, SetDeleteTarget None) []
     (delete_content s)].

Definition table_arrives p s (m : table_msg) : Prop :=
match m with DeleteSettled _ => deleting s = true | _ => False end.

#[export] Instance tuple_table : Component table_props table_state table_msg effect :=
{| render := table_render; update := table_update; arrives := table_arrives |}.
End Table.

(** ** The page *)

Section Page.
Context `{!JsNumber}.

Record page_props := MkPageProps {
selectedTenantId : option jstring;
data : option TuplesResponse;
isLoading : bool;
pg_schema : option jstring;
pg_date : jstring → jstring }.

(** The table is mounted while there is data to show, the dialog while a tenant
  is selected; a run is one stretch of time between changes of the props. *)
Record page_state := MkPage {
filter : TupleFilter;
table : table_state;
create : dialog_state }.

Definition page_init : page_state := MkPage no_filter table_init dialog_init.

Inductive page_msg :=
| SetFilter (f : TupleFilter)
| ClearFilter
| TableMsg (m : table_msg)
| DialogMsg (m : dialog_msg).

Implicit Types (p : page_props) (s : page_state).

Definition page_query p s : query := useTuples (selectedTenantId p) (Some (filter s)).

Definition table_of p (tenantId : jstring) : table_props :=
MkTableProps tenantId (default [] (data p ≫= tuples)) (pg_date p).

Definition dialog_of p (tenantId : jstring) : dialog_props := MkDialogProps tenantId (pg_schema p).

Definition tenant_of p : jstring := or_empty (selectedTenantId p).

Definition page_update p s (m : page_msg) : page_state * list effect :=
match m with
| SetFilter f => (MkPage f (table s) (create s), [])
| ClearFilter => (MkPage no_filter (table s) (create s), [])
| TableMsg m =>
    let (t, es) := table_update (table_of p (tenant_of p)) (table s) m in
    (MkPage (filter s) t (create s), es)
| DialogMsg m =>
    let (d, es) := dialog_update (dialog_of p (tenant_of p)) (create s) m in
    (MkPage (filter s) (table s) d, es)
end.

Definition page_render p s : list (html page_msg) :=
if negb (present (selectedTenantId p)) then
  [EmptyState "Building2" "No tenant selected"
     "Select a tenant from the dropdown above to manage relation tuples." []]
else
  [E "div" [
    E "div" [
      E "div" (E "h1" [T "Tuples"] ::
        match data p with
        | Some d => [E "Badge" [Text (js_of_Z (tu_count d)); T " total"]]
        | None => [] end);
      E "div" (map_html DialogMsg <$> dialog_render (dialog_of p (tenant_of p)) (create s))];
    TupleFilters (filter s) SetFilter ClearFilter;
    if isLoading p then E "div" (replicate 5 (E "Skeleton" []))
    else match data p with
    | Some _ => E "div" (map_html TableMsg <$> table_render (table_of p (tenant_of p)) (table s))
    | None => EmptyState "Link2" "No tuples"
        "Create a relation tuple to define authorization relationships." []
    end]].

Definition page_arrives p s (m : page_msg) : Prop :=
match m with
| TableMsg m => table_arrives (table_of p (tenant_of p)) (table s) m
| DialogMsg m => dialog_arrives (dialog_of p (tenant_of p)) (create s) m
| _ => False
end.

#[export] Instance tuples_page : Component page_props page_state page_msg effect :=
{| render := page_render; update := page_update; arrives := page_arrives |}.
End Page.

(** ** What the user can do *)

Section Facts.
Context `{!JsNumber}.

Lemma controls_display {M} (t : RelationTuple) : controls (M := M) (display_tuple t) = [].
Proof. unfold display_tuple, TupleDisplay. by destruct (rt_subject_relation t) as [[|]|]. Qed.

#[local] Hint Rewrite @controls_display : controls_rw.

Definition table_can (p : table_props) (s : table_state) (m : table_msg) : Prop :=
match m with
| SetDeleteTarget (Some t) => t ∈ tb_tuples p
| SetDeleteTarget None => True
| HandleDelete => is_Some (deleteTarget s) ∧ deleting s = false
| DeleteSettled _ => False
end.

Lemma table_offers p s m : offers (table_render p s) m → table_can p s m.
Proof.
unfold table_render. case_bool_decide; intros Ho; [by offers_cases Ho|].
unfold tuple_row, delete_content in Ho. destruct (deleteTarget s) as [t|] eqn:E; offers_cases Ho.
Qed.

Lemma page_offers_filter p s f :
offers (page_render p s) (SetFilter f) → ∃ k v, f = update_filter (filter s) k v.
Proof.
unfold page_render, TupleFilters, filter_input.
destruct (present (selectedTenantId p)); cbn [negb];
  [|intros Ho; unfold EmptyState in Ho; by offers_cases Ho].
destruct (data p), (isLoading p); cbn [replicate EmptyState];
  intros Ho; unfold EmptyState in Ho; offers_cases Ho; simplify_eq; eauto.
Qed.

Lemma page_offers_clear p s :
offers (page_render p s) ClearFilter → hasFilters (filter s) = true.
Proof.
unfold page_render, TupleFilters, filter_input.
destruct (present (selectedTenantId p)); cbn [negb];
  [|intros Ho; unfold EmptyState in Ho; by offers_cases Ho].
destruct (data p), (isLoading p); cbn [replicate EmptyState];
  intros Ho; unfold EmptyState in Ho; by offers_cases Ho.
Qed.

(** A filter without empty strings. *)
Definition normal (f : TupleFilter) : Prop :=
(∀ k, field_of f k ≠ Some []) ∧ f_subject_relation f = None.

Lemma normal_update f k v : normal f → normal (update_filter f k v).
Proof.
intros [Hk Hs]. split; [|by destruct k].
intros k'. specialize (Hk k'). destruct v as [|c v], k, k'; done.
Qed.

Lemma normal_reachable p s : reachable p page_init s → normal (filter s).
Proof.
apply (reachable_invariant p (λ s, normal (filter s))).
{ split; [by intros []|done]. }
intros s' m Hn [Hm|Hm]; destruct m as [f| |m|m]; try done.
- apply page_offers_filter in Hm as (k & v & ->). by apply normal_update.
- split; [by intros []|done].
- unfold after. simpl. by destruct (table_update _ _ _).
- unfold after. simpl. by destruct (dialog_update _ _ _).
- unfold after. simpl. by destruct (table_update _ _ _).
- unfold after. simpl. by destruct (dialog_update _ _ _).
Qed.

Lemma hasFilters_spec f : hasFilters f = true ↔ ∃ k v, filter_field f k = Some v ∧ v ≠ [].
Proof.
unfold hasFilters. rewrite existsb_exists. split.
- intros (o & Ho & (v & -> & Hv)%present_Some). apply list_elem_of_In in Ho.
  repeat (apply elem_of_cons in Ho as [Ho|Ho]); [..|by apply elem_of_nil in Ho].
  + by exists (js "object_type"), v.
  + by exists (js "object_id"), v.
  + by exists (js "relation"), v.
  + by exists (js "subject_type"), v.
  + by exists (js "subject_id"), v.
  + by exists (js "subject_relation"), v.
- intros (k & v & Hk & Hv). exists (Some v). split; [|by apply truthy_true].
  unfold filter_field in Hk. apply list_elem_of_In.
  repeat case_bool_decide; try done; rewrite <-Hk, !elem_of_cons; tauto.
Qed.

Lemma params_spec t f :
searchParams (readTuples t (Some f)) ≠ [] ↔ ∃ k v, filter_field f k = Some v ∧ v ≠ [].
Proof.
setoid_rewrite <-(filter_params_lookup t f).
destruct (searchParams (readTuples t (Some f))) as [|[k v] ps]; split; try done.
- by intros (? & ? & ?).
- intros _. exists k, v. simpl. by rewrite bool_decide_eq_true_2.
Qed.

(** What the table's state is about. *)
Definition table_ok (p : table_props) (s : table_state) : Prop :=
∀ t, deleteTarget s = Some t → t ∈ tb_tuples p.

Lemma table_ok_reachable p s : reachable p table_init s → table_ok p s.
Proof.
apply reachable_invariant; [done|].
intros s' m Hok [Hm%table_offers|Hm] t; destruct m as [[]| |[]]; simpl in *; try done;
  unfold after; simpl.
- by intros [= <-].
- destruct (deleteTarget s') eqn:E; simpl; [intros [= <-]; by apply Hok|by rewrite E].
- apply Hok.
Qed.

Definition deletes (m : table_msg) : bool := match m with HandleDelete => true | _ => false end.
Definition delete_settles (m : table_msg) : bool :=
match m with DeleteSettled _ => true | _ => false end.

Lemma table_in_flight p ms s :
run p table_init ms s →
count deletes ms = count delete_settles ms + (if deleting s then 1 else 0).
Proof.
induction 1 as [|ms s m Hrun IH Hm]; [done|]. rewrite !count_snoc, IH.
destruct Hm as [Hm%table_offers|Hm]; destruct m as [[]| |[]]; simpl in *; try done;
  destruct_hyps; unfold after; simpl;
  repeat match goal with
  | H : is_Some _ |- _ => destruct H as [? H]; rewrite H
  | H : deleting s = _ |- _ => rewrite H
  end; simpl; lia.
Qed.

(** The text a reader sees. *)
Definition tuple_text (t : RelationTuple) : jstring :=
rt_object_type t ++ js ":" ++ rt_object_id t ++ js "#" ++ rt_relation t ++ js "@" ++
rt_subject_type t ++ js ":" ++ rt_subject_id t ++
match rt_subject_relation t with Some r => if truthy r then js "#" ++ r else [] | None => [] end.

Lemma shown_tuple {M} t : shown (M := M) (display_tuple t) = tuple_text t.
Proof.
unfold tuple_text. destruct t as [? ot oi r st si [[|c sr]|] ? ? ? ? ? ?]; cbn;
  by rewrite ?app_nil_r, <-?app_assoc.
Qed.
End Facts.

(** ** Properties *)

Section Properties.
Context `{!JsNumber}.

(** The filter bar never holds an empty string: a cleared field is absent.
  The clear button is there only if some field filters, which is when the
  request carries a parameter, and clearing removes them all. *)
Theorem page_filter_faithful p s :
reachable p page_init s →
(∀ k, field_of (filter s) k ≠ Some []) ∧
(hasFilters (filter s) = true ↔ searchParams (queryFn (page_query p s)) ≠ []) ∧
(offers (render p s) ClearFilter → hasFilters (filter s) = true) ∧
searchParams (queryFn (page_query p (after p s ClearFilter))) = [].
Proof.
intros Hr. split_and!.
- by apply normal_reachable in Hr as [? _].
- by rewrite hasFilters_spec, <-(params_spec (forced (selectedTenantId p))).
- apply page_offers_clear.
- done.
Qed.

(** C24: Deleting is confirmed: the request deletes the tuple the confirmation
  dialog displays, a row of the table, from the current tenant, and no second
  one can start while it is in flight; a failure keeps the dialog open on the
  same tuple. *)
Theorem delete_is_confirmed p ms s :
run p table_init ms s →
count deletes ms = count delete_settles ms + (if deleting s then 1 else 0) ∧
(offers (render p s) HandleDelete →
  ∃ t, deleteTarget s = Some t ∧ t ∈ tb_tuples p ∧ E "div" [display_tuple t] ∈ delete_content s ∧
    sends p s HandleDelete = [Send (deleteTuple (tb_tenantId p) (delete_request t))]) ∧
(∀ e, deleteTarget (after p s (DeleteSettled (Rejected e))) = deleteTarget s).
Proof.
intros Hrun. split; [by apply (table_in_flight p)|]. split; [|done].
intros [[t Ht] _]%table_offers. exists t. split; [done|]. split_and!.
- by apply (table_ok_reachable p s); [exists ms|].
- unfold delete_content. rewrite Ht. do 2 right. by left.
- unfold sends. simpl. by rewrite Ht.
Qed.

(** The text of a tuple identifies it: when types, relations and ids hold none
  of the separators that follow them, tuples displayed alike are the same. *)
Theorem tuple_text_identifies {M} t t' :
(∀ u, u = t ∨ u = t' → (COLON ∉ rt_object_type u) ∧ (HASH ∉ rt_object_id u) ∧
  (64%N ∉ rt_relation u) ∧ (COLON ∉ rt_subject_type u) ∧ (HASH ∉ rt_subject_id u)) →
shown (M := M) (display_tuple t) = shown (M := M) (display_tuple t') →
rt_object_type t = rt_object_type t' ∧ rt_object_id t = rt_object_id t' ∧
rt_relation t = rt_relation t' ∧ rt_subject_type t = rt_subject_type t' ∧
rt_subject_id t = rt_subject_id t' ∧
default [] (rt_subject_relation t) = default [] (rt_subject_relation t').
Proof.
intros Hclean. rewrite !shown_tuple. unfold tuple_text.
destruct (Hclean t) as (?&?&?&?&Hi); [by left|]. destruct (Hclean t') as (?&?&?&?&Hi'); [by right|].
intros Heq.
do 4 (apply app_sep_inj in Heq as [-> Heq]; [|done|done]).
assert (Htail : ∀ u, match rt_subject_relation u with
    | Some r => if truthy r then js "#" ++ r else [] | None => [] end =
  if truthy (default [] (rt_subject_relation u)) then HASH :: default [] (rt_subject_relation u) else [])
  by (intros u; by destruct (rt_subject_relation u)).
rewrite !Htail in Heq. by apply app_opt_sep_inj in Heq as [-> ->].
Qed.
End Properties.

(** A table with one tuple, about to be deleted. *)
Definition demo_tuple : @RelationTuple integers :=
  MkRelationTuple (js "acme") (js "doc") (js "d1") (js "viewer") (js "group") (js "g1")
    (Some (js "member")) None None (js "2024") (js "2024") None None.

Definition demo_table : @table_props integers := MkTableProps (js "acme") [demo_tuple] (λ s, s).

Lemma demo_table_run : run demo_table table_init [SetDeleteTarget (Some demo_tuple)] (MkTable (Some demo_tuple) false).
Proof. apply run_cons; [left; offer 0|constructor]. Qed.

Lemma delete_is_confirmed_witness :
  ∃ t, Some demo_tuple = Some t ∧ t ∈ [demo_tuple] ∧
    E "div" [display_tuple t] ∈ delete_content (MkTable (Some demo_tuple) false) ∧
    sends demo_table (MkTable (Some demo_tuple) false) HandleDelete =
      [Send (deleteTuple (js "acme") (delete_request t))].
Proof.
  apply (delete_is_confirmed (H := integers) demo_table _ _ demo_table_run). offer 3.
Defined.

Lemma page_filter_faithful_witness :
  let p := @MkPageProps integers (Some (js "acme")) None false None (λ s, s) in
  hasFilters (filter (MkPage (update_filter no_filter KRelation (js "viewer")) table_init dialog_init)) = true.
Proof.
  intros p.
  assert (Hr : reachable p page_init (MkPage (update_filter no_filter KRelation (js "viewer")) table_init dialog_init)).
  { eexists. apply run_cons; [left; offer 3|constructor]. }
  destruct (page_filter_faithful (H := integers) p _ Hr) as (_ & Hf & _ & _). apply Hf. discriminate.
Defined.

Lemma tuple_text_identifies_witness : rt_object_type demo_tuple = rt_object_type demo_tuple.
Proof.
  refine (proj1 (tuple_text_identifies (H := integers) (M := unit) demo_tuple demo_tuple _ eq_refl)).
  intros u [-> | ->]; repeat split; decide_literal.
Defined.
