(* ===== verification/AttributeEditor.v ===== *)
(** * The attribute editor

    [console/src/components/attributes/attribute-editor.tsx]: the attributes of an
    object or a subject as rows of key and value texts, and what saving the rows
    sends. *)

From S2P Require Import Prelude JsString JsObject Json JsonIntegers Html.

Record entry := MkEntry {
  key : jstring;
  value : jstring }.

#[export] Instance entry_eq_dec : EqDecision entry.
Proof. solve_decision. Defined.

Section Editor.
Context `{!JsNumber}.

(** [typeof value === "string" ? value : JSON.stringify(value)] *)
Definition value_text (v : json) : jstring :=
match v with JString s => s | _ => stringify v end.

(** The initial state: [Object.entries(attributes).map(...)]. *)
Definition entries_of (attributes : jobject json) : list entry :=
(λ e, MkEntry (fst e) (value_text (snd e))) <$> attributes.

Definition addEntry (entries : list entry) : list entry := entries ++ [MkEntry [] []].

Definition removeEntry (index : nat) (entries : list entry) : list entry := delete index entries.

(** [index] is that of a row on the screen, so it is in range. *)
Definition updateKey (index : nat) (val : jstring) (entries : list entry) : list entry :=
alter (λ e, MkEntry val (value e)) index entries.

Definition updateValue (index : nat) (val : jstring) (entries : list entry) : list entry :=
alter (λ e, MkEntry (key e) val) index entries.

(** [JSON.parse(entry.value)], or the text itself when that throws. *)
Definition saved_value (text : jstring) : json :=
match parse text with Some v => v | None => JString text end.

Definition save_entry (attrs : jobject json) (e : entry) : jobject json :=
if truthy (trim (key e)) then obj_assign attrs (trim (key e)) (saved_value (value e)) else attrs.

(** What [handleSave] passes to [onSave]. *)
Definition handleSave (entries : list entry) : jobject json := foldl save_entry [] entries.

Inductive editor_msg :=
| AddEntry
| RemoveEntry (i : nat)
| UpdateKey (i : nat) (v : jstring)
| UpdateValue (i : nat) (v : jstring)
| SaveEntries.

(** The effect of the editor is its [onSave] callback. *)
Definition editor_update (isSaving : bool) (entries : list entry) (m : editor_msg)
  : list entry * list (jobject json) :=
match m with
| AddEntry => (addEntry entries, [])
| RemoveEntry i => (removeEntry i entries, [])
| UpdateKey i v => (updateKey i v entries, [])
| UpdateValue i v => (updateValue i v entries, [])
| SaveEntries => (entries, [handleSave entries])
end.

Definition entry_row (i : nat) (e : entry) : html editor_msg :=
E "TableRow" [
  E "TableCell" [input (key e) (UpdateKey i)];
  E "TableCell" [input (value e) (UpdateValue i)];
  E "TableCell" [El "Button" [OnClick (RemoveEntry i)] [E "Trash2" []]]].

Definition editor_render (isSaving : bool) (entries : list entry) : list (html editor_msg) :=
[E "div" [
  E "Table" [
    E "TableHeader" [E "TableRow" [E "TableHead" [T "Key"]; E "TableHead" [T "Value"];
                                   E "TableHead" []]];
    E "TableBody" (imap entry_row entries)];
  E "div" [
    El "Button" [OnClick AddEntry] [E "Plus" []; T "Add Attribute"];
    button isSaving SaveEntries [E (if isSaving then "Loader2" else "Save") []; T "Save"]]]].

#[export] Instance attribute_editor : Component bool (list entry) editor_msg (jobject json) :=
{| render := editor_render; update := editor_update; arrives _ _ _ := False |}.
End Editor.

Arguments editor_msg : clear implicits.

(** ** Facts *)

Section Facts.
Context `{!JsNumber}.
Implicit Types (es : list entry) (k : jstring).

(** The user only sends the index of a row that exists. *)
Definition row_of (m : editor_msg) : option nat :=
match m with RemoveEntry i | UpdateKey i _ | UpdateValue i _ => Some i | _ => None end.

Lemma editor_offers saving es m :
offers (editor_render saving es) m →
(∀ i, row_of m = Some i → i < length es) ∧ (m = SaveEntries → saving = false).
Proof.
unfold editor_render. intros Ho. unfold entry_row in Ho. offers_cases Ho; simpl;
  split; try done; intros i [= <-]; by eapply lookup_lt_Some.
Qed.

(** The last row for a key. *)
Definition last_row k es : option entry :=
last (List.filter (λ e, bool_decide (trim (key e) = k)) es).

Lemma handleSave_snoc es e : handleSave (es ++ [e]) = save_entry (handleSave es) e.
Proof. unfold handleSave. by rewrite foldl_app. Qed.

Lemma handleSave_get es k :
k ≠ [] → k ≠ js "__proto__" →
map_get (handleSave es) k = (λ e, saved_value (value e)) <$> last_row k es.
Proof.
intros Hk Hp. unfold last_row. induction es as [|e es IH] using rev_ind; [done|].
rewrite handleSave_snoc, List.filter_app. unfold save_entry. simpl.
destruct (decide (trim (key e) = k)) as [He|He].
- rewrite (bool_decide_eq_true_2 _ He), He, last_snoc.
  rewrite (proj2 (truthy_true k)), map_get_obj_assign by done.
  by rewrite bool_decide_eq_true_2.
- rewrite (bool_decide_eq_false_2 _ He), app_nil_r, <-IH.
  destruct (truthy (trim (key e))); [|done].
  unfold obj_assign. case_bool_decide; [done|].
  by rewrite map_get_obj_set, bool_decide_eq_false_2.
Qed.

Lemma handleSave_blank es : map_get (handleSave es) [] = None.
Proof.
induction es as [|e es IH] using rev_ind; [done|].
rewrite handleSave_snoc. unfold save_entry. destruct (truthy (trim (key e))) eqn:E; [|done].
unfold obj_assign. case_bool_decide; [done|]. rewrite map_get_obj_set.
apply truthy_true in E. by rewrite bool_decide_eq_false_2.
Qed.

Lemma saved_value_text `{!JsNumberLaws _} v :
json_wf v → (∀ s, v = JString s → parse s = None) → saved_value (value_text v) = v.
Proof.
intros Hv Hs. unfold saved_value. destruct v as [|b|n|s|l|o]; cbn [value_text];
  try (by rewrite parse_stringify). by rewrite (Hs s).
Qed.

(** A key the editor keeps as it is. *)
Definition plain_key k : Prop := k ≠ [] ∧ trim k = k ∧ k ≠ js "__proto__".

Lemma handleSave_entries `{!JsNumberLaws _} (a : jobject json) :
json_wf (JObject a) → Forall (λ e, plain_key (fst e)) a →
(∀ k s, (k, JString s) ∈ a → parse s = None) →
handleSave (entries_of a) = a.
Proof.
intros Hwf Hk Hs. inversion Hwf as [| | | | |o Ho Hv]; subst.
rewrite <-(obj_of_wf a) at 2 by done. unfold handleSave, obj_of, entries_of.
generalize (@nil (jstring * json)) as acc. clear Hwf Ho.
induction Hk as [|[k v] a (Hne & Htrim & Hp) Hk IH]; intros acc; [done|].
cbn [fst] in *. rewrite fmap_cons. cbn [foldl fst snd]. apply Forall_cons in Hv as [Hv Hvs].
rewrite <-IH by (done || intros k' s' Hin; apply (Hs k'); by right). f_equal.
unfold save_entry. cbn [key value fst snd]. rewrite Htrim, (proj2 (truthy_true k)) by done.
rewrite saved_value_text; [|done|].
- unfold obj_assign. by rewrite bool_decide_eq_false_2.
- intros s ->. apply (Hs k). by left.
Qed.
End Facts.

(** ** Properties *)

Section Properties.
Context `{!JsNumber, !JsNumberLaws _}.

(** C25: Saving without editing changes nothing: for attributes as the server
  sends them, with keys that have no surrounding space and string values that
  are not themselves JSON texts, the rows shown are saved back as the very same
  object. *)
Theorem save_unchanged (a : jobject json) :
json_wf (JObject a) → Forall (λ e, plain_key (fst e)) a →
(∀ k s, (k, JString s) ∈ a → parse s = None) →
handleSave (entries_of a) = a.
Proof. apply handleSave_entries. Qed.

(** A string that is itself a JSON text changes its type when saved without
  editing: the string of any value [v] comes back as [v]. *)
Theorem save_retypes_strings k v :
json_wf v → plain_key k →
handleSave (entries_of [(k, JString (stringify v))]) = [(k, v)].
Proof.
intros Hv (Hk & Ht & Hp). unfold handleSave, entries_of. simpl. unfold save_entry. simpl.
rewrite Ht, (proj2 (truthy_true k)) by done. unfold saved_value.
rewrite parse_stringify by done. unfold obj_assign. rewrite bool_decide_eq_false_2 by done.
unfold obj_set. simpl. by destruct (array_index k).
Qed.

(** What saving sends: each key that is not blank has the value of its last row,
  parsed as JSON when it is JSON and as text otherwise; rows with a blank key
  are not sent. *)
Theorem save_last_row es k :
(k ≠ [] → k ≠ js "__proto__" →
  map_get (handleSave es) k = (λ e, saved_value (value e)) <$> last_row k es) ∧
map_get (handleSave es) [] = None.
Proof. split; [apply handleSave_get|apply handleSave_blank]. Qed.
End Properties.

Lemma save_unchanged_witness :
  let a := [(js "clearance", JNumber (H := integers) 3%Z); (js "region", JString (js "eu"))] in
  handleSave (entries_of a) = a.
Proof.
  intros a. apply (save_unchanged a).
  - apply wf_object; [unfold obj_wf; repeat constructor; intros [=]|].
    repeat constructor.
  - repeat constructor; discriminate.
  - intros k s Hin. repeat (apply elem_of_cons in Hin as [Hin|Hin]; [by simplify_eq|]).
    by apply elem_of_nil in Hin.
Defined.

Lemma save_retypes_strings_witness :
  handleSave (entries_of [(js "zip", JString (js "42"))]) = [(js "zip", JNumber (H := integers) 42%Z)].
Proof.
  apply (save_retypes_strings (js "zip") (JNumber (H := integers) 42%Z)); [by constructor|].
  repeat split; discriminate.
Defined.

(** A key entered twice. *)
Lemma save_last_row_witness :
  map_get (handleSave (H := integers) [MkEntry (js "n") (js "1"); MkEntry (js " n ") (js "2")]) (js "n") =
  Some (JNumber (H := integers) 2%Z).
Proof.
  rewrite (proj1 (save_last_row (H := integers) [MkEntry (js "n") (js "1"); MkEntry (js " n ") (js "2")]
    (js "n"))); [reflexivity|discriminate..].
Defined.
