(* ===== verification/AttributesPage.v ===== *)
(** * The attributes page

    [console/src/app/attributes/page.tsx]: the two tabs that list the objects and
    the subjects with attributes, open one of them and edit its attributes.  The
    two tabs are the same code up to names; they are two instances of one
    definition here.

    The editor is a child whose state lives from the render that first shows it to
    the render that no longer does ([reconcile]): its initial rows are taken from
    the attributes at hand when it appears. *)

From S2P Require Import Prelude JsString JsObject Json JsonIntegers ApiTypes ApiClient Queries Html AttributeEditor TuplesPage.

Section Tab.
Context `{!JsNumber}.

(** [SelectedEntity] *)
Record entity := MkEntity {
e_type : jstring;
e_id : jstring }.

#[export] Instance entity_eq_dec : EqDecision entity.
Proof. solve_decision. Defined.

(** What differs between the two tabs. *)
Record tab_kind := MkKind {
list_query : option jstring → option jstring → query;
entity_query : option jstring → jstring → jstring → query;
save_mutation : jstring → jstring → jstring → mutation (jobject json);
text_saved : string;
text_none : string;
text_lookup : string;
text_type : string;
text_id : string;
text_select : string }.

Definition object_kind : tab_kind :=
MkKind useListObjectAttributes useObjectAttributes useSaveObjectAttributes
  "Object attributes saved" "No objects with attributes" "Lookup Object"
  "Object Type" "Object ID" "Select an object from the list or click + to look up a new one".

Definition subject_kind : tab_kind :=
MkKind useListSubjectAttributes useSubjectAttributes useSaveSubjectAttributes
  "Subject attributes saved" "No subjects with attributes" "Lookup Subject"
  "Subject Type" "Subject ID" "Select a subject from the list or click + to look up a new one".

Record tab_props := MkTabProps {
kind : tab_kind;
tenantId : jstring;
listing : list entity;             (* [listData?.objects ?? []] *)
isListLoading : bool }.

Record tab_state := MkTab {
selected : option entity;
showNewForm : bool;
newType : jstring;
newId : jstring;
filterType : jstring;
isSaving : bool;                   (* [saveAttrs.isPending] *)
fetched : list (entity * jobject json);   (* the query cache *)
failed : list entity;              (* the entities whose query failed, with no data *)
editor : option (list entry) }.    (* the rows, while the editor is mounted *)

Definition tab_init : tab_state := MkTab None false [] [] [] false [] [] None.

Inductive tab_msg :=
| SetFilterType (v : jstring)
| NewForm
| CancelForm
| SetNewType (v : jstring)
| SetNewId (v : jstring)
| Lookup
| HandleSelect (e : entity)
| EditorMsg (m : editor_msg)
| SaveSettled (r : settled unit api_error)
| Fetched (e : entity) (r : option (jobject json)).

Implicit Types (p : tab_props) (s : tab_state) (e : entity).

Definition list_of p s : query :=
list_query (kind p) (Some (tenantId p))
  (if truthy (filterType s) then Some (filterType s) else None).

Definition entity_of p e : query := entity_query (kind p) (Some (tenantId p)) (e_type e) (e_id e).

(** [isLoading]: the query is enabled and has no result yet ([retry: false]). *)
Definition loading p s e : bool :=
query_enabled (entity_of p e) && negb (map_has (fetched s) e) && negb (set_has (failed s) e).

(** [data?.attributes ?? {}] *)
Definition attributes_of p s e : jobject json :=
if query_enabled (entity_of p e)
then default [] (map_get (fetched s) e)
else [].

(** The attributes the editor is given, when the page shows it. *)
Definition shows_editor p s : option (jobject json) :=
if showNewForm s then None
else match selected s with
     | Some e => if loading p s e then None else Some (attributes_of p s e)
     | None => None
     end.

(** Mount, keep or unmount the editor after a render. *)
Definition reconcile p s : tab_state :=
MkTab (selected s) (showNewForm s) (newType s) (newId s) (filterType s) (isSaving s) (fetched s) (failed s)
  (match shows_editor p s, editor s with
   | None, _ => None
   | Some _, Some rows => Some rows
   | Some a, None => Some (entries_of a)
   end).

(** A query without data that is fetched again is loading again. *)
Definition refetch s (e : option entity) : list entity :=
match e with Some e => set_delete (failed s) e | None => failed s end.

(** A change of entity is a change of query: a failure is fetched again. *)
Definition select s (e : option entity) (form : bool) (type id : jstring) : tab_state :=
MkTab e form type id (filterType s) (isSaving s) (fetched s)
  (if bool_decide (e = selected s) then failed s else refetch s e) (editor s).

Definition selected_type s : jstring := match selected s with Some e => e_type e | None => [] end.
Definition selected_id s : jstring := match selected s with Some e => e_id e | None => [] end.

Definition save_of p s : mutation (jobject json) :=
save_mutation (kind p) (tenantId p) (selected_type s) (selected_id s).

(** The handlers, before the render that follows. *)
Definition tab_handle p s (m : tab_msg) : tab_state * list effect :=
match m with
| SetFilterType v =>
    (MkTab (selected s) (showNewForm s) (newType s) (newId s) v (isSaving s) (fetched s) (failed s) (editor s), [])
| NewForm => (select s None true (newType s) (newId s), [])
| CancelForm => (select s (selected s) false (newType s) (newId s), [])
| SetNewType v => (select s (selected s) (showNewForm s) v (newId s), [])
| SetNewId v => (select s (selected s) (showNewForm s) (newType s) v, [])
| Lookup =>
    if negb (truthy (newType s)) || negb (truthy (newId s)) then (s, [])
    else (select s (Some (MkEntity (newType s) (newId s))) false [] [], [])
| HandleSelect e => (select s (Some e) false (newType s) (newId s), [])
| EditorMsg m =>
    match editor s with
    | Some rows =>
        let (rows', saves) := editor_update (isSaving s) rows m in
        (MkTab (selected s) (showNewForm s) (newType s) (newId s) (filterType s)
           (isSaving s || bool_decide (0 < length saves)) (fetched s) (failed s) (Some rows'),
         (λ a, Send (mutationFn (save_of p s) a)) <$> saves)
    | None => (s, [])
    end
| SaveSettled (Resolved _) =>
    (* [onSuccess] is the last render's: it invalidates the selected entity's query *)
    (MkTab (selected s) (showNewForm s) (newType s) (newId s) (filterType s) false (fetched s)
       (refetch s (selected s)) (editor s), [ToastSuccess (js (text_saved (kind p)))])
| SaveSettled (Rejected e) =>
    (MkTab (selected s) (showNewForm s) (newType s) (newId s) (filterType s) false (fetched s)
       (failed s) (editor s), [ToastError (error_text e "Failed to save attributes")])
| Fetched e (Some a) =>
    (MkTab (selected s) (showNewForm s) (newType s) (newId s) (filterType s) (isSaving s)
       (map_set (fetched s) e a) (set_delete (failed s) e) (editor s), [])
| Fetched e None =>
    (MkTab (selected s) (showNewForm s) (newType s) (newId s) (filterType s) (isSaving s) (fetched s)
       (if map_has (fetched s) e then failed s else set_add (failed s) e) (editor s), [])
end.

Definition tab_update p s (m : tab_msg) : tab_state * list effect :=
let (s', es) := tab_handle p s m in (reconcile p s', es).

(** *** The panels *)

Definition list_item (item : entity) : html tab_msg :=
El "button" [OnClick (HandleSelect item)] [
  E "div" [E "div" [E "Badge" [Text (e_type item)]]; E "div" [Text (e_id item)]];
  E "ChevronRight" []].

Definition list_panel p s : html tab_msg :=
E "div" [
  E "div" [
    E "div" (E "Search" [] :: input (filterType s) SetFilterType ::
      when (truthy (filterType s)) [El "button" [OnClick (SetFilterType [])] [E "X" []]]);
    El "Button" [OnClick NewForm] [E "Plus" []]];
  E "div" [
    if isListLoading p then E "div" [E "Loader2" []; T "Loading..."]
    else if bool_decide (length (listing p) = 0) then E "div" [T (text_none (kind p))]
    else E "div" (list_item <$> listing p)]].

Definition lookup_card p s : html tab_msg :=
E "Card" [
  E "CardHeader" [E "CardTitle" [T (text_lookup (kind p))]];
  E "CardContent" [E "div" [
    E "div" [E "Label" [T (text_type (kind p))]; input_enter (newType s) SetNewType Lookup];
    E "div" [E "Label" [T (text_id (kind p))]; input_enter (newId s) SetNewId Lookup];
    button (negb (truthy (newType s)) || negb (truthy (newId s))) Lookup [E "Search" []; T "Open"];
    El "Button" [OnClick CancelForm] [T "Cancel"]]]].

Definition editor_card p s e : html tab_msg :=
E "Card" [
  E "CardHeader" [E "CardTitle" [E "Badge" [Text (e_type e)]; span (e_id e)]];
  E "CardContent"
    (if loading p s e then [E "div" [E "Loader2" []; T "Loading..."]]
     else map_html EditorMsg <$> editor_render (isSaving s) (default [] (editor s)))].

Definition tab_render p s : list (html tab_msg) :=
[E "div" [
  list_panel p s;
  E "div" [
    if showNewForm s then lookup_card p s
    else match selected s with
         | Some e => editor_card p s e
         | None => E "div" [T (text_select (kind p))]
         end]]].

(** Saves settle, and queries answer, that of an entity no longer selected too. *)
Definition tab_arrives p s (m : tab_msg) : Prop :=
match m with
| SaveSettled _ => isSaving s = true
| Fetched e r => query_enabled (entity_of p e) = true
| _ => False
end.

#[export] Instance attributes_tab : Component tab_props tab_state tab_msg effect :=
{| render := tab_render; update := tab_update; arrives := tab_arrives |}.

Definition ObjectAttributesTab (tenant : jstring) (listData : option ListObjectAttributesResponse)
  (loading : bool) : tab_props :=
MkTabProps object_kind tenant
  ((λ i, MkEntity (oa_object_type i) (oa_object_id i)) <$> default [] (listData ≫= objects)) loading.

Definition SubjectAttributesTab (tenant : jstring) (listData : option ListSubjectAttributesResponse)
  (loading : bool) : tab_props :=
MkTabProps subject_kind tenant
  ((λ i, MkEntity (sa_subject_type i) (sa_subject_id i)) <$> default [] (listData ≫= subjects)) loading.

(** What the second tab renders. *)
Definition SubjectAttributesTab_render (tenant : jstring) (listData : option ListSubjectAttributesResponse)
  (loading : bool) (s : tab_state) : list (html tab_msg) :=
tab_render (SubjectAttributesTab tenant listData loading) s.

(** The page: without a tenant there are no tabs; the tab shown first is the
  objects'. *)
Definition AttributesPage {M} (selectedTenantId : option jstring)
  (objects_tab subjects_tab : list (html M)) : list (html M) :=
if negb (present selectedTenantId) then
  [EmptyState "Building2" "No tenant selected"
     "Select a tenant from the dropdown above to manage attributes." []]
else
  [E "div" [E "h1" [T "Attributes"];
    El "Tabs" [Attr "defaultValue" (js "objects")] [
      E "TabsList" [El "TabsTrigger" [Attr "value" (js "objects")] [T "Object Attributes"];
                    El "TabsTrigger" [Attr "value" (js "subjects")] [T "Subject Attributes"]];
      El "TabsContent" [Attr "value" (js "objects")] objects_tab;
      El "TabsContent" [Attr "value" (js "subjects")] subjects_tab]]].
End Tab.

(** ** Facts *)

Section Facts.
Context `{!JsNumber}.
Implicit Types (p : tab_props) (s : tab_state) (e : entity).

(** The editor is mounted exactly while it is shown. *)
Definition mounted p s : Prop := is_Some (editor s) ↔ is_Some (shows_editor p s).

Lemma shows_reconcile p s : shows_editor p (reconcile p s) = shows_editor p s.
Proof. done. Qed.

Lemma tab_mounted_reconcile p s : mounted p (reconcile p s).
Proof.
unfold mounted. rewrite shows_reconcile. unfold reconcile. simpl.
destruct (shows_editor p s), (editor s); simpl; split; intros []; eauto; done.
Qed.

Lemma mounted_step p s m : mounted p (after p s m).
Proof.
unfold after. simpl. unfold tab_update. destruct (tab_handle p s m) as [s' es].
apply tab_mounted_reconcile.
Qed.

Lemma tab_mounted_reachable p s : reachable p tab_init s → mounted p s.
Proof.
apply (reachable_invariant p (mounted p)); [by split; intros []|].
intros s' m _ _. apply mounted_step.
Qed.

Lemma tab_offers_save p s :
offers (tab_render p s) (EditorMsg SaveEntries) →
isSaving s = false ∧ is_Some (shows_editor p s).
Proof.
unfold tab_render, list_panel, lookup_card, editor_card, shows_editor.
destruct (showNewForm s); [|destruct (selected s) as [e|]; [destruct (loading p s e)|]];
  intros Ho; unfold list_item, span in Ho; offers_cases Ho.
match goal with H : offers (editor_render _ _) _ |- _ => apply editor_offers in H as [_ ->] end;
  [by split; [|eexists]|done].
Qed.

Lemma handle_select p s e :
after p s (HandleSelect e) =
reconcile p (select s (Some e) false (newType s) (newId s)).
Proof. done. Qed.

Lemma handle_fetched p s e a :
after p s (Fetched e (Some a)) =
reconcile p (MkTab (selected s) (showNewForm s) (newType s) (newId s) (filterType s) (isSaving s)
  (map_set (fetched s) e a) (set_delete (failed s) e) (editor s)).
Proof. done. Qed.

Lemma tab_handle_saved p s :
after p s (SaveSettled (Resolved tt)) =
reconcile p (MkTab (selected s) (showNewForm s) (newType s) (newId s) (filterType s) false
  (fetched s) (refetch s (selected s)) (editor s)).
Proof. done. Qed.

(** A render that finds the selected entity's query loading removes the editor,
  and its answer brings it back. *)
Lemma tab_reload_shows p s e a :
selected s = Some e → showNewForm s = false → query_enabled (entity_of p e) = true →
map_has (fetched s) e = false → set_has (failed s) e = false →
let s1 := reconcile p s in
let s2 := after p s1 (Fetched e (Some a)) in
editor s1 = None ∧ selected s2 = Some e ∧ editor s2 = Some (entries_of a).
Proof.
intros He Hn Hen Hf Hfail s1 s2.
assert (H1 : editor s1 = None).
{ unfold s1, reconcile, shows_editor, loading. simpl. by rewrite Hn, He, Hen, Hf, Hfail. }
split; [done|]. split; [done|].
unfold s2. rewrite handle_fetched. unfold reconcile. cbn [editor]. rewrite H1.
unfold shows_editor, loading, attributes_of, map_has. cbn [selected showNewForm fetched failed].
change (selected s1) with (selected s). change (showNewForm s1) with (showNewForm s).
by rewrite Hn, He, Hen, map_get_set, bool_decide_eq_true_2 by done.
Qed.

Lemma tab_save_sends p s rows :
editor s = Some rows →
sends p s (EditorMsg SaveEntries) = [Send (mutationFn (save_of p s) (handleSave rows))].
Proof. intros Hr. unfold sends. simpl. unfold tab_update. simpl. by rewrite Hr. Qed.

Lemma shows_selected p s :
is_Some (shows_editor p s) → ∃ e, selected s = Some e ∧ showNewForm s = false.
Proof.
unfold shows_editor. destruct (showNewForm s); [by intros []|].
destruct (selected s); [eauto|by intros []].
Qed.
End Facts.

(** ** Properties *)

Section Properties.
Context `{!JsNumber}.
Implicit Types (p : tab_props) (s : tab_state) (e : entity).

(** C40: Whenever the editor's Save can be pressed, exactly one request is sent: it
  writes what the rows on the screen say to the entity named in the header, in
  the current tenant, and only when no other save is in flight. *)
Theorem save_targets_header p s :
reachable p tab_init s → offers (render p s) (EditorMsg SaveEntries) →
isSaving s = false ∧
∃ e rows, selected s = Some e ∧ editor s = Some rows ∧
  sends p s (EditorMsg SaveEntries) =
    [Send (mutationFn (save_mutation (kind p) (tenantId p) (e_type e) (e_id e)) (handleSave rows))].
Proof.
intros Hm%tab_mounted_reachable [Hs Hshow]%tab_offers_save. split; [done|].
destruct (shows_selected p s Hshow) as (e & He & _). apply Hm in Hshow as [rows Hrows].
exists e, rows. split_and!; [done..|]. rewrite (tab_save_sends p s rows Hrows).
unfold save_of, selected_type, selected_id. by rewrite He.
Qed.

(** Opening an entity for the first time shows its attributes: while its query
  is loading there is no editor, and when the answer arrives the rows are those
  of the answer, whatever was on the screen before. *)
Theorem first_open_shows_attributes p s e a :
query_enabled (entity_of p e) = true → map_has (fetched s) e = false →
selected s ≠ Some e →
let s1 := after p s (HandleSelect e) in
let s2 := after p s1 (Fetched e (Some a)) in
editor s1 = None ∧ selected s2 = Some e ∧ editor s2 = Some (entries_of a).
Proof.
intros Hen Hf Hne. rewrite handle_select. apply tab_reload_shows; simpl; [done..|].
by rewrite bool_decide_eq_false_2, set_has_delete by congruence.
Qed.

(** The first save of an entity that had no attributes reopens it: the editor
  goes away while the query, which had failed, is loading again, and comes back
  with the attributes the server stored. *)
Theorem first_save_reopens p s e a :
selected s = Some e → showNewForm s = false →
query_enabled (entity_of p e) = true → map_has (fetched s) e = false →
let s1 := after p s (SaveSettled (Resolved tt)) in
let s2 := after p s1 (Fetched e (Some a)) in
editor s1 = None ∧ selected s2 = Some e ∧ editor s2 = Some (entries_of a).
Proof.
intros He Hn Hen Hf. rewrite tab_handle_saved. apply tab_reload_shows; simpl; [done..|].
rewrite He. apply set_has_delete.
Qed.

(** Switching to an entity whose attributes are in the cache keeps the rows of
  the one before: without any edit, Save writes the attributes of one entity to
  another. *)
Theorem switching_keeps_rows p s e rows :
editor s = Some rows → map_has (fetched s) e = true →
let s' := after p s (HandleSelect e) in
selected s' = Some e ∧ editor s' = Some rows ∧
sends p s' (EditorMsg SaveEntries) =
  [Send (mutationFn (save_mutation (kind p) (tenantId p) (e_type e) (e_id e)) (handleSave rows))].
Proof.
intros Hrows Hf s'.
assert (He : editor s' = Some rows).
{ unfold s'. rewrite handle_select. unfold reconcile, shows_editor, loading. simpl.
  by rewrite Hf, andb_false_r, Hrows. }
split; [done|]. split; [done|]. by rewrite (tab_save_sends p s' rows He).
Qed.
End Properties.

(** Two documents, opened one after the other. *)
Definition doc1 : entity := MkEntity (js "doc") (js "1").
Definition doc2 : entity := MkEntity (js "doc") (js "2").
Definition attrs1 : jobject (@json integers) := [(js "owner", JString (js "ann"))].
Definition attrs2 : jobject (@json integers) := [(js "owner", JString (js "bob"))].

Definition demo_tab : @tab_props integers := MkTabProps object_kind (js "acme") [doc1; doc2] false.

Definition demo_visits : list (@tab_msg integers) := [
  HandleSelect doc1; Fetched doc1 (Some attrs1); HandleSelect doc2; Fetched doc2 (Some attrs2)].

Definition demo_visited : @tab_state integers :=
  MkTab (Some doc2) false [] [] [] false [(doc1, attrs1); (doc2, attrs2)] []
    (Some (entries_of attrs2)).

Lemma demo_tab_run : run demo_tab tab_init demo_visits demo_visited.
Proof.
  apply run_cons; [left; offer 2|]. apply run_cons; [by right|].
  apply run_cons; [left; offer 3|]. apply run_cons; [by right|]. constructor.
Qed.

Lemma save_targets_header_witness :
  ∃ e rows, selected demo_visited = Some e ∧ editor demo_visited = Some rows ∧
    sends demo_tab demo_visited (EditorMsg SaveEntries) =
      [Send (setObjectAttributes (js "acme") (e_type e) (e_id e) (handleSave rows))].
Proof.
  apply (save_targets_header (H := integers) demo_tab demo_visited).
  - exists demo_visits. exact demo_tab_run.
  - offer 8.
Defined.

Lemma first_open_shows_attributes_witness :
  editor (after demo_tab (after demo_tab tab_init (HandleSelect doc1)) (Fetched doc1 (Some attrs1))) =
  Some (entries_of attrs1).
Proof.
  apply (first_open_shows_attributes (H := integers) demo_tab tab_init doc1 attrs1); done.
Defined.

(** A document looked up, not found, and saved. *)
Lemma first_save_reopens_witness :
  let s := after demo_tab (after demo_tab tab_init (HandleSelect doc1)) (Fetched doc1 None) in
  editor s = Some [] ∧
  editor (after demo_tab (after demo_tab s (SaveSettled (Resolved tt))) (Fetched doc1 (Some attrs1))) =
    Some (entries_of attrs1).
Proof.
  split; [reflexivity|].
  apply (first_save_reopens (H := integers) demo_tab
    (after demo_tab (after demo_tab tab_init (HandleSelect doc1)) (Fetched doc1 None)) doc1 attrs1); done.
Defined.

(** Back on the first document, Save writes the second one's owner to it. *)
Lemma switching_keeps_rows_witness :
  sends demo_tab (after demo_tab demo_visited (HandleSelect doc1)) (EditorMsg SaveEntries) =
    [Send (setObjectAttributes (js "acme") (js "doc") (js "1") attrs2)].
Proof.
  exact (proj2 (proj2 (switching_keeps_rows (H := integers) demo_tab demo_visited doc1
    (entries_of attrs2) eq_refl eq_refl))).
Defined.
