(* ===== verification/Explorer.v ===== *)
(** * The explorer

    [console/src/app/explorer/page.tsx], [components/explorer/subject-tree.tsx] and
    [tree-node.tsx]: the form that expands a relation, and the graph drawn from the
    subject tree the server answers. *)

From S2P Require Import Prelude JsString JsObject Json JsonIntegers ApiTypes ApiClient Queries Html TuplesPage.

(** ** From the tree to nodes and edges *)

Record flow_node := MkFlowNode {
  node_id : jstring;
  node_subject : SubjectRef;
  isRoot : bool;
  position : Z * Z }.

Record flow_edge := MkFlowEdge {
  edge_id : jstring;
  source : jstring;
  target : jstring }.

(** [${Type}:${ID}${Relation ? "#" + Relation : ""}] *)
Definition subject_label (s : SubjectRef) : jstring :=
  sub_Type s ++ COLON :: sub_ID s ++
  match sub_Relation s with Some r => if truthy r then HASH :: r else [] | None => [] end.

Definition flow_id (label : jstring) (depth : nat) : jstring :=
  label ++ DASH :: js_of_N (N.of_nat depth).

Definition own_edge (parentId : option jstring) (nodeId : jstring) : list flow_edge :=
  match parentId with
  | Some p => when (truthy p) [MkFlowEdge (p ++ js "->" ++ nodeId) p nodeId]
  | None => []
  end.

Fixpoint treeToFlow (tree : SubjectTree) (parentId : option jstring) (depth : nat) {struct tree}
    : list flow_node * list flow_edge :=
  match tree with
  | MkSubjectTree subject children =>
      let nodeId := flow_id (subject_label subject) depth in
      let results := match children with
        | Some l => (λ child, treeToFlow child (Some nodeId) (S depth)) <$> l
        | None => []
        end in
      (MkFlowNode nodeId subject (bool_decide (depth = 0)) (0, 0)%Z :: concat (fst <$> results),
       own_edge parentId nodeId ++ concat (snd <$> results))
  end.

(** [dagre.layout] on the node sizes and the edges: the centre of each node. *)
Abbreviation layout := (list (jstring * (Z * Z)) → list (jstring * jstring) → jstring → Z * Z).

Definition layoutTree (dagre : layout) (nodes : list flow_node) (edges : list flow_edge)
    : list flow_node :=
  let pos := dagre ((λ n, (node_id n, (180, 50)%Z)) <$> nodes) ((λ e, (source e, target e)) <$> edges) in
  (λ n, MkFlowNode (node_id n) (node_subject n) (isRoot n)
          (fst (pos (node_id n)) - 90, snd (pos (node_id n)) - 25)%Z) <$> nodes.

(** What [SubjectTreeView] puts on the canvas when it is mounted. *)
Definition tree_view (dagre : layout) (tree : SubjectTree) : list flow_node * list flow_edge :=
  let (nodes, edges) := treeToFlow tree None 0 in (layoutTree dagre nodes edges, edges).

(** *** [tree-node.tsx] *)

(** The properties every plain object inherits. *)
Definition inherited_keys : list jstring :=
  js <$> ["constructor"; "__defineGetter__"; "__defineSetter__"; "hasOwnProperty";
    "__lookupGetter__"; "__lookupSetter__"; "isPrototypeOf"; "propertyIsEnumerable";
    "toString"; "valueOf"; "__proto__"; "toLocaleString"]%string.

(** [typeIcons[type] ?? Box]: [None] when the lookup finds an inherited property,
    which is not an icon. *)
Definition typeIcon (type : jstring) : option string :=
  if bool_decide (type = js "user") then Some "User"%string
  else if bool_decide (type = js "group") then Some "Users"%string
  else if bool_decide (type ∈ inherited_keys) then None
  else Some "Box"%string.

Definition TreeNode {M} (n : flow_node) : list (html M) :=
  let subject := node_subject n in
  [El "Handle" [Attr "type" (js "target")] [];
   E "div" [
     match typeIcon (sub_Type subject) with Some icon => E icon [] | None => E "inherited" [] end;
     E "div" (E "div" [Text (sub_Type subject); T ":"; Text (sub_ID subject)] ::
       when_text (sub_Relation subject) (λ r, [E "div" [T "#"; Text r]]))];
   El "Handle" [Attr "type" (js "source")] []].

(** The canvas, with the graph it was mounted with. *)
Definition SubjectTreeView {M} (view : list flow_node * list flow_edge) : html M :=
  E "div" [E "ReactFlow" (
    ((λ n, El "Node" [Attr "id" (node_id n)] (TreeNode n)) <$> view.1) ++
    ((λ e, El "Edge" [Attr "source" (source e); Attr "target" (target e)] []) <$> view.2) ++
    [E "Background" []; E "Controls" []])].

(** ** The page *)

Section Page.
Context `{!JsNumber}.

Record explorer_props := MkExplorerProps {
selectedTenantId : option jstring;
dagre : layout }.

Record explorer_state := MkExplorer {
object_type : jstring;
object_id : jstring;
relation : jstring;
tree : option SubjectTree;
isPending : bool;                                       (* [expand.isPending] *)
(* the [useNodesState] and [useEdgesState] of the view, while it is mounted *)
canvas : option (list flow_node * list flow_edge) }.

Definition explorer_init : explorer_state := MkExplorer [] [] [] None false None.

Inductive explorer_msg :=
| SetObjectType (v : jstring)
| SetObjectId (v : jstring)
| SetRelation (v : jstring)
| HandleExpand
| ExpandSettled (r : settled SubjectTree api_error).

Implicit Types (p : explorer_props) (s : explorer_state).

Definition isValid s : bool :=
truthy (object_type s) && truthy (object_id s) && truthy (relation s).

Definition expand_request s : ExpandRequest :=
MkExpandRequest (object_type s) (object_id s) (relation s).

(** The view is mounted when there is a tree; its state is initialised then, and
  only then. *)
Definition show_tree p (t : option SubjectTree) (c : option (list flow_node * list flow_edge)) :=
match t, c with
| None, _ => None
| Some t, None => Some (tree_view (dagre p) t)
| Some _, Some c => Some c
end.

Definition set_tree p s (t : SubjectTree) : explorer_state :=
MkExplorer (object_type s) (object_id s) (relation s) (Some t) false
  (show_tree p (Some t) (canvas s)).

Definition explorer_update p s (m : explorer_msg) : explorer_state * list effect :=
match m with
| SetObjectType v => (MkExplorer v (object_id s) (relation s) (tree s) (isPending s) (canvas s), [])
| SetObjectId v => (MkExplorer (object_type s) v (relation s) (tree s) (isPending s) (canvas s), [])
| SetRelation v => (MkExplorer (object_type s) (object_id s) v (tree s) (isPending s) (canvas s), [])
| HandleExpand =>
    (MkExplorer (object_type s) (object_id s) (relation s) (tree s) true (canvas s),
     [Send (mutationFn (useExpand (or_empty (selectedTenantId p))) (expand_request s))])
| ExpandSettled (Resolved t) => (set_tree p s t, [])
| ExpandSettled (Rejected e) =>
    (MkExplorer (object_type s) (object_id s) (relation s) (tree s) false (canvas s),
     [ToastError (error_text e "Failed to expand relation")])
end.

Definition explorer_render p s : list (html explorer_msg) :=
if negb (present (selectedTenantId p)) then
  [EmptyState "Building2" "No tenant selected"
     "Select a tenant from the dropdown above to explore permission trees." []]
else
  [E "div" [
    E "h1" [T "Explorer"];
    E "div" [
      E "div" [E "Label" [T "Object Type"]; input (object_type s) SetObjectType];
      E "div" [E "Label" [T "Object ID"]; input (object_id s) SetObjectId];
      E "div" [E "Label" [T "Relation"]; input (relation s) SetRelation];
      button (negb (isValid s) || isPending s) HandleExpand
        [E (if isPending s then "Loader2" else "Play") []; T "Expand"]];
    match tree s with
    | Some _ => SubjectTreeView (default ([], []) (canvas s))
    | None => EmptyState "Network" "No tree to display"
        "Enter an object type, ID, and relation, then click Expand to visualize the subject tree." []
    end]].

Definition explorer_arrives p s (m : explorer_msg) : Prop :=
match m with ExpandSettled _ => isPending s = true | _ => False end.

#[export] Instance explorer_page : Component explorer_props explorer_state explorer_msg effect :=
{| render := explorer_render; update := explorer_update; arrives := explorer_arrives |}.
End Page.

(** ** What the tree says *)

(** The subjects of a tree with their depths, parents before children. *)
Fixpoint occurrences (tree : SubjectTree) (depth : nat) {struct tree} : list (SubjectRef * nat) :=
  match tree with
  | MkSubjectTree subject children =>
      (subject, depth) ::
      match children with
      | Some l => concat ((λ child, occurrences child (S depth)) <$> l)
      | None => []
      end
  end.

(** The edges of a tree: each subject below the root with its parent. *)
Fixpoint links (tree : SubjectTree) (depth : nat) {struct tree} : list ((SubjectRef * nat) * (SubjectRef * nat)) :=
  match tree with
  | MkSubjectTree subject children =>
      match children with
      | Some l => concat ((λ child, ((subject, depth), (Subject child, S depth)) :: links child (S depth)) <$> l)
      | None => []
      end
  end.

Definition occurrence_id (o : SubjectRef * nat) : jstring := flow_id (subject_label (fst o)) (snd o).

Section Tree.
Implicit Types (t : SubjectTree).

Section Ind.
Context (P : SubjectTree → Prop).
Hypothesis (Hnode : ∀ s c, (∀ l, c = Some l → Forall P l) → P (MkSubjectTree s c)).

Fixpoint tree_deep_ind t : P t :=
match t with
| MkSubjectTree s c =>
  Hnode s c (match c return ∀ l, c = Some l → Forall P l with
    | Some k => λ l (H : Some k = Some l),
        eq_ind k (Forall P)
          ((fix go (k : list SubjectTree) : Forall P k :=
              match k with
              | [] => List.Forall_nil _
              | x :: k => List.Forall_cons _ _ _ (tree_deep_ind x) (go k)
              end) k) l (f_equal (default k) H)
    | None => λ l (H : None = Some l), False_ind _ (eq_ind None (λ o, match o with None => True | Some _ => False end) I _ H)
    end)
end.
End Ind.

Lemma concat_fmap_Forall {A B C} (f : A → list C) (g : A → list B) (h : B → C) (l : list A) :
Forall (λ x, f x = h <$> g x) l → concat (f <$> l) = h <$> concat (g <$> l).
Proof. induction 1 as [|x l Hx Hl IH]; [done|]. cbn. by rewrite Hx, IH, fmap_app. Qed.

Lemma flow_nodes t p d :
(λ n, (node_subject n, node_id n, isRoot n)) <$> fst (treeToFlow t p d) =
(λ o, (fst o, occurrence_id o, bool_decide (snd o = 0))) <$> occurrences t d.
Proof.
revert p d. induction t as [s [l|] IH] using tree_deep_ind; intros p d; [|done].
cbn [treeToFlow occurrences fst]. rewrite !fmap_cons. f_equal.
rewrite <-list_fmap_compose. specialize (IH l eq_refl).
induction IH as [|x l Hx Hl IHl]; [done|]. cbn. rewrite !fmap_app. f_equal; [apply Hx|exact IHl].
Qed.

Lemma flow_id_truthy l d : truthy (flow_id l d) = true.
Proof. unfold flow_id. by destruct l. Qed.

Definition link_edge (e : (SubjectRef * nat) * (SubjectRef * nat)) : flow_edge :=
MkFlowEdge (occurrence_id e.1 ++ js "->" ++ occurrence_id e.2) (occurrence_id e.1) (occurrence_id e.2).

Lemma flow_edges t p d :
snd (treeToFlow t p d) = own_edge p (occurrence_id (Subject t, d)) ++ (link_edge <$> links t d).
Proof.
revert p d. induction t as [s [l|] IH] using tree_deep_ind; intros p d; [|done].
cbn [treeToFlow links snd Subject]. unfold occurrence_id at 1. cbn [fst snd]. f_equal.
rewrite <-list_fmap_compose. specialize (IH l eq_refl).
induction IH as [|x l Hx Hl IHl]; [done|]. rewrite !fmap_cons. cbn [concat].
rewrite fmap_app. f_equal; [|exact IHl]. cbn [compose]. rewrite Hx.
unfold own_edge. by rewrite flow_id_truthy.
Qed.

(** The edges enter the nodes below the root, in the same order. *)
Lemma links_targets t d : (t.(Subject), d) :: (snd <$> links t d) = occurrences t d.
Proof.
revert d. induction t as [s [l|] IH] using tree_deep_ind; intros d; [|done].
cbn. f_equal. specialize (IH l eq_refl).
induction IH as [|x l Hx Hl IHl]; [done|]. rewrite !fmap_cons. cbn [concat].
rewrite fmap_app. f_equal; [|exact IHl]. rewrite <-(Hx (S d)). done.
Qed.

Lemma links_sources t d e : e ∈ links t d → fst e ∈ occurrences t d.
Proof.
revert d. induction t as [s [l|] IH] using tree_deep_ind; intros d; [|by intros ?%elem_of_nil].
cbn. intros He. specialize (IH l eq_refl). rewrite Forall_forall in IH.
apply elem_of_concat_fmap in He as (x & Hx & [->|He]%elem_of_cons); [by left|].
right. apply elem_of_concat_fmap. exists x. split; [done|]. by apply IH.
Qed.

(** A label and a depth are read back from a node id. *)
Lemma flow_id_inj l l' d d' : flow_id l d = flow_id l' d' → l = l' ∧ d = d'.
Proof.
unfold flow_id. intros H%(f_equal reverse). rewrite !reverse_app, !reverse_cons in H.
rewrite <-!app_assoc in H. cbn [app] in H.
assert (Hd : ∀ n, DASH ∉ reverse (js_of_N n)).
{ intros n. rewrite elem_of_reverse. by apply not_digit_not_in. }
apply app_sep_inj in H as [Hn Hl]; [|apply Hd..].
apply (inj reverse) in Hl, Hn. apply js_of_N_inj in Hn. split; [done|lia].
Qed.
End Tree.

Section PageFacts.
Context `{!JsNumber}.
Implicit Types (p : explorer_props) (s : explorer_state) (m : explorer_msg).

Definition user_can p s m : Prop :=
match m with
| HandleExpand => isValid s = true ∧ isPending s = false ∧ present (selectedTenantId p) = true
| ExpandSettled _ => False
| _ => True
end.

Lemma controls_tree_node {M} (n : flow_node) : concat (controls (M := M) <$> TreeNode n) = [].
Proof.
unfold TreeNode. destruct (typeIcon _); destruct (sub_Relation _) as [[|]|]; reflexivity.
Qed.

#[local] Hint Rewrite @controls_tree_node : controls_rw.

Lemma explorer_offers p s m : offers (explorer_render p s) m → user_can p s m.
Proof.
unfold explorer_render. destruct (present (selectedTenantId p)) eqn:Hp; cbn [negb];
  destruct (tree s); intros Ho; unfold EmptyState, SubjectTreeView in Ho; offers_cases Ho.
Qed.

(** The trees a run received, in order. *)
Definition trees (ms : list explorer_msg) : list SubjectTree :=
omap (λ m, match m with ExpandSettled (Resolved t) => Some t | _ => None end) ms.

Lemma trees_snoc ms m : trees (ms ++ [m]) = trees ms ++ trees [m].
Proof. apply omap_app. Qed.

Lemma explorer_run p ms s :
run p explorer_init ms s →
tree s = last (trees ms) ∧ canvas s = tree_view (dagre p) <$> head (trees ms).
Proof.
induction 1 as [|ms s m Hrun [Ht Hc] Hm]; [done|]. rewrite trees_snoc.
destruct m as [| | | |[t|e]]; cbn [trees omap list_omap]; rewrite ?app_nil_r; try done.
split; [by rewrite last_snoc|].
change (canvas (after p s (ExpandSettled (Resolved t)))) with (show_tree p (Some t) (canvas s)).
rewrite Hc. by destruct (trees ms).
Qed.
End PageFacts.

(** ** Properties *)

(** The graph drawn is the subject tree: one node per subject in preorder with
    its own data, the root marked; one edge into each node below the root, in the
    same order, from a node of the graph. *)
Theorem flow_draws_tree t :
  let (nodes, edges) := treeToFlow t None 0 in
  node_subject <$> nodes = fst <$> occurrences t 0 ∧
  isRoot <$> nodes = (λ o, bool_decide (snd o = 0)) <$> occurrences t 0 ∧
  node_id <$> nodes = occurrence_id <$> occurrences t 0 ∧
  edges = link_edge <$> links t 0 ∧
  target <$> edges = tail (node_id <$> nodes) ∧
  Forall (λ e, source e ∈ node_id <$> nodes) edges.
Proof.
  pose proof (flow_nodes t None 0) as Hn. pose proof (flow_edges t None 0) as He.
  destruct (treeToFlow t None 0) as [nodes edges]. cbn [fst snd own_edge app] in Hn, He.
  assert (Hs := f_equal (fmap (λ x, x.1.1)) Hn). assert (Hi := f_equal (fmap (λ x, x.1.2)) Hn).
  assert (Hr := f_equal (fmap snd) Hn). rewrite <-!list_fmap_compose in Hs, Hi, Hr. clear Hn.
  change (node_id <$> nodes = occurrence_id <$> occurrences t 0) in Hi.
  split_and!; [exact Hs|exact Hr|exact Hi|exact He| |].
  - rewrite He, Hi, <-(links_targets t 0), fmap_cons, <-!list_fmap_compose. done.
  - rewrite He, Hi. apply Forall_fmap, Forall_forall. intros e Hin. simpl.
    apply list_elem_of_fmap_2. by apply (links_sources t 0).
Qed.

(** Node ids are distinct exactly when no subject occurs twice at the same
    depth: a subject reached through two groups gets one id for two nodes. *)
Theorem flow_ids_distinct t :
  NoDup (node_id <$> fst (treeToFlow t None 0)) ↔
  NoDup ((λ o, (subject_label (fst o), snd o)) <$> occurrences t 0).
Proof.
  assert (Hi := f_equal (fmap (λ x, x.1.2)) (flow_nodes t None 0)).
  rewrite <-!list_fmap_compose in Hi.
  change (node_id <$> fst (treeToFlow t None 0) = occurrence_id <$> occurrences t 0) in Hi.
  rewrite Hi. generalize (occurrences t 0) as l. intros l.
  assert (Hl : occurrence_id <$> l =
    (λ x, flow_id x.1 x.2) <$> ((λ o, (subject_label (fst o), snd o)) <$> l)).
  { by rewrite <-list_fmap_compose. }
  rewrite Hl. split.
  - apply NoDup_fmap_1.
  - apply NoDup_fmap_2. intros [] [] Heq%flow_id_inj. simpl in Heq. by destruct Heq; subst.
Qed.

(** A user who is a member of two groups that both grant the relation is drawn
    with one id twice. *)
Theorem flow_ids_collide :
  let alice := MkSubjectTree (MkSubjectRef (js "user") (js "alice") None) None in
  let group n := MkSubjectTree (MkSubjectRef (js "group") (js n) (Some (js "member"))) (Some [alice]) in
  ¬ NoDup (node_id <$> fst (treeToFlow
    (MkSubjectTree (MkSubjectRef (js "doc") (js "d1") (Some (js "viewer"))) (Some [group "a"; group "b"]%string))
    None 0)).
Proof.
  intros alice group Hnd. apply flow_ids_distinct in Hnd. revert Hnd.
  apply (bool_decide_unpack (¬ _)). vm_compute. exact I.
Qed.

Section ExplorerProperties.
Context `{!JsNumber}.

(** Expand sends one request for the relation entered, none of its fields
  empty, to the current tenant, and not while another is in flight; but the
  graph is the one of the first tree received, whatever was expanded since:
  [useNodesState] takes its argument only when the view is mounted. *)
Theorem explorer_keeps_first_tree p ms s :
run p explorer_init ms s →
(offers (render p s) HandleExpand →
  isPending s = false ∧ object_type s ≠ [] ∧ object_id s ≠ [] ∧ relation s ≠ [] ∧
  sends p s HandleExpand =
    [Send (expandRelation (or_empty (selectedTenantId p)) (expand_request s))]) ∧
tree s = last (trees ms) ∧ canvas s = tree_view (dagre p) <$> head (trees ms).
Proof.
intros Hrun. split; [|by apply explorer_run].
intros (Hv & Hp & _)%explorer_offers. unfold isValid in Hv. bool_prop.
by rewrite !truthy_true in *.
Qed.
End ExplorerProperties.

(** Two expansions in a row. *)
Definition demo_explorer : explorer_props := MkExplorerProps (Some (js "acme")) (λ _ _ _, (0, 0)%Z).
Definition demo_tree (id : string) : SubjectTree :=
  MkSubjectTree (MkSubjectRef (js "doc") (js id) (Some (js "viewer"))) None.
Definition demo_expansions : list (@explorer_msg integers) :=
  [SetObjectType (js "doc"); SetObjectId (js "1"); SetRelation (js "viewer");
   HandleExpand; ExpandSettled (Resolved (demo_tree "1"));
   SetObjectId (js "2"); HandleExpand; ExpandSettled (Resolved (demo_tree "2"))].

Lemma explorer_keeps_first_tree_witness :
  ∃ s, run demo_explorer explorer_init demo_expansions s ∧
    tree s = Some (demo_tree "2") ∧ canvas s = Some (tree_view (dagre demo_explorer) (demo_tree "1")).
Proof.
  eexists. assert (Hrun : run demo_explorer explorer_init demo_expansions
    (MkExplorer (js "doc") (js "2") (js "viewer") (Some (demo_tree "2")) false
      (Some (tree_view (dagre demo_explorer) (demo_tree "1"))))).
  { apply run_cons; [left; offer 0|]. apply run_cons; [left; offer 1|].
    apply run_cons; [left; offer 2|]. apply run_cons; [left; offer 3|].
    apply run_cons; [by right|]. apply run_cons; [left; offer 1|].
    apply run_cons; [left; offer 3|]. apply run_cons; [by right|]. constructor. }
  split; [exact Hrun|]. exact (proj2 (explorer_keeps_first_tree (H := integers) _ _ _ Hrun)).
Defined.
