(* ===== verification/Changelog.v ===== *)
(** * The changelog of a tenant

    The log the memory store keeps for each tenant ([pkg/storage/memory/store.go]):
    numbered entries and the counter of the last number.  The entries are any type
    with a sequence number, the server's own or the console's view of them. *)

From stdpp Require Import sorting.
From S2P Require Import Prelude.

Class Sequenced (E : Type) := seq_of : E → Z.

(** ** The log *)

Section Log.
Context {E : Type} `{!Sequenced E}.

(** The loop of [ReadChangelog]: entries after [sinceSeq], until [limit] of them
  when it is positive. *)
Fixpoint read_loop (log : list E) (sinceSeq limit : Z) (result : list E) : list E :=
match log with
| [] => result
| e :: log =>
    if (sinceSeq <? seq_of e)%Z then
      let result := result ++ [e] in
      if (0 <? limit)%Z && (limit <=? Z.of_nat (length result))%Z then result
      else read_loop log sinceSeq limit result
    else read_loop log sinceSeq limit result
end.

Definition read_entries (log : list E) (sinceSeq limit : Z) : list E :=
read_loop log sinceSeq limit [].
End Log.

(** The log and its counter, a [uint64]. *)
Record tenant_log (E : Type) := MkLog {
  seqCounter : Z;
  changelog : list E }.
Arguments MkLog {E} _ _.
Arguments seqCounter {E} _.
Arguments changelog {E} _.

Definition empty_log {E} : tenant_log E := MkLog 0 [].

(** Count up and append the entry made with the new number. *)
Definition append_entry {E} (mk : Z → E) (l : tenant_log E) : tenant_log E :=
  let n := ((seqCounter l + 1) mod 2 ^ 64)%Z in
  MkLog n (changelog l ++ [mk n]).

(** ** Facts *)

Section Facts.
Context {E : Type} `{!Sequenced E}.
Implicit Types (log : list E) (e : E) (l : tenant_log E).

Definition after_seq (n : Z) log : list E :=
List.filter (λ e, (n <? seq_of e)%Z) log.

Lemma read_loop_take log since (k : nat) result :
length result < k →
read_loop log since (Z.of_nat k) result = take k (result ++ after_seq since log).
Proof.
revert result. induction log as [|e log IH]; intros result Hk; simpl.
{ rewrite app_nil_r, take_ge; [done|lia]. }
unfold after_seq. simpl. fold (after_seq since log). destruct (since <? seq_of e)%Z; [|by apply IH].
rewrite (proj2 (Z.ltb_lt 0 _)) by lia. simpl. rewrite length_app. simpl.
destruct (Z.leb_spec (Z.of_nat k) (Z.of_nat (length result + 1))).
- replace k with (length (result ++ [e])) by (rewrite length_app; simpl; lia).
  change (e :: after_seq since log) with ([e] ++ after_seq since log).
  by rewrite app_assoc, take_app_length.
- rewrite IH by (rewrite length_app; simpl; lia). by rewrite <-app_assoc.
Qed.

Lemma read_take log since (k : nat) :
0 < k → read_entries log since (Z.of_nat k) = take k (after_seq since log).
Proof. intros Hk. unfold read_entries. by rewrite read_loop_take. Qed.

(** Sequence numbers that increase along the log. *)
Definition increasing log : Prop := StronglySorted Z.lt (seq_of <$> log).

Lemma after_seq_all n log : Forall (λ e, (n < seq_of e)%Z) log → after_seq n log = log.
Proof.
induction 1 as [|e log He Hlog IH]; [done|]. unfold after_seq. simpl.
rewrite (proj2 (Z.ltb_lt _ _)) by done. by f_equal.
Qed.

Lemma after_seq_none n log : Forall (λ e, (seq_of e ≤ n)%Z) log → after_seq n log = [].
Proof.
induction 1 as [|e log He Hlog IH]; [done|]. unfold after_seq. simpl.
rewrite (proj2 (Z.ltb_ge _ _)) by done. done.
Qed.

Lemma after_seq_app n log k : after_seq n (log ++ k) = after_seq n log ++ after_seq n k.
Proof. apply List.filter_app. Qed.

(** After the last entry of a prefix comes the rest. *)
Lemma after_seq_rest log k e :
increasing ((log ++ [e]) ++ k) → after_seq (seq_of e) ((log ++ [e]) ++ k) = k.
Proof.
unfold increasing. rewrite !fmap_app. intros Hs.
apply StronglySorted_app in Hs as (Hcross & Hpre & _).
apply StronglySorted_app in Hpre as (Hlog & _ & _).
rewrite after_seq_app, after_seq_none, after_seq_all; [done| |].
- apply Forall_forall. intros x Hx. apply Hcross; [|by apply list_elem_of_fmap_2].
  apply elem_of_app. right. by left.
- apply Forall_app. split; [|by repeat constructor; lia].
  apply Forall_forall. intros x Hx. apply Z.lt_le_incl, Hlog; [by apply list_elem_of_fmap_2|by left].
Qed.

(** The log grows in increasing order while the counter fits its width. *)
Definition log_ok l : Prop :=
increasing (changelog l) ∧ Forall (λ e, (0 < seq_of e ≤ seqCounter l)%Z) (changelog l) ∧
(0 ≤ seqCounter l)%Z.

Lemma append_ok (mk : Z → E) l :
(∀ n, seq_of (mk n) = n) → log_ok l → (seqCounter l + 1 < 2 ^ 64)%Z → log_ok (append_entry mk l).
Proof.
intros Hmk (Hi & Hb & H0) Hw. unfold append_entry, log_ok, increasing. simpl.
rewrite Z.mod_small by lia. split; [|split; [|lia]].
- rewrite fmap_app. apply StronglySorted_app_2; [|done|by repeat constructor].
  intros x y (e & -> & He)%list_elem_of_fmap Hy%list_elem_of_singleton. simpl in Hy. subst y.
  rewrite Forall_forall in Hb. apply Hb in He. rewrite Hmk. lia.
- apply Forall_app. split; [|repeat constructor; rewrite Hmk; lia].
  eapply Forall_impl; [done|]. simpl. lia.
Qed.

Lemma empty_log_ok : log_ok (empty_log : tenant_log E).
Proof. split; [apply SSorted_nil|]. by split; [apply List.Forall_nil|]. Qed.

(** Entries numbered from one, modulo the width of the counter. *)
Definition numbered l : Prop :=
seqCounter l = (Z.of_nat (length (changelog l)) mod 2 ^ 64)%Z ∧
∀ i e, changelog l !! i = Some e → seq_of e = ((Z.of_nat i + 1) mod 2 ^ 64)%Z.

Lemma empty_numbered : numbered (empty_log : tenant_log E).
Proof. by split. Qed.

Lemma append_numbered (mk : Z → E) l :
(∀ n, seq_of (mk n) = n) → numbered l → numbered (append_entry mk l).
Proof.
intros Hmk [Hc Hn]. unfold numbered, append_entry. simpl.
assert (((seqCounter l + 1) mod 2 ^ 64 = (Z.of_nat (length (changelog l)) + 1) mod 2 ^ 64)%Z) as ->.
{ rewrite Hc. by rewrite Zplus_mod_idemp_l. }
rewrite length_app. simpl. split; [f_equal; lia|]. intros i e He.
apply lookup_app_Some in He as [He|[Hi He]]; [by apply Hn|].
apply list_lookup_singleton_Some in He as [Hi' <-]. rewrite Hmk. f_equal. lia.
Qed.

(** Until the counter wraps around, the log is in order. *)
Lemma numbered_ok l : numbered l → (Z.of_nat (length (changelog l)) < 2 ^ 64)%Z → log_ok l.
Proof.
intros [Hc Hn] Hw.
assert (Hseq : ∀ i e, changelog l !! i = Some e → seq_of e = (Z.of_nat i + 1)%Z).
{ intros i e He. rewrite (Hn i e He). apply lookup_lt_Some in He. apply Z.mod_small. lia. }
rewrite Z.mod_small in Hc by lia. split; [|split; [|lia]].
- unfold increasing. assert (seq_of <$> changelog l = (λ i, Z.of_nat i + 1)%Z <$> seq 0 (length (changelog l))) as ->.
  { apply list_eq. intros i. rewrite !list_lookup_fmap.
    destruct (changelog l !! i) as [e|] eqn:He.
    - rewrite lookup_seq_lt by (by eapply lookup_lt_Some). cbn. f_equal. by apply Hseq.
    - by rewrite lookup_seq_ge by (by apply lookup_ge_None). }
  generalize (length (changelog l)) as n. generalize 0 as k.
  intros k n. revert k. induction n as [|n IH]; intros k; simpl; [apply SSorted_nil|].
  apply SSorted_cons; [apply IH|]. apply Forall_forall.
  intros x (j & -> & Hj)%list_elem_of_fmap. apply elem_of_seq in Hj. lia.
- apply Forall_lookup. intros i e He. rewrite (Hseq i e He). apply lookup_lt_Some in He. lia.
Qed.

(** What the loop returns for any limit. *)
Lemma read_entries_spec log since (k : nat) :
read_entries log since (Z.of_nat k) =
  (if bool_decide (k = 0) then after_seq since log else take k (after_seq since log)).
Proof.
case_bool_decide as Hk; [subst k|by apply read_take; lia]. unfold read_entries.
change (after_seq since log) with ([] ++ after_seq since log). generalize (@nil E) as result.
induction log as [|e log IH]; intros result; simpl; [by rewrite app_nil_r|].
unfold after_seq. simpl. destruct (since <? seq_of e)%Z; [|apply IH].
rewrite IH, <-app_assoc. done.
Qed.
End Facts.
