(* ===== verification/ChangelogPage.v ===== *)
(** * The changelog page

    [console/src/app/changelog/page.tsx] and [components/changelog/changelog-table.tsx],
    connected to the log of Changelog.v: the theorems at the end are about the page
    and the server together. *)

From S2P Require Import Prelude JsString JsObject Json JsonIntegers ApiTypes ApiClient Queries Html TuplesPage Changelog.

(** ** The server's answer *)

Section Server.
Context `{!JsNumber}.

#[export] Instance entry_sequenced : Sequenced ChangelogEntry := seq_no.

(** [handleReadChangelog] for the parameters the console sends; the entries are
  those of the log as the response's JSON shows them. *)
Definition handleReadChangelog (l : tenant_log ChangelogEntry) (sinceSeq limit : Z) : ChangelogResponse :=
let entries := read_entries (changelog l) sinceSeq (if (0 <? limit)%Z then limit else 100) in
MkChangelogResponse (match entries with [] => None | _ => Some entries end)
  (Z.of_nat (length entries)) (seqCounter l).

(** The entry [appendTupleChangelogUnsafe] makes, in the same JSON. *)
Definition tuple_entry (now tenantID : jstring) (o : ChangeOp) (t : RelationTuple) (source : jstring)
  (n : Z) : ChangelogEntry :=
MkChangelogEntry n tenantID o (Some t) now [] source None.
End Server.

(** ** The page *)

Section Page.
Context `{!JsNumber}.

(** The props give, for each [sinceSeq], what the query of the selected tenant
  holds. *)
Record log_props := MkLogProps {
selectedTenantId : option jstring;
data : Z → option ChangelogResponse;
isLoading : Z → bool;
toLocaleString : jstring → jstring }.   (* of the date a text denotes *)

Inductive log_msg := LoadMore (seq : Z).

Implicit Types (p : log_props) (sinceSeq : Z).

(** [opVariants[op] ?? "secondary"] *)
Definition opVariant (o : ChangeOp) : string :=
match o with INSERT => "default" | DELETE => "destructive" | UPDATE => "secondary" end.

Definition entry_row {M} p (entry : ChangelogEntry) : html M :=
E "TableRow" [
  E "TableCell" [Text (js_of_Z (seq_no entry))];
  E "TableCell" [El "Badge" [Attr "variant" (js (opVariant (op entry)))] [Text (op_text (op entry))]];
  E "TableCell" (match ce_tuple entry with Some t => [display_tuple t] | None => [] end);
  E "TableCell" [Text (toLocaleString p (ts entry))];
  E "TableCell" [Text (ce_source entry)];
  E "TableCell" [Text (js_or (actor entry) (js "-"))]].

Definition ChangelogTable {M} p (entries : list ChangelogEntry) : html M :=
if bool_decide (length entries = 0) then E "div" [T "No changelog entries found."]
else E "Table" [
  E "TableHeader" [E "TableRow" ((λ h, E "TableHead" [T h]) <$>
    ["Seq"; "Op"; "Tuple"; "Timestamp"; "Source"; "Actor"]%string)];
  E "TableBody" (entry_row p <$> entries)].

(** The rows on the screen: [data.entries ?? []]. *)
Definition rows p sinceSeq : list ChangelogEntry := default [] (data p sinceSeq ≫= entries).

(** [data.entries && data.entries.length >= 50] *)
Definition has_more p sinceSeq : bool := bool_decide (50 ≤ length (rows p sinceSeq)).

Definition next_seq p sinceSeq : Z :=
match last (rows p sinceSeq) with Some e => seq_no e | None => sinceSeq end.

Definition log_render p sinceSeq : list (html log_msg) :=
if negb (present (selectedTenantId p)) then
  [EmptyState "Building2" "No tenant selected"
     "Select a tenant from the dropdown above to view the changelog." []]
else
  [E "div" [
    E "div" [E "div" (E "h1" [T "Changelog"] ::
      match data p sinceSeq with
      | Some d => [E "Badge" [T "Latest seq: "; Text (js_of_Z (latest_sequence d))]]
      | None => [] end)];
    if isLoading p sinceSeq then E "div" (replicate 5 (E "Skeleton" []))
    else match data p sinceSeq with
    | Some d => E "Fragment" (ChangelogTable p (rows p sinceSeq) ::
        when (has_more p sinceSeq)
          [E "div" [El "Button" [OnClick (LoadMore (next_seq p sinceSeq))] [T "Load More"]]])
    | None => EmptyState "ScrollText" "No changelog entries"
        "Changelog entries will appear here after tuple operations are performed." []
    end]].

(** [const [sinceSeq, setSinceSeq] = useState(0)] *)
Definition log_init : Z := 0.

Definition log_update p sinceSeq (m : log_msg) : Z * list effect :=
match m with LoadMore seq => (seq, []) end.

#[export] Instance changelog_page : Component log_props Z log_msg effect :=
{| render := log_render; update := log_update; arrives _ _ _ := False |}.

Definition log_query p sinceSeq : query := useChangelog (selectedTenantId p) (Some sinceSeq) (Some 50%Z).
End Page.

(** ** Paging through a tenant's log *)

Section Paging.
Context `{!JsNumber} (show_date : jstring → jstring).
Implicit Types (l : tenant_log ChangelogEntry) (p : log_props).

(** The page connected to the server, every query answered. *)
Definition served (tenant : jstring) l : log_props :=
MkLogProps (Some tenant) (λ since, Some (handleReadChangelog l since 50)) (λ _, false) show_date.

(** The pages seen while pressing Load More as long as it is there. *)
Fixpoint visit p (fuel : nat) (sinceSeq : Z) : list (list ChangelogEntry) :=
match fuel with
| O => []
| S fuel => rows p sinceSeq ::
    if has_more p sinceSeq then visit p fuel (next_seq p sinceSeq) else []
end.

Lemma served_rows tenant l since : rows (served tenant l) since = take 50 (after_seq since (changelog l)).
Proof.
unfold rows, served, handleReadChangelog. simpl. change 50%Z with (Z.of_nat 50).
rewrite read_take by lia. by destruct (take 50 _).
Qed.

Lemma last_take {A} (l : list A) k x : last (take k l) = Some x → ∃ m, take k l = m ++ [x].
Proof. intros [m Hm]%last_Some. eauto. Qed.

Lemma visit_covers tenant l fuel since pre rest :
increasing (changelog l) → changelog l = pre ++ rest → after_seq since (changelog l) = rest →
length rest < fuel → concat (visit (served tenant l) fuel since) = rest.
Proof.
intros Hinc. revert since pre rest. induction fuel as [|fuel IH]; intros since pre rest Hl Ha Hf; [lia|].
simpl. rewrite served_rows, Ha. unfold has_more. rewrite served_rows, Ha.
case_bool_decide as Hlen.
- destruct (last (take 50 rest)) as [e|] eqn:E; [|apply last_None in E; rewrite E in Hlen; simpl in Hlen; lia].
  apply last_take in E as [m Hm].
  assert (Hlog : changelog l = ((pre ++ m) ++ [e]) ++ drop 50 rest).
  { by rewrite <-(app_assoc pre), <-Hm, <-app_assoc, take_drop. }
  assert (Hnext : next_seq (served tenant l) since = seq_no e).
  { unfold next_seq. by rewrite served_rows, Ha, Hm, last_snoc. }
  rewrite Hnext, (IH (seq_no e) ((pre ++ m) ++ [e]) (drop 50 rest)); [apply take_drop|done| |].
  + rewrite Hlog. change (seq_no e) with (seq_of e). apply after_seq_rest. by rewrite <-Hlog.
  + rewrite length_take in Hlen. rewrite length_drop. lia.
- simpl. rewrite app_nil_r. apply take_ge. rewrite length_take in Hlen. lia.
Qed.

Lemma served_offers tenant l since :
tenant ≠ [] → has_more (served tenant l) since = true →
offers (render (served tenant l) since) (LoadMore (next_seq (served tenant l) since)).
Proof.
intros Ht Hm. exists (Click (LoadMore (next_seq (served tenant l) since))). split; [|done].
simpl. unfold log_render. cbn [selectedTenantId served present].
rewrite (proj2 (truthy_true tenant)) by done. cbn [negb isLoading data served].
rewrite Hm. autorewrite with controls_rw. cbv match. set_solver.
Qed.
End Paging.

(** ** Properties *)

Section Properties.
Context `{!JsNumber} (show_date : jstring → jstring).

(** The server's loop returns the first [limit] entries after [sinceSeq], all of
  them when the limit is not positive, and appending to the log keeps its
  numbers increasing as long as the counter does not wrap around. *)
Theorem read_changelog_spec (l : tenant_log ChangelogEntry) since (k : nat) now t o tu src :
log_ok l →
read_entries (changelog l) since (Z.of_nat k) =
  (if bool_decide (k = 0) then after_seq since (changelog l)
   else take k (after_seq since (changelog l))) ∧
((seqCounter l + 1 < 2 ^ 64)%Z → log_ok (append_entry (tuple_entry now t o tu src) l)).
Proof.
intros Hok. split; [apply read_entries_spec|]. by apply append_ok.
Qed.


(** The position is kept when the tenant changes: past the first page of one
  tenant, a tenant with fewer changes shows no entry at all, and there is no
  button to go back. *)
Theorem tenant_switch_hides_log tenant l tenant' l' m :
log_ok l' → (seqCounter l' ≤ next_seq (served show_date tenant l) log_init)%Z →
let since := after (served show_date tenant l) log_init
               (LoadMore (next_seq (served show_date tenant l) log_init)) in
rows (served show_date tenant' l') since = [] ∧
¬ offers (render (served show_date tenant' l') since) m.
Proof.
intros (_ & Hb & _) Hle since.
assert (Hrows : rows (served show_date tenant' l') since = []).
{ rewrite served_rows, after_seq_none; [done|]. eapply Forall_impl; [done|].
  intros e [_ He].
  change (seq_of e ≤ next_seq (served show_date tenant l) log_init)%Z. lia. }
split; [done|]. cbn [render changelog_page]. unfold log_render.
destruct (present _); cbn [negb]; [|intros Ho; unfold EmptyState in Ho; by offers_cases Ho].
cbn [isLoading data served]. unfold has_more. rewrite Hrows. intros Ho.
unfold ChangelogTable in Ho. by offers_cases Ho.
Qed.
End Properties.

(** A log made by [n] writes. *)
Definition demo_entry : @RelationTuple integers := demo_tuple.
Fixpoint demo_log (n : nat) : tenant_log (@ChangelogEntry integers) :=
  match n with
  | O => empty_log
  | S n => append_entry (tuple_entry (js "now") (js "acme") INSERT demo_entry (js "api")) (demo_log n)
  end.

Lemma demo_log_counter n : (Z.of_nat n < 2 ^ 64)%Z → seqCounter (demo_log n) = Z.of_nat n.
Proof.
  induction n as [|n IH]; [done|]. intros Hn. simpl. rewrite IH, Z.mod_small; lia.
Qed.

Lemma demo_log_ok n : (Z.of_nat n < 2 ^ 64)%Z → log_ok (demo_log n).
Proof.
  induction n as [|n IH]; intros Hn.
  { apply empty_log_ok. }
  apply append_ok; [done|apply IH; lia|]. rewrite demo_log_counter; lia.
Qed.

Lemma read_changelog_spec_witness :
  read_entries (changelog (demo_log 3)) 1 (Z.of_nat 1) = take 1 (after_seq 1 (changelog (demo_log 3))).
Proof.
  refine (proj1 (read_changelog_spec (H := integers) (demo_log 3) 1 1 [] [] INSERT demo_entry [] _)).
  by apply demo_log_ok.
Defined.


Lemma tenant_switch_hides_log_witness :
  rows (served id (js "other") (demo_log 3)) 50 = [].
Proof.
  refine (proj1 (tenant_switch_hides_log (H := integers) id (js "acme") (demo_log 60) (js "other")
    (demo_log 3) (LoadMore 0) _ _)); [by apply demo_log_ok|]. by vm_compute.
Defined.
