(* ===== verification/Shell.v ===== *)
(** * The shell of the console

    The tenant store ([lib/stores/tenant-store.ts]), the tenant selector and the
    sidebar ([components/layout/]), the root layout and the home page ([app/]), and
    the rewrites that lead to the server ([console/next.config.ts]). *)

From S2P Require Import Prelude JsString JsObject Json JsonIntegers ApiTypes ApiClient Queries Html TuplesPage.

(** ** The tenant store *)

Record tenant_store := MkStore {
  selectedTenantId : option jstring;
  sidebarCollapsed : bool }.

Definition store_init : tenant_store := MkStore (Some (js "super")) false.

Definition setSelectedTenantId (id : option jstring) (s : tenant_store) : tenant_store :=
  MkStore id (sidebarCollapsed s).

Definition toggleSidebar (s : tenant_store) : tenant_store :=
  MkStore (selectedTenantId s) (negb (sidebarCollapsed s)).

(** ** The tenant selector *)

Section Selector.
Context `{!JsNumber}.

Record selector_props := MkSelectorProps {
data : option ListTenantsResponse;
isLoading : bool;
(* the value the Command component hands to [onSelect] for an item's value *)
item_value : jstring → jstring }.

Record selector_state := MkSelector {
is_open : bool;
store : tenant_store }.

Inductive selector_msg :=
| SetOpen (b : bool)
| SelectTenant (value : jstring).

Implicit Types (p : selector_props) (s : selector_state).

(** [data?.tenants ?? []] *)
Definition tenants_of p : list Tenant :=
match data p with Some d => tenants d | None => [] end.

Definition by_id (l : list Tenant) (id : jstring) : option Tenant :=
find (λ t, bool_decide (t_id t = id)) l.

Definition selected p (sel : option jstring) : option Tenant :=
match sel with Some id => by_id (tenants_of p) id | None => None end.

(** [superTenant?.id ?? tenants[0].id] *)
Definition default_tenant (l : list Tenant) : jstring :=
match by_id l (js "super"), l with
| Some t, _ => t_id t
| None, t :: _ => t_id t
| None, [] => []
end.

(** The effect that runs after a render: what it leaves selected. *)
Definition auto_select p (sel : option jstring) : option jstring :=
if isLoading p || bool_decide (length (tenants_of p) = 0) then sel
else if negb (present sel) then Some (default_tenant (tenants_of p))
else match selected p sel with
     | None => Some (default_tenant (tenants_of p))
     | Some _ => sel
     end.

Definition settle p s : selector_state :=
MkSelector (is_open s) (setSelectedTenantId (auto_select p (selectedTenantId (store s))) (store s)).

(** Mounted on the store the browser kept. *)
Definition selector_init p (persisted : tenant_store) : selector_state :=
settle p (MkSelector false persisted).

Definition selector_update p s (m : selector_msg) : selector_state * list effect :=
(settle p match m with
 | SetOpen b => MkSelector b (store s)
 | SelectTenant v => MkSelector false (setSelectedTenantId (Some v) (store s))
 end, []).

Definition tenant_name (t : Tenant) : jstring := js_or (display_name t) (t_id t).

Definition status_badge (t : Tenant) : html selector_msg :=
El "Badge" [Attr "variant" (js (if bool_decide (status t = active) then "default" else "secondary"))]
  [Text (status_text (status t))].

Definition tenant_item p s (t : Tenant) : html selector_msg :=
El "CommandItem" [Attr "value" (t_id t); OnClick (SelectTenant (item_value p (t_id t)))]
  [El "Check" [Attr "className" (js (if bool_decide (selectedTenantId (store s) = Some (t_id t))
                                     then "opacity-100" else "opacity-0"))] [];
   span (tenant_name t); status_badge t].

Definition TenantSelector p s : list (html selector_msg) :=
[El "Popover" [Flag "open" (is_open s); OnOpenChange SetOpen]
  ([E "PopoverTrigger" [El "Button" [Attr "role" (js "combobox")]
     [match selected p (selectedTenantId (store s)) with
      | Some t => E "span" [span (tenant_name t); status_badge t]
      | None => E "span" [T (if isLoading p then "Loading..." else "Select tenant...")]
      end; E "ChevronsUpDown" []]]] ++
   when (is_open s) [E "PopoverContent" [E "Command" [
     El "CommandInput" [Attr "placeholder" (js "Search tenants...")] [];
     E "CommandList" [E "CommandEmpty" [T "No tenants found."];
       E "CommandGroup" (tenant_item p s <$> tenants_of p)]]]])].

#[export] Instance tenant_selector : Component selector_props selector_state selector_msg effect :=
{| render := TenantSelector; update := selector_update; arrives _ _ _ := False |}.

Definition Header p s : html selector_msg :=
E "header" (E "div" [T "Admin Console"] :: TenantSelector p s).
End Selector.

(** ** The sidebar *)

Record nav_item := NavItem {
  href : jstring;
  label : string;
  icon : string }.

Definition navItems : list nav_item := [
  NavItem (js "/schema") "Schema" "FileCode";
  NavItem (js "/tuples") "Tuples" "Link2";
  NavItem (js "/attributes") "Attributes" "Tags";
  NavItem (js "/explorer") "Explorer" "Network";
  NavItem (js "/changelog") "Changelog" "ScrollText"].

Inductive sidebar_msg := ToggleSidebar.

(** [pathname.startsWith(item.href)] *)
Definition isActive (pathname : jstring) (item : nav_item) : bool := startsWith pathname (href item).

Definition nav_link {M} (pathname : jstring) (collapsed : bool) (item : nav_item) : html M :=
  let linkContent := El "Link"
    [Attr "href" (href item);
     Attr "className" (js (if isActive pathname item then "bg-primary/10 text-primary"
                           else "text-muted-foreground hover:bg-muted hover:text-foreground"))]
    (E (icon item) [] :: when (negb collapsed) [E "span" [T (label item)]]) in
  if collapsed
  then E "Tooltip" [E "TooltipTrigger" [linkContent]; E "TooltipContent" [T (label item)]]
  else linkContent.

Definition Sidebar (pathname : jstring) (s : tenant_store) : list (html sidebar_msg) :=
  let collapsed := sidebarCollapsed s in
  [E "aside" [
    E "div" (E "Shield" [] :: when (negb collapsed) [E "span" [T "ZanGuard"]]);
    E "nav" (nav_link pathname collapsed <$> navItems);
    E "div" [El "Button" [OnClick ToggleSidebar]
      [E (if collapsed then "PanelLeft" else "PanelLeftClose") []]]]].

Definition sidebar_update (pathname : jstring) (s : tenant_store) (m : sidebar_msg)
    : tenant_store * list Empty_set := (toggleSidebar s, []).

#[export] Instance sidebar : Component jstring tenant_store sidebar_msg Empty_set :=
  {| render := Sidebar; update := sidebar_update; arrives _ _ _ := False |}.

(** ** The root layout and the home page *)

Definition Providers {M} (children : list (html M)) : html M :=
  E "QueryClientProvider" [E "TooltipProvider" (children ++ [E "Toaster" []])].

Definition RootLayout {M} (sidebar header : html M) (children : list (html M)) : html M :=
  El "html" [Attr "lang" (js "en")] [E "body" [Providers [
    E "div" [sidebar; E "div" [header; E "main" children]]]]].

(** [redirect("/schema")] *)
Definition Home : jstring := js "/schema".

(** ** The rewrites *)

Definition rewrites : list (jstring * jstring) := [
  (js "/api/:path*", js "http://localhost:1997/api/:path*");
  (js "/access/:path*", js "http://localhost:1997/access/:path*");
  (js "/healthz", js "http://localhost:1997/healthz")].

(** What Next documents of a rewrite: a [source] ending in [/:path*] matches the
    paths below it, and the same suffix of the [destination] stands for what was
    matched. *)
Class Rewriting (rewrite : list (jstring * jstring) → jstring → option jstring) : Prop := {
  rewrite_hit base dest rules rest :
    rewrite ((base ++ js "/:path*", dest ++ js "/:path*") :: rules) (base ++ SLASH :: rest) =
      Some (dest ++ SLASH :: rest);
  rewrite_miss base dest rules path :
    ¬ base `prefix_of` path →
    rewrite ((base ++ js "/:path*", dest) :: rules) path = rewrite rules path }.

(** The path a relative URL has on a page at the top level of the site. *)
Fixpoint directory (pathname : jstring) : jstring :=
  match pathname with
  | [] => []
  | c :: s => if includes s SLASH then c :: directory s else when (bool_decide (c = SLASH)) [c]
  end.

Definition resolve (pathname url : jstring) : jstring := directory pathname ++ url.

(** ** Facts *)

Section SelectorFacts.
Context `{!JsNumber}.
Implicit Types (p : selector_props) (s : selector_state).

Lemma by_id_Some l id t : by_id l id = Some t → t ∈ l ∧ t_id t = id.
Proof. intros [Ht ?%bool_decide_eq_true]%find_Some. done. Qed.

Lemma by_id_elem l t : t ∈ l → is_Some (by_id l (t_id t)).
Proof.
intros Ht. destruct (by_id l (t_id t)) eqn:E; [by eexists|].
unfold by_id in E. rewrite find_None in E. apply E in Ht. by rewrite bool_decide_eq_true_2 in Ht.
Qed.

Lemma default_listed l : l ≠ [] → ∃ t, t ∈ l ∧ t_id t = default_tenant l.
Proof.
intros Hl. unfold default_tenant. destruct (by_id l (js "super")) as [t|] eqn:E.
- apply by_id_Some in E as [Ht _]. eauto.
- destruct l as [|t l]; [done|]. exists t. split; [by left|done].
Qed.

(** The tenant [sel] names is in the list. *)
Definition listed p (sel : option jstring) : Prop :=
∃ t, t ∈ tenants_of p ∧ sel = Some (t_id t).

Lemma listed_selected p sel : is_Some (selected p sel) → listed p sel.
Proof.
destruct sel as [id|]; [|by intros []]. intros [t Ht%by_id_Some].
exists t. by destruct Ht as [? ->].
Qed.

Lemma auto_select_listed p sel :
isLoading p = false → tenants_of p ≠ [] → listed p (auto_select p sel).
Proof.
intros Hl Ht. unfold auto_select. rewrite Hl, bool_decide_eq_false_2 by by destruct (tenants_of p).
simpl. destruct (default_listed _ Ht) as (d & Hd & Hid).
destruct (present sel); simpl; [|exists d; by rewrite Hid].
destruct (selected p sel) eqn:E; [by apply listed_selected; rewrite E|].
exists d. by rewrite Hid.
Qed.

Lemma auto_select_keeps p sel :
listed p sel → present sel = true → auto_select p sel = sel.
Proof.
intros (t & Ht & ->) Hp. unfold auto_select. destruct (isLoading p || _); [done|].
rewrite Hp. simpl. by destruct (by_id_elem _ t Ht) as [? ->].
Qed.

(** A second pass of the effect changes nothing. *)
Lemma auto_select_idemp p sel :
Forall (λ t, t_id t ≠ []) (tenants_of p) → auto_select p (auto_select p sel) = auto_select p sel.
Proof.
intros Hids. destruct (isLoading p) eqn:Hl.
{ by unfold auto_select; rewrite Hl. }
destruct (decide (length (tenants_of p) = 0)) as [Hz|Hz].
{ by unfold auto_select; rewrite bool_decide_eq_true_2, orb_true_r by done. }
assert (Hlist : listed p (auto_select p sel)).
{ apply auto_select_listed; [done|]. by intros Hn; rewrite Hn in Hz. }
apply auto_select_keeps; [done|]. destruct Hlist as (t & Ht & ->). simpl.
rewrite Forall_forall in Hids. by apply truthy_true, Hids.
Qed.

Lemma selector_offers p s v :
offers (TenantSelector p s) (SelectTenant v) → ∃ t, t ∈ tenants_of p ∧ v = item_value p (t_id t).
Proof.
unfold TenantSelector.
destruct (selected p (selectedTenantId (store s))) as [t|], (is_open s); cbn [when];
  intros Ho; unfold tenant_item, status_badge, span in Ho;
  offers_cases Ho; eauto.
Qed.

Lemma settle_listed p s :
isLoading p = false → tenants_of p ≠ [] → listed p (selectedTenantId (store (settle p s))).
Proof. intros. by apply auto_select_listed. Qed.

Lemma listed_reachable p persisted s :
isLoading p = false → tenants_of p ≠ [] → reachable p (selector_init p persisted) s →
listed p (selectedTenantId (store s)).
Proof.
intros Hl Ht. apply (reachable_invariant p (λ s, listed p (selectedTenantId (store s))));
  [by apply settle_listed|].
intros s' m _ _. by apply settle_listed.
Qed.
End SelectorFacts.

(** *** Rewriting, concretely *)

Definition pattern_suffix : jstring := js "/:path*".

Definition strip_prefix (p s : jstring) : option jstring :=
  if bool_decide (p `prefix_of` s) then Some (drop (length p) s) else None.

Definition strip_suffix (k s : jstring) : option jstring :=
  if bool_decide (k `suffix_of` s) then Some (take (length s - length k) s) else None.

Fixpoint next_rewrite (rules : list (jstring * jstring)) (path : jstring) : option jstring :=
  match rules with
  | [] => None
  | (src, dst) :: rules =>
      match strip_suffix pattern_suffix src, strip_suffix pattern_suffix dst with
      | Some base, Some dest =>
          match strip_prefix (base ++ [SLASH]) path with
          | Some rest => Some (dest ++ SLASH :: rest)
          | None => next_rewrite rules path
          end
      | Some base, None => next_rewrite rules path
      | None, _ => if bool_decide (src = path) then Some dst else next_rewrite rules path
      end
  end.

Lemma strip_suffix_app k s : strip_suffix k (s ++ k) = Some s.
Proof.
  unfold strip_suffix. rewrite bool_decide_eq_true_2 by by exists s.
  rewrite length_app. replace (length s + length k - length k) with (length s) by lia.
  by rewrite take_app_length.
Qed.

Lemma strip_prefix_app p s : strip_prefix p (p ++ s) = Some s.
Proof.
  unfold strip_prefix. rewrite bool_decide_eq_true_2 by by exists s. by rewrite drop_app_length.
Qed.

#[export] Instance next_rewriting : Rewriting next_rewrite.
Proof.
  split.
  - intros base dest rules rest. simpl. fold pattern_suffix. rewrite !strip_suffix_app.
    change (base ++ SLASH :: rest) with (base ++ [SLASH] ++ rest).
    by rewrite app_assoc, strip_prefix_app.
  - intros base dest rules path Hn. simpl. fold pattern_suffix. rewrite strip_suffix_app.
    destruct (strip_suffix pattern_suffix dest); [|done]. unfold strip_prefix.
    rewrite bool_decide_eq_false_2; [done|]. intros [k ->]. apply Hn.
    exists (SLASH :: k). by rewrite <-app_assoc.
Qed.

(** ** Properties *)

Section SelectorProperties.
Context `{!JsNumber}.

(** C39: Once the tenants are loaded the selected tenant is always one of them,
  whatever the browser had kept: a kept selection stays if it is listed, and
  otherwise gives way to "super" or the first tenant; the effect that does so
  has nothing left to do after one pass; choosing an item selects that tenant and
  closes the list. *)
Theorem selected_tenant_listed p persisted s :
isLoading p = false → tenants_of p ≠ [] → Forall (λ t, t_id t ≠ []) (tenants_of p) →
(∀ t, t ∈ tenants_of p → item_value p (t_id t) = t_id t) →
reachable p (selector_init p persisted) s →
listed p (selectedTenantId (store s)) ∧
(listed p (selectedTenantId persisted) →
  selectedTenantId (store (selector_init p persisted)) = selectedTenantId persisted) ∧
settle p s = s ∧
(∀ v, offers (render p s) (SelectTenant v) →
  ∃ t, t ∈ tenants_of p ∧ selectedTenantId (store (after p s (SelectTenant v))) = Some (t_id t) ∧
    v = t_id t ∧ is_open (after p s (SelectTenant v)) = false).
Proof.
intros Hl Ht Hids Hv Hr. rewrite Forall_forall in Hids.
assert (Hkeep : ∀ sel, listed p sel → auto_select p sel = sel).
{ intros sel (t & Hin & ->). apply auto_select_keeps; [by exists t|].
  by apply truthy_true, Hids. }
pose proof (listed_reachable p persisted s Hl Ht Hr) as Hlisted.
split_and!; [done|by intros; apply Hkeep| |].
- unfold settle. rewrite (Hkeep _ Hlisted). by destruct s as [? []].
- intros v (t & Hin & ->)%selector_offers. exists t. rewrite Hv by done.
  split_and!; [done| |done|done].
  change (auto_select p (Some (t_id t)) = Some (t_id t)). apply Hkeep. by exists t.
Qed.
End SelectorProperties.

(** On every page of the console exactly one link of the sidebar is
    highlighted, and on no path are there two. *)
Theorem sidebar_highlights_one pathname :
  length (List.filter (isActive pathname) navItems) ≤ 1 ∧
  (∀ item, item ∈ navItems → List.filter (isActive (href item)) navItems = [item]).
Proof.
  split.
  - assert (Hone : ∀ i j, i ∈ navItems → j ∈ navItems → isActive pathname i = true →
      isActive pathname j = true → i = j).
    { intros i j Hi Hj Hai Haj. unfold isActive, startsWith in *. bool_prop.
      destruct (prefix_weak_total _ _ _ Hai Haj) as [Hp|Hp];
        repeat (apply elem_of_cons in Hi as [->|Hi]);
        repeat (apply elem_of_cons in Hj as [->|Hj]); try done;
        try (by apply elem_of_nil in Hi); try (by apply elem_of_nil in Hj);
        exfalso; revert Hp; decide_literal. }
    assert (Hnd : NoDup navItems) by (repeat constructor; set_solver).
    destruct (List.filter (isActive pathname) navItems) as [|i [|j l]] eqn:E; simpl; [lia..|].
    exfalso. assert (Hin : ∀ x, x ∈ i :: j :: l → x ∈ navItems ∧ isActive pathname x = true).
    { intros x. rewrite <-E, list_elem_of_In, List.filter_In, <-list_elem_of_In. done. }
    assert (i = j) as ->.
    { apply Hone; apply Hin; [by left|by right; left|by left|by right; left]. }
    assert (Hdup : NoDup (j :: j :: l)); [|by apply NoDup_cons in Hdup as [[] _]; left].
    rewrite <-E. apply NoDup_ListNoDup, List.NoDup_filter, NoDup_ListNoDup, Hnd.
  - intros item Hi. repeat (apply elem_of_cons in Hi as [->|Hi]; [reflexivity|]).
    by apply elem_of_nil in Hi.
Qed.

(** ** From the browser to the server *)

Section Requests.
Context `{!JsNumber} rewrite `{!Rewriting rewrite}.

(** The requests the hooks make. *)
Inductive console_request : request → Prop :=
| query_request u : console_request (queryFn (query_of u))
| write_request t x : console_request (mutationFn (useWriteTuple t) x)
| batch_request t x : console_request (mutationFn (useWriteTuplesBatch t) x)
| delete_request t x : console_request (mutationFn (useDeleteTuple t) x)
| object_request t ty id x : console_request (mutationFn (useSaveObjectAttributes t ty id) x)
| subject_request t ty id x : console_request (mutationFn (useSaveSubjectAttributes t ty id) x)
| check_request t x : console_request (mutationFn (useCheck t) x)
| expand_request t x : console_request (mutationFn (useExpand t) x)
| schema_request t x : console_request (mutationFn (useSaveSchema t) x).

Lemma request_url r :
console_request r →
url r = js "api" ++ SLASH :: drop 4 (url r) ∨ url r = js "access" ++ SLASH :: drop 7 (url r).
Proof.
destruct 1 as [u| | | | | | | |]; [destruct u| | | | | | | |]; (by left) || (by right).
Qed.

Lemma resolve_top item u : item ∈ navItems → resolve (href item) u = SLASH :: u.
Proof.
intros Hi. repeat (apply elem_of_cons in Hi as [->|Hi]; [reflexivity|]).
by apply elem_of_nil in Hi.
Qed.

(** From every page of the console, every request a hook makes is rewritten to
  the server at the path the client wrote. *)
Theorem requests_reach_server r item :
console_request r → item ∈ navItems →
rewrite rewrites (resolve (href item) (url r)) = Some (js "http://localhost:1997" ++ SLASH :: url r).
Proof.
intros Hr Hi. rewrite resolve_top by done.
change rewrites with ((js "/api" ++ js "/:path*", js "http://localhost:1997/api" ++ js "/:path*") ::
  (js "/access" ++ js "/:path*", js "http://localhost:1997/access" ++ js "/:path*") ::
  drop 2 rewrites).
destruct (request_url r Hr) as [Hu|Hu]; rewrite Hu.
- change (SLASH :: js "api" ++ SLASH :: ?x) with (js "/api" ++ SLASH :: x).
  rewrite rewrite_hit. reflexivity.
- change (SLASH :: js "access" ++ SLASH :: ?x) with (js "/access" ++ SLASH :: x).
  rewrite rewrite_miss, rewrite_hit; [reflexivity|].
  intros [k Hk]. discriminate Hk.
Qed.
End Requests.

Lemma requests_reach_server_witness :
  next_rewrite rewrites (resolve (js "/tuples") (js "api/v1/t/acme/tuples")) =
  Some (js "http://localhost:1997/api/v1/t/acme/tuples").
Proof.
  refine (requests_reach_server (H := integers) next_rewrite (readTuples (js "acme") None)
    (NavItem (js "/tuples") "Tuples" "Link2") _ _).
  - apply (query_request (UseTuples (Some (js "acme")) None)).
  - right. by left.
Defined.

(** The console's own tenant list. *)
Definition demo_config : @TenantConfig integers := MkTenantConfig 0 0 None None 0 false None None.
Definition demo_tenant (id : string) : @Tenant integers :=
  MkTenant (js id) [] None active own None demo_config [] [].
Definition demo_selector : @selector_props integers :=
  MkSelectorProps (Some (MkListTenantsResponse [demo_tenant "acme"; demo_tenant "super"] 2)) false id.

Lemma selected_tenant_listed_witness :
  selectedTenantId (store (selector_init demo_selector (MkStore (Some (js "gone")) false))) =
    Some (js "super") ∧
  listed demo_selector
    (selectedTenantId (store (selector_init demo_selector (MkStore (Some (js "gone")) false)))).
Proof.
  split; [reflexivity|].
  apply (selected_tenant_listed (H := integers) demo_selector (MkStore (Some (js "gone")) false)).
  - reflexivity.
  - discriminate.
  - repeat constructor; discriminate.
  - done.
  - apply reachable_refl.
Defined.
