(* ===== verification/SchemaPage.v ===== *)
(** * The schema page

    [console/src/app/schema/page.tsx] with its editor
    ([components/schema/schema-editor.tsx]) and the line of facts above it
    ([schema-meta.tsx]).  The viewer, the graph and the evaluator have their own
    files; the page decides which of them is on the screen.

    The page is followed across changes of tenant, which the header makes, and
    across answers to the schema query: the state holds the tenant, the query cache
    and the editor's state while it is mounted. *)

From S2P Require Import Prelude JsString JsObject Json JsonIntegers ApiTypes ApiClient Queries Html TuplesPage.

(** ** The editor *)

Section Editor.
Context `{!JsNumber}.

Record editor_state := MkEditor {
value : jstring;
errors : list json;                (* [string[]], what the server sent as [details] *)
isPending : bool }.                (* [saveSchema.isPending] *)

(** [useState(initialValue)] *)
Definition editor_init (initialValue : jstring) : editor_state := MkEditor initialValue [] false.

Inductive editor_msg :=
| SetValue (v : jstring)           (* typing *)
| FileRead (text : jstring)        (* the text of the file chosen after Upload *)
| HandleUpload
| HandleSave
| SaveSettled (r : settled unit api_error).

(** An array as a list; [details] is one when the server sends it. *)
Definition array_items (v : json) : list json := match v with JArray l => l | _ => [] end.

Definition SchemaEditor_update (tenantId : jstring) (s : editor_state) (m : editor_msg)
  : editor_state * list effect :=
match m with
| SetValue v | FileRead v => (MkEditor v (errors s) (isPending s), [])
| HandleUpload => (s, [])
| HandleSave =>
    (MkEditor (value s) [] true, [Send (mutationFn (useSaveSchema tenantId) (value s))])
| SaveSettled (Resolved _) =>
    (MkEditor (value s) (errors s) false, [ToastSuccess (js "Schema saved successfully")])
| SaveSettled (Rejected e) =>
    if truthy_opt (details e)
    then (MkEditor (value s) (array_items (default JNull (details e))) false, [])
    else (MkEditor (value s) (errors s) false, [ToastError (error_text e "Failed to save schema")])
end.

Definition error_item {M} (v : json) : html M :=
E "li" [Text (match v with JString s => s | _ => stringify v end)].

Definition SchemaEditor (s : editor_state) : list (html editor_msg) :=
[E "div" ([
  E "div" [
    button (isPending s) HandleSave [E (if isPending s then "Loader2" else "Save") []; T "Save Schema"];
    El "Button" [OnClick HandleUpload] [E "Upload" []; T "Upload File"]];
  E "div" [input (value s) SetValue]] ++
  when (bool_decide (0 < length (errors s)))
    [E "div" [E "p" [T "Schema validation errors:"]; E "ul" (error_item <$> errors s)]])].
End Editor.

Arguments editor_msg : clear implicits.
Arguments editor_msg {_}.
Arguments editor_state : clear implicits.
Arguments editor_state {_}.

(** ** The line of facts *)

Inductive meta_msg := CopyHash | CopyTimeout.

(** [copied], and how many of the two-second timers are running. *)
Record meta_state := MkMeta {
  copied : bool;
  timers : nat }.

Definition meta_init : meta_state := MkMeta false 0.

(** The effect is what is written to the clipboard. *)
Definition SchemaMeta_update (hash : jstring) (s : meta_state) (m : meta_msg) : meta_state * list jstring :=
  match m with
  | CopyHash => (MkMeta true (S (timers s)), [hash])
  | CopyTimeout => (MkMeta false (pred (timers s)), [])
  end.

(** [hash.slice(0, 12)] *)
Definition shortHash (hash : jstring) : jstring := slice hash 0 (Some 12%Z).

Definition SchemaMeta (toLocaleString : jstring → jstring) (hash version compiledAt : jstring)
    (s : meta_state) : html meta_msg :=
  E "div" [
    E "div" [E "span" [T "Version:"]; E "Badge" [Text version]];
    E "div" [E "span" [T "Hash:"]; E "code" [Text (shortHash hash)];
      El "Button" [OnClick CopyHash] [E (if copied s then "Check" else "Copy") []]];
    E "div" [E "span" [T "Compiled:"]; span (toLocaleString compiledAt)]].

(** ** The page *)

Section Page.
Context `{!JsNumber}.

Inductive tab := TEditor | TVisual | TGraph | TEvaluate.

#[export] Instance tab_eq_dec : EqDecision tab.
Proof. solve_decision. Defined.

Record page_state := MkPage {
tenant : option jstring;
schemas : list (jstring * SchemaResponse);   (* the query cache *)
failed : list jstring;           (* the tenants whose last fetch failed *)
active_tab : tab;
editor : option editor_state }.  (* while the editor is mounted *)

Inductive page_msg :=
| TenantChanged (t : option jstring)
| SchemaFetched (t : jstring) (r : option SchemaResponse)
| SelectTab (t : tab)
| EditorMsg (m : editor_msg).

Implicit Types (s : page_state).

Definition tenant_of s : jstring := or_empty (tenant s).

Definition schema_of s : option SchemaResponse := map_get (schemas s) (tenant_of s).

(** [isLoading] of a query that is enabled. *)
Definition isLoading s : bool := 
negb (map_has (schemas s) (tenant_of s)) && negb (set_has (failed s) (tenant_of s)).

(** [schema && !error] *)
Definition hasSchema s : bool :=
bool_decide (is_Some (schema_of s)) && negb (set_has (failed s) (tenant_of s)).

(** The tabs, and so the editor, are on the screen. *)
Definition shows_tabs s : bool := present (tenant s) && negb (isLoading s).

(** [schema?.source ?? ""] *)
Definition initialValue s : jstring :=
match schema_of s with Some r => schema_source r | None => [] end.

(** What a render leaves mounted: the tabs restart on the editor when they
  appear, an inactive tab is not mounted, and the editor takes its initial value
  when it is. *)
Definition reconcile s : page_state :=
let t := if shows_tabs s then active_tab s else TEditor in
MkPage (tenant s) (schemas s) (failed s) t
  (if shows_tabs s && bool_decide (t = TEditor) then
     match editor s with
     | Some e => Some e
     | None => Some (editor_init (initialValue s))
     end
   else None).

Definition page_init (t : option jstring) : page_state := reconcile (MkPage t [] [] TEditor None).

(** A query is fetched again: without data its error is forgotten, and it is
  loading. *)
Definition refetch s (t : jstring) : list jstring :=
if map_has (schemas s) t then failed s else set_delete (failed s) t.

Definition page_handle s (m : page_msg) : page_state * list effect :=
match m with
| TenantChanged t =>
    (MkPage t (schemas s) (if bool_decide (t = tenant s) then failed s else refetch s (or_empty t))
       (active_tab s) (editor s), [])
| SchemaFetched t (Some r) =>
    (MkPage (tenant s) (map_set (schemas s) t r) (set_delete (failed s) t) (active_tab s) (editor s), [])
| SchemaFetched t None =>
    (MkPage (tenant s) (schemas s) (set_add (failed s) t) (active_tab s) (editor s), [])
| SelectTab t => (MkPage (tenant s) (schemas s) (failed s) t (editor s), [])
| EditorMsg m =>
    match editor s with
    | Some e =>
        let (e', es) := SchemaEditor_update (tenant_of s) e m in
        (MkPage (tenant s) (schemas s)
           (match m with SaveSettled (Resolved _) => refetch s (tenant_of s) | _ => failed s end)
           (active_tab s) (Some e'), es)
    | None => (s, [])
    end
end.

Definition page_update (_ : jstring → jstring) s (m : page_msg) : page_state * list effect :=
let (s', es) := page_handle s m in (reconcile s', es).

Definition trigger s (name : string) (t : tab) (icon : list (html page_msg)) : html page_msg :=
button (bool_decide (t ≠ TEditor) && negb (hasSchema s)) (SelectTab t) (icon ++ [T name]).

(** The content of an inactive tab is not mounted; the three views of a schema are
  the components of their own files. *)
Definition tab_content s : list (html page_msg) :=
match active_tab s with
| TEditor => match editor s with
             | Some e => map_html EditorMsg <$> SchemaEditor e
             | None => [] end
| TVisual =>
    if hasSchema s then [El "SchemaViewer" [Attr "source" (initialValue s)] []]
    else [EmptyState "FileCode" "No schema loaded"
            "Load a schema using the Editor tab to see the visual representation." []]
| TGraph =>
    if hasSchema s then [El "SchemaGraph" [Attr "source" (initialValue s)] []]
    else [EmptyState "FileCode" "No schema loaded"
            "Load a schema using the Editor tab to see the visual representation." []]
| TEvaluate =>
    if hasSchema s
    then [El "SchemaEvaluator" [Attr "tenantId" (tenant_of s); Attr "source" (initialValue s)] []]
    else [EmptyState "FlaskConical" "No schema loaded"
            "Load a schema using the Editor tab to test authorization checks." []]
end.

Definition page_render (_ : jstring → jstring) s : list (html page_msg) :=
if negb (present (tenant s)) then
  [EmptyState "Building2" "No tenant selected"
     "Select a tenant from the dropdown above to manage its authorization schema." []]
else if isLoading s then [E "div" [E "Skeleton" []; E "Skeleton" []]]
else
  [E "div" ([E "div" [E "h1" [T "Schema"]]] ++
    (match schema_of s with
     | Some r => when (hasSchema s) [El "SchemaMeta" [Attr "hash" (hash r);
         Attr "version" (version r); Attr "compiledAt" (compiled_at r)] []]
     | None => [] end) ++
    [E "Tabs" [
      E "TabsList" [
        trigger s "Editor" TEditor [E "FileCode" []];
        trigger s "Visual" TVisual [];
        trigger s "Graph" TGraph [];
        trigger s "Evaluate" TEvaluate [E "FlaskConical" []]];
      E "TabsContent" (tab_content s)]])].

Definition page_arrives (_ : jstring → jstring) s (m : page_msg) : Prop :=
match m with
| TenantChanged _ => True
| SchemaFetched t _ => truthy t = true
| EditorMsg (FileRead _) => is_Some (editor s)
| EditorMsg (SaveSettled _) => ∃ e, editor s = Some e ∧ isPending e = true
| _ => False
end.

#[export] Instance schema_page : Component (jstring → jstring) page_state page_msg effect :=
{| render := page_render; update := page_update; arrives := page_arrives |}.
End Page.

(** ** Facts *)

Section Facts.
Context `{!JsNumber} (show_date : jstring → jstring).
Implicit Types (s : page_state).

Lemma controls_facts {M} (r : SchemaResponse) :
controls (El (M := M) "SchemaMeta" [Attr "hash" (hash r); Attr "version" (version r);
  Attr "compiledAt" (compiled_at r)] []) = [].
Proof. done. Qed.

Lemma controls_errors {M} (l : list json) : concat (controls (M := M) <$> (error_item <$> l)) = [].
Proof. by induction l. Qed.

#[local] Hint Rewrite @controls_facts @controls_errors : controls_rw.

Lemma editor_offers_save (e : editor_state) :
offers (SchemaEditor e) HandleSave → isPending e = false.
Proof.
unfold SchemaEditor. intros Ho. by offers_cases Ho.
Qed.

Lemma page_offers s m :
offers (page_render show_date s) m →
shows_tabs s = true ∧
match m with
| SelectTab t => t = TEditor ∨ hasSchema s = true
| EditorMsg m => ∃ e, editor s = Some e ∧ active_tab s = TEditor ∧ offers (SchemaEditor e) m
| _ => False
end.
Proof.
unfold page_render, shows_tabs. destruct (present (tenant s)); cbn [negb andb];
  [|intros Ho; unfold EmptyState in Ho; by offers_cases Ho].
destruct (isLoading s); cbn [negb]; [intros Ho; by offers_cases Ho|].
intros Ho. split; [done|]. revert Ho. unfold trigger, tab_content, EmptyState.
destruct (active_tab s), (editor s) as [e|], (schema_of s), (hasSchema s); intros Ho;
  offers_cases Ho; eauto.
Qed.

(** The editor is mounted exactly while its tab is on the screen. *)
Definition mounted s : Prop := is_Some (editor s) ↔ shows_tabs s = true ∧ active_tab s = TEditor.

Lemma page_mounted_reconcile s : mounted (reconcile s).
Proof.
unfold mounted, reconcile. change (shows_tabs (MkPage _ _ _ _ _)) with (shows_tabs s). simpl.
destruct (shows_tabs s); simpl; [|by split; [intros []|intros [? _]]].
case_bool_decide as Ht; [|by split; [intros []|intros [_ ?]]].
by split; [|intros _; destruct (editor s); eexists].
Qed.

Lemma page_mounted_reachable t s : reachable show_date (page_init t) s → mounted s.
Proof.
apply (reachable_invariant show_date mounted); [apply page_mounted_reconcile|].
intros s' m _ _. unfold after. simpl. unfold page_update.
destruct (page_handle s' m). apply page_mounted_reconcile.
Qed.

Lemma handle_tenant s t :
after show_date s (TenantChanged t) =
reconcile (MkPage t (schemas s) (if bool_decide (t = tenant s) then failed s else refetch s (or_empty t))
  (active_tab s) (editor s)).
Proof. done. Qed.

Lemma page_handle_saved s e :
editor s = Some e →
after show_date s (EditorMsg (SaveSettled (Resolved tt))) =
reconcile (MkPage (tenant s) (schemas s) (refetch s (tenant_of s)) (active_tab s)
  (Some (MkEditor (value e) (errors e) false))).
Proof. intros He. unfold after. simpl. unfold page_update. simpl. by rewrite He. Qed.

Lemma refetch_failed s t : map_has (schemas s) t = false → set_has (refetch s t) t = false.
Proof. unfold refetch. intros ->. apply set_has_delete. Qed.

(** A render that finds the tenant's query loading removes the tabs, and its answer
  brings them back on the editor. *)
Lemma page_reload_shows s t r :
tenant s = Some t → truthy t = true → map_has (schemas s) t = false →
set_has (failed s) t = false →
let s1 := reconcile s in
let s2 := after show_date s1 (SchemaFetched t (Some r)) in
editor s1 = None ∧ tenant s2 = Some t ∧ active_tab s2 = TEditor ∧
editor s2 = Some (editor_init (schema_source r)) ∧ hasSchema s2 = true.
Proof.
intros Hten Ht Hm Hf s1.
assert (Hs1 : s1 = MkPage (Some t) (schemas s) (failed s) TEditor None).
{ unfold s1, reconcile, shows_tabs, isLoading, tenant_of. rewrite Hten. simpl.
  by rewrite Hm, Hf, andb_false_r. }
intros s2. rewrite Hs1. split; [done|].
assert (Hs2 : s2 = MkPage (Some t) (map_set (schemas s) t r) (set_delete (failed s) t) TEditor
  (Some (editor_init (schema_source r)))).
{ unfold s2. rewrite Hs1. unfold after. simpl. unfold page_update. simpl.
  unfold reconcile, shows_tabs, isLoading, initialValue, schema_of, map_has, tenant_of. simpl.
  by rewrite Ht, map_get_set, bool_decide_eq_true_2 by done. }
rewrite Hs2. split_and!; try done. unfold hasSchema, schema_of, tenant_of. simpl.
by rewrite set_has_delete, map_get_set, (bool_decide_eq_true_2 (t = t)) by done.
Qed.

Lemma page_save_sends s e :
editor s = Some e →
sends show_date s (EditorMsg HandleSave) = [Send (loadSchema (tenant_of s) (value e))].
Proof. intros He. unfold sends. simpl. unfold page_update. simpl. by rewrite He. Qed.
End Facts.

(** ** Properties *)

Section Properties.
Context `{!JsNumber} (show_date : jstring → jstring).
Implicit Types (s : page_state).

(** Selecting a tenant whose schema is not known yet removes the editor until
  the answer arrives, and then shows that tenant's schema, unedited, in the
  editor's tab. *)
Theorem schema_first_visit s t r :
truthy t = true → map_has (schemas s) t = false → tenant s ≠ Some t →
let s1 := after show_date s (TenantChanged (Some t)) in
let s2 := after show_date s1 (SchemaFetched t (Some r)) in
editor s1 = None ∧ tenant s2 = Some t ∧ active_tab s2 = TEditor ∧
editor s2 = Some (editor_init (schema_source r)) ∧ hasSchema s2 = true.
Proof.
intros Ht Hm Hne. rewrite handle_tenant. apply page_reload_shows; simpl; [done..|].
rewrite bool_decide_eq_false_2 by congruence. apply refetch_failed, Hm.
Qed.

(** Saving the first schema of a tenant reloads the page: the tabs go away while
  the query, which had failed, is loading again, and come back with the schema
  the server compiled in the editor and the other tabs enabled. *)
Theorem first_schema_save s t e r :
truthy t = true → tenant s = Some t → map_has (schemas s) t = false → editor s = Some e →
let s1 := after show_date s (EditorMsg (SaveSettled (Resolved tt))) in
let s2 := after show_date s1 (SchemaFetched t (Some r)) in
editor s1 = None ∧ tenant s2 = Some t ∧ active_tab s2 = TEditor ∧
editor s2 = Some (editor_init (schema_source r)) ∧ hasSchema s2 = true.
Proof.
intros Ht Hten Hm He. rewrite (page_handle_saved _ s e He). apply page_reload_shows; simpl; [done..|].
unfold tenant_of. rewrite Hten. apply refetch_failed, Hm.
Qed.

(** Save sends the text in the editor as it is, to the tenant selected, once at
  a time; the validation errors of the server replace those shown and keep the
  text; another failure is a notification. *)
Theorem schema_save t0 s :
reachable show_date (page_init t0) s → offers (render show_date s) (EditorMsg HandleSave) →
∃ t e, tenant s = Some t ∧ editor s = Some e ∧ isPending e = false ∧
  sends show_date s (EditorMsg HandleSave) =
    [Send (MkRequest PUT (schema_path t) [] [(js "Content-Type", js "application/yaml")]
             (RawBody (value e)))] ∧
  (∀ msg items, let (e', es) := SchemaEditor_update t e
        (SaveSettled (Rejected (MkApiError msg (Some (JArray items))))) in
     value e' = value e ∧ errors e' = items ∧ es = []) ∧
  (∀ msg, msg ≠ [] → snd (SchemaEditor_update t e (SaveSettled (Rejected (MkApiError (JString msg) None)))) =
     [ToastError (JString msg)]).
Proof.
intros _ [Hs (e & He & _ & Ho)]%(page_offers show_date). apply editor_offers_save in Ho.
unfold shows_tabs in Hs. apply andb_true_iff in Hs as [Hp _].
apply present_Some in Hp as (t & Ht & _). exists t, e.
split_and!; [done..| |done|].
- rewrite (page_save_sends show_date s e He). unfold tenant_of. by rewrite Ht.
- intros msg Hmsg. simpl. unfold error_text. simpl. by destruct msg.
Qed.

(** Selecting a tenant whose schema is cached keeps the text of the tenant
  before in the editor: Save then writes the schema of one tenant to another. *)
Theorem tenant_switch_keeps_text s t e :
editor s = Some e → active_tab s = TEditor → truthy t = true → map_has (schemas s) t = true →
let s' := after show_date s (TenantChanged (Some t)) in
editor s' = Some e ∧
sends show_date s' (EditorMsg HandleSave) = [Send (loadSchema t (value e))].
Proof.
intros He Htab Ht Hm s'.
assert (He' : editor s' = Some e).
{ unfold s'. rewrite handle_tenant. unfold reconcile, shows_tabs, isLoading, tenant_of. simpl.
  by rewrite Hm, Ht, Htab, He. }
split; [done|]. by rewrite (page_save_sends _ _ e He').
Qed.

(** The other tabs can be opened only when the tenant has a schema; opening one
  and coming back discards what was typed and not saved: the editor shows the
  schema the server last answered. *)
Theorem tab_switch_discards t0 s t e :
reachable show_date (page_init t0) s → offers (render show_date s) (SelectTab t) →
t ≠ TEditor → editor s = Some e →
hasSchema s = true ∧
editor (after show_date (after show_date s (SelectTab t)) (SelectTab TEditor)) =
  Some (editor_init (initialValue s)).
Proof.
intros _ [Hs [?|Hh]]%(page_offers show_date) Ht He; [done|]. split; [done|].
unfold after. simpl. unfold page_update. simpl. unfold reconcile.
repeat change (shows_tabs (MkPage _ _ _ _ _)) with (shows_tabs s).
change (initialValue (MkPage _ _ _ _ _)) with (initialValue s). simpl.
rewrite Hs. simpl. by rewrite bool_decide_eq_false_2 by done.
Qed.
End Properties.

(** Two tenants visited one after the other. *)
Definition demo_schema (t src : string) : SchemaResponse :=
  MkSchemaResponse (js t) (js "0123456789abcdef") (js "1") (js src) (js "now").
Definition demo_visits : list (@page_msg integers) := [
  SchemaFetched (js "acme") (Some (demo_schema "acme" "types: # acme"));
  TenantChanged (Some (js "beta"));
  SchemaFetched (js "beta") (Some (demo_schema "beta" "types: # beta"))].
Definition demo_visited : @page_state integers :=
  MkPage (Some (js "beta"))
    [(js "acme", demo_schema "acme" "types: # acme"); (js "beta", demo_schema "beta" "types: # beta")]
    [] TEditor (Some (editor_init (js "types: # beta"))).

Lemma demo_page_run : run id (page_init (Some (js "acme"))) demo_visits demo_visited.
Proof.
  apply run_cons; [by right|]. apply run_cons; [by right|]. apply run_cons; [by right|]. constructor.
Qed.

Lemma schema_first_visit_witness :
  editor (after id (after id (page_init (H := integers) None) (TenantChanged (Some (js "acme"))))
    (SchemaFetched (js "acme") (Some (demo_schema "acme" "types:")))) = Some (editor_init (js "types:")).
Proof.
  apply (schema_first_visit (H := integers) id (page_init None) (js "acme") (demo_schema "acme" "types:"));
    [reflexivity|reflexivity|discriminate].
Defined.

(** A tenant without a schema: its query answers 404, the editor opens empty. *)
Lemma first_schema_save_witness :
  let s := after id (page_init (H := integers) (Some (js "acme"))) (SchemaFetched (js "acme") None) in
  editor s = Some (editor_init []) ∧
  editor (after id (after id s (EditorMsg (SaveSettled (Resolved tt))))
    (SchemaFetched (js "acme") (Some (demo_schema "acme" "types:")))) = Some (editor_init (js "types:")).
Proof.
  split; [reflexivity|].
  apply (first_schema_save (H := integers) id
    (after id (page_init (Some (js "acme"))) (SchemaFetched (js "acme") None)) (js "acme")
    (editor_init []) (demo_schema "acme" "types:")); reflexivity.
Defined.

Lemma schema_save_witness :
  ∃ t e, tenant demo_visited = Some t ∧ editor demo_visited = Some e ∧ isPending e = false.
Proof.
  destruct (schema_save (H := integers) id (Some (js "acme")) demo_visited) as (t & e & ? & ? & ? & _).
  - exists demo_visits. exact demo_page_run.
  - offer 4.
  - by exists t, e.
Defined.

(** Back at the first tenant, Save would write the second one's schema to it. *)
Lemma tenant_switch_keeps_text_witness :
  sends id (after id demo_visited (TenantChanged (Some (js "acme")))) (EditorMsg HandleSave) =
    [Send (loadSchema (js "acme") (js "types: # beta"))].
Proof.
  exact (proj2 (tenant_switch_keeps_text (H := integers) id demo_visited (js "acme")
    (editor_init (js "types: # beta")) eq_refl eq_refl eq_refl eq_refl)).
Defined.

Lemma tab_switch_discards_witness : hasSchema demo_visited = true.
Proof.
  refine (proj1 (tab_switch_discards (H := integers) id (Some (js "acme")) demo_visited TGraph
    (editor_init (js "types: # beta")) _ _ _ _)).
  - exists demo_visits. exact demo_page_run.
  - offer 2.
  - discriminate.
  - reflexivity.
Defined.
