(* ===== verification/GoLib.v ===== *)
(** * What the server uses of Go

    A Go string is a sequence of bytes, modelled as Rocq's [string]; a map with
    string keys is a [gmap string]; a map that may be [nil] is an option of one.
    This file holds the functions of Go's [strings] package the server calls, the
    errors it names, the result type of functions that return an error or
    dereference a nil pointer, and the interface of the expression language. *)

From Stdlib Require Import Ascii.
From S2P Require Import Prelude.

(** ** Errors and results *)

(** The sentinel errors of [pkg/storage/interface.go], [pkg/model/tenant.go] and
    [pkg/tenant/manager.go], and errors made with [fmt.Errorf], whose text does not
    matter to any caller; [Wrap] is [fmt.Errorf] with [%w]. *)
Inductive error :=
  | ErrNoTenantContext
  | ErrTenantNotFound
  | ErrTenantDeleted
  | ErrTenantSuspended
  | ErrQuotaExceeded
  | ErrDuplicateTuple
  | ErrNotFound
  | ErrInvalidStateTransition
  | Errorf (msg : string)
  | Wrap (msg : string) (e : error).

#[export] Instance error_eq_dec : EqDecision error.
Proof. solve_decision. Defined.

(** [errors.Is]: the error itself or one it wraps. *)
Fixpoint errors_Is (e target : error) : bool :=
  bool_decide (e = target) ||
  match e with Wrap _ e' => errors_Is e' target | _ => false end.

(** What a call does: it returns a value, returns an error, or panics. *)
Inductive res (A : Type) :=
  | Ok (a : A)
  | Err (e : error)
  | Panic.
Arguments Ok {A} a.
Arguments Err {A} e.
Arguments Panic {A}.

#[export] Instance res_ret : MRet res := λ A a, Ok a.
#[export] Instance res_bind : MBind res := λ A B f m,
  match m with Ok a => f a | Err e => Err e | Panic => Panic end.

(** [for _, x := range l { ... return err }]: the first error ends the loop. *)
Fixpoint mapR {A B} (f : A → res B) (l : list A) : res (list B) :=
  match l with
  | [] => Ok []
  | x :: l => y ← f x; ys ← mapR f l; Ok (y :: ys)
  end.

Lemma mapR_Ok {A B} (f : A → res B) l k :
  mapR f l = Ok k ↔ Forall2 (λ x y, f x = Ok y) l k.
Proof.
  revert k. induction l as [|x l IH]; intros k; simpl.
  { split; [by intros [= <-]|]. by intros ->%Forall2_nil_inv_l. }
  split.
  - destruct (f x) as [y| |] eqn:E; [|done|done]. cbn.
    destruct (mapR f l) as [ys| |]; [|done|done]. intros [= <-].
    constructor; [done|by apply IH].
  - intros (y & ys & Hy & Hys & ->)%Forall2_cons_inv_l. rewrite Hy. cbn.
    apply IH in Hys. by rewrite Hys.
Qed.

Lemma Forall2_elem_l {A B} (P : A → B → Prop) l k x :
  Forall2 P l k → x ∈ l → ∃ y, y ∈ k ∧ P x y.
Proof.
  intros H (i & Hi)%list_elem_of_lookup. destruct (Forall2_lookup_l _ _ _ _ _ H Hi) as (y & Hy & ?).
  exists y. split; [by eapply list_elem_of_lookup_2|done].
Qed.

(** ** Values *)

(** A [map[string]V] that may be nil. *)
Abbreviation gomap V := (option (gmap string V)).

(** [github.com/expr-lang/expr] as the server uses it: a Go value of type [any],
    the type assertion [v.(bool)], [expr.Compile] with the options of
    [compileCondition], and [expr.Run]. *)
Class ExprLang := {
  any : Type;
  any_bool : any → option bool;
  Program : Type;
  expr_Compile : string → string + Program;
  expr_Run : Program → gmap string (gomap any) → string + any }.

(** ** Strings *)

Open Scope string_scope.

(** [s[n:]] *)
Fixpoint str_drop (n : nat) (s : string) : string :=
  match n, s with
  | S n, String _ s => str_drop n s
  | _, _ => s
  end.

(** [s[:n]] *)
Fixpoint str_take (n : nat) (s : string) : string :=
  match n, s with
  | S n, String c s => String c (str_take n s)
  | _, _ => ""
  end.

(** [strings.HasPrefix] *)
Fixpoint HasPrefix (s p : string) : bool :=
  match p, s with
  | "", _ => true
  | String a p, String b s => bool_decide (a = b) && HasPrefix s p
  | _, _ => false
  end.

(** [strings.TrimPrefix] *)
Definition TrimPrefix (s p : string) : string :=
  if HasPrefix s p then str_drop (String.length p) s else s.

(** [strings.Index]: the first position of [p] in [s], if any. *)
Fixpoint Index (s p : string) : option nat :=
  if HasPrefix s p then Some 0
  else match s with "" => None | String _ s => S <$> Index s p end.

(** [strings.SplitN(s, sep, 2)] for a nonempty separator: one part or two. *)
Definition SplitN2 (s sep : string) : string * option string :=
  match Index s sep with
  | Some i => (str_take i s, Some (str_drop (i + String.length sep) s))
  | None => (s, None)
  end.

(** The UTF-8 encodings of the code points [unicode.IsSpace] accepts. *)
Definition bytes_of (l : list nat) : string :=
  foldr (λ n s, String (ascii_of_nat n) s) "" l.

Definition spaces : list string := bytes_of <$>
  ([[9]; [10]; [11]; [12]; [13]; [32]; [194; 133]; [194; 160]; [225; 154; 128]]
   ++ ((λ n, [226; 128; n]) <$> (seq 128 11 ++ [168; 169; 175]))
   ++ [[226; 129; 159]; [227; 128; 128]])%list.

(** Drop the prefixes of a list as long as there is one; the length of the string
    bounds how often. *)
Fixpoint trim_while (ps : list string) (fuel : nat) (s : string) : string :=
  match fuel with
  | O => s
  | S fuel =>
      match find (HasPrefix s) ps with
      | Some p => trim_while ps fuel (str_drop (String.length p) s)
      | None => s
      end
  end.

Definition str_rev (s : string) : string :=
  String.string_of_list_ascii (rev (String.list_ascii_of_string s)).

(** [strings.TrimSpace] *)
Definition TrimSpace (s : string) : string :=
  let l := trim_while spaces (String.length s) s in
  str_rev (trim_while (str_rev <$> spaces) (String.length l) (str_rev l)).

Example TrimSpace_trims : TrimSpace "  parent ->view   " = "parent ->view".
Proof. by vm_compute. Qed.

Example SplitN2_userset : SplitN2 "group#member#x" "#" = ("group", Some "member#x").
Proof. done. Qed.

(** ** Facts about strings *)

Lemma str_app_cons x (a b : string) : String x a +:+ b = String x (a +:+ b).
Proof. done. Qed.

Lemma str_app_nil (b : string) : "" +:+ b = b.
Proof. done. Qed.

(** stdpp keeps [String.append] from being simplified. *)
Ltac str_simpl := repeat first [progress simpl in * | rewrite str_app_cons in * | rewrite str_app_nil in *].

Lemma str_app_assoc (a b c : string) : (a +:+ b) +:+ c = a +:+ b +:+ c.
Proof. induction a as [|x a IH]; str_simpl; [done|]. by rewrite IH. Qed.

Lemma str_app_inj_l (a b c : string) : a +:+ b = a +:+ c → b = c.
Proof. induction a as [|x a IH]; str_simpl; [done|]. intros [= H]. auto. Qed.

Lemma str_length_app (a b : string) : String.length (a +:+ b) = String.length a + String.length b.
Proof. induction a as [|x a IH]; str_simpl; [done|]. by rewrite IH. Qed.

Lemma str_app_inj_r (a b c : string) : a +:+ c = b +:+ c → a = b.
Proof.
  revert b. induction a as [|x a IH]; intros [|y b] H; str_simpl; [done|..].
  - apply (f_equal String.length) in H. simpl in H. rewrite str_length_app in H. lia.
  - apply (f_equal String.length) in H. simpl in H. rewrite str_length_app in H. lia.
  - injection H as -> H. f_equal. auto.
Qed.

(** The character occurs in the string. *)
Fixpoint has_char (c : ascii) (s : string) : bool :=
  match s with "" => false | String x s => bool_decide (x = c) || has_char c s end.

Lemma has_char_app c (a b : string) : has_char c (a +:+ b) = has_char c a || has_char c b.
Proof. induction a as [|x a IH]; str_simpl; [done|]. by rewrite IH, orb_assoc. Qed.

(** Two texts cut at their first separator. *)
Lemma cut_first c (a b x y : string) :
  has_char c a = false → has_char c b = false →
  a +:+ String c x = b +:+ String c y → a = b ∧ x = y.
Proof.
  revert b. induction a as [|u a IH]; intros [|v b] Ha Hb H; str_simpl.
  - by injection H.
  - injection H as -> H. by rewrite bool_decide_eq_true_2 in Hb by done.
  - injection H as -> H. by rewrite bool_decide_eq_true_2 in Ha by done.
  - apply orb_false_iff in Ha as [_ Ha]. apply orb_false_iff in Hb as [_ Hb].
    injection H as -> H. destruct (IH b Ha Hb H) as [-> ->]. done.
Qed.

(** Two texts cut at their last separator. *)
Lemma cut_last c (a b x y : string) :
  has_char c x = false → has_char c y = false →
  a +:+ String c x = b +:+ String c y → a = b ∧ x = y.
Proof.
  intros Hx Hy. revert b. induction a as [|u a IH]; intros [|v b] H; str_simpl.
  - by injection H.
  - injection H as -> H. rewrite H, has_char_app in Hx. simpl in Hx.
    rewrite bool_decide_eq_true_2 in Hx by done. by rewrite orb_true_r in Hx.
  - injection H as -> H. rewrite <-H, has_char_app in Hy. simpl in Hy.
    rewrite bool_decide_eq_true_2 in Hy by done. by rewrite orb_true_r in Hy.
  - injection H as -> H. destruct (IH b H) as [-> ->]. done.
Qed.
