(* ===== verification/ServerModel.v ===== *)
(** * The data of the server

    [pkg/model/]: tuples, references, tenants and the changelog.  A [time.Time] is
    the integer of its nanoseconds since Go's zero time, a [*time.Time] an option. *)

From S2P Require Import Prelude GoLib.

Abbreviation Time := Z (only parsing).

(** [t.IsZero()] *)
Definition IsZero (t : Time) : bool := bool_decide (t = 0%Z).

(** ** Tuples and references *)

Record ObjectRef := MkObjectRef { obj_Type : string; obj_ID : string }.

Record SubjectRef := MkSubjectRef { sub_Type : string; sub_ID : string; sub_Relation : string }.

(** [Expand] builds trees of one level; the root has a subject too. *)
Inductive SubjectTree := MkSubjectTree { Subject : SubjectRef; tree_Children : list SubjectTree }.

#[export] Instance ObjectRef_eq_dec : EqDecision ObjectRef.
Proof. solve_decision. Defined.
#[export] Instance SubjectRef_eq_dec : EqDecision SubjectRef.
Proof. solve_decision. Defined.

Record TupleFilter := MkTupleFilter {
  f_ObjectType : string;
  f_ObjectID : string;
  f_Relation : string;
  f_SubjectType : string;
  f_SubjectID : string;
  f_SubjectRelation : string;
  IncludeExpired : bool }.

(** ** Tenants *)

Inductive TenantStatus := TenantPending | TenantActive | TenantSuspended | TenantDeleted.

Inductive SchemaMode := SchemaOwn | SchemaShared | SchemaInherited.

#[export] Instance TenantStatus_eq_dec : EqDecision TenantStatus.
Proof. solve_decision. Defined.
#[export] Instance SchemaMode_eq_dec : EqDecision SchemaMode.
Proof. solve_decision. Defined.

(** The text of a status. *)
Definition status_text (st : TenantStatus) : string :=
  match st with
  | TenantPending => "pending" | TenantActive => "active"
  | TenantSuspended => "suspended" | TenantDeleted => "deleted"
  end.

(** An empty [Status] or [ParentID] selects every tenant; the status of a query may be
    any text. *)
Record TenantFilter := MkTenantFilter {
  flt_Status : string;
  ParentID : string;
  Limit : Z;
  Offset : Z }.

Inductive ChangeOp := ChangeOpInsert | ChangeOpDelete | ChangeOpUpdate.

Section Model.
Context {EL : ExprLang}.

Record RelationTuple := MkRelationTuple {
rt_TenantID : string;
ObjectType : string;
ObjectID : string;
Relation : string;
SubjectType : string;
SubjectID : string;
SubjectRelation : string;
SubjectTenantID : string;
rt_Attributes : gomap any;
ExpiresAt : option Time;
rt_CreatedAt : Time;
rt_UpdatedAt : Time;
SourceSystem : string;
ExternalID : string }.

Record ChangelogEntry := MkChangelogEntry {
Sequence : Z;
ce_TenantID : string;
ce_Operation : ChangeOp;
Tuple : RelationTuple;
Timestamp : Time;
Actor : string;
Source : string;
Metadata : gomap any }.

Record TenantConfig := MkTenantConfig {
MaxTuples : Z;
MaxRequestsPerSec : Z;
CacheTTLOverride : option Z;
AllowedObjectTypes : list string;
RetentionDays : Z;
SyncEnabled : bool;
WebhookURL : string;
cfg_Metadata : gomap any }.

Record Tenant := MkTenant {
ID : string;
DisplayName : string;
ParentTenantID : string;
Status : TenantStatus;
tenant_SchemaMode : SchemaMode;
SharedSchemaRef : string;
Config : TenantConfig;
t_CreatedAt : Time;
t_UpdatedAt : Time }.

Definition IsWritable (t : Tenant) : bool := bool_decide (Status t = TenantActive).

Definition IsReadable (t : Tenant) : bool :=
bool_decide (Status t = TenantActive) || bool_decide (Status t = TenantSuspended).

(** The context of a request: [TenantFromContext] finds one or nil. *)
Record TenantContext := MkTenantContext {
tc_TenantID : string;
tc_Tenant : Tenant;
SchemaHash : string;
tc_Config : TenantConfig }.

Definition TupleKey (t : RelationTuple) : string :=
if bool_decide (SubjectRelation t ≠ "") then
  ObjectType t +:+ ":" +:+ ObjectID t +:+ "#" +:+ Relation t +:+ "@" +:+ SubjectType t +:+ ":" +:+
  SubjectID t +:+ "#" +:+ SubjectRelation t
else
  ObjectType t +:+ ":" +:+ ObjectID t +:+ "#" +:+ Relation t +:+ "@" +:+ SubjectType t +:+ ":" +:+
  SubjectID t.
End Model.
