(* ===== verification/ServerSchema.v ===== *)
(** * The schema compiler of the server

    [pkg/schema/types.go], [compiler.go] and [validator.go].  The YAML decoder, the
    hash and the expression compiler are not the repository's code: a raw schema
    is an argument, the hash a parameter of [Compile], and the expression language
    is the interface [ExprLang].  A map entry the YAML text leaves empty is a nil
    pointer, hence the options in the raw types. *)

From S2P Require Import Prelude GoLib.

(** ** Raw schemas *)

Definition PermissionListItem : Set := string.

Record RawRelation := MkRawRelation { raw_types : list string }.

Record RawPermission := MkRawPermission {
  Resolve : string;
  Union : list PermissionListItem;
  Intersect : list PermissionListItem;
  Exclusion : list PermissionListItem;
  raw_Condition : string }.

Record RawType := MkRawType {
  raw_Attributes : gomap string;
  raw_Relations : gmap string (option RawRelation);
  raw_Permissions : gmap string (option RawPermission) }.

Record RawSchema := MkRawSchema {
  raw_Version : string;
  raw_Types : gmap string (option RawType) }.

(** [UnmarshalYAML] of a list item; what the decoder makes of the node as a string
    and as [{condition: <expr>}] are the arguments. *)
Definition UnmarshalYAML (as_string as_condition : option string) : res PermissionListItem :=
  match as_string with
  | Some s => Ok (TrimSpace s)
  | None =>
      match as_condition with
      | Some c => if bool_decide (TrimSpace c = "") then Err (Errorf "permission list item")
                  else Ok ("condition: " +:+ TrimSpace c)
      | None => Err (Errorf "permission list item")
      end
  end.

(** ** Compiled schemas *)

Inductive PermOp := PermOpUnion | PermOpIntersect | PermOpExclusion | PermOpDirect.

#[export] Instance PermOp_eq_dec : EqDecision PermOp.
Proof. solve_decision. Defined.

Record AllowedTypeRef := MkAllowedTypeRef { ref_Type : string; ref_Relation : string }.

Record RelationDef := MkRelationDef { rel_Name : string; AllowedTypes : list AllowedTypeRef }.

Record PermissionRef := MkPermissionRef {
  RelationRef : string;
  ArrowRef : string;
  ArrowPermission : string;
  ref_ConditionExpr : string }.

(** The values [Kind] returns. *)
Inductive ref_kind := kind_relation | kind_arrow | kind_condition.

#[export] Instance ref_kind_eq_dec : EqDecision ref_kind.
Proof. solve_decision. Defined.

Definition Kind (pr : PermissionRef) : ref_kind :=
  if bool_decide (ArrowRef pr ≠ "") then kind_arrow
  else if bool_decide (ref_ConditionExpr pr ≠ "") then kind_condition
  else kind_relation.

Section Schema.
Context {EL : ExprLang}.

Record ConditionExpr := MkConditionExpr { Raw : string; Compiled : option Program }.

Record PermissionDef := MkPermissionDef {
perm_Name : string;
Operation : PermOp;
Children : list PermissionRef;
Condition : option ConditionExpr }.

Record TypeDef := MkTypeDef {
type_Name : string;
Attributes : gmap string string;
Relations : gmap string RelationDef;
Permissions : gmap string PermissionDef }.

Record CompiledSchema := MkCompiledSchema {
Types : gmap string TypeDef;
Version : string;
Hash : string;
CompiledAt : Z }.

Definition GetPermission (cs : CompiledSchema) (objectType permission : string) : res PermissionDef :=
match Types cs !! objectType with
| None => Err (Errorf ("unknown type: " +:+ objectType))
| Some td =>
    match Permissions td !! permission with
    | None => Err (Errorf ("unknown permission " +:+ permission +:+ " on type " +:+ objectType))
    | Some pd => Ok pd
    end
end.

Definition GetRelation (cs : CompiledSchema) (objectType relation : string) : res RelationDef :=
match Types cs !! objectType with
| None => Err (Errorf ("unknown type: " +:+ objectType))
| Some td =>
    match Relations td !! relation with
    | None => Err (Errorf ("unknown relation " +:+ relation +:+ " on type " +:+ objectType))
    | Some rd => Ok rd
    end
end.

(** ** The compiler *)

Definition parseAllowedTypeRef (s : string) : AllowedTypeRef :=
let parts := SplitN2 s "#" in
MkAllowedTypeRef parts.1 (default "" parts.2).

Definition parsePermissionRef (s : string) : res PermissionRef :=
match Index s "->" with
| Some idx =>
    let relation := TrimSpace (str_take idx s) in
    let permission := TrimSpace (str_drop (idx + 2) s) in
    if bool_decide (relation = "") || bool_decide (permission = "")
    then Err (Errorf "invalid arrow ref")
    else Ok (MkPermissionRef "" relation permission "")
| None =>
    if HasPrefix s "condition:" then
      let expr := TrimSpace (TrimPrefix s "condition:") in
      Ok (MkPermissionRef "" "" "" expr)
    else Ok (MkPermissionRef (TrimSpace s) "" "" "")
end.

Definition compileCondition (raw : string) : res ConditionExpr :=
let cleaned := TrimSpace raw in
match expr_Compile cleaned with
| inl err => Err (Errorf err)
| inr program => Ok (MkConditionExpr raw (Some program))
end.

Definition CompileConditionExpr (raw : string) : res ConditionExpr := compileCondition raw.

Definition compilePermission (name : string) (raw : option RawPermission) : res PermissionDef :=
match raw with
| None => Panic
| Some raw =>
    cond ← (if bool_decide (raw_Condition raw ≠ "")
            then c ← compileCondition (raw_Condition raw); Ok (Some c)
            else Ok None);
    if bool_decide (Resolve raw ≠ "") then
      Ok (MkPermissionDef name PermOpDirect [MkPermissionRef (Resolve raw) "" "" ""] cond)
    else if bool_decide (0 < length (Union raw)) then
      children ← mapR parsePermissionRef (Union raw);
      Ok (MkPermissionDef name PermOpUnion children cond)
    else if bool_decide (0 < length (Intersect raw)) then
      children ← mapR parsePermissionRef (Intersect raw);
      Ok (MkPermissionDef name PermOpIntersect children cond)
    else if bool_decide (0 < length (Exclusion raw)) then
      children ← mapR parsePermissionRef (Exclusion raw);
      Ok (MkPermissionDef name PermOpExclusion children cond)
    else Err (Errorf "has no operation")
end.

(** [for k, v := range m { w, err := f(k, v); ...; out[k] = w }]; the order of a
  Go map is arbitrary, and decides no more than which error is returned. *)
Definition map_loop {A B} (f : string → A → res B) (m : gmap string A) : res (gmap string B) :=
l ← mapR (λ '(k, v), w ← f k v; Ok (k, w)) (map_to_list m);
Ok (list_to_map l).

(** A relation in the first pass. *)
Definition compile_relation (relName : string) (rawRel : option RawRelation) : res RelationDef :=
match rawRel with
| None => Panic
| Some r => Ok (MkRelationDef relName (parseAllowedTypeRef <$> raw_types r))
end.

(** The first pass over the types. *)
Definition compile_type (typeName : string) (rawType : option RawType) : res TypeDef :=
match rawType with
| None => Panic
| Some rt =>
    rels ← map_loop compile_relation (raw_Relations rt);
    Ok (MkTypeDef typeName (default ∅ (raw_Attributes rt)) rels ∅)
end.

(** The second pass, on the type the first one made. *)
Definition compile_permissions (first : gmap string TypeDef) (typeName : string)
  (rawType : option RawType) : res TypeDef :=
match rawType, first !! typeName with
| Some rt, Some td =>
    perms ← map_loop (λ permName rawPerm,
      match compilePermission permName rawPerm with
      | Err e => Err (Wrap typeName e) | r => r end) (raw_Permissions rt);
    Ok (MkTypeDef (type_Name td) (Attributes td) (Relations td) perms)
| _, _ => Panic
end.

Definition Compile (hash : string) (now : Z) (raw : RawSchema) : res CompiledSchema :=
first ← map_loop compile_type (raw_Types raw);
types ← map_loop (compile_permissions first) (raw_Types raw);
Ok (MkCompiledSchema types (raw_Version raw) hash now).

(** ** The validator *)

Inductive validation_error :=
| references_unknown_type (typ rel ref : string)
| has_no_relation (typ rel ref refrel : string)
| references_unknown_ref (typ perm ref : string)
| arrow_unknown_relation (typ perm ref : string).

Definition validatePermRef (cs : CompiledSchema) (typeName permName : string) (ref : PermissionRef)
  : res (option validation_error) :=
match Types cs !! typeName with
| None => Panic
| Some td =>
    match Kind ref with
    | kind_relation =>
        if bool_decide (Relations td !! RelationRef ref = None) then
          if bool_decide (Permissions td !! RelationRef ref = None)
          then Ok (Some (references_unknown_ref typeName permName (RelationRef ref)))
          else Ok None
        else Ok None
    | kind_arrow =>
        if bool_decide (Relations td !! ArrowRef ref = None)
        then Ok (Some (arrow_unknown_relation typeName permName (ArrowRef ref)))
        else Ok None
    | kind_condition => Ok None
    end
end.

Definition validate_type_ref (cs : CompiledSchema) (typeName relName : string) (ref : AllowedTypeRef)
  : list validation_error :=
match Types cs !! ref_Type ref with
| None => [references_unknown_type typeName relName (ref_Type ref)]
| Some refType =>
    if bool_decide (ref_Relation ref ≠ "") then
      if bool_decide (Relations refType !! ref_Relation ref = None)
      then [has_no_relation typeName relName (ref_Type ref) (ref_Relation ref)] else []
    else []
end.

(** The errors of one type; its own definition is in the map, so that
  [validatePermRef] never misses it. *)
Definition validate_type (cs : CompiledSchema) (typeName : string) (td : TypeDef)
  : list validation_error :=
concat ((λ '(relName, rd), concat (validate_type_ref cs typeName relName <$> AllowedTypes rd))
          <$> map_to_list (Relations td)) ++
concat ((λ '(permName, pd), omap (λ child,
           match validatePermRef cs typeName permName child with Ok e => e | _ => None end)
           (Children pd)) <$> map_to_list (Permissions td)).

Definition Validate (cs : CompiledSchema) : list validation_error :=
concat ((λ '(typeName, td), validate_type cs typeName td) <$> map_to_list (Types cs)).
End Schema.

(** ** Loops over maps *)

Section Loops.
Context {A B : Type} (f : string → A → res B).

Definition loop_entry (p : string * A) : res (string * B) := w ← f p.1 p.2; Ok (p.1, w).

Lemma map_loop_entries m : map_loop f m = l ← mapR loop_entry (map_to_list m); Ok (list_to_map l).
Proof.
unfold map_loop. f_equal. generalize (map_to_list m) as l.
induction l as [|[k v] l IH]; simpl; [done|]. by rewrite IH.
Qed.

Lemma loop_entry_Ok p q : loop_entry p = Ok q ↔ q.1 = p.1 ∧ f p.1 p.2 = Ok q.2.
Proof.
destruct p as [k v], q as [k' w]. unfold loop_entry. cbn. destruct (f k v); cbn.
- split; [by intros [= -> ->]|by intros [-> [= ->]]].
- split; [done|by intros [_ ?]].
- split; [done|by intros [_ ?]].
Qed.

(** The loop succeeds when every step does, and relates the maps pointwise. *)
Lemma map_loop_Ok m m' :
map_loop f m = Ok m' →
∀ k, match m !! k with
     | Some a => ∃ b, m' !! k = Some b ∧ f k a = Ok b
     | None => m' !! k = None
     end.
Proof.
rewrite map_loop_entries. destruct (mapR loop_entry (map_to_list m)) as [l| |] eqn:E; [|done|done].
intros [= <-] k. apply mapR_Ok in E.
assert (Hkeys : l.*1 = (map_to_list m).*1).
{ clear -E. induction E as [|p q ps qs Hpq Hrest IH]; [done|]. apply loop_entry_Ok in Hpq as [Hk _].
  cbn. by rewrite IH, Hk. }
assert (Hdup : NoDup l.*1) by (rewrite Hkeys; apply NoDup_fst_map_to_list).
destruct (m !! k) as [a|] eqn:Ek.
- apply elem_of_map_to_list in Ek. destruct (Forall2_elem_l _ _ _ _ E Ek) as ([k' b] & Hb & Hf).
  apply loop_entry_Ok in Hf as [Hk Hf]. simpl in *. subst k'. exists b. split; [|done].
  by apply elem_of_list_to_map_1.
- apply not_elem_of_list_to_map_1. rewrite Hkeys. intros ([k' a] & Hk & Hin)%list_elem_of_fmap.
  simpl in Hk. subst k'. apply elem_of_map_to_list in Hin. by rewrite Hin in Ek.
Qed.

Lemma map_loop_lookup m m' k b :
map_loop f m = Ok m' → m' !! k = Some b → ∃ a, m !! k = Some a ∧ f k a = Ok b.
Proof.
intros Hm Hk. specialize (map_loop_Ok m m' Hm k) as H. destruct (m !! k) as [a|] eqn:Ea.
- destruct H as (b' & Hb' & Hf). rewrite Hk in Hb'. injection Hb' as <-. eauto.
- by rewrite H in Hk.
Qed.

Lemma map_loop_dom m m' : map_loop f m = Ok m' → dom m' = dom m.
Proof.
intros H. apply set_eq. intros k. specialize (map_loop_Ok m m' H k) as Hk.
rewrite !elem_of_dom. destruct (m !! k) as [a|].
- destruct Hk as (b & -> & _). split; eauto.
- by rewrite Hk.
Qed.

(** A loop whose steps return no error succeeds, or panics at some step. *)
Lemma mapR_no_err {C D} (g : C → res D) l :
(∀ x, x ∈ l → ∀ e, g x ≠ Err e) →
(∃ k, mapR g l = Ok k) ∨ (mapR g l = Panic ∧ ∃ x, x ∈ l ∧ g x = Panic).
Proof.
induction l as [|x l IH]; intros Hg; simpl; [by eauto|].
destruct (g x) as [y|e|] eqn:E; cbn.
- destruct IH as [[k Hk]|[Hp (z & Hz & Hgz)]].
  + intros z Hz. apply Hg. by right.
  + left. rewrite Hk. cbn. eauto.
  + right. rewrite Hp. cbn. split; [done|]. exists z. split; [by right|done].
- by destruct (Hg x (list_elem_of_here _ _) e).
- right. split; [done|]. exists x. split; [by left|done].
Qed.

Lemma mapR_panic {C D} (g : C → res D) l x :
(∀ y, y ∈ l → ∀ e, g y ≠ Err e) → x ∈ l → g x = Panic → mapR g l = Panic.
Proof.
intros Hg Hx Hp. destruct (mapR_no_err g l Hg) as [[k Hk]|[? _]]; [|done].
apply mapR_Ok in Hk. destruct (Forall2_elem_l _ _ _ _ Hk Hx) as (y & _ & Hy). congruence.
Qed.

Lemma map_loop_panic m k a :
(∀ k a e, m !! k = Some a → f k a ≠ Err e) → m !! k = Some a → f k a = Panic → map_loop f m = Panic.
Proof.
intros Herr Hk Hp. rewrite map_loop_entries.
rewrite (mapR_panic loop_entry (map_to_list m) (k, a)); [done| | |].
- intros [k' a'] Hin e. unfold loop_entry. simpl. apply elem_of_map_to_list in Hin.
  specialize (Herr k' a'). destruct (f k' a') as [b|e'|]; cbn; [done| |done]. by intros [= <-]; eapply Herr.
- by apply elem_of_map_to_list.
- unfold loop_entry. simpl. by rewrite Hp.
Qed.
End Loops.

(** ** What a compiled schema is *)

Section WellFormed.
Context {EL : ExprLang}.
Implicit Types (cs : CompiledSchema) (pd : PermissionDef) (r : PermissionRef).

(** A child names one thing: an arrow with both parts, a condition, or a relation. *)
Definition ref_ok r : Prop :=
match Kind r with
| kind_arrow => ArrowPermission r ≠ "" ∧ RelationRef r = "" ∧ ref_ConditionExpr r = ""
| kind_condition => RelationRef r = "" ∧ ArrowPermission r = ""
| kind_relation => ArrowPermission r = ""
end.

Definition perm_ok (name : string) pd : Prop :=
perm_Name pd = name ∧ Children pd ≠ [] ∧ Forall ref_ok (Children pd) ∧
(Operation pd = PermOpDirect → ∃ rel, Children pd = [MkPermissionRef rel "" "" ""]) ∧
(∀ c, Condition pd = Some c → is_Some (Compiled c)).

Definition type_ok (name : string) (td : TypeDef) : Prop :=
type_Name td = name ∧
(∀ rel rd, Relations td !! rel = Some rd → rel_Name rd = rel) ∧
(∀ p pd, Permissions td !! p = Some pd → perm_ok p pd).

Definition schema_ok cs : Prop := ∀ t td, Types cs !! t = Some td → type_ok t td.

Lemma parsePermissionRef_ok s r : parsePermissionRef s = Ok r → ref_ok r.
Proof.
unfold parsePermissionRef, ref_ok. destruct (Index s "->") as [i|].
- cbv zeta. case_bool_decide; [done|]. case_bool_decide; [done|]. intros [= <-]. unfold Kind. cbn.
  by rewrite bool_decide_eq_true_2.
- destruct (HasPrefix s "condition:"); intros [= <-]; unfold Kind;
    cbn [ArrowRef ArrowPermission RelationRef ref_ConditionExpr]; by repeat case_bool_decide.
Qed.

Lemma parse_refs_ok l children : mapR parsePermissionRef l = Ok children → Forall ref_ok children.
Proof.
intros H. apply mapR_Ok in H.
induction H as [|s r l k Hr Hrest IH]; constructor; [by eapply parsePermissionRef_ok|done].
Qed.

Lemma parse_refs_nonempty l children :
mapR parsePermissionRef l = Ok children → 0 < length l → children ≠ [].
Proof. intros H%mapR_Ok Hl ->. apply Forall2_length in H. simpl in H. lia. Qed.

Lemma compileCondition_compiled raw c : compileCondition raw = Ok c → is_Some (Compiled c).
Proof. unfold compileCondition. destruct (expr_Compile _); [done|]. intros [= <-]. by eexists. Qed.

(** The list forms of a permission, one proof for the three. *)
Lemma list_form_ok name l op' cond pd :
(children ← mapR parsePermissionRef l; Ok (MkPermissionDef name op' children cond)) = Ok pd →
0 < length l → op' ≠ PermOpDirect → (∀ c, cond = Some c → is_Some (Compiled c)) → perm_ok name pd.
Proof.
intros H Hl Hop Hc. destruct (mapR parsePermissionRef l) as [ch| |] eqn:E; [|done|done].
injection H as <-. split_and!; cbn; [done| | |done|done].
- by eapply parse_refs_nonempty.
- by eapply parse_refs_ok.
Qed.

Lemma compilePermission_ok name raw pd : compilePermission name raw = Ok pd → perm_ok name pd.
Proof.
destruct raw as [raw|]; [|done]. unfold compilePermission.
set (c := if bool_decide (raw_Condition raw ≠ "") then _ else _).
assert (Hcond : ∀ cond, c = Ok cond → ∀ e, cond = Some e → is_Some (Compiled e)).
{ subst c. case_bool_decide; [|by intros ? [= <-]]. intros cond Hc e ->.
  destruct (compileCondition _) as [e'| |] eqn:E; [|done|done]. injection Hc as ->.
  by eapply compileCondition_compiled. }
destruct c as [cond| |]; [|done|done]. specialize (Hcond cond eq_refl). cbn.
repeat case_bool_decide; try (intros Hpd; by apply (list_form_ok _ _ _ _ _ Hpd)); [|done].
intros [= <-]. split_and!; cbn; [done|done| |by eauto|done]. by repeat constructor.
Qed.

Lemma compile_type_fields hash now raw cs t td :
Compile hash now raw = Ok cs → Types cs !! t = Some td →
∃ rt rels perms, raw_Types raw !! t = Some (Some rt) ∧
  td = MkTypeDef t (default ∅ (raw_Attributes rt)) rels perms ∧
  map_loop compile_relation (raw_Relations rt) = Ok rels ∧
  map_loop (λ p rp, match compilePermission p rp with Err e => Err (Wrap t e) | r => r end)
    (raw_Permissions rt) = Ok perms.
Proof.
unfold Compile. destruct (map_loop compile_type (raw_Types raw)) as [first| |] eqn:E1; [|done|done].
cbn. destruct (map_loop (compile_permissions first) (raw_Types raw)) as [types| |] eqn:E2; [|done|done].
intros [= <-] Ht. cbn in Ht.
destruct (map_loop_lookup _ _ _ _ _ E2 Ht) as ([rt|] & Hrt & Hp); [|done].
unfold compile_permissions in Hp. specialize (map_loop_Ok _ _ _ E1 t) as Hf. rewrite Hrt in Hf.
destruct Hf as (td1 & Hf & Hc). rewrite Hf in Hp. cbn in Hc.
destruct (map_loop compile_relation (raw_Relations rt)) as [rels| |] eqn:E3; [|done|done].
injection Hc as <-. cbn in Hp.
destruct (map_loop _ (raw_Permissions rt)) as [perms| |] eqn:E4; [|done|done].
injection Hp as <-. eauto 10.
Qed.

Lemma compiled_schema_ok hash now raw cs : Compile hash now raw = Ok cs → schema_ok cs.
Proof.
intros H t td Ht. destruct (compile_type_fields _ _ _ _ _ _ H Ht) as (rt & rels & perms & _ & -> & Hr & Hp).
split_and!; cbn; [done| |].
- intros rel rd Hrd. destruct (map_loop_lookup _ _ _ _ _ Hr Hrd) as ([rr|] & _ & Hc); [|done].
  by injection Hc as <-.
- intros p pd Hpd. destruct (map_loop_lookup _ _ _ _ _ Hp Hpd) as (rp & _ & Hc).
  destruct (compilePermission p rp) eqn:E; [|done|done]. injection Hc as ->.
  by eapply compilePermission_ok.
Qed.

Lemma GetPermission_Ok cs t p pd :
GetPermission cs t p = Ok pd ↔ ∃ td, Types cs !! t = Some td ∧ Permissions td !! p = Some pd.
Proof.
unfold GetPermission. destruct (Types cs !! t) as [td|]; [|by split; [|intros (? & ? & _)]].
destruct (Permissions td !! p) as [pd'|] eqn:E.
- split; [intros [= <-]; eauto|]. intros (td' & [= <-] & Hp). by rewrite E in Hp; injection Hp as ->.
- split; [done|]. intros (td' & [= <-] & Hp). by rewrite E in Hp.
Qed.

Lemma GetPermission_ok cs t p pd : schema_ok cs → GetPermission cs t p = Ok pd → perm_ok p pd.
Proof. intros Hcs (td & Ht & Hp)%GetPermission_Ok. by apply (Hcs t td Ht). Qed.

Lemma GetPermission_no_panic cs t p : GetPermission cs t p ≠ Panic.
Proof. unfold GetPermission. destruct (Types cs !! t) as [td|]; [|done]. by destruct (Permissions td !! p). Qed.
End WellFormed.

(** ** What the validator accepts *)

Section Validation.
Context {EL : ExprLang}.
Implicit Types (cs : CompiledSchema) (td : TypeDef) (pd : PermissionDef).

(** The references of a schema that name something it defines. *)
Definition allowed_ok cs (ref : AllowedTypeRef) : Prop :=
∃ td, Types cs !! ref_Type ref = Some td ∧
  (ref_Relation ref = "" ∨ is_Some (Relations td !! ref_Relation ref)).

Definition child_resolves td (r : PermissionRef) : Prop :=
match Kind r with
| kind_relation => is_Some (Relations td !! RelationRef r) ∨ is_Some (Permissions td !! RelationRef r)
| kind_arrow => is_Some (Relations td !! ArrowRef r)
| kind_condition => True
end.

Definition references_ok cs : Prop :=
∀ t td, Types cs !! t = Some td →
  (∀ rel rd, Relations td !! rel = Some rd → Forall (allowed_ok cs) (AllowedTypes rd)) ∧
  (∀ p pd, Permissions td !! p = Some pd → Forall (child_resolves td) (Children pd)).

(** Concatenations over a map are empty when every entry's list is. *)
Lemma concat_map_nil {A B} (f : string → A → list B) (m : gmap string A) :
concat ((λ '(k, a), f k a) <$> map_to_list m) = [] ↔ ∀ k a, m !! k = Some a → f k a = [].
Proof.
rewrite concat_nil_Forall, Forall_fmap, Forall_forall. split.
- intros H k a Hk. apply elem_of_map_to_list in Hk. exact (H (k, a) Hk).
- intros H [k a] Hk. apply elem_of_map_to_list in Hk. by apply H.
Qed.

Lemma omap_nil {A B} (f : A → option B) l : omap f l = [] ↔ Forall (λ x, f x = None) l.
Proof.
induction l as [|x l IH]; cbn; [by split|]. destruct (f x) eqn:E.
- split; [done|]. by intros [? _]%Forall_cons; congruence.
- rewrite Forall_cons. change (omap f l = [] ↔ f x = None ∧ Forall (λ x, f x = None) l).
  rewrite IH. split; [by split|by intros [_ ?]].
Qed.

Lemma validate_type_ref_nil cs t rel ref : validate_type_ref cs t rel ref = [] ↔ allowed_ok cs ref.
Proof.
unfold validate_type_ref, allowed_ok. destruct (Types cs !! ref_Type ref) as [td|].
- destruct (decide (ref_Relation ref = "")) as [Hr|Hr].
  + rewrite bool_decide_eq_false_2 by auto. split; [intros _|done]. exists td. auto.
  + rewrite bool_decide_eq_true_2 by done. case_bool_decide as Hl.
    * split; [done|]. intros (td' & [= <-] & [?|[? ?]]); congruence.
    * split; [intros _|done]. exists td. split; [done|]. right. by apply not_eq_None_Some.
- split; [done|]. by intros (? & ? & _).
Qed.

Lemma validatePermRef_None cs t td p r :
Types cs !! t = Some td →
(match validatePermRef cs t p r with Ok e => e | _ => None end = None ↔ child_resolves td r).
Proof.
intros Ht. unfold validatePermRef, child_resolves. rewrite Ht. destruct (Kind r); [| |done].
- case_bool_decide as Hr; [case_bool_decide as Hp|].
  + split; [done|]. intros [[? ?]|[? ?]]; congruence.
  + split; [intros _; right; by apply not_eq_None_Some|done].
  + split; [intros _; left; by apply not_eq_None_Some|done].
- case_bool_decide as Hr; [split; [done|by intros [? ?]; congruence]|].
  split; [intros _; by apply not_eq_None_Some|done].
Qed.

Lemma validate_type_nil cs t td :
Types cs !! t = Some td →
validate_type cs t td = [] ↔
  (∀ rel rd, Relations td !! rel = Some rd → Forall (allowed_ok cs) (AllowedTypes rd)) ∧
  (∀ p pd, Permissions td !! p = Some pd → Forall (child_resolves td) (Children pd)).
Proof.
intros Ht. unfold validate_type. rewrite app_nil, !concat_map_nil. f_equiv.
- setoid_rewrite concat_nil_Forall. setoid_rewrite Forall_fmap.
  split; intros H rel rd Hrd; (eapply Forall_impl; [by apply (H rel rd)|]);
    intros ref; apply validate_type_ref_nil.
- setoid_rewrite omap_nil.
  split; intros H p pd Hpd; (eapply Forall_impl; [by apply (H p pd)|]);
    intros r; by apply validatePermRef_None.
Qed.

Lemma validate_nil cs : Validate cs = [] ↔ references_ok cs.
Proof.
unfold Validate, references_ok. rewrite concat_map_nil.
split; intros H t td Ht; specialize (H t td Ht); by apply (validate_type_nil cs t td Ht).
Qed.
End Validation.
