(* ===== verification/ServerEngine.v ===== *)
(** * The permission check of the server

    [pkg/engine/check.go], [condition.go] and [engine.go].  The store is the
    interface [TupleStore], the expression language [ExprLang]: what a check reads
    does not change while it runs (EngineSteps.v has the store change).  The visited set of the code is one mutable
    object shared by the whole recursion, so the walks thread it as a state.

    The recursion carries fuel; [check_always_answers] shows that the depth limit of the
    configuration is enough of it, whatever the store says. *)

From S2P Require Import Prelude GoLib ServerModel ServerSchema.

(** The queries of [storage.TupleStore] a check makes, for the context it has. *)
Class TupleStore {EL : ExprLang} := {
  CheckDirect : string → string → string → string → string → res bool;
  ListRelatedObjects : string → string → string → res (list ObjectRef);
  ListSubjects : string → string → string → res (list SubjectRef);
  GetObjectAttributes : string → string → res (gomap any);
  GetSubjectAttributes : string → string → res (gomap any) }.

(** ** Computations that share the visited set *)

(** [None] is a walk that ran out of fuel. *)
Definition walk (A : Type) : Type := gset string → option (gset string * res A).

#[export] Instance walk_ret : MRet walk := λ A a V, Some (V, Ok a).
#[export] Instance walk_bind : MBind walk := λ A B f m V,
  match m V with
  | None => None
  | Some (V', Ok a) => f a V'
  | Some (V', Err e) => Some (V', Err e)
  | Some (V', Panic) => Some (V', Panic)
  end.

Definition lift {A} (r : res A) : walk A := λ V, Some (V, r).

(** [visited.has(key)] and [visited.add(key)] *)
Definition has (key : string) : walk bool := λ V, Some (V, Ok (bool_decide (key ∈ V))).
Definition add (key : string) : walk () := λ V, Some ({[key]} ∪ V, Ok ()).

Definition visitKey (objectType objectID permission subjectType subjectID : string) : string :=
  objectType +:+ ":" +:+ objectID +:+ "#" +:+ permission +:+ "@" +:+ subjectType +:+ ":" +:+ subjectID.

Record CheckResult := MkCheckResult { Allowed : bool; ResolutionPath : list string }.

Definition allow (path : list string) : CheckResult := MkCheckResult true path.
Definition deny : CheckResult := MkCheckResult false [].

(** The loops that return the first result that allows; a [continue] is a step that
    denies. *)
Fixpoint first_allowed {A} (f : A → walk CheckResult) (l : list A) : walk CheckResult :=
  match l with
  | [] => mret deny
  | x :: l => result ← f x; if Allowed result then mret result else first_allowed f l
  end.

(** The loop of [walkIntersect]. *)
Fixpoint all_allowed {A} (f : A → walk CheckResult) (l : list A) : walk CheckResult :=
  match l with
  | [] => mret (allow [])
  | x :: l => result ← f x; if Allowed result then all_allowed f l else mret deny
  end.

(** The loop over the exclusions of [walkExclusion]. *)
Fixpoint none_allowed {A} (f : A → walk CheckResult) (l : list A) : walk CheckResult :=
  match l with
  | [] => mret (allow [])
  | x :: l => excluded ← f x; if Allowed excluded then mret deny else none_allowed f l
  end.

Section Engine.
Context {EL : ExprLang} {ST : TupleStore}.

Record CheckRequest := MkCheckRequest {
req_ObjectType : string;
req_ObjectID : string;
req_Permission : string;
req_SubjectType : string;
req_SubjectID : string;
req_Context : gomap any }.

Definition req_key (req : CheckRequest) : string :=
visitKey (req_ObjectType req) (req_ObjectID req) (req_Permission req)
  (req_SubjectType req) (req_SubjectID req).

(** ** Conditions *)

(** [condition.go]; attributes that cannot be read are an empty map. *)
Definition evaluateCondition (req : CheckRequest) (cond : option ConditionExpr) : res bool :=
match cond ≫= Compiled with
| None => Ok true
| Some program =>
    let attrs (r : res (gomap any)) := match r with Ok m => Ok m | Err _ => Ok (Some ∅) | Panic => Panic end in
    objAttrs ← attrs (GetObjectAttributes (req_ObjectType req) (req_ObjectID req));
    subAttrs ← attrs (GetSubjectAttributes (req_SubjectType req) (req_SubjectID req));
    let env := <["object" := objAttrs]> (<["subject" := subAttrs]> {["request" := req_Context req]}) in
    match expr_Run program env with
    | inl err => Err (Wrap "evaluate condition" (Errorf err))
    | inr result =>
        match any_bool result with
        | Some allowed => Ok allowed
        | None => Err (Errorf "condition did not return bool")
        end
    end
end.

(** ** The walks *)

(** The request a userset leads to: its context is not passed on. *)
Definition userset_request (req : CheckRequest) (subj : SubjectRef) : CheckRequest :=
MkCheckRequest (sub_Type subj) (sub_ID subj) (sub_Relation subj)
  (req_SubjectType req) (req_SubjectID req) None.

(** The request an arrow leads to. *)
Definition arrow_request (req : CheckRequest) (target : ObjectRef) (permission : string) : CheckRequest :=
MkCheckRequest (obj_Type target) (obj_ID target) permission
  (req_SubjectType req) (req_SubjectID req) (req_Context req).

Section Walks.
Context (cs : CompiledSchema) (MaxCheckDepth : Z).
Context (rec : CheckRequest → PermissionDef → Z → walk CheckResult).

(** One userset of [walkRelation]'s loop. *)
Definition walk_subject (req : CheckRequest) (depth : Z) (subj : SubjectRef) : walk CheckResult :=
if bool_decide (sub_Relation subj = "") then mret deny
else
  let subReq := userset_request req subj in
  seen ← has (req_key subReq);
  if (seen : bool) then mret deny
  else match GetPermission cs (sub_Type subj) (sub_Relation subj) with
  | Err _ =>
      match CheckDirect (sub_Type subj) (sub_ID subj) (sub_Relation subj)
              (req_SubjectType req) (req_SubjectID req) with
      | Ok true => mret (allow [req_key subReq])
      | Ok false | Err _ => mret deny
      | Panic => lift Panic
      end
  | Ok subPermDef => rec subReq subPermDef (depth + 1)
  | Panic => lift Panic
  end.

Definition walkRelation (req : CheckRequest) (relation : string) (depth : Z) : walk CheckResult :=
ok ← lift (CheckDirect (req_ObjectType req) (req_ObjectID req) relation
             (req_SubjectType req) (req_SubjectID req));
if (ok : bool) then
  mret (allow [visitKey (req_ObjectType req) (req_ObjectID req) relation
                 (req_SubjectType req) (req_SubjectID req)])
else
  subjects ← lift (ListSubjects (req_ObjectType req) (req_ObjectID req) relation);
  first_allowed (walk_subject req depth) subjects.

(** One target of [walkArrow]'s loop. *)
Definition walk_target (req : CheckRequest) (permission : string) (depth : Z) (target : ObjectRef)
  : walk CheckResult :=
let subReq := arrow_request req target permission in
seen ← has (req_key subReq);
if (seen : bool) then mret deny
else match GetPermission cs (obj_Type target) permission with
| Err _ => mret deny
| Ok permDef => rec subReq permDef (depth + 1)
| Panic => lift Panic
end.

Definition walkArrow (req : CheckRequest) (relation permission : string) (depth : Z) : walk CheckResult :=
targets ← lift (ListRelatedObjects (req_ObjectType req) (req_ObjectID req) relation);
first_allowed (walk_target req permission depth) targets.

Definition walkChild (req : CheckRequest) (depth : Z) (child : PermissionRef) : walk CheckResult :=
match Kind child with
| kind_relation => walkRelation req (RelationRef child) depth
| kind_arrow => walkArrow req (ArrowRef child) (ArrowPermission child) depth
| kind_condition =>
    cond ← lift (CompileConditionExpr (ref_ConditionExpr child));
    allowed ← lift (evaluateCondition req (Some cond));
    mret (if (allowed : bool) then allow [] else deny)
end.

Definition walkUnion (req : CheckRequest) (permDef : PermissionDef) (depth : Z) : walk CheckResult :=
first_allowed (walkChild req depth) (Children permDef).

Definition walkIntersect (req : CheckRequest) (permDef : PermissionDef) (depth : Z) : walk CheckResult :=
if bool_decide (length (Children permDef) = 0) then mret deny
else all_allowed (walkChild req depth) (Children permDef).

Definition walkExclusion (req : CheckRequest) (permDef : PermissionDef) (depth : Z) : walk CheckResult :=
match Children permDef with
| [] => mret deny
| c :: exclusions =>
    base ← walkChild req depth c;
    if Allowed base then none_allowed (walkChild req depth) exclusions else mret deny
end.

Definition walk_operation (req : CheckRequest) (permDef : PermissionDef) (depth : Z) : walk CheckResult :=
match Operation permDef with
| PermOpUnion | PermOpDirect => walkUnion req permDef depth
| PermOpIntersect => walkIntersect req permDef depth
| PermOpExclusion => walkExclusion req permDef depth
end.

Definition walk_step (req : CheckRequest) (permDef : PermissionDef) (depth : Z) : walk CheckResult :=
if (MaxCheckDepth <? depth)%Z then lift (Err (Errorf "max check depth exceeded"))
else
  let key := visitKey (req_ObjectType req) (req_ObjectID req) (perm_Name permDef)
               (req_SubjectType req) (req_SubjectID req) in
  seen ← has key;
  if (seen : bool) then mret deny
  else add key;; walk_operation req permDef depth.
End Walks.

Fixpoint walkPermission (cs : CompiledSchema) (MaxCheckDepth : Z) (fuel : nat)
  (req : CheckRequest) (permDef : PermissionDef) (depth : Z) : walk CheckResult :=
match fuel with
| O => λ _, None
| S fuel => walk_step cs MaxCheckDepth (walkPermission cs MaxCheckDepth fuel) req permDef depth
end.

(** ** The engine *)

Record Engine := MkEngine {
schemas : gmap string CompiledSchema;
sharedSchemas : gmap string CompiledSchema;
cfg_MaxCheckDepth : Z }.

(** [New] and [DefaultConfig] *)
Definition New (MaxCheckDepth : Z) : Engine := MkEngine ∅ ∅ MaxCheckDepth.
Definition DefaultConfig : Z := 25.

Definition LoadSchema (e : Engine) (tenantID : string) (cs : CompiledSchema) : Engine :=
MkEngine (<[tenantID := cs]> (schemas e)) (sharedSchemas e) (cfg_MaxCheckDepth e).

Definition LoadSharedSchema (e : Engine) (ref : string) (cs : CompiledSchema) : Engine :=
MkEngine (schemas e) (<[ref := cs]> (sharedSchemas e)) (cfg_MaxCheckDepth e).

Definition schemaForTenant (e : Engine) (tc : TenantContext) : res CompiledSchema :=
match tenant_SchemaMode (tc_Tenant tc) with
| SchemaOwn | SchemaInherited =>
    match schemas e !! tc_TenantID tc with
    | Some cs => Ok cs
    | None => Err (Errorf "no schema loaded for tenant")
    end
| SchemaShared =>
    match sharedSchemas e !! SharedSchemaRef (tc_Tenant tc) with
    | Some cs => Ok cs
    | None => Err (Errorf "shared schema not found")
    end
end.

(** The part of [Check] after the schema is found. *)
Definition check_schema (fuel : nat) (MaxCheckDepth : Z) (cs : CompiledSchema) (req : CheckRequest)
  : option (res CheckResult) :=
match GetPermission cs (req_ObjectType req) (req_Permission req) with
| Err err => Some (Err err)
| Panic => Some Panic
| Ok permDef =>
    match walkPermission cs MaxCheckDepth fuel req permDef 0 ∅ with
    | None => None
    | Some (_, Ok result) =>
        if Allowed result && bool_decide (is_Some (Condition permDef)) then
          Some match evaluateCondition req (Condition permDef) with
               | Ok true => Ok result
               | Ok false => Ok deny
               | Err err => Err (Wrap "condition evaluation" err)
               | Panic => Panic
               end
        else Some (Ok result)
    | Some (_, r) => Some r
    end
end.

Definition Check (fuel : nat) (e : Engine) (tc : option TenantContext) (req : CheckRequest)
  : option (res CheckResult) :=
match tc with
| None => Some (Err ErrNoTenantContext)
| Some tc =>
    if bool_decide (Status (tc_Tenant tc) = TenantDeleted) then Some (Err ErrTenantDeleted)
    else if negb (IsReadable (tc_Tenant tc)) then Some (Err (Errorf "tenant is not readable"))
    else match schemaForTenant e tc with
    | Err err => Some (Err err)
    | Panic => Some Panic
    | Ok cs => check_schema fuel (cfg_MaxCheckDepth e) cs req
    end
end.
End Engine.
