(* ===== verification/EngineTermination.v ===== *)
(** * Checks end

    The walks of ServerEngine.v end within the depth limit, whatever tuples and
    schema they meet, and the fuel of the model does not show in their results. *)

From S2P Require Import Prelude GoLib ServerModel ServerSchema ServerEngine.

Open Scope nat_scope.

Create HintDb walk.

(** ** Walks that answer *)

(** A walk answers: it has a result, which is not a panic. *)
Definition answers {A} (m : walk A) : Prop := ∀ V, ∃ V' r, m V = Some (V', r) ∧ r ≠ Panic.

Section Answers.
Context {A B : Type}.

Lemma answers_ret (a : A) : answers (mret a).
Proof. intros V. by exists V, (Ok a). Qed.

Lemma answers_lift (r : res A) : r ≠ Panic → answers (lift r).
Proof. intros Hr V. by exists V, r. Qed.

Lemma answers_bind (f : A → walk B) m : answers m → (∀ a, answers (f a)) → answers (m ≫= f).
Proof.
intros Hm Hf V. destruct (Hm V) as (V1 & r & E & Hr). unfold mbind, walk_bind. rewrite E.
destruct r as [a|e|]; [apply Hf| |done]. by exists V1, (Err e).
Qed.
End Answers.

Lemma answers_has key : answers (has key).
Proof. intros V. by eexists V, _. Qed.

Lemma answers_add key : answers (add key).
Proof. intros V. by eexists _, _. Qed.

#[export] Hint Resolve answers_ret answers_bind answers_has answers_add answers_lift : walk.

Section Loops.
Context {A : Type} (f : A → walk CheckResult).

Lemma answers_first_allowed l : (∀ x, answers (f x)) → answers (first_allowed f l).
Proof.
intros Hf. induction l as [|x l IH]; simpl; [by auto with walk|].
apply answers_bind; [done|]. intros r. destruct (Allowed r); auto with walk.
Qed.

Lemma answers_all_allowed l : (∀ x, answers (f x)) → answers (all_allowed f l).
Proof.
intros Hf. induction l as [|x l IH]; simpl; [by auto with walk|].
apply answers_bind; [done|]. intros r. destruct (Allowed r); auto with walk.
Qed.

Lemma answers_none_allowed l : (∀ x, answers (f x)) → answers (none_allowed f l).
Proof.
intros Hf. induction l as [|x l IH]; simpl; [by auto with walk|].
apply answers_bind; [done|]. intros r. destruct (Allowed r); auto with walk.
Qed.
End Loops.

#[export] Hint Resolve answers_first_allowed answers_all_allowed answers_none_allowed : walk.

(** ** Walks that agree *)

(** Two walks agree when they have the same result on every visited set. *)
#[export] Instance walk_equiv A : Equiv (walk A) := λ m m', ∀ V, m V = m' V.

#[export] Instance walk_equivalence A : Equivalence (walk_equiv A).
Proof.
  split.
  - by intros m V.
  - intros m m' H V. by rewrite H.
  - intros m1 m2 m3 H12 H23 V. by rewrite H12, H23.
Qed.

Lemma walk_bind_agree {A B} (m m' : walk A) (f f' : A → walk B) :
  m ≡ m' → (∀ a, f a ≡ f' a) → (m ≫= f) ≡ (m' ≫= f').
Proof.
  intros Hm Hf V. unfold mbind, walk_bind. rewrite Hm. destruct (m' V) as [[V' [a|e|]]|]; [|done..].
  apply Hf.
Qed.

Section LoopsAgree.
Context {A : Type} (f f' : A → walk CheckResult) (Hf : ∀ x, f x ≡ f' x).

Lemma first_allowed_agree l : first_allowed f l ≡ first_allowed f' l.
Proof.
induction l as [|x l IH]; simpl; [done|]. apply walk_bind_agree; [apply Hf|].
intros r. by destruct (Allowed r).
Qed.

Lemma all_allowed_agree l : all_allowed f l ≡ all_allowed f' l.
Proof.
induction l as [|x l IH]; simpl; [done|]. apply walk_bind_agree; [apply Hf|].
intros r. by destruct (Allowed r).
Qed.

Lemma none_allowed_agree l : none_allowed f l ≡ none_allowed f' l.
Proof.
induction l as [|x l IH]; simpl; [done|]. apply walk_bind_agree; [apply Hf|].
intros r. by destruct (Allowed r).
Qed.
End LoopsAgree.

(** ** The walks of a check *)

(** The store's queries may fail but do not panic. *)
Class StoreAnswers {EL : ExprLang} (ST : TupleStore) : Prop := {
  CheckDirect_answers ot oid rel st sid : CheckDirect ot oid rel st sid ≠ Panic;
  ListRelatedObjects_answers ot oid rel : ListRelatedObjects ot oid rel ≠ Panic;
  ListSubjects_answers ot oid rel : ListSubjects ot oid rel ≠ Panic;
  GetObjectAttributes_answers ot oid : GetObjectAttributes ot oid ≠ Panic;
  GetSubjectAttributes_answers st sid : GetSubjectAttributes st sid ≠ Panic }.

#[export] Hint Resolve CheckDirect_answers ListRelatedObjects_answers ListSubjects_answers : walk.

Section Walks.
Context {EL : ExprLang} {ST : TupleStore} {SA : StoreAnswers ST}.
Context (cs : CompiledSchema) (MaxCheckDepth : Z).

Lemma evaluateCondition_answers req c : evaluateCondition req c ≠ Panic.
Proof.
unfold evaluateCondition. destruct (c ≫= Compiled) as [p|]; [|done].
pose proof (GetObjectAttributes_answers (req_ObjectType req) (req_ObjectID req)).
pose proof (GetSubjectAttributes_answers (req_SubjectType req) (req_SubjectID req)).
destruct (GetObjectAttributes _ _); [..|done]; destruct (GetSubjectAttributes _ _); try done; cbn;
  destruct (expr_Run p _) as [|v]; try done; by destruct (any_bool v).
Qed.

Lemma CompileConditionExpr_answers s : CompileConditionExpr s ≠ Panic.
Proof. unfold CompileConditionExpr, compileCondition. by destruct (expr_Compile _). Qed.

Hint Resolve evaluateCondition_answers CompileConditionExpr_answers : walk.

Section Step.
Context (rec : CheckRequest → PermissionDef → Z → walk CheckResult) (depth : Z).
Context (Hrec : ∀ req pd, answers (rec req pd (depth + 1))).

Lemma walk_subject_answers req subj : answers (walk_subject cs rec req depth subj).
Proof.
unfold walk_subject. case_bool_decide; [auto with walk|].
apply answers_bind; [auto with walk|]. intros []; [auto with walk|].
pose proof (GetPermission_no_panic cs (sub_Type subj) (sub_Relation subj)) as Hp.
destruct (GetPermission cs (sub_Type subj) (sub_Relation subj)); [auto with walk| |done].
pose proof (CheckDirect_answers (sub_Type subj) (sub_ID subj) (sub_Relation subj)
  (req_SubjectType req) (req_SubjectID req)) as Hd.
destruct (CheckDirect _ _ _ _ _) as [[]| |]; auto with walk.
Qed.

Lemma walk_target_answers req p target : answers (walk_target cs rec req p depth target).
Proof.
unfold walk_target. apply answers_bind; [auto with walk|]. intros []; [auto with walk|].
pose proof (GetPermission_no_panic cs (obj_Type target) p) as Hp.
destruct (GetPermission cs (obj_Type target) p); [auto with walk..|done].
Qed.

Lemma walkRelation_answers req rel : answers (walkRelation cs rec req rel depth).
Proof.
unfold walkRelation. apply answers_bind; [auto with walk|]. intros []; [auto with walk|].
apply answers_bind; [auto with walk|]. intros subjects.
apply answers_first_allowed, walk_subject_answers.
Qed.

Lemma walkArrow_answers req rel p : answers (walkArrow cs rec req rel p depth).
Proof.
unfold walkArrow. apply answers_bind; [auto with walk|]. intros targets.
apply answers_first_allowed, walk_target_answers.
Qed.

Lemma walkChild_answers req child : answers (walkChild cs rec req depth child).
Proof.
unfold walkChild. destruct (Kind child); [apply walkRelation_answers|apply walkArrow_answers|].
apply answers_bind; [auto with walk|]. intros c. apply answers_bind; auto with walk.
Qed.

Lemma walk_operation_answers req pd : answers (walk_operation cs rec req pd depth).
Proof.
pose proof (walkChild_answers req) as Hc.
unfold walk_operation, walkUnion, walkIntersect, walkExclusion.
destruct (Operation pd); [auto with walk| | |auto with walk].
- case_bool_decide; auto with walk.
- destruct (Children pd) as [|c l]; [auto with walk|].
  apply answers_bind; [done|]. intros r. destruct (Allowed r); auto with walk.
Qed.

Lemma walk_step_answers req pd : answers (walk_step cs MaxCheckDepth rec req pd depth).
Proof.
unfold walk_step. destruct (MaxCheckDepth <? depth)%Z; [by apply answers_lift|].
apply answers_bind; [auto with walk|]. intros []; [auto with walk|].
apply answers_bind; [auto with walk|]. intros _. apply walk_operation_answers.
Qed.
End Step.

Section Agree.
Context (rec rec' : CheckRequest → PermissionDef → Z → walk CheckResult) (depth : Z).
Context (Hrec : ∀ req pd, rec req pd (depth + 1)%Z ≡ rec' req pd (depth + 1)%Z).

Lemma walk_subject_agree req subj : walk_subject cs rec req depth subj ≡ walk_subject cs rec' req depth subj.
Proof.
unfold walk_subject. case_bool_decide; [done|]. apply walk_bind_agree; [done|]. intros []; [done|].
by destruct (GetPermission cs (sub_Type subj) (sub_Relation subj)).
Qed.

Lemma walk_target_agree req p target :
walk_target cs rec req p depth target ≡ walk_target cs rec' req p depth target.
Proof.
unfold walk_target. apply walk_bind_agree; [done|]. intros []; [done|].
by destruct (GetPermission cs (obj_Type target) p).
Qed.

Lemma walkChild_agree req child : walkChild cs rec req depth child ≡ walkChild cs rec' req depth child.
Proof.
unfold walkChild. destruct (Kind child); [| |done].
- unfold walkRelation. apply walk_bind_agree; [done|]. intros []; [done|].
  apply walk_bind_agree; [done|]. intros l. apply first_allowed_agree, walk_subject_agree.
- unfold walkArrow. apply walk_bind_agree; [done|]. intros l. apply first_allowed_agree, walk_target_agree.
Qed.

Lemma walk_step_agree req pd :
walk_step cs MaxCheckDepth rec req pd depth ≡ walk_step cs MaxCheckDepth rec' req pd depth.
Proof.
unfold walk_step. destruct (MaxCheckDepth <? depth)%Z; [done|].
apply walk_bind_agree; [done|]. intros []; [done|]. apply walk_bind_agree; [done|]. intros _.
pose proof (walkChild_agree req) as Hc.
unfold walk_operation, walkUnion, walkIntersect, walkExclusion.
destruct (Operation pd); [by apply first_allowed_agree| | |by apply first_allowed_agree].
- case_bool_decide; [done|]. by apply all_allowed_agree.
- destruct (Children pd) as [|c l]; [done|]. apply walk_bind_agree; [done|].
  intros r. destruct (Allowed r); [by apply none_allowed_agree|done].
Qed.
End Agree.

(** At depth [d] a walk needs no more calls than there are depths left. *)
Definition enough (depth : Z) : nat := Z.to_nat (MaxCheckDepth + 1 - depth).

Lemma walkPermission_answers fuel req pd depth :
enough depth < fuel → answers (walkPermission cs MaxCheckDepth fuel req pd depth).
Proof.
revert req pd depth. unfold enough. induction fuel as [|fuel IH]; intros req pd depth Hf; [lia|].
simpl. destruct (Z.ltb_spec MaxCheckDepth depth) as [Hd|Hd].
- unfold walk_step. rewrite (proj2 (Z.ltb_lt _ _)) by lia. by apply answers_lift.
- apply walk_step_answers. intros req' pd'. apply IH. lia.
Qed.

Lemma walkPermission_agree fuel fuel' req pd depth :
enough depth < fuel → enough depth < fuel' →
walkPermission cs MaxCheckDepth fuel req pd depth ≡ walkPermission cs MaxCheckDepth fuel' req pd depth.
Proof.
revert fuel' req pd depth. unfold enough.
induction fuel as [|fuel IH]; intros [|fuel'] req pd depth Hf Hf'; [lia..|].
simpl. destruct (Z.ltb_spec MaxCheckDepth depth) as [Hd|Hd].
- unfold walk_step. by rewrite (proj2 (Z.ltb_lt _ _)) by lia.
- apply walk_step_agree. intros req' pd'. apply IH; lia.
Qed.
End Walks.

(** ** Checks *)

Section Checks.
Context {EL : ExprLang} {ST : TupleStore} {SA : StoreAnswers ST}.

(** The fuel a check needs. *)
Definition check_fuel (MaxCheckDepth : Z) : nat := S (enough MaxCheckDepth 0).

Lemma check_schema_answers MaxCheckDepth cs req :
∃ r, r ≠ Panic ∧ ∀ fuel, check_fuel MaxCheckDepth ≤ fuel → check_schema fuel MaxCheckDepth cs req = Some r.
Proof.
unfold check_schema, check_fuel.
pose proof (GetPermission_no_panic cs (req_ObjectType req) (req_Permission req)) as Hp.
destruct (GetPermission _ _ _) as [pd|e|]; [|by exists (Err e)|done].
destruct (walkPermission_answers cs MaxCheckDepth (S (enough MaxCheckDepth 0)) req pd 0 ltac:(lia) ∅)
  as (V & r & E & Hr).
assert (Hall : ∀ fuel, S (enough MaxCheckDepth 0) ≤ fuel →
          walkPermission cs MaxCheckDepth fuel req pd 0 ∅ = Some (V, r)).
{ intros fuel Hf. rewrite <-E. apply walkPermission_agree; lia. }
pose proof (evaluateCondition_answers req (Condition pd)) as Hc.
destruct r as [result|e|]; [|exists (Err e); split; [done|]; intros fuel Hf; by rewrite Hall|done].
destruct (Allowed result && bool_decide (is_Some (Condition pd))) eqn:Ea;
  [|exists (Ok result); split; [done|]; intros fuel Hf; by rewrite Hall, Ea by done].
eexists. split; [|intros fuel Hf; rewrite Hall, Ea by done; reflexivity].
by destruct (evaluateCondition req (Condition pd)) as [[]| |].
Qed.

Lemma schemaForTenant_answers e tc : schemaForTenant e tc ≠ Panic.
Proof. unfold schemaForTenant. by destruct (tenant_SchemaMode _); destruct (_ !! _). Qed.

Lemma check_answers_ e tc req :
∃ r, r ≠ Panic ∧ ∀ fuel, check_fuel (cfg_MaxCheckDepth e) ≤ fuel → Check fuel e tc req = Some r.
Proof.
unfold Check. destruct tc as [tc|]; [|by eexists (Err _)].
case_bool_decide; [by eexists (Err _)|]. destruct (negb _); [by eexists (Err _)|].
pose proof (schemaForTenant_answers e tc).
destruct (schemaForTenant e tc) as [cs|err|]; [|by exists (Err err)|done].
apply check_schema_answers.
Qed.
End Checks.
