(* ===== verification/EngineSpec.v ===== *)
(** * What a check decides

    The specification of the check: the subjects a permission is granted to,
    as an inductive relation on requests that knows neither the visited set nor
    the depth limit, and the theorems that relate the walks of ServerEngine.v to
    it.

    An allow is always grounded.  A deny is final for schemas of unions and
    direct permissions without inline conditions; for intersections and
    exclusions it is not, because their children share one visited set. *)

From S2P Require Import Prelude GoLib ServerModel ServerSchema ServerEngine EngineTermination.

(** ** The specification *)

Section Spec.
Context {EL : ExprLang} {ST : TupleStore} (cs : CompiledSchema).
Implicit Types (req : CheckRequest) (pd : PermissionDef) (child : PermissionRef).

(** The relation of an object holds directly. *)
Definition direct (ot oid rel st sid : string) : Prop := CheckDirect ot oid rel st sid = Ok true.

(** [grounded req]: a derivation from the tuples that the permission of the request
  is granted; for an exclusion, that its base is. *)
Inductive grounded : CheckRequest → Prop :=
| grounded_union req pd child :
    GetPermission cs (req_ObjectType req) (req_Permission req) = Ok pd →
    Operation pd = PermOpUnion ∨ Operation pd = PermOpDirect →
    child ∈ Children pd → child_grounded req child → grounded req
| grounded_intersect req pd :
    GetPermission cs (req_ObjectType req) (req_Permission req) = Ok pd →
    Operation pd = PermOpIntersect → Children pd ≠ [] →
    (∀ child, child ∈ Children pd → child_grounded req child) → grounded req
| grounded_exclusion req pd child l :
    GetPermission cs (req_ObjectType req) (req_Permission req) = Ok pd →
    Operation pd = PermOpExclusion → Children pd = child :: l →
    child_grounded req child → grounded req
with child_grounded : CheckRequest → PermissionRef → Prop :=
| grounded_direct req child :
    Kind child = kind_relation →
    direct (req_ObjectType req) (req_ObjectID req) (RelationRef child) (req_SubjectType req)
      (req_SubjectID req) → child_grounded req child
| grounded_userset req child l subj :
    Kind child = kind_relation →
    ListSubjects (req_ObjectType req) (req_ObjectID req) (RelationRef child) = Ok l → subj ∈ l →
    sub_Relation subj ≠ "" → grounded (userset_request req subj) → child_grounded req child
| grounded_group req child l subj e :
    Kind child = kind_relation →
    ListSubjects (req_ObjectType req) (req_ObjectID req) (RelationRef child) = Ok l → subj ∈ l →
    sub_Relation subj ≠ "" → GetPermission cs (sub_Type subj) (sub_Relation subj) = Err e →
    direct (sub_Type subj) (sub_ID subj) (sub_Relation subj) (req_SubjectType req) (req_SubjectID req) →
    child_grounded req child
| grounded_arrow req child l target :
    Kind child = kind_arrow →
    ListRelatedObjects (req_ObjectType req) (req_ObjectID req) (ArrowRef child) = Ok l → target ∈ l →
    grounded (arrow_request req target (ArrowPermission child)) → child_grounded req child
| grounded_condition req child c :
    Kind child = kind_condition →
    CompileConditionExpr (ref_ConditionExpr child) = Ok c →
    evaluateCondition req (Some c) = Ok true → child_grounded req child.

Scheme grounded_mut := Minimality for grounded Sort Prop
  with child_grounded_mut := Minimality for child_grounded Sort Prop.

(** The condition at the top of a permission, which [Check] alone evaluates. *)
Definition condition_met req : Prop :=
∃ pd, GetPermission cs (req_ObjectType req) (req_Permission req) = Ok pd ∧
  evaluateCondition req (Condition pd) = Ok true.
End Spec.

(** ** An allow is grounded *)

Section Loops.
Context {A : Type} (f : A → walk CheckResult).

Lemma bind_Ok {B C} (m : walk B) (g : B → walk C) V V' c :
(m ≫= g) V = Some (V', Ok c) → ∃ V1 b, m V = Some (V1, Ok b) ∧ g b V1 = Some (V', Ok c).
Proof.
unfold mbind, walk_bind. destruct (m V) as [[V1 [b|e|]]|] eqn:E; [|done..]. eauto.
Qed.

Lemma lift_Ok {B} (m : res B) V V' b : lift m V = Some (V', Ok b) → V = V' ∧ m = Ok b.
Proof. unfold lift. by intros [= -> ->]. Qed.

Lemma first_allowed_allows l V V' r :
first_allowed f l V = Some (V', Ok r) → Allowed r = true →
∃ x V1 V2, x ∈ l ∧ f x V1 = Some (V2, Ok r).
Proof.
revert V. induction l as [|x l IH]; intros V; simpl; [by intros [= <- <-]|].
intros (V1 & r1 & E & H)%bind_Ok Hr. destruct (Allowed r1) eqn:Er.
- injection H as <- <-. exists x, V, V1. split; [by left|done].
- destruct (IH V1 H Hr) as (y & V2 & V3 & Hy & Hf). exists y, V2, V3. split; [by right|done].
Qed.

Lemma all_allowed_allows l V V' r x :
all_allowed f l V = Some (V', Ok r) → Allowed r = true → x ∈ l →
∃ V1 V2 r', f x V1 = Some (V2, Ok r') ∧ Allowed r' = true.
Proof.
revert V. induction l as [|y l IH]; intros V; simpl; [by intros _ _ ?%elem_of_nil|].
intros (V1 & r1 & E & H)%bind_Ok Hr [->|Hx]%elem_of_cons.
- destruct (Allowed r1) eqn:Er; [by exists V, V1, r1|]. by injection H as <- <-.
- destruct (Allowed r1); [by eapply IH|]. by injection H as <- <-.
Qed.
End Loops.

Section Sound.
Context {EL : ExprLang} {ST : TupleStore} (cs : CompiledSchema) (MaxCheckDepth : Z).
Implicit Types (req : CheckRequest) (pd : PermissionDef) (child : PermissionRef).

(** What the recursive call allows is grounded. *)
Definition sound (rec : CheckRequest → PermissionDef → Z → walk CheckResult) : Prop :=
∀ req pd depth V V' r,
  GetPermission cs (req_ObjectType req) (req_Permission req) = Ok pd →
  rec req pd depth V = Some (V', Ok r) → Allowed r = true → grounded cs req.

Section Step.
Context (rec : CheckRequest → PermissionDef → Z → walk CheckResult) (Hrec : sound rec).

Lemma walk_subject_sound req child depth l subj V V' r :
Kind child = kind_relation →
ListSubjects (req_ObjectType req) (req_ObjectID req) (RelationRef child) = Ok l → subj ∈ l →
walk_subject cs rec req depth subj V = Some (V', Ok r) → Allowed r = true → child_grounded cs req child.
Proof.
intros Hk Hl Hs. unfold walk_subject. case_bool_decide as Hr; [by intros [= <- <-]|].
intros (V1 & seen & _ & H)%bind_Ok Ha. destruct seen; [by injection H as <- <-|].
destruct (GetPermission cs (sub_Type subj) (sub_Relation subj)) as [pd|e|] eqn:Eg; [| |done].
- apply (grounded_userset cs req child l subj Hk Hl Hs Hr). by eapply (Hrec (userset_request req subj)).
- destruct (CheckDirect _ _ _ _ _) as [[]| |] eqn:Ed; [|by injection H as <- <-..|done].
  exact (grounded_group cs req child l subj e Hk Hl Hs Hr Eg Ed).
Qed.

Lemma walk_target_sound req child depth l target V V' r :
Kind child = kind_arrow →
ListRelatedObjects (req_ObjectType req) (req_ObjectID req) (ArrowRef child) = Ok l → target ∈ l →
walk_target cs rec req (ArrowPermission child) depth target V = Some (V', Ok r) →
Allowed r = true → child_grounded cs req child.
Proof.
intros Hk Hl Ht (V1 & seen & _ & H)%bind_Ok Ha. destruct seen; [by injection H as <- <-|].
destruct (GetPermission cs (obj_Type target) (ArrowPermission child)) as [pd|e|] eqn:Eg;
  [|by injection H as <- <-|done].
apply (grounded_arrow cs req child l target Hk Hl Ht).
by eapply (Hrec (arrow_request req target (ArrowPermission child))).
Qed.

Lemma walkChild_sound req child depth V V' r :
walkChild cs rec req depth child V = Some (V', Ok r) → Allowed r = true → child_grounded cs req child.
Proof.
unfold walkChild. destruct (Kind child) eqn:Ek; intros H Ha.
- apply bind_Ok in H as (V1 & [] & Ed & H).
  + apply lift_Ok in Ed as [_ Ed]. by apply grounded_direct.
  + apply bind_Ok in H as (V2 & l & El & H). apply lift_Ok in El as [_ El].
    destruct (first_allowed_allows _ _ _ _ _ H Ha) as (subj & V3 & V4 & Hs & Hw).
    by eapply walk_subject_sound.
- apply bind_Ok in H as (V1 & l & El & H). apply lift_Ok in El as [_ El].
  destruct (first_allowed_allows _ _ _ _ _ H Ha) as (target & V2 & V3 & Ht & Hw).
  by eapply walk_target_sound.
- apply bind_Ok in H as (V1 & c & Ec & H). apply bind_Ok in H as (V2 & b & Eb & H).
  injection H as <- <-. destruct b; [|done]. apply lift_Ok in Ec as [_ Ec]. apply lift_Ok in Eb as [_ Eb].
  by eapply grounded_condition.
Qed.

Lemma walk_step_sound : sound (walk_step cs MaxCheckDepth rec).
Proof.
intros req pd depth V V' r Hpd. unfold walk_step. destruct (MaxCheckDepth <? depth)%Z; [done|].
intros (V1 & seen & _ & H)%bind_Ok Ha. destruct seen; [by injection H as <- <-|].
apply bind_Ok in H as (V2 & [] & _ & H). unfold walk_operation in H.
destruct (Operation pd) eqn:Eo.
1,4: destruct (first_allowed_allows _ _ _ _ _ H Ha) as (child & V3 & V4 & Hc & Hw);
  (eapply grounded_union; [done|by auto|done|by eapply walkChild_sound]).
- unfold walkIntersect in H. case_bool_decide as Hn; [by injection H as <- <-|].
  eapply grounded_intersect; [done|done|by intros E; rewrite E in Hn|]. intros child Hc.
  destruct (all_allowed_allows _ _ _ _ _ child H Ha Hc) as (V3 & V4 & r' & Hw & Hr').
  by eapply walkChild_sound.
- unfold walkExclusion in H. destruct (Children pd) as [|child l] eqn:Ec; [by injection H as <- <-|].
  apply bind_Ok in H as (V3 & base & Hw & H). destruct (Allowed base) eqn:Eb; [|by injection H as <- <-].
  eapply grounded_exclusion; [done|done|done|by eapply walkChild_sound].
Qed.
End Step.

Lemma walkPermission_sound fuel : sound (walkPermission cs MaxCheckDepth fuel).
Proof.
induction fuel as [|fuel IH]; [done|]. simpl. intros req pd depth. by apply walk_step_sound.
Qed.

(** What [Check] allows is grounded and its condition is met. *)
Lemma check_schema_sound fuel req r :
check_schema fuel MaxCheckDepth cs req = Some (Ok r) → Allowed r = true →
grounded cs req ∧ condition_met cs req.
Proof.
unfold check_schema, condition_met.
destruct (GetPermission cs (req_ObjectType req) (req_Permission req)) as [pd|e|] eqn:Eg; [|done|done].
destruct (walkPermission cs MaxCheckDepth fuel req pd 0 ∅) as [[V [r'|e|]]|] eqn:Ew; [|done..].
destruct (Allowed r') eqn:Ea; [|by intros [= <-]; rewrite Ea]. simpl.
intros H Hr. split; [by eapply walkPermission_sound|]. exists pd. split; [done|].
case_bool_decide as Hc.
- by destruct (evaluateCondition req (Condition pd)) as [[]| |]; [|injection H as <-|..].
- destruct (Condition pd); [by destruct Hc|done].
Qed.
End Sound.
