(* ===== verification/EngineDecision.v ===== *)
(** * When a deny is final

    For schemas whose permissions are unions (or direct) of relations and arrows,
    the depth-first walk with its visited set decides [grounded]: a walk that
    denies leaves behind a set of nodes none of which is granted, each with its
    successors in the set.  The walk ends without an error when the nodes a
    request can reach are no more than the depth limit allows. *)

From Stdlib Require Import Ascii.
From S2P Require Import Prelude GoLib ServerModel ServerSchema ServerEngine EngineTermination EngineSpec.

Open Scope nat_scope.

(** ** Keys *)

Lemma visitKey_inj t i p t' i' p' st sid :
  has_char ":"%char t = false → has_char ":"%char t' = false → has_char "#"%char p = false → has_char "#"%char p' = false →
  visitKey t i p st sid = visitKey t' i' p' st sid → t = t' ∧ i = i' ∧ p = p'.
Proof.
  intros Ht Ht' Hp Hp' H. unfold visitKey in H.
  change (":" +:+ ?s)%string with (String ":"%char s) in H.
  apply (cut_first ":"%char t t') in H as [-> H]; [|done..]. split; [done|].
  rewrite <-!str_app_assoc in H. do 4 apply str_app_inj_r in H. rewrite !str_app_assoc in H.
  by apply (cut_last "#"%char i i') in H.
Qed.

Section Decision.
Context {EL : ExprLang} {ST : TupleStore} (cs : CompiledSchema) (MaxCheckDepth : Z).
Implicit Types (req : CheckRequest) (pd : PermissionDef) (child : PermissionRef) (V : gset string).

(** Schemas of unions and direct permissions without inline conditions. *)
Definition plain : Prop := ∀ t p pd,
GetPermission cs t p = Ok pd →
(Operation pd = PermOpUnion ∨ Operation pd = PermOpDirect) ∧
Forall (λ r, Kind r ≠ kind_condition) (Children pd).

(** Type names without colon and permission names without hash, so that keys tell
  nodes apart; identifiers of objects are arbitrary. *)
Definition names_ok : Prop :=
(∀ t p pd, GetPermission cs t p = Ok pd →
   perm_Name pd = p ∧ has_char ":"%char t = false ∧ has_char "#"%char p = false) ∧
(∀ ot oid rel l subj, ListSubjects ot oid rel = Ok l → subj ∈ l →
   has_char ":"%char (sub_Type subj) = false ∧ has_char "#"%char (sub_Relation subj) = false).

Context (Hplain : plain) (Hnames : names_ok) (st sid : string).

(** The requests of one check differ in object and permission only. *)
Definition of_subject req : Prop := req_SubjectType req = st ∧ req_SubjectID req = sid.

Definition is_node (t i p : string) : Prop := ∃ pd, GetPermission cs t p = Ok pd.

Lemma node_key_inj t i p t' i' p' :
is_node t i p → is_node t' i' p' → visitKey t i p st sid = visitKey t' i' p' st sid →
t = t' ∧ i = i' ∧ p = p'.
Proof.
intros (pd & H) (pd' & H'). destruct Hnames as [Hn _].
destruct (Hn _ _ _ H) as (_ & ? & ?), (Hn _ _ _ H') as (_ & ? & ?). by apply visitKey_inj.
Qed.

(** ** What a walk that denies has established *)

Definition subject_done V (subj : SubjectRef) : Prop :=
sub_Relation subj ≠ "" →
match GetPermission cs (sub_Type subj) (sub_Relation subj) with
| Ok _ => visitKey (sub_Type subj) (sub_ID subj) (sub_Relation subj) st sid ∈ V
| _ => ¬ direct (sub_Type subj) (sub_ID subj) (sub_Relation subj) st sid
end.

Definition target_done V (p : string) (target : ObjectRef) : Prop :=
match GetPermission cs (obj_Type target) p with
| Ok _ => visitKey (obj_Type target) (obj_ID target) p st sid ∈ V
| _ => True
end.

Definition child_done V (ot oid : string) child : Prop :=
match Kind child with
| kind_relation =>
    ¬ direct ot oid (RelationRef child) st sid ∧
    ∀ l, ListSubjects ot oid (RelationRef child) = Ok l → ∀ subj, subj ∈ l → subject_done V subj
| kind_arrow =>
    ∀ l, ListRelatedObjects ot oid (ArrowRef child) = Ok l →
    ∀ target, target ∈ l → target_done V (ArrowPermission child) target
| kind_condition => False
end.

Definition closed V (t i p : string) : Prop :=
∀ pd, GetPermission cs t p = Ok pd → ∀ child, child ∈ Children pd → child_done V t i child.

(** [V'] extends [V] by nodes that are closed in [V']. *)
Definition extends V V' : Prop :=
V ⊆ V' ∧ ∀ k, k ∈ V' → k ∉ V → ∃ t i p, is_node t i p ∧ visitKey t i p st sid = k ∧ closed V' t i p.

Definition nodes V : Prop := ∀ k, k ∈ V → ∃ t i p, is_node t i p ∧ visitKey t i p st sid = k.

Lemma subject_done_mono V V' subj : V ⊆ V' → subject_done V subj → subject_done V' subj.
Proof.
intros HV H Hr. specialize (H Hr). destruct (GetPermission _ _ _); [by apply HV|done..].
Qed.

Lemma target_done_mono V V' p target : V ⊆ V' → target_done V p target → target_done V' p target.
Proof. intros HV. unfold target_done. destruct (GetPermission _ _ _); [by apply HV|done..]. Qed.

Lemma child_done_mono V V' ot oid child : V ⊆ V' → child_done V ot oid child → child_done V' ot oid child.
Proof.
intros HV. unfold child_done. destruct (Kind child); [| |done].
- intros [Hd H]. split; [done|]. intros l Hl subj Hs. by eapply subject_done_mono, H.
- intros H l Hl target Ht. by eapply target_done_mono, H.
Qed.

Lemma closed_mono V V' t i p : V ⊆ V' → closed V t i p → closed V' t i p.
Proof. intros HV H pd Hpd child Hc. by eapply child_done_mono, H. Qed.

Lemma extends_refl V : extends V V.
Proof. by split. Qed.

Lemma extends_trans V1 V2 V3 : extends V1 V2 → extends V2 V3 → extends V1 V3.
Proof.
intros [H12 C12] [H23 C23]. split; [by etrans|]. intros k H3 H1.
destruct (decide (k ∈ V2)) as [H2|H2]; [|by apply C23].
destruct (C12 k H2 H1) as (t & i & p & Hn & Hk & Hc). exists t, i, p.
split; [done|]. split; [done|]. by eapply closed_mono.
Qed.

Lemma extends_nodes V V' : nodes V → extends V V' → nodes V'.
Proof.
intros HV [_ H] k Hk. destruct (decide (k ∈ V)) as [Hin|Hout]; [by apply HV|].
destruct (H k Hk Hout) as (t & i & p & ? & ? & _). eauto.
Qed.

Section Loop.
Context {A : Type} (f : A → walk CheckResult) (done : gset string → A → Prop).
Context (done_mono : ∀ V V' x, V ⊆ V' → done V x → done V' x).

Lemma first_allowed_denies l V V' r :
(∀ x V V' r, x ∈ l → nodes V → f x V = Some (V', Ok r) → Allowed r = false →
   extends V V' ∧ done V' x) →
nodes V → first_allowed f l V = Some (V', Ok r) → Allowed r = false →
extends V V' ∧ ∀ x, x ∈ l → done V' x.
Proof.
intros Hf. revert V. induction l as [|x l IH]; intros V HV; simpl.
{ intros [= <- <-] _. split; [apply extends_refl|]. by intros x ?%elem_of_nil. }
intros (V1 & r1 & E & H)%bind_Ok Hr. destruct (Allowed r1) eqn:Er; [by injection H as <- <-; congruence|].
destruct (Hf x V V1 r1 (list_elem_of_here _ _) HV E Er) as [Hx1 Hd].
destruct (IH (λ y V V' r Hy, Hf y V V' r (list_elem_of_further _ _ _ Hy)) V1) as [Hx2 Hl];
  [by eapply extends_nodes|done|done|].
split; [by eapply extends_trans|]. intros y [->|Hy]%elem_of_cons; [|by apply Hl].
eapply done_mono; [apply Hx2|done].
Qed.
End Loop.

Section Step.
Context (rec : CheckRequest → PermissionDef → Z → walk CheckResult) (depth : Z).

Definition complete_at (d : Z) : Prop := ∀ req pd V V' r,
of_subject req → GetPermission cs (req_ObjectType req) (req_Permission req) = Ok pd → nodes V →
rec req pd d V = Some (V', Ok r) → Allowed r = false → extends V V' ∧ req_key req ∈ V'.

Context (Hrec : complete_at (depth + 1)).

Lemma walk_subject_denies req rel l subj V V' r :
of_subject req → ListSubjects (req_ObjectType req) (req_ObjectID req) rel = Ok l → subj ∈ l → nodes V →
walk_subject cs rec req depth subj V = Some (V', Ok r) → Allowed r = false →
extends V V' ∧ subject_done V' subj.
Proof.
intros [Est Esid] Hl Hs HV. unfold walk_subject, subject_done.
destruct (proj2 Hnames _ _ _ _ _ Hl Hs) as [Hc Hh].
case_bool_decide as Hr; [intros [= <- <-] _; by split; [apply extends_refl|]|].
intros (V1 & seen & Es & H)%bind_Ok Ha. unfold has in Es. injection Es as <- Es.
unfold req_key, userset_request in Es. cbn in Es. rewrite Est, Esid in Es.
destruct (GetPermission cs (sub_Type subj) (sub_Relation subj)) as [pd|e|] eqn:Eg.
- destruct seen; [injection H as <- <-; bool_prop; by split; [apply extends_refl|]|].
  destruct (Hrec (userset_request req subj) pd V V' r) as [Hx Hk]; [by split|done..|].
  split; [done|]. intros _. unfold req_key in Hk. cbn in Hk. by rewrite Est, Esid in Hk.
- rewrite Est, Esid in H. destruct seen.
  + injection H as <- <-. bool_prop. destruct (HV _ Es) as (t & i & p & Hn & Hk). exfalso.
    destruct Hn as (pd & Hpd). destruct (proj1 Hnames _ _ _ Hpd) as (_ & ? & ?).
    apply visitKey_inj in Hk as (-> & -> & ->); [|done..]. congruence.
  + unfold direct. destruct (CheckDirect _ _ _ _ _) as [[]| |]; [by injection H as <- <-| |..|done];
      injection H as <- <-; (split; [apply extends_refl|done]).
- by destruct seen; [injection H as <- <-; split; [apply extends_refl|intros _];
    destruct (GetPermission_no_panic cs _ _ Eg)|].
Qed.

Lemma walk_target_denies req p target V V' r :
of_subject req → nodes V →
walk_target cs rec req p depth target V = Some (V', Ok r) → Allowed r = false →
extends V V' ∧ target_done V' p target.
Proof.
intros [Est Esid] HV. unfold walk_target, target_done.
intros (V1 & seen & Es & H)%bind_Ok Ha. unfold has in Es. injection Es as <- Es.
unfold req_key, arrow_request in Es. cbn in Es. rewrite Est, Esid in Es.
destruct (GetPermission cs (obj_Type target) p) as [pd|e|] eqn:Eg.
- destruct seen; [injection H as <- <-; bool_prop; by split; [apply extends_refl|]|].
  destruct (Hrec (arrow_request req target p) pd V V' r) as [Hx Hk]; [by split|done..|].
  split; [done|]. unfold req_key in Hk. cbn in Hk. by rewrite Est, Esid in Hk.
- by destruct seen; injection H as <- <-; split; [apply extends_refl| |apply extends_refl|].
- by destruct seen; [injection H as <- <-; split; [apply extends_refl|]|].
Qed.

Lemma walkChild_denies req child V V' r :
of_subject req → Kind child ≠ kind_condition → nodes V →
walkChild cs rec req depth child V = Some (V', Ok r) → Allowed r = false →
extends V V' ∧ child_done V' (req_ObjectType req) (req_ObjectID req) child.
Proof.
intros Hs Hk HV. unfold walkChild, child_done. destruct (Kind child); [| |done].
- intros (V1 & ok & Ed & H)%bind_Ok Ha. apply lift_Ok in Ed as [<- Ed].
  destruct ok; [by injection H as <- <-|]. apply bind_Ok in H as (V2 & l & El & H).
  apply lift_Ok in El as [<- El].
  destruct (first_allowed_denies (walk_subject cs rec req depth) subject_done subject_done_mono l V V' r)
    as [Hx Hl]; [|done..|].
  { intros subj V1 V2 r' Hin HV1. by eapply walk_subject_denies. }
  split; [done|]. split.
  + destruct Hs as [<- <-]. unfold direct. by rewrite Ed.
  + intros l' El'. rewrite El in El'. injection El' as <-. exact Hl.
- intros (V1 & l & El & H)%bind_Ok Ha. apply lift_Ok in El as [<- El].
  destruct (first_allowed_denies (walk_target cs rec req (ArrowPermission child) depth)
    (λ V, target_done V (ArrowPermission child)) (λ V V' x, target_done_mono V V' _ x) l V V' r)
    as [Hx Hl]; [|done..|].
  { intros target V1 V2 r' Hin HV1. by eapply walk_target_denies. }
  split; [done|]. intros l' El'. rewrite El in El'. injection El' as <-. exact Hl.
Qed.

(** The node a walk starts at is closed when all its children are done. *)
Lemma extends_node req pd V V' :
of_subject req → GetPermission cs (req_ObjectType req) (req_Permission req) = Ok pd →
extends ({[req_key req]} ∪ V) V' →
(∀ child, child ∈ Children pd → child_done V' (req_ObjectType req) (req_ObjectID req) child) →
extends V V' ∧ req_key req ∈ V'.
Proof.
intros [Est Esid] Hpd [HV Hx] Hc. split; [|set_solver]. split; [set_solver|]. intros k Hk Hout.
destruct (decide (k = req_key req)) as [->|Hne]; [|by apply Hx; [|intros [->%elem_of_singleton|?]%elem_of_union]].
exists (req_ObjectType req), (req_ObjectID req), (req_Permission req). split; [by exists pd|].
split; [unfold req_key; by rewrite Est, Esid|]. intros pd' Hpd'. rewrite Hpd in Hpd'. by injection Hpd' as <-.
Qed.

Lemma walk_step_denies req pd V V' r :
of_subject req → GetPermission cs (req_ObjectType req) (req_Permission req) = Ok pd → nodes V →
walk_step cs MaxCheckDepth rec req pd depth V = Some (V', Ok r) → Allowed r = false →
extends V V' ∧ req_key req ∈ V'.
Proof.
intros Hs Hpd HV. unfold walk_step. destruct (MaxCheckDepth <? depth)%Z; [done|].
destruct (proj1 Hnames _ _ _ Hpd) as (Hn & _). rewrite Hn. fold (req_key req).
intros (V1 & seen & Es & H)%bind_Ok Ha. injection Es as <- Es.
destruct seen; [injection H as <- <-; bool_prop; by split; [apply extends_refl|]|].
apply bind_Ok in H as (V2 & u & Ea & H). injection Ea as <-.
destruct (Hplain _ _ _ Hpd) as [Hop Hkind].
assert (HV1 : nodes ({[req_key req]} ∪ V)).
{ intros k [->%elem_of_singleton|Hk]%elem_of_union; [|by apply HV].
  exists (req_ObjectType req), (req_ObjectID req), (req_Permission req). destruct Hs as [<- <-].
  by split; [exists pd|]. }
assert (H' : first_allowed (walkChild cs rec req depth) (Children pd) ({[req_key req]} ∪ V) = Some (V', Ok r)).
{ unfold walk_operation, walkUnion in H. by destruct Hop as [Eo|Eo]; rewrite Eo in H. }
destruct (first_allowed_denies (walkChild cs rec req depth)
  (λ V, child_done V (req_ObjectType req) (req_ObjectID req)) (λ V V' x, child_done_mono V V' _ _ x)
  (Children pd) ({[req_key req]} ∪ V) V' r) as [Hx Hc]; [|done..|by eapply extends_node].
intros child V1 V2 r' Hin HV2. rewrite Forall_forall in Hkind. apply walkChild_denies; auto.
Qed.
End Step.

Lemma walkPermission_denies fuel depth : complete_at (walkPermission cs MaxCheckDepth fuel) depth.
Proof.
revert depth. induction fuel as [|fuel IH]; intros depth req pd V V' r; simpl; [done|].
apply walk_step_denies. apply IH.
Qed.
End Decision.

(** ** The decision *)

Section Decides.
Context {EL : ExprLang} {ST : TupleStore} (cs : CompiledSchema) (MaxCheckDepth : Z).
Context (Hplain : plain cs) (Hnames : names_ok cs).
Implicit Types (req : CheckRequest).

(** No node of a set whose nodes are closed is granted. *)
Lemma closed_not_grounded st sid V :
(∀ t i p, is_node cs t i p → visitKey t i p st sid ∈ V → closed cs st sid V t i p) →
∀ req, grounded cs req → of_subject st sid req → req_key req ∉ V.
Proof.
intros HV.
assert (Hclosed : ∀ req pd child, of_subject st sid req → req_key req ∈ V →
  GetPermission cs (req_ObjectType req) (req_Permission req) = Ok pd → child ∈ Children pd →
  child_done cs st sid V (req_ObjectType req) (req_ObjectID req) child).
{ intros req pd child [Est Esid] Hin Hpd Hc.
  eapply (HV (req_ObjectType req) (req_ObjectID req) (req_Permission req)); [by exists pd| |done|done].
  unfold req_key in Hin. by rewrite Est, Esid in Hin. }
apply (grounded_mut cs (λ req, of_subject st sid req → req_key req ∉ V)
  (λ req child, of_subject st sid req →
     ¬ child_done cs st sid V (req_ObjectType req) (req_ObjectID req) child)).
- intros req pd child Hpd _ Hc _ IH Hs Hin. apply (IH Hs). exact (Hclosed req pd child Hs Hin Hpd Hc).
- intros req pd Hpd Ho _ _ _ Hs Hin. destruct (Hplain _ _ _ Hpd) as [[E|E] _]; by rewrite E in Ho.
- intros req pd child l Hpd Ho _ _ _ Hs Hin. destruct (Hplain _ _ _ Hpd) as [[E|E] _]; by rewrite E in Ho.
- unfold child_done. intros req child Hk Hd [<- <-]. rewrite Hk. by intros [? _].
- unfold child_done. intros req child l subj Hk Hl Hin Hr Hg IH [Est Esid]. rewrite Hk. intros [_ Hd].
  specialize (Hd l Hl subj Hin Hr).
  assert (∃ pd, GetPermission cs (sub_Type subj) (sub_Relation subj) = Ok pd) as (pd & Hpd)
    by (inversion Hg; eauto).
  rewrite Hpd in Hd. apply IH; [by split|]. unfold req_key. cbn. by rewrite Est, Esid.
- unfold child_done. intros req child l subj e Hk Hl Hin Hr He Hd [<- <-]. rewrite Hk. intros [_ Hc].
  specialize (Hc l Hl subj Hin Hr). by rewrite He in Hc.
- unfold child_done. intros req child l target Hk Hl Hin Hg IH [Est Esid]. rewrite Hk. intros Hd.
  specialize (Hd l Hl target Hin). unfold target_done in Hd.
  assert (∃ pd, GetPermission cs (obj_Type target) (ArrowPermission child) = Ok pd) as (pd & Hpd)
    by (inversion Hg; eauto).
  rewrite Hpd in Hd. apply IH; [by split|]. unfold req_key. cbn. by rewrite Est, Esid.
- unfold child_done. intros req child c Hk _ _ _. rewrite Hk. by intros [].
Qed.

Lemma walk_deny_final fuel req pd V' r :
GetPermission cs (req_ObjectType req) (req_Permission req) = Ok pd →
walkPermission cs MaxCheckDepth fuel req pd 0 ∅ = Some (V', Ok r) → Allowed r = false →
¬ grounded cs req.
Proof.
intros Hpd Hw Ha Hg.
destruct (walkPermission_denies cs MaxCheckDepth Hplain Hnames (req_SubjectType req) (req_SubjectID req)
  fuel 0 req pd ∅ V' r) as [[_ Hx] Hk]; [by split|done|by intros k ?%elem_of_empty|done|done|].
revert Hk. apply (closed_not_grounded (req_SubjectType req) (req_SubjectID req) V'); [|done|by split].
intros t i p Hn Hin. destruct (Hx _ Hin) as (t' & i' & p' & Hn' & Hk' & Hc); [set_solver|].
by destruct (node_key_inj cs Hnames _ _ _ _ _ _ _ _ Hn' Hn Hk') as (-> & -> & ->).
Qed.

(** The walk decides [grounded]; [Check] adds the condition at the top. *)
Lemma check_schema_decides fuel req r :
check_schema fuel MaxCheckDepth cs req = Some (Ok r) →
Allowed r = true ↔ grounded cs req ∧ condition_met cs req.
Proof.
intros H. split; [by eapply check_schema_sound|]. intros [Hg (pd & Hpd & Hc)].
unfold check_schema in H. rewrite Hpd in H.
destruct (walkPermission cs MaxCheckDepth fuel req pd 0 ∅) as [[V [r'|e|]]|] eqn:Ew; [|done..].
destruct (Allowed r') eqn:Ea; [|by destruct (walk_deny_final fuel req pd V r' Hpd Ew Ea)].
simpl in H. case_bool_decide; [rewrite Hc in H|]; by injection H as <-.
Qed.
End Decides.

(** ** Without errors *)

Section Universe.
Context {EL : ExprLang} {ST : TupleStore} (cs : CompiledSchema) (MaxCheckDepth : Z).
Context (Hplain : plain cs) (Hnames : names_ok cs).
Implicit Types (req : CheckRequest) (pd : PermissionDef) (V : gset string).

(** The queries of a check succeed. *)
Class StoreReads : Prop := {
CheckDirect_reads ot oid rel st sid : ∃ b, CheckDirect ot oid rel st sid = Ok b;
ListRelatedObjects_reads ot oid rel : ∃ l, ListRelatedObjects ot oid rel = Ok l;
ListSubjects_reads ot oid rel : ∃ l, ListSubjects ot oid rel = Ok l }.

(** A class of requests closed under what their walks visit, whose keys are in [U]. *)
Record universe (U : gset string) (inU : CheckRequest → Prop) : Prop := {
universe_key req : inU req → req_key req ∈ U;
universe_userset req rel l subj pd : inU req →
  ListSubjects (req_ObjectType req) (req_ObjectID req) rel = Ok l → subj ∈ l → sub_Relation subj ≠ "" →
  GetPermission cs (sub_Type subj) (sub_Relation subj) = Ok pd → inU (userset_request req subj);
universe_arrow req rel l target p pd : inU req →
  ListRelatedObjects (req_ObjectType req) (req_ObjectID req) rel = Ok l → target ∈ l →
  GetPermission cs (obj_Type target) p = Ok pd → inU (arrow_request req target p) }.

Context {SR : StoreReads} (U : gset string) (inU : CheckRequest → Prop) (HU : universe U inU).

(** A walk finishes: it has a result and stays in the universe. *)
Definition finishes {A} (m : walk A) V : Prop := ∃ V' a, m V = Some (V', Ok a) ∧ V ⊆ V' ∧ V' ⊆ U.

Lemma finishes_ret {A} (a : A) V : V ⊆ U → finishes (mret a) V.
Proof. intros HV. by exists V, a. Qed.

Lemma finishes_bind {A B} (m : walk A) (f : A → walk B) V :
finishes m V → (∀ a V', V ⊆ V' → V' ⊆ U → m V = Some (V', Ok a) → finishes (f a) V') → finishes (m ≫= f) V.
Proof.
intros (V1 & a & E & H1 & HU1) Hf. destruct (Hf a V1 H1 HU1 E) as (V2 & b & E2 & H2 & HU2).
exists V2, b. split; [unfold mbind, walk_bind; by rewrite E|]. split; [by etrans|done].
Qed.

Lemma finishes_lift {A} (m : res A) V : V ⊆ U → (∃ a, m = Ok a) → finishes (lift m) V.
Proof. intros HV [a ->]. by exists V, a. Qed.

Lemma finishes_has key V : V ⊆ U → finishes (has key) V.
Proof. intros HV. by eexists V, _. Qed.

Lemma finishes_first_allowed {A} (f : A → walk CheckResult) l d V :
(∀ x V, x ∈ l → V ⊆ U → (d ≤ Z.of_nat (size V))%Z → finishes (f x) V) →
V ⊆ U → (d ≤ Z.of_nat (size V))%Z → finishes (first_allowed f l) V.
Proof.
revert V. induction l as [|x l IH]; intros V Hf HV Hd; simpl; [by apply finishes_ret|].
apply finishes_bind; [apply Hf; [by left|done|done]|]. intros r V' HV' HU' _.
destruct (Allowed r); [by apply finishes_ret|]. apply IH; [|done|].
- intros y V1 Hy. apply Hf. by right.
- apply subseteq_size in HV'. lia.
Qed.

Definition finishes_at (rec : CheckRequest → PermissionDef → Z → walk CheckResult) (d : Z) : Prop :=
∀ req pd V, inU req → GetPermission cs (req_ObjectType req) (req_Permission req) = Ok pd →
V ⊆ U → (d ≤ Z.of_nat (size V))%Z → req_key req ∉ V → finishes (rec req pd d) V.

Section Step.
Context (rec : CheckRequest → PermissionDef → Z → walk CheckResult) (depth : Z).
Context (Hrec : finishes_at rec (depth + 1)).

Lemma walk_subject_finishes req rel l subj V :
inU req → ListSubjects (req_ObjectType req) (req_ObjectID req) rel = Ok l → subj ∈ l →
V ⊆ U → (depth + 1 ≤ Z.of_nat (size V))%Z → finishes (walk_subject cs rec req depth subj) V.
Proof.
intros Hin Hl Hs HV Hd. unfold walk_subject. case_bool_decide as Hr; [by apply finishes_ret|].
apply finishes_bind; [by apply finishes_has|]. intros seen V' _ _ [= <- <-].
case_bool_decide as Hseen; [by apply finishes_ret|].
destruct (GetPermission cs (sub_Type subj) (sub_Relation subj)) as [pd|e|] eqn:Eg.
- apply Hrec; [by eapply (universe_userset _ _ HU)|done..].
- destruct (CheckDirect_reads (sub_Type subj) (sub_ID subj) (sub_Relation subj)
    (req_SubjectType req) (req_SubjectID req)) as [b ->]. destruct b; by apply finishes_ret.
- by destruct (GetPermission_no_panic cs _ _ Eg).
Qed.

Lemma walk_target_finishes req rel l p target V :
inU req → ListRelatedObjects (req_ObjectType req) (req_ObjectID req) rel = Ok l → target ∈ l →
V ⊆ U → (depth + 1 ≤ Z.of_nat (size V))%Z → finishes (walk_target cs rec req p depth target) V.
Proof.
intros Hin Hl Ht HV Hd. unfold walk_target.
apply finishes_bind; [by apply finishes_has|]. intros seen V' _ _ [= <- <-].
case_bool_decide as Hseen; [by apply finishes_ret|].
destruct (GetPermission cs (obj_Type target) p) as [pd|e|] eqn:Eg.
- apply Hrec; [by eapply (universe_arrow _ _ HU)|done..].
- by apply finishes_ret.
- by destruct (GetPermission_no_panic cs _ _ Eg).
Qed.

Lemma walkChild_finishes req child V :
inU req → Kind child ≠ kind_condition → V ⊆ U → (depth + 1 ≤ Z.of_nat (size V))%Z →
finishes (walkChild cs rec req depth child) V.
Proof.
intros Hin Hk HV Hd. unfold walkChild. destruct (Kind child); [| |done].
- apply finishes_bind; [apply finishes_lift; [done|apply CheckDirect_reads]|].
  intros ok V' HV' HU' [<- _]%lift_Ok. destruct ok; [by apply finishes_ret|].
  apply finishes_bind; [apply finishes_lift; [done|apply ListSubjects_reads]|].
  intros l V'' _ _ [<- Hl]%lift_Ok. eapply finishes_first_allowed; [|done|done].
  intros subj V1 Hs HV1 Hd1. by eapply walk_subject_finishes.
- apply finishes_bind; [apply finishes_lift; [done|apply ListRelatedObjects_reads]|].
  intros l V' _ _ [<- Hl]%lift_Ok. eapply finishes_first_allowed; [|done|done].
  intros target V1 Ht HV1 Hd1. by eapply walk_target_finishes.
Qed.

Lemma walk_step_finishes :
(Z.of_nat (size U) ≤ MaxCheckDepth + 1)%Z → finishes_at (walk_step cs MaxCheckDepth rec) depth.
Proof.
intros Hsize req pd V Hin Hpd HV Hd Hkey.
assert (HV1 : {[req_key req]} ∪ V ⊆ U) by (specialize (universe_key _ _ HU req Hin); set_solver).
pose proof (subseteq_size _ _ HV1) as Hle. rewrite size_union, size_singleton in Hle by set_solver.
unfold walk_step. rewrite (proj2 (Z.ltb_ge _ _)) by lia.
destruct (proj1 Hnames _ _ _ Hpd) as (Hn & _). rewrite Hn. fold (req_key req).
apply finishes_bind; [by apply finishes_has|]. intros seen V' _ _ [= <- <-].
rewrite bool_decide_eq_false_2 by done.
apply finishes_bind; [exists ({[req_key req]} ∪ V), (); split; [done|set_solver]|].
intros u V' HV' HU' [= <-]. destruct (Hplain _ _ _ Hpd) as [Hop Hkind].
assert (finishes (first_allowed (walkChild cs rec req depth) (Children pd)) ({[req_key req]} ∪ V)) as H.
{ apply (finishes_first_allowed _ _ (depth + 1)); [|done|].
  - intros child V1 Hc HV2 Hd1. rewrite Forall_forall in Hkind. apply walkChild_finishes; auto.
  - rewrite size_union, size_singleton by set_solver. lia. }
unfold walk_operation, walkUnion. destruct Hop as [Eo|Eo]; by rewrite Eo.
Qed.
End Step.

Lemma walkPermission_finishes fuel depth :
(Z.of_nat (size U) ≤ MaxCheckDepth + 1)%Z → enough MaxCheckDepth depth < fuel →
finishes_at (walkPermission cs MaxCheckDepth fuel) depth.
Proof.
intros Hsize. revert depth. unfold enough. induction fuel as [|fuel IH]; intros depth Hf; [lia|].
simpl. destruct (Z.ltb_spec MaxCheckDepth depth) as [Hd|Hd].
- intros req pd V Hin Hpd HV Hsz Hkey. exfalso.
  assert (HV1 : {[req_key req]} ∪ V ⊆ U) by (specialize (universe_key _ _ HU req Hin); set_solver).
  pose proof (subseteq_size _ _ HV1) as Hle. rewrite size_union, size_singleton in Hle by set_solver. lia.
- apply walk_step_finishes; [|done]. apply IH. lia.
Qed.

(** A check of a request in the universe decides, unless its condition fails to
  evaluate. *)
Lemma check_schema_finishes req pd fuel :
(Z.of_nat (size U) ≤ MaxCheckDepth + 1)%Z → inU req →
GetPermission cs (req_ObjectType req) (req_Permission req) = Ok pd → Condition pd = None →
check_fuel MaxCheckDepth ≤ fuel →
∃ r, check_schema fuel MaxCheckDepth cs req = Some (Ok r) ∧ (Allowed r = true ↔ grounded cs req).
Proof.
intros Hsize Hin Hpd Hcond Hf.
destruct (walkPermission_finishes fuel 0 Hsize ltac:(unfold check_fuel in Hf; lia) req pd ∅)
  as (V & r & Ew & _); [done|done|set_solver|rewrite size_empty; lia|set_solver|].
assert (Hc : check_schema fuel MaxCheckDepth cs req = Some (Ok r)).
{ unfold check_schema. rewrite Hpd, Ew, Hcond. by rewrite andb_false_r. }
exists r. split; [done|].
rewrite (check_schema_decides cs MaxCheckDepth Hplain Hnames fuel req r Hc).
split; [by intros []|]. intros Hg. split; [done|]. exists pd. by rewrite Hcond.
Qed.
End Universe.
