(* ===== verification/EngineSharing.v ===== *)
(** * What the shared visited set and the top-level condition do

    The children of a permission are walked one after the other with the same
    visited set.  An arrow to a target whose permission has been walked denies, so
    a second arrow to it makes an intersection deny and an exclusion exclude nothing.
    Conditions are evaluated by [Check] for the permission asked, never by the
    walks: those of permissions reached through arrows and usersets do not count. *)

From S2P Require Import Prelude GoLib ServerModel ServerSchema ServerEngine EngineTermination EngineSpec.

Open Scope nat_scope.

(** ** Steps *)

Lemma bind_has {A} key (f : bool → walk A) V : (has key ≫= f) V = f (bool_decide (key ∈ V)) V.
Proof. done. Qed.

Lemma bind_lift {A B} (a : A) (f : A → walk B) V : (lift (Ok a) ≫= f) V = f a V.
Proof. done. Qed.

Lemma first_allowed_one {A} (f : A → walk CheckResult) x V :
  first_allowed f [x] V =
  match f x V with
  | Some (V', Ok r) => Some (V', Ok (if Allowed r then r else deny))
  | o => o
  end.
Proof. simpl. unfold mbind, walk_bind. destruct (f x V) as [[V' [r|e|]]|]; [|done..]. by destruct (Allowed r). Qed.

(** ** Walks only add to the visited set *)

Definition grows {A} (m : walk A) : Prop := ∀ V V' r, m V = Some (V', r) → V ⊆ V'.

Section Grows.
Context {A B : Type}.

Lemma grows_ret (a : A) : grows (mret a).
Proof. by intros V V' r [= <- _]. Qed.

Lemma grows_lift (r : res A) : grows (lift r).
Proof. by intros V V' r' [= <- _]. Qed.

Lemma grows_bind (f : A → walk B) m : grows m → (∀ a, grows (f a)) → grows (m ≫= f).
Proof.
intros Hm Hf V V' r. unfold mbind, walk_bind. destruct (m V) as [[V1 [a|e|]]|] eqn:E; [| | |done].
- intros H. etrans; [by eapply Hm|by eapply Hf].
- intros [= <- _]. by eapply Hm.
- intros [= <- _]. by eapply Hm.
Qed.
End Grows.

Lemma grows_has key : grows (has key).
Proof. by intros V V' r [= <- _]. Qed.

Lemma grows_add key : grows (add key).
Proof. intros V V' r [= <- _]. apply union_subseteq_r. Qed.

#[export] Hint Resolve grows_ret grows_lift grows_bind grows_has grows_add : walk.

Section Loops.
Context {A : Type} (f : A → walk CheckResult) (Hf : ∀ x, grows (f x)).

Lemma grows_first_allowed l : grows (first_allowed f l).
Proof. induction l as [|x l IH]; simpl; [auto with walk|]. apply grows_bind; [done|]. intros r. destruct (Allowed r); auto with walk. Qed.

Lemma grows_all_allowed l : grows (all_allowed f l).
Proof. induction l as [|x l IH]; simpl; [auto with walk|]. apply grows_bind; [done|]. intros r. destruct (Allowed r); auto with walk. Qed.

Lemma grows_none_allowed l : grows (none_allowed f l).
Proof. induction l as [|x l IH]; simpl; [auto with walk|]. apply grows_bind; [done|]. intros r. destruct (Allowed r); auto with walk. Qed.
End Loops.

#[export] Hint Resolve grows_first_allowed grows_all_allowed grows_none_allowed : walk.

Section Walks.
Context {EL : ExprLang} {ST : TupleStore} (cs : CompiledSchema) (MaxCheckDepth : Z).

Lemma walkChild_grows rec req depth child :
(∀ req pd d, grows (rec req pd d)) → grows (walkChild cs rec req depth child).
Proof.
intros Hrec. unfold walkChild. destruct (Kind child).
- unfold walkRelation. apply grows_bind; [auto with walk|]. intros []; [auto with walk|].
  apply grows_bind; [auto with walk|]. intros l. apply grows_first_allowed. intros subj.
  unfold walk_subject. case_bool_decide; [auto with walk|]. apply grows_bind; [auto with walk|].
  intros []; [auto with walk|]. destruct (GetPermission _ _ _); [done| |auto with walk].
  destruct (CheckDirect _ _ _ _ _) as [[]| |]; auto with walk.
- unfold walkArrow. apply grows_bind; [auto with walk|]. intros l. apply grows_first_allowed. intros t.
  unfold walk_target. apply grows_bind; [auto with walk|]. intros []; [auto with walk|].
  destruct (GetPermission _ _ _); auto with walk.
- apply grows_bind; [auto with walk|]. intros c. apply grows_bind; auto with walk.
Qed.

Lemma walk_operation_grows rec req pd depth :
(∀ req pd d, grows (rec req pd d)) → grows (walk_operation cs rec req pd depth).
Proof.
intros Hrec. pose proof (λ c, walkChild_grows rec req depth c Hrec) as Hc.
unfold walk_operation, walkUnion, walkIntersect, walkExclusion.
destruct (Operation pd); [auto with walk| | |auto with walk].
- case_bool_decide; auto with walk.
- destruct (Children pd); [auto with walk|]. apply grows_bind; [done|].
  intros r. destruct (Allowed r); auto with walk.
Qed.

Lemma walkPermission_grows fuel req pd depth : grows (walkPermission cs MaxCheckDepth fuel req pd depth).
Proof.
revert req pd depth. induction fuel as [|fuel IH]; intros req pd depth; [done|]. simpl. unfold walk_step.
destruct (MaxCheckDepth <? depth)%Z; [auto with walk|]. apply grows_bind; [auto with walk|].
intros []; [auto with walk|]. apply grows_bind; [auto with walk|]. intros _. by apply walk_operation_grows.
Qed.

(** A walk that has a result has visited its node. *)
Lemma walkPermission_visits fuel req pd depth V V' r :
perm_Name pd = req_Permission req →
walkPermission cs MaxCheckDepth fuel req pd depth V = Some (V', Ok r) → req_key req ∈ V'.
Proof.
intros Hn. destruct fuel as [|fuel]; [done|]. simpl. unfold walk_step.
destruct (MaxCheckDepth <? depth)%Z; [done|]. rewrite Hn. fold (req_key req).
intros (V1 & seen & Es & H)%bind_Ok. injection Es as <- Es. destruct seen; [injection H as <- _; by bool_prop|].
apply bind_Ok in H as (V2 & u & Ea & H). injection Ea as <-.
apply (walk_operation_grows _ _ _ _ (walkPermission_grows fuel)) in H. set_solver.
Qed.

Section Shared.
Context (fuel : nat) (req : CheckRequest) (depth : Z).
Context (target : ObjectRef) (p : string) (tpd : PermissionDef).
Context (Htpd : GetPermission cs (obj_Type target) p = Ok tpd) (Htn : perm_Name tpd = p).

Definition arrow_to (child : PermissionRef) : Prop :=
Kind child = kind_arrow ∧ ArrowPermission child = p ∧
ListRelatedObjects (req_ObjectType req) (req_ObjectID req) (ArrowRef child) = Ok [target].

Abbreviation rec := (walkPermission cs MaxCheckDepth fuel).

(** An arrow to a target that has not been visited is the walk of the target. *)
Lemma arrow_first child V :
arrow_to child → req_key (arrow_request req target p) ∉ V →
walkChild cs rec req depth child V =
match rec (arrow_request req target p) tpd (depth + 1)%Z V with
| Some (V', Ok r) => Some (V', Ok (if Allowed r then r else deny))
| o => o
end.
Proof.
intros (Hk & Hp & Hl) Hnew. unfold walkChild, walkArrow. rewrite Hk, Hp, Hl, bind_lift, first_allowed_one.
unfold walk_target. by rewrite bind_has, bool_decide_eq_false_2, Htpd by done.
Qed.

(** An arrow to a visited target denies. *)
Lemma arrow_again child V :
arrow_to child → req_key (arrow_request req target p) ∈ V →
walkChild cs rec req depth child V = Some (V, Ok deny).
Proof.
intros (Hk & Hp & Hl) Hin. unfold walkChild, walkArrow. rewrite Hk, Hp, Hl, bind_lift, first_allowed_one.
unfold walk_target. by rewrite bind_has, bool_decide_eq_true_2 by done.
Qed.

(** After a first arrow, a second one to the same target denies. *)
Lemma second_arrow_denies child child' V V' r :
arrow_to child → arrow_to child' → walkChild cs rec req depth child V = Some (V', Ok r) →
walkChild cs rec req depth child' V' = Some (V', Ok deny).
Proof.
intros Hc Hc' H. apply arrow_again; [done|].
destruct (decide (req_key (arrow_request req target p) ∈ V)) as [Hin|Hnew].
- by rewrite (arrow_again child V Hc Hin) in H; injection H as <- _.
- rewrite (arrow_first child V Hc Hnew) in H.
  destruct (rec _ tpd _ V) as [[V1 [r1|e|]]|] eqn:E; [|done..]. injection H as <- _.
  by eapply walkPermission_visits.
Qed.

Lemma intersect_shared pd child child' V V' r :
Operation pd = PermOpIntersect → Children pd = [child; child'] → arrow_to child → arrow_to child' →
walk_operation cs rec req pd depth V = Some (V', Ok r) → Allowed r = false.
Proof.
intros Ho Hch Hc Hc'. unfold walk_operation, walkIntersect. rewrite Ho, Hch. cbn.
intros (V1 & r1 & H1 & H)%bind_Ok. destruct (Allowed r1); [|by injection H as _ <-].
unfold mbind, walk_bind in H. by rewrite (second_arrow_denies _ _ _ _ _ Hc Hc' H1) in H; injection H as _ <-.
Qed.

Lemma exclusion_shared pd child child' V V1 r1 :
Operation pd = PermOpExclusion → Children pd = [child; child'] → arrow_to child → arrow_to child' →
walkChild cs rec req depth child V = Some (V1, Ok r1) → Allowed r1 = true →
walk_operation cs rec req pd depth V = Some (V1, Ok (allow [])).
Proof.
intros Ho Hch Hc Hc' H1 Hr. unfold walk_operation, walkExclusion. rewrite Ho, Hch. cbn.
unfold mbind, walk_bind. rewrite H1, Hr. cbn. unfold mbind, walk_bind.
by rewrite (second_arrow_denies _ _ _ _ _ Hc Hc' H1).
Qed.
End Shared.
End Walks.

(** ** Conditions below the top *)

Section Strip.
Context {EL : ExprLang} {ST : TupleStore}.

Definition strip_perm (pd : PermissionDef) : PermissionDef :=
MkPermissionDef (perm_Name pd) (Operation pd) (Children pd) None.

(** The schema without the conditions of its permissions. *)
Definition strip_type (td : TypeDef) : TypeDef :=
MkTypeDef (type_Name td) (Attributes td) (Relations td) (strip_perm <$> Permissions td).

Definition strip (cs : CompiledSchema) : CompiledSchema :=
MkCompiledSchema (strip_type <$> Types cs) (Version cs) (Hash cs) (CompiledAt cs).

Lemma strip_GetPermission cs t p :
GetPermission (strip cs) t p =
match GetPermission cs t p with Ok pd => Ok (strip_perm pd) | Err e => Err e | Panic => Panic end.
Proof.
unfold GetPermission. cbn. rewrite lookup_fmap. destruct (Types cs !! t) as [td|]; [|done]. cbn.
rewrite lookup_fmap. by destruct (Permissions td !! p).
Qed.

Lemma walkChild_strip cs rec rec' req depth child :
(∀ req pd, rec req pd (depth + 1)%Z ≡ rec' req (strip_perm pd) (depth + 1)%Z) →
walkChild cs rec req depth child ≡ walkChild (strip cs) rec' req depth child.
Proof.
intros Hrec. unfold walkChild. destruct (Kind child); [| |done].
- unfold walkRelation. apply walk_bind_agree; [done|]. intros []; [done|].
  apply walk_bind_agree; [done|]. intros l. apply first_allowed_agree. intros subj.
  unfold walk_subject. case_bool_decide; [done|]. apply walk_bind_agree; [done|]. intros []; [done|].
  rewrite strip_GetPermission. by destruct (GetPermission cs _ _).
- unfold walkArrow. apply walk_bind_agree; [done|]. intros l. apply first_allowed_agree. intros target.
  unfold walk_target. apply walk_bind_agree; [done|]. intros []; [done|].
  rewrite strip_GetPermission. by destruct (GetPermission cs _ _).
Qed.

Lemma walkPermission_strip cs MaxCheckDepth fuel req pd depth :
walkPermission cs MaxCheckDepth fuel req pd depth ≡
walkPermission (strip cs) MaxCheckDepth fuel req (strip_perm pd) depth.
Proof.
revert req pd depth. induction fuel as [|fuel IH]; intros req pd depth; [done|]. simpl.
unfold walk_step. destruct (MaxCheckDepth <? depth)%Z; [done|]. cbn [strip_perm perm_Name].
apply walk_bind_agree; [done|]. intros []; [done|]. apply walk_bind_agree; [done|]. intros _.
pose proof (λ c, walkChild_strip cs (walkPermission cs MaxCheckDepth fuel)
  (walkPermission (strip cs) MaxCheckDepth fuel) req depth c (λ r p, IH r p _)) as Hc.
unfold walk_operation, walkUnion, walkIntersect, walkExclusion. cbn [strip_perm Operation Children].
destruct (Operation pd); [by apply first_allowed_agree| | |by apply first_allowed_agree].
- case_bool_decide; [done|]. by apply all_allowed_agree.
- destruct (Children pd) as [|c l]; [done|]. apply walk_bind_agree; [done|].
  intros r. destruct (Allowed r); [by apply none_allowed_agree|done].
Qed.
End Strip.
