(* ===== verification/EngineSteps.v ===== *)
(** * The permission check, one query of the store at a time

    ServerEngine.v checks against a store that stands still.  The code calls the store
    again and again, each call under the store's mutex, and other requests run between
    two calls.  Here the same functions are dialogues: they ask a query, wait for its
    answer and go on.  [check_follows]: when one store answers every query the dialogue
    is the check of ServerEngine.v. *)

From S2P Require Import Prelude GoLib ServerModel ServerSchema ServerEngine.

(** ** Queries *)

(** A call of [storage.TupleStore], with its arguments. *)
Inductive query :=
  | QDirect (objectType objectID relation subjectType subjectID : string)
  | QRelatedObjects (objectType objectID relation : string)
  | QSubjects (objectType objectID relation : string)
  | QObjectAttributes (objectType objectID : string)
  | QSubjectAttributes (subjectType subjectID : string).

Definition answer_type {EL : ExprLang} (q : query) : Type :=
  match q with
  | QDirect _ _ _ _ _ => bool
  | QRelatedObjects _ _ _ => list ObjectRef
  | QSubjects _ _ _ => list SubjectRef
  | QObjectAttributes _ _ | QSubjectAttributes _ _ => gomap any
  end.

(** What a store answers. *)
Definition consult {EL : ExprLang} (ST : TupleStore) (q : query) : res (answer_type q) :=
  match q with
  | QDirect ot oid rel st sid => CheckDirect ot oid rel st sid
  | QRelatedObjects ot oid rel => ListRelatedObjects ot oid rel
  | QSubjects ot oid rel => ListSubjects ot oid rel
  | QObjectAttributes ot oid => GetObjectAttributes ot oid
  | QSubjectAttributes st sid => GetSubjectAttributes st sid
  end.

(** ** Dialogues *)

Section Dialogues.
Context {EL : ExprLang}.

(** A computation that has ended, or asks and goes on with the answer. *)
Inductive dialogue (A : Type) :=
| Says (a : A)
| Asks (q : query) (k : res (answer_type q) → dialogue A).

#[global] Arguments Says {A} a.
#[global] Arguments Asks {A} q k.

#[export] Instance dialogue_ret : MRet dialogue := @Says.

#[export] Instance dialogue_bind : MBind dialogue := λ A B f,
fix bind m :=
  match m with
  | Says a => f a
  | Asks q k => Asks q (λ r, bind (k r))
  end.

(** The dialogue with a store that stands still. *)
Fixpoint answered_by {A} (ST : TupleStore) (m : dialogue A) : A :=
match m with
| Says a => a
| Asks q k => answered_by ST (k (consult ST q))
end.

Lemma answered_bind {A B} ST (m : dialogue A) (f : A → dialogue B) :
answered_by ST (m ≫= f) = answered_by ST (f (answered_by ST m)).
Proof. induction m as [a|q k IH]; [done|]. apply IH. Qed.

(** A walk that asks: like [walk], it shares the visited set, and [None] is out of fuel. *)
Definition asking (A : Type) : Type := gset string → dialogue (option (gset string * res A)).

#[export] Instance asking_ret : MRet asking := λ A a V, Says (Some (V, Ok a)).

#[export] Instance asking_bind : MBind asking := λ A B f m V,
dialogue_bind _ _ (λ o, match o with
| None => Says None
| Some (V', Ok a) => f a V'
| Some (V', Err e) => Says (Some (V', Err e))
| Some (V', Panic) => Says (Some (V', Panic))
end) (m V).

Definition asking_lift {A} (r : res A) : asking A := λ V, Says (Some (V, r)).

(** A call whose error the caller looks at, and one whose error it returns. *)
Definition attempt (q : query) : asking (res (answer_type q)) := λ V, Asks q (λ r, Says (Some (V, Ok r))).
Definition call (q : query) : asking (answer_type q) := λ V, Asks q (λ r, Says (Some (V, r))).
End Dialogues.

(** ** The walks *)

Module Steps.

Definition has {EL : ExprLang} (key : string) : asking bool := λ V, Says (Some (V, Ok (bool_decide (key ∈ V)))).
Definition add {EL : ExprLang} (key : string) : asking () := λ V, Says (Some ({[key]} ∪ V, Ok ())).

Section Loops.
Context {EL : ExprLang} {A : Type} (f : A → asking CheckResult).

Fixpoint first_allowed (l : list A) : asking CheckResult :=
match l with
| [] => mret deny
| x :: l => result ← f x; if Allowed result then mret result else first_allowed l
end.

Fixpoint all_allowed (l : list A) : asking CheckResult :=
match l with
| [] => mret (allow [])
| x :: l => result ← f x; if Allowed result then all_allowed l else mret deny
end.

Fixpoint none_allowed (l : list A) : asking CheckResult :=
match l with
| [] => mret (allow [])
| x :: l => excluded ← f x; if Allowed excluded then mret deny else none_allowed l
end.
End Loops.

Section Engine.
Context {EL : ExprLang}.

(** Attributes that cannot be read are an empty map. *)
Definition attributes (r : res (gomap any)) : res (gomap any) :=
match r with Ok m => Ok m | Err _ => Ok (Some ∅) | Panic => Panic end.

(** The condition's program on what was read. *)
Definition run_condition (req : CheckRequest) (program : Program) (objAttrs subAttrs : gomap any) : res bool :=
let env := <["object" := objAttrs]> (<["subject" := subAttrs]> {["request" := req_Context req]}) in
match expr_Run program env with
| inl err => Err (Wrap "evaluate condition" (Errorf err))
| inr result =>
    match any_bool result with
    | Some allowed => Ok allowed
    | None => Err (Errorf "condition did not return bool")
    end
end.

(** [condition.go] *)
Definition evaluateCondition (req : CheckRequest) (cond : option ConditionExpr) : asking bool :=
match cond ≫= Compiled with
| None => mret true
| Some program =>
    r ← attempt (QObjectAttributes (req_ObjectType req) (req_ObjectID req));
    objAttrs ← asking_lift (attributes r);
    r' ← attempt (QSubjectAttributes (req_SubjectType req) (req_SubjectID req));
    subAttrs ← asking_lift (attributes r');
    asking_lift (run_condition req program objAttrs subAttrs)
end.

Section Walks.
Context (cs : CompiledSchema) (MaxCheckDepth : Z).
Context (rec : CheckRequest → PermissionDef → Z → asking CheckResult).

(** One userset of [walkRelation]'s loop. *)
Definition walk_subject (req : CheckRequest) (depth : Z) (subj : SubjectRef) : asking CheckResult :=
if bool_decide (sub_Relation subj = "") then mret deny
else
  let subReq := userset_request req subj in
  seen ← has (req_key subReq);
  if (seen : bool) then mret deny
  else match GetPermission cs (sub_Type subj) (sub_Relation subj) with
  | Err _ =>
      subOk ← attempt (QDirect (sub_Type subj) (sub_ID subj) (sub_Relation subj)
                         (req_SubjectType req) (req_SubjectID req));
      match subOk with
      | Ok true => mret (allow [req_key subReq])
      | Ok false | Err _ => mret deny
      | Panic => asking_lift Panic
      end
  | Ok subPermDef => rec subReq subPermDef (depth + 1)
  | Panic => asking_lift Panic
  end.

Definition walkRelation (req : CheckRequest) (relation : string) (depth : Z) : asking CheckResult :=
ok ← call (QDirect (req_ObjectType req) (req_ObjectID req) relation (req_SubjectType req) (req_SubjectID req));
if (ok : bool) then
  mret (allow [visitKey (req_ObjectType req) (req_ObjectID req) relation
                 (req_SubjectType req) (req_SubjectID req)])
else
  subjects ← call (QSubjects (req_ObjectType req) (req_ObjectID req) relation);
  first_allowed (walk_subject req depth) subjects.

(** One target of [walkArrow]'s loop. *)
Definition walk_target (req : CheckRequest) (permission : string) (depth : Z) (target : ObjectRef)
  : asking CheckResult :=
let subReq := arrow_request req target permission in
seen ← has (req_key subReq);
if (seen : bool) then mret deny
else match GetPermission cs (obj_Type target) permission with
| Err _ => mret deny
| Ok permDef => rec subReq permDef (depth + 1)
| Panic => asking_lift Panic
end.

Definition walkArrow (req : CheckRequest) (relation permission : string) (depth : Z) : asking CheckResult :=
targets ← call (QRelatedObjects (req_ObjectType req) (req_ObjectID req) relation);
first_allowed (walk_target req permission depth) targets.

Definition walkChild (req : CheckRequest) (depth : Z) (child : PermissionRef) : asking CheckResult :=
match Kind child with
| kind_relation => walkRelation req (RelationRef child) depth
| kind_arrow => walkArrow req (ArrowRef child) (ArrowPermission child) depth
| kind_condition =>
    cond ← asking_lift (CompileConditionExpr (ref_ConditionExpr child));
    allowed ← evaluateCondition req (Some cond);
    mret (if (allowed : bool) then allow [] else deny)
end.

Definition walkUnion (req : CheckRequest) (permDef : PermissionDef) (depth : Z) : asking CheckResult :=
first_allowed (walkChild req depth) (Children permDef).

Definition walkIntersect (req : CheckRequest) (permDef : PermissionDef) (depth : Z) : asking CheckResult :=
if bool_decide (length (Children permDef) = 0) then mret deny
else all_allowed (walkChild req depth) (Children permDef).

Definition walkExclusion (req : CheckRequest) (permDef : PermissionDef) (depth : Z) : asking CheckResult :=
match Children permDef with
| [] => mret deny
| c :: exclusions =>
    base ← walkChild req depth c;
    if Allowed base then none_allowed (walkChild req depth) exclusions else mret deny
end.

Definition walk_operation (req : CheckRequest) (permDef : PermissionDef) (depth : Z) : asking CheckResult :=
match Operation permDef with
| PermOpUnion | PermOpDirect => walkUnion req permDef depth
| PermOpIntersect => walkIntersect req permDef depth
| PermOpExclusion => walkExclusion req permDef depth
end.

Definition walk_step (req : CheckRequest) (permDef : PermissionDef) (depth : Z) : asking CheckResult :=
if (MaxCheckDepth <? depth)%Z then asking_lift (Err (Errorf "max check depth exceeded"))
else
  let key := visitKey (req_ObjectType req) (req_ObjectID req) (perm_Name permDef)
               (req_SubjectType req) (req_SubjectID req) in
  seen ← has key;
  if (seen : bool) then mret deny
  else add key;; walk_operation req permDef depth.
End Walks.

Fixpoint walkPermission (cs : CompiledSchema) (MaxCheckDepth : Z) (fuel : nat)
  (req : CheckRequest) (permDef : PermissionDef) (depth : Z) : asking CheckResult :=
match fuel with
| O => λ _, Says None
| S fuel => walk_step cs MaxCheckDepth (walkPermission cs MaxCheckDepth fuel) req permDef depth
end.

(** The part of [Check] after the permission is found: the walk, then the condition. *)
Definition check_permission (fuel : nat) (MaxCheckDepth : Z) (cs : CompiledSchema) (req : CheckRequest)
  (permDef : PermissionDef) : dialogue (option (res CheckResult)) :=
o ← walkPermission cs MaxCheckDepth fuel req permDef 0 ∅;
match o with
| None => Says None
| Some (V, Ok result) =>
    if Allowed result && bool_decide (is_Some (Condition permDef)) then
      c ← evaluateCondition req (Condition permDef) V;
      Says match c with
           | Some (_, Ok true) => Some (Ok result)
           | Some (_, Ok false) => Some (Ok deny)
           | Some (_, Err err) => Some (Err (Wrap "condition evaluation" err))
           | Some (_, Panic) => Some Panic
           | None => None
           end
    else Says (Some (Ok result))
| Some (_, r) => Says (Some r)
end.

(** The part of [Check] after the schema is found. *)
Definition check_schema (fuel : nat) (MaxCheckDepth : Z) (cs : CompiledSchema) (req : CheckRequest)
  : dialogue (option (res CheckResult)) :=
match GetPermission cs (req_ObjectType req) (req_Permission req) with
| Err err => Says (Some (Err err))
| Panic => Says (Some Panic)
| Ok permDef => check_permission fuel MaxCheckDepth cs req permDef
end.
End Engine.
End Steps.

(** ** A store that stands still *)

Section Follows.
Context {EL : ExprLang} {ST : TupleStore}.

(** The dialogue with the store is the walk. *)
Definition follows {A} (m : asking A) (w : walk A) : Prop := ∀ V, answered_by ST (m V) = w V.

Lemma follows_bind {A B} (m : asking A) w (f : A → asking B) g :
follows m w → (∀ a, follows (f a) (g a)) → follows (m ≫= f) (w ≫= g).
Proof.
intros Hm Hf V. etrans; [exact (answered_bind ST (m V) _)|]. rewrite (Hm V).
unfold mbind, walk_bind. destruct (w V) as [[V' [a|e|]]|]; [apply Hf|done..].
Qed.

Lemma follows_call q : follows (call q) (lift (consult ST q)).
Proof. done. Qed.

(** A call whose error is looked at. *)
Lemma follows_attempt {A} q (f : res (answer_type q) → asking A) w :
follows (f (consult ST q)) w → follows (attempt q ≫= f) w.
Proof. intros Hf V. apply Hf. Qed.
End Follows.

Section FollowsLoops.
Context {EL : ExprLang} {ST : TupleStore} {A : Type} (f : A → asking CheckResult) (g : A → walk CheckResult).
Context (Hf : ∀ x, follows (f x) (g x)).

Lemma follows_first_allowed l : follows (Steps.first_allowed f l) (first_allowed g l).
Proof using Hf.
induction l as [|x l IH]; simpl; [done|]. apply follows_bind; [done|]. intros r. by destruct (Allowed r).
Qed.

Lemma follows_all_allowed l : follows (Steps.all_allowed f l) (all_allowed g l).
Proof using Hf.
induction l as [|x l IH]; simpl; [done|]. apply follows_bind; [done|]. intros r. by destruct (Allowed r).
Qed.

Lemma follows_none_allowed l : follows (Steps.none_allowed f l) (none_allowed g l).
Proof using Hf.
induction l as [|x l IH]; simpl; [done|]. apply follows_bind; [done|]. intros r. by destruct (Allowed r).
Qed.
End FollowsLoops.

Section FollowsWalks.
Context {EL : ExprLang} {ST : TupleStore} (cs : CompiledSchema) (MaxCheckDepth : Z).
Implicit Types (req : CheckRequest) (pd : PermissionDef).

Lemma evaluateCondition_follows req c : follows (Steps.evaluateCondition req c) (lift (evaluateCondition req c)).
Proof.
unfold Steps.evaluateCondition, evaluateCondition. destruct (c ≫= Compiled) as [p|]; [|done].
apply follows_attempt. cbn [consult]. destruct (GetObjectAttributes _ _) as [o|e|]; [..|done];
  (apply follows_attempt; cbn [consult]; by destruct (GetSubjectAttributes _ _)).
Qed.

Section Step.
Context (rec : CheckRequest → PermissionDef → Z → asking CheckResult).
Context (rec' : CheckRequest → PermissionDef → Z → walk CheckResult).
Context (Hrec : ∀ req pd d, follows (rec req pd d) (rec' req pd d)).

Lemma walk_subject_follows req depth subj :
follows (Steps.walk_subject cs rec req depth subj) (walk_subject cs rec' req depth subj).
Proof using Hrec.
unfold Steps.walk_subject, walk_subject. case_bool_decide; [done|]. apply follows_bind; [done|]. intros []; [done|].
destruct (GetPermission cs _ _); [apply Hrec| |done]. apply follows_attempt. cbn [consult].
by destruct (CheckDirect _ _ _ _ _) as [[]| |].
Qed.

Lemma walkChild_follows req depth child :
follows (Steps.walkChild cs rec req depth child) (walkChild cs rec' req depth child).
Proof using Hrec.
unfold Steps.walkChild, walkChild. destruct (Kind child).
- apply follows_bind; [exact (follows_call (QDirect _ _ _ _ _))|]. intros []; [done|].
  apply follows_bind; [exact (follows_call (QSubjects _ _ _))|]. intros l. apply follows_first_allowed, walk_subject_follows.
- apply follows_bind; [exact (follows_call (QRelatedObjects _ _ _))|]. intros l. apply follows_first_allowed. intros target.
  apply follows_bind; [done|]. intros []; [done|]. destruct (GetPermission cs _ _); [apply Hrec|done..].
- apply follows_bind; [done|]. intros c. apply follows_bind; [apply evaluateCondition_follows|done].
Qed.

Lemma walk_step_follows req pd depth :
follows (Steps.walk_step cs MaxCheckDepth rec req pd depth) (walk_step cs MaxCheckDepth rec' req pd depth).
Proof using Hrec.
unfold Steps.walk_step, walk_step. destruct (_ <? _)%Z; [done|].
apply follows_bind; [done|]. intros []; [done|]. apply follows_bind; [done|]. intros _.
pose proof (walkChild_follows req depth) as Hc.
unfold Steps.walk_operation, Steps.walkUnion, Steps.walkIntersect, Steps.walkExclusion.
unfold walk_operation, walkUnion, walkIntersect, walkExclusion. destruct (Operation pd).
1,4: by apply follows_first_allowed.
- case_bool_decide; [done|]. by apply follows_all_allowed.
- destruct (Children pd) as [|c l]; [done|]. apply follows_bind; [done|].
  intros r. destruct (Allowed r); [by apply follows_none_allowed|done].
Qed.
End Step.

Lemma walkPermission_follows fuel req pd depth :
follows (Steps.walkPermission cs MaxCheckDepth fuel req pd depth) (walkPermission cs MaxCheckDepth fuel req pd depth).
Proof. revert req pd depth. induction fuel as [|fuel IH]; [done|]. intros req pd depth. by apply walk_step_follows. Qed.

(** With one store answering every query, the dialogue is the check. *)
Lemma check_follows fuel req :
answered_by ST (Steps.check_schema fuel MaxCheckDepth cs req) = check_schema fuel MaxCheckDepth cs req.
Proof.
unfold Steps.check_schema, check_schema. destruct (GetPermission _ _ _) as [pd|e|]; [|done..].
unfold Steps.check_permission. rewrite answered_bind, walkPermission_follows.
destruct (walkPermission _ _ _ _ _ _ _) as [[V [r|e|]]|]; [|done..].
destruct (_ && _); [|done]. rewrite answered_bind, evaluateCondition_follows. cbn.
by destruct (evaluateCondition _ _) as [[]| |].
Qed.
End FollowsWalks.
