(* ===== verification/EngineMoments.v ===== *)
(** * What a check decides while the store changes

    The dialogue of EngineSteps.v with answers from different moments.  [saw] says which
    answers were given to which queries, by whatever stores there were.  An allow is
    granted by answers that were seen ([granted], the specification of EngineSpec.v over
    [saw]), and the dialogue ends without a panic whatever is answered. *)

From S2P Require Import Prelude GoLib ServerModel ServerSchema ServerEngine EngineTermination EngineSpec EngineSteps.

Open Scope nat_scope.

(** ** Ends of dialogues *)

Section Ends.
Context {EL : ExprLang} (saw : ∀ q, res (answer_type q) → Prop).

(** The dialogue can end so, with answers that were seen. *)
Inductive ends {A} : dialogue A → A → Prop :=
| ends_says a : ends (Says a) a
| ends_asks q k r a : saw q r → ends (k r) a → ends (Asks q k) a.

Lemma ends_says_inv {A} (a b : A) : ends (Says a) b → a = b.
Proof. intros H. by inversion H. Qed.

Lemma ends_asks_inv {A} q (k : res (answer_type q) → dialogue A) b :
ends (Asks q k) b → ∃ r, saw q r ∧ ends (k r) b.
Proof.
intros H. refine (match H in ends m a return
  match m with Says _ => True | Asks q k => ∃ r, saw q r ∧ ends (k r) a end
  with ends_says _ => I | ends_asks q k r a Hs He => _ end). by exists r.
Qed.

Lemma ends_bind_inv {A B} (m : dialogue A) (f : A → dialogue B) b :
ends (m ≫= f) b → ∃ a, ends m a ∧ ends (f a) b.
Proof.
induction m as [a|q k IH]; [intros H; exists a; split; [constructor|done]|].
intros (r & Hs & (a & Ha & Hb)%IH)%ends_asks_inv. exists a. split; [by econstructor|done].
Qed.

Lemma asking_bind_inv {A B} (m : asking A) (f : A → asking B) V o :
ends ((m ≫= f) V) o →
∃ o', ends (m V) o' ∧ match o' with
  | Some (V', Ok a) => ends (f a V') o
  | Some (V', Err e) => o = Some (V', Err e)
  | Some (V', Panic) => o = Some (V', Panic)
  | None => o = None
  end.
Proof.
intros (o' & Ho' & H)%ends_bind_inv. exists o'. split; [done|].
destruct o' as [[V' [a|e|]]|]; [done|by apply ends_says_inv in H..].
Qed.

Lemma asking_bind_Ok {A B} (m : asking A) (f : A → asking B) V V' c :
ends ((m ≫= f) V) (Some (V', Ok c)) →
∃ V1 b, ends (m V) (Some (V1, Ok b)) ∧ ends (f b V1) (Some (V', Ok c)).
Proof. intros ([[V1 [b|e|]]|] & Hm & H)%asking_bind_inv; [eauto|done..]. Qed.

Lemma lift_Ok_inv {A} (r : res A) V V' a : ends (asking_lift r V) (Some (V', Ok a)) → V' = V ∧ r = Ok a.
Proof. by intros [= -> ->]%ends_says_inv. Qed.

Lemma call_Ok_inv q V V' a : ends (call q V) (Some (V', Ok a)) → V' = V ∧ saw q (Ok a).
Proof. intros (r & Hs & [= -> ->]%ends_says_inv)%ends_asks_inv. done. Qed.

Lemma attempt_Ok_inv q V V' r : ends (attempt q V) (Some (V', Ok r)) → V' = V ∧ saw q r.
Proof. intros (r' & Hs & [= -> ->]%ends_says_inv)%ends_asks_inv. done. Qed.

Section Loops.
Context {A : Type} (f : A → asking CheckResult).

Lemma first_allowed_ends l V V' r :
ends (Steps.first_allowed f l V) (Some (V', Ok r)) → Allowed r = true →
∃ x V1 V2, x ∈ l ∧ ends (f x V1) (Some (V2, Ok r)).
Proof.
revert V. induction l as [|x l IH]; intros V; simpl; [by intros [= _ <-]%ends_says_inv|].
intros (V1 & r1 & E & H)%asking_bind_Ok Hr. destruct (Allowed r1) eqn:Er.
- apply ends_says_inv in H as [= -> ->]. exists x, V, V'. split; [by left|done].
- destruct (IH V1 H Hr) as (y & V2 & V3 & Hy & Hf). exists y, V2, V3. split; [by right|done].
Qed.

Lemma all_allowed_ends l V V' r x :
ends (Steps.all_allowed f l V) (Some (V', Ok r)) → Allowed r = true → x ∈ l →
∃ V1 V2 r', ends (f x V1) (Some (V2, Ok r')) ∧ Allowed r' = true.
Proof.
revert V. induction l as [|y l IH]; intros V; simpl; [by intros _ _ ?%elem_of_nil|].
intros (V1 & r1 & E & H)%asking_bind_Ok Hr [->|Hx]%elem_of_cons.
- destruct (Allowed r1) eqn:Er; [by exists V, V1, r1|]. by apply ends_says_inv in H as [= _ <-].
- destruct (Allowed r1); [by eapply IH|]. by apply ends_says_inv in H as [= _ <-].
Qed.
End Loops.

(** ** The specification over what was seen *)

Context (cs : CompiledSchema).
Implicit Types (req : CheckRequest) (pd : PermissionDef) (child : PermissionRef).

(** A condition is true of attributes that were read. *)
Definition condition_seen req (cond : option ConditionExpr) : Prop :=
match cond ≫= Compiled with
| None => True
| Some program =>
    ∃ r r' objAttrs subAttrs,
      saw (QObjectAttributes (req_ObjectType req) (req_ObjectID req)) r ∧ Steps.attributes r = Ok objAttrs ∧
      saw (QSubjectAttributes (req_SubjectType req) (req_SubjectID req)) r' ∧ Steps.attributes r' = Ok subAttrs ∧
      Steps.run_condition req program objAttrs subAttrs = Ok true
end.

(** [granted req]: a derivation that the permission of the request is granted, from tuples
  that were seen; for an exclusion, that its base is. *)
Inductive granted : CheckRequest → Prop :=
| granted_union req pd child :
    GetPermission cs (req_ObjectType req) (req_Permission req) = Ok pd →
    Operation pd = PermOpUnion ∨ Operation pd = PermOpDirect →
    child ∈ Children pd → child_granted req child → granted req
| granted_intersect req pd :
    GetPermission cs (req_ObjectType req) (req_Permission req) = Ok pd →
    Operation pd = PermOpIntersect → Children pd ≠ [] →
    (∀ child, child ∈ Children pd → child_granted req child) → granted req
| granted_exclusion req pd child l :
    GetPermission cs (req_ObjectType req) (req_Permission req) = Ok pd →
    Operation pd = PermOpExclusion → Children pd = child :: l →
    child_granted req child → granted req
with child_granted : CheckRequest → PermissionRef → Prop :=
| granted_direct req child :
    Kind child = kind_relation →
    saw (QDirect (req_ObjectType req) (req_ObjectID req) (RelationRef child) (req_SubjectType req)
           (req_SubjectID req)) (Ok true) → child_granted req child
| granted_userset req child l subj :
    Kind child = kind_relation →
    saw (QSubjects (req_ObjectType req) (req_ObjectID req) (RelationRef child)) (Ok l) → subj ∈ l →
    sub_Relation subj ≠ "" → granted (userset_request req subj) → child_granted req child
| granted_group req child l subj e :
    Kind child = kind_relation →
    saw (QSubjects (req_ObjectType req) (req_ObjectID req) (RelationRef child)) (Ok l) → subj ∈ l →
    sub_Relation subj ≠ "" → GetPermission cs (sub_Type subj) (sub_Relation subj) = Err e →
    saw (QDirect (sub_Type subj) (sub_ID subj) (sub_Relation subj) (req_SubjectType req) (req_SubjectID req))
      (Ok true) → child_granted req child
| granted_arrow req child l target :
    Kind child = kind_arrow →
    saw (QRelatedObjects (req_ObjectType req) (req_ObjectID req) (ArrowRef child)) (Ok l) → target ∈ l →
    granted (arrow_request req target (ArrowPermission child)) → child_granted req child
| granted_condition req child c :
    Kind child = kind_condition →
    CompileConditionExpr (ref_ConditionExpr child) = Ok c →
    condition_seen req (Some c) → child_granted req child.

Scheme granted_mut := Minimality for granted Sort Prop
  with child_granted_mut := Minimality for child_granted Sort Prop.

(** ** An allow is granted by what was seen *)

Context (MaxCheckDepth : Z).

Lemma evaluateCondition_seen req c V V' :
ends (Steps.evaluateCondition req c V) (Some (V', Ok true)) → condition_seen req c.
Proof.
unfold Steps.evaluateCondition, condition_seen. destruct (c ≫= Compiled) as [p|]; [|done].
intros (V1 & r & [_ Hr]%(attempt_Ok_inv (QObjectAttributes _ _)) & H)%asking_bind_Ok.
apply asking_bind_Ok in H as (V2 & o & [_ Ho]%lift_Ok_inv & H).
apply asking_bind_Ok in H as (V3 & r' & [_ Hr']%(attempt_Ok_inv (QSubjectAttributes _ _)) & H).
apply asking_bind_Ok in H as (V4 & s & [_ Hs]%lift_Ok_inv & [_ H]%lift_Ok_inv).
by exists r, r', o, s.
Qed.

Definition seen_sound (rec : CheckRequest → PermissionDef → Z → asking CheckResult) : Prop :=
∀ req pd depth V V' r,
  GetPermission cs (req_ObjectType req) (req_Permission req) = Ok pd →
  ends (rec req pd depth V) (Some (V', Ok r)) → Allowed r = true → granted req.

Section Step.
Context (rec : CheckRequest → PermissionDef → Z → asking CheckResult) (Hrec : seen_sound rec).

Lemma walk_subject_seen req child depth l subj V V' r :
Kind child = kind_relation →
saw (QSubjects (req_ObjectType req) (req_ObjectID req) (RelationRef child)) (Ok l) → subj ∈ l →
ends (Steps.walk_subject cs rec req depth subj V) (Some (V', Ok r)) → Allowed r = true → child_granted req child.
Proof using Hrec.
intros Hk Hl Hs. unfold Steps.walk_subject. case_bool_decide as Hr; [by intros [= _ <-]%ends_says_inv|].
intros (V1 & seen & _ & H)%asking_bind_Ok Ha. destruct seen; [by apply ends_says_inv in H as [= _ <-]|].
destruct (GetPermission cs (sub_Type subj) (sub_Relation subj)) as [pd|e|] eqn:Eg; [| |by apply ends_says_inv in H].
- apply (granted_userset req child l subj Hk Hl Hs Hr). by eapply (Hrec (userset_request req subj)).
- apply asking_bind_Ok in H as (V2 & b & [_ Hd]%(attempt_Ok_inv (QDirect _ _ _ _ _)) & H).
  destruct b as [[]|e'|]; try by apply ends_says_inv in H as [= _ <-].
  exact (granted_group req child l subj e Hk Hl Hs Hr Eg Hd).
Qed.

Lemma walk_target_seen req child depth l target V V' r :
Kind child = kind_arrow →
saw (QRelatedObjects (req_ObjectType req) (req_ObjectID req) (ArrowRef child)) (Ok l) → target ∈ l →
ends (Steps.walk_target cs rec req (ArrowPermission child) depth target V) (Some (V', Ok r)) →
Allowed r = true → child_granted req child.
Proof using Hrec.
intros Hk Hl Ht (V1 & seen & _ & H)%asking_bind_Ok Ha. destruct seen; [by apply ends_says_inv in H as [= _ <-]|].
destruct (GetPermission cs (obj_Type target) (ArrowPermission child)) as [pd|e|] eqn:Eg;
  [|by apply ends_says_inv in H as [= _ <-]|by apply ends_says_inv in H].
apply (granted_arrow req child l target Hk Hl Ht).
by eapply (Hrec (arrow_request req target (ArrowPermission child))).
Qed.

Lemma walkChild_seen req child depth V V' r :
ends (Steps.walkChild cs rec req depth child V) (Some (V', Ok r)) → Allowed r = true → child_granted req child.
Proof using Hrec.
unfold Steps.walkChild. destruct (Kind child) eqn:Ek; intros H Ha.
- apply asking_bind_Ok in H as (V1 & [] & [_ Hd]%(call_Ok_inv (QDirect _ _ _ _ _)) & H); [by apply granted_direct|].
  apply asking_bind_Ok in H as (V2 & l & [_ Hl]%(call_Ok_inv (QSubjects _ _ _)) & H).
  destruct (first_allowed_ends _ _ _ _ _ H Ha) as (subj & V3 & V4 & Hs & Hw). by eapply walk_subject_seen.
- apply asking_bind_Ok in H as (V1 & l & [_ Hl]%(call_Ok_inv (QRelatedObjects _ _ _)) & H).
  destruct (first_allowed_ends _ _ _ _ _ H Ha) as (target & V2 & V3 & Ht & Hw). by eapply walk_target_seen.
- apply asking_bind_Ok in H as (V1 & c & [_ Hc]%lift_Ok_inv & H).
  apply asking_bind_Ok in H as (V2 & b & Hb & H). apply ends_says_inv in H as [= _ <-]. destruct b; [|done].
  eapply granted_condition; [done|done|by eapply evaluateCondition_seen].
Qed.

Lemma walk_step_seen : seen_sound (Steps.walk_step cs MaxCheckDepth rec).
Proof using Hrec.
intros req pd depth V V' r Hpd. unfold Steps.walk_step.
destruct (MaxCheckDepth <? depth)%Z; [by intros ?%ends_says_inv|].
intros (V1 & seen & _ & H)%asking_bind_Ok Ha. destruct seen; [by apply ends_says_inv in H as [= _ <-]|].
apply asking_bind_Ok in H as (V2 & [] & _ & H). unfold Steps.walk_operation in H.
destruct (Operation pd) eqn:Eo.
1,4: destruct (first_allowed_ends _ _ _ _ _ H Ha) as (child & V3 & V4 & Hc & Hw);
  (eapply granted_union; [done|by auto|done|by eapply walkChild_seen]).
- unfold Steps.walkIntersect in H. case_bool_decide as Hn; [by apply ends_says_inv in H as [= _ <-]|].
  eapply granted_intersect; [done|done|by intros E; rewrite E in Hn|]. intros child Hc.
  destruct (all_allowed_ends _ _ _ _ _ child H Ha Hc) as (V3 & V4 & r' & Hw & Hr'). by eapply walkChild_seen.
- unfold Steps.walkExclusion in H. destruct (Children pd) as [|child l] eqn:Ec; [by apply ends_says_inv in H as [= _ <-]|].
  apply asking_bind_Ok in H as (V3 & base & Hw & H).
  destruct (Allowed base) eqn:Eb; [|by apply ends_says_inv in H as [= _ <-]].
  eapply granted_exclusion; [done|done|done|by eapply walkChild_seen].
Qed.
End Step.

Lemma walkPermission_seen fuel : seen_sound (Steps.walkPermission cs MaxCheckDepth fuel).
Proof.
induction fuel as [|fuel IH]; [by intros req pd depth V V' r _ ?%ends_says_inv|].
intros req pd depth. by apply walk_step_seen.
Qed.

Lemma check_schema_seen fuel req r :
ends (Steps.check_schema fuel MaxCheckDepth cs req) (Some (Ok r)) → Allowed r = true →
granted req ∧
∃ pd, GetPermission cs (req_ObjectType req) (req_Permission req) = Ok pd ∧ condition_seen req (Condition pd).
Proof.
unfold Steps.check_schema, Steps.check_permission.
destruct (GetPermission cs _ _) as [pd|e|] eqn:Eg; [|by intros ?%ends_says_inv..].
intros (o & Ho & H)%ends_bind_inv Hr. destruct o as [[V [r'|e|]]|]; try by apply ends_says_inv in H.
destruct (Allowed r') eqn:Ea; [|by apply ends_says_inv in H as [= <-]; rewrite Ea in Hr]. cbn [andb] in H.
split; [by eapply walkPermission_seen|]. exists pd. split; [done|]. case_bool_decide as Hc.
- apply ends_bind_inv in H as (c & Hcond & H). apply ends_says_inv in H.
  destruct c as [[V2 [[]|e|]]|]; try done; [by eapply evaluateCondition_seen|]. injection H as <-. done.
- unfold condition_seen. destruct (Condition pd); [by destruct Hc|done].
Qed.
End Ends.

(** Seeing more answers loses nothing. *)
Section Monotone.
Context {EL : ExprLang} (saw saw' : ∀ q, res (answer_type q) → Prop) (Hsaw : ∀ q r, saw q r → saw' q r).

Lemma ends_mono {A} (m : dialogue A) a : ends saw m a → ends saw' m a.
Proof using Hsaw. induction 1; [constructor|]. econstructor; eauto. Qed.

Lemma condition_seen_mono req cond : condition_seen saw req cond → condition_seen saw' req cond.
Proof using Hsaw.
unfold condition_seen. destruct (cond ≫= Compiled); [|done].
intros (r & r' & o & s & H1 & ? & H2 & ? & ?). exists r, r', o, s. eauto 8.
Qed.

Lemma granted_mono cs req : granted saw cs req → granted saw' cs req.
Proof using Hsaw.
revert req. apply (granted_mut saw cs (granted saw' cs) (child_granted saw' cs)).
- intros. by eapply granted_union.
- intros. by eapply granted_intersect.
- intros. by eapply granted_exclusion.
- intros. by apply granted_direct, Hsaw.
- intros. eapply granted_userset; eauto.
- intros. eapply granted_group; eauto.
- intros. eapply granted_arrow; eauto.
- intros req child c Hk Hc Hm. apply (granted_condition saw' cs req child c Hk Hc). by apply condition_seen_mono.
Qed.
End Monotone.

(** Seen from one store, granted is grounded. *)
Lemma granted_grounded {EL : ExprLang} {ST : TupleStore} (saw : ∀ q, res (answer_type q) → Prop) cs req :
  (∀ q r, saw q r → consult ST q = r) → granted saw cs req → grounded cs req.
Proof.
  intros Hsaw. revert req. apply (granted_mut saw cs (grounded cs) (child_grounded cs)).
  - intros req pd child Hg Ho Hc _ H. by eapply grounded_union.
  - intros req pd Hg Ho Hn _ Hc. by eapply grounded_intersect.
  - intros req pd child l Hg Ho Hl _ Hc. by eapply grounded_exclusion.
  - intros req child Hk Hd%Hsaw. by apply grounded_direct.
  - intros req child l subj Hk Hl%Hsaw Hs Hr _ Hg. by eapply grounded_userset.
  - intros req child l subj e Hk Hl%Hsaw Hs Hr He Hd%Hsaw. by eapply grounded_group.
  - intros req child l target Hk Hl%Hsaw Ht _ Hg. by eapply grounded_arrow.
  - intros req child c Hk Hc Hs. apply (grounded_condition cs req child c Hk Hc).
    unfold condition_seen in Hs. unfold evaluateCondition. destruct (Some c ≫= Compiled) as [p|]; [|done].
    destruct Hs as (r & r' & o & s & Ho%Hsaw & Eo & Hs%Hsaw & Es & Hrun). cbn [consult] in Ho, Hs.
    rewrite Ho, Hs. destruct r, r'; simplify_eq/=; exact Hrun.
Qed.

(** ** Checks end whatever is answered *)

Section Always.
Context {EL : ExprLang} (saw : ∀ q, res (answer_type q) → Prop) (Hsaw : ∀ q r, saw q r → r ≠ Panic).

(** Every end of the dialogue is a result and not a panic. *)
Definition settles {A} (m : asking A) : Prop :=
∀ V o, ends saw (m V) o → ∃ V' r, o = Some (V', r) ∧ r ≠ Panic.

Lemma settles_ret {A} (a : A) : settles (mret a).
Proof. intros V o <-%ends_says_inv. by exists V, (Ok a). Qed.

Lemma settles_lift {A} (r : res A) : r ≠ Panic → settles (asking_lift r).
Proof. intros Hr V o <-%ends_says_inv. by exists V, r. Qed.

Lemma settles_bind {A B} (m : asking A) (f : A → asking B) : settles m → (∀ a, settles (f a)) → settles (m ≫= f).
Proof.
intros Hm Hf V o (o' & Ho' & H)%asking_bind_inv. destruct (Hm V o' Ho') as (V' & r & -> & Hr).
destruct r as [a|e|]; [by eapply Hf| |done]. subst. by exists V', (Err e).
Qed.

Lemma settles_has key : settles (Steps.has key).
Proof. intros V o <-%ends_says_inv. by eexists V, _. Qed.

Lemma settles_add key : settles (Steps.add key).
Proof. intros V o <-%ends_says_inv. by eexists _, _. Qed.

Lemma settles_call q : settles (call q).
Proof using Hsaw. intros V o (r & Hs%Hsaw & <-%ends_says_inv)%ends_asks_inv. by exists V, r. Qed.

(** An attempt gives what was answered. *)
Lemma settles_attempt {A} q (f : res (answer_type q) → asking A) :
(∀ r, r ≠ Panic → settles (f r)) → settles (attempt q ≫= f).
Proof using Hsaw. intros Hf V o (r & Hs%Hsaw & H)%ends_asks_inv. by eapply Hf. Qed.
End Always.

#[export] Hint Resolve settles_ret settles_lift settles_bind settles_has settles_add settles_call : walk.

Section AlwaysLoops.
Context {EL : ExprLang} (saw : ∀ q, res (answer_type q) → Prop) {A : Type} (f : A → asking CheckResult).
Context (Hf : ∀ x, settles saw (f x)).

Lemma settles_first_allowed l : settles saw (Steps.first_allowed f l).
Proof using Hf.
induction l as [|x l IH]; simpl; [auto with walk|]. apply settles_bind; [done|]. intros r. destruct (Allowed r); auto with walk.
Qed.

Lemma settles_all_allowed l : settles saw (Steps.all_allowed f l).
Proof using Hf.
induction l as [|x l IH]; simpl; [auto with walk|]. apply settles_bind; [done|]. intros r. destruct (Allowed r); auto with walk.
Qed.

Lemma settles_none_allowed l : settles saw (Steps.none_allowed f l).
Proof using Hf.
induction l as [|x l IH]; simpl; [auto with walk|]. apply settles_bind; [done|]. intros r. destruct (Allowed r); auto with walk.
Qed.
End AlwaysLoops.

#[export] Hint Resolve settles_first_allowed settles_all_allowed settles_none_allowed : walk.

Section AlwaysWalks.
Context {EL : ExprLang} (saw : ∀ q, res (answer_type q) → Prop) (Hsaw : ∀ q r, saw q r → r ≠ Panic).
Context (cs : CompiledSchema) (MaxCheckDepth : Z).
Implicit Types (req : CheckRequest) (pd : PermissionDef).

Lemma attributes_no_panic r : r ≠ Panic → Steps.attributes r ≠ Panic.
Proof. by destruct r. Qed.

Lemma run_condition_no_panic req p o s : Steps.run_condition req p o s ≠ Panic.
Proof. unfold Steps.run_condition. destruct (expr_Run p _) as [|v]; [done|]. by destruct (any_bool v). Qed.

Lemma evaluateCondition_settles req c : settles saw (Steps.evaluateCondition req c).
Proof using Hsaw.
unfold Steps.evaluateCondition. destruct (c ≫= Compiled) as [p|]; [|auto with walk].
apply settles_attempt; [done|]. intros r Hr. apply settles_bind; [by apply settles_lift, attributes_no_panic|]. intros o.
apply settles_attempt; [done|]. intros r' Hr'. apply settles_bind; [by apply settles_lift, attributes_no_panic|]. intros s.
apply settles_lift, run_condition_no_panic.
Qed.

Section Step.
Context (rec : CheckRequest → PermissionDef → Z → asking CheckResult) (depth : Z).
Context (Hrec : ∀ req pd, settles saw (rec req pd (depth + 1))).

Lemma walk_subject_settles req subj : settles saw (Steps.walk_subject cs rec req depth subj).
Proof using Hsaw Hrec.
unfold Steps.walk_subject. case_bool_decide; [auto with walk|]. apply settles_bind; [auto with walk|].
intros []; [auto with walk|]. pose proof (GetPermission_no_panic cs (sub_Type subj) (sub_Relation subj)) as Hp.
destruct (GetPermission cs _ _); [auto with walk| |done].
apply (settles_attempt saw Hsaw (QDirect _ _ _ _ _)). intros [[]|e'|] Hr; auto with walk.
Qed.

Lemma walk_target_settles req p target : settles saw (Steps.walk_target cs rec req p depth target).
Proof using Hrec.
apply settles_bind; [auto with walk|]. intros []; [auto with walk|].
pose proof (GetPermission_no_panic cs (obj_Type target) p) as Hp.
destruct (GetPermission cs (obj_Type target) p); [auto with walk..|done].
Qed.

Lemma walkChild_settles req child : settles saw (Steps.walkChild cs rec req depth child).
Proof using Hsaw Hrec.
unfold Steps.walkChild. destruct (Kind child).
- apply settles_bind; [by apply (settles_call saw Hsaw (QDirect _ _ _ _ _))|]. intros []; [auto with walk|].
  apply settles_bind; [by apply (settles_call saw Hsaw (QSubjects _ _ _))|]. intros l.
  apply settles_first_allowed, walk_subject_settles.
- apply settles_bind; [by apply (settles_call saw Hsaw (QRelatedObjects _ _ _))|]. intros l.
  apply settles_first_allowed, walk_target_settles.
- apply settles_bind; [by apply settles_lift, CompileConditionExpr_answers|]. intros c.
  apply settles_bind; [apply evaluateCondition_settles|auto with walk].
Qed.

Lemma walk_step_settles req pd : settles saw (Steps.walk_step cs MaxCheckDepth rec req pd depth).
Proof using Hsaw Hrec.
unfold Steps.walk_step. destruct (MaxCheckDepth <? depth)%Z; [by apply settles_lift|].
apply settles_bind; [auto with walk|]. intros []; [auto with walk|]. apply settles_bind; [auto with walk|]. intros _.
pose proof (walkChild_settles req) as Hc.
unfold Steps.walk_operation, Steps.walkUnion, Steps.walkIntersect, Steps.walkExclusion.
destruct (Operation pd); [auto with walk| | |auto with walk].
- case_bool_decide; auto with walk.
- destruct (Children pd) as [|c l]; [auto with walk|].
  apply settles_bind; [done|]. intros r. destruct (Allowed r); auto with walk.
Qed.
End Step.

Lemma walkPermission_settles fuel req pd depth :
enough MaxCheckDepth depth < fuel → settles saw (Steps.walkPermission cs MaxCheckDepth fuel req pd depth).
Proof using Hsaw.
revert req pd depth. unfold enough. induction fuel as [|fuel IH]; intros req pd depth Hf; [lia|].
simpl. destruct (Z.ltb_spec MaxCheckDepth depth) as [Hd|Hd].
- unfold Steps.walk_step. rewrite (proj2 (Z.ltb_lt _ _)) by lia. by apply settles_lift.
- apply walk_step_settles. intros req' pd'. apply IH. lia.
Qed.

(** With the fuel of a check, its dialogue has a result. *)
Lemma check_schema_settles req o :
ends saw (Steps.check_schema (check_fuel MaxCheckDepth) MaxCheckDepth cs req) o → ∃ r, o = Some r ∧ r ≠ Panic.
Proof using Hsaw.
unfold Steps.check_schema, Steps.check_permission.
pose proof (GetPermission_no_panic cs (req_ObjectType req) (req_Permission req)) as Hp.
destruct (GetPermission cs _ _) as [pd|e|]; [|by intros <-%ends_says_inv; exists (Err e)|done].
intros (o' & Ho & H)%ends_bind_inv.
destruct (walkPermission_settles (check_fuel MaxCheckDepth) req pd 0 ltac:(unfold check_fuel; lia) ∅ o' Ho)
  as (V & r & -> & Hr).
destruct r as [result|e|]; [|apply ends_says_inv in H as <-; by exists (Err e)|done].
destruct (_ && _); [|apply ends_says_inv in H as <-; by exists (Ok result)].
apply ends_bind_inv in H as (c & Hc & H). apply ends_says_inv in H as <-.
destruct (evaluateCondition_settles _ _ V c Hc) as (V' & rc & -> & Hrc).
destruct rc as [[]|e|]; [by exists (Ok result)|by exists (Ok deny)|by eexists (Err _)|done].
Qed.
End AlwaysWalks.
