(* ===== verification/ServerStore.v ===== *)
(** * The memory store of the server

    [pkg/storage/memory/store.go].  The store is one record of maps; an operation
    takes the store, the time its calls of [time.Now] give and the tenant context of
    the request, and returns the store with the result.  The mutex makes every
    operation atomic, so a history of the store is a sequence of operations. *)

From stdpp Require Import sorting.
From S2P Require Import Prelude GoLib ServerModel ServerSchema ServerEngine Changelog.

Open Scope nat_scope.

Section Store.
Context {EL : ExprLang}.

#[export] Instance entry_sequenced : Sequenced ChangelogEntry := Sequence.

(** Tenants and their data buckets, by tenant identifier. *)
Record Store := MkStore {
tenants : gmap string Tenant;
tuples : gmap string (list RelationTuple);
objAttrs : gmap string (gmap string (gomap any));
subAttrs : gmap string (gmap string (gomap any));
log_entries : gmap string (list ChangelogEntry);   (* [changelog] *)
seqCounters : gmap string Z }.                     (* [seqCounter] *)

Definition NewStore : Store := MkStore ∅ ∅ ∅ ∅ ∅ ∅.

Definition set_tenants (f : gmap string Tenant → gmap string Tenant) (s : Store) : Store :=
MkStore (f (tenants s)) (tuples s) (objAttrs s) (subAttrs s) (log_entries s) (seqCounters s).

Definition set_tuples (tenantID : string) (ts : list RelationTuple) (s : Store) : Store :=
MkStore (tenants s) (<[tenantID := ts]> (tuples s)) (objAttrs s) (subAttrs s) (log_entries s) (seqCounters s).

(** The slice [s.tuples[tenantID]], nil when there is no bucket. *)
Definition tuples_of (s : Store) (tenantID : string) : list RelationTuple := default [] (tuples s !! tenantID).

(** The log and the counter of a tenant. *)
Definition log_of (s : Store) (tenantID : string) : tenant_log ChangelogEntry :=
MkLog (default 0%Z (seqCounters s !! tenantID)) (default [] (log_entries s !! tenantID)).

Definition set_log (tenantID : string) (l : tenant_log ChangelogEntry) (s : Store) : Store :=
MkStore (tenants s) (tuples s) (objAttrs s) (subAttrs s)
  (<[tenantID := changelog l]> (log_entries s)) (<[tenantID := seqCounter l]> (seqCounters s)).

Definition tenantIDFromCtx (ctx : option TenantContext) : res string :=
match ctx with None => Err ErrNoTenantContext | Some tc => Ok (tc_TenantID tc) end.

Definition initTenant (tenantID : string) (s : Store) : Store :=
match tuples s !! tenantID with
| Some _ => s
| None => MkStore (tenants s) (<[tenantID := []]> (tuples s)) (<[tenantID := ∅]> (objAttrs s))
            (<[tenantID := ∅]> (subAttrs s)) (<[tenantID := []]> (log_entries s))
            (<[tenantID := 0%Z]> (seqCounters s))
end.

(** ** Tenants *)

Definition CreateTenant (now : Time) (s : Store) (tenant : Tenant) : Store * res () :=
match tenants s !! ID tenant with
| Some _ => (s, Err (Errorf "tenant already exists"))
| None =>
    let t := MkTenant (ID tenant) (DisplayName tenant) (ParentTenantID tenant) (Status tenant)
               (tenant_SchemaMode tenant) (SharedSchemaRef tenant) (Config tenant)
               (if IsZero (t_CreatedAt tenant) then now else t_CreatedAt tenant) now in
    (initTenant (ID tenant) (set_tenants <[ID tenant := t]> s), Ok ())
end.

Definition GetTenant (s : Store) (tenantID : string) : res Tenant :=
match tenants s !! tenantID with None => Err ErrTenantNotFound | Some t => Ok t end.

Definition UpdateTenant (now : Time) (s : Store) (tenant : Tenant) : Store * res () :=
match tenants s !! ID tenant with
| None => (s, Err ErrTenantNotFound)
| Some _ =>
    let t := MkTenant (ID tenant) (DisplayName tenant) (ParentTenantID tenant) (Status tenant)
               (tenant_SchemaMode tenant) (SharedSchemaRef tenant) (Config tenant)
               (t_CreatedAt tenant) now in
    (set_tenants <[ID tenant := t]> s, Ok ())
end.

(** [int] is 64 bits wide and wraps around; [tenants[start:end]] panics when the
  bounds are not in order. *)
Definition int_add (a b : Z) : Z := ((a + b + 2 ^ 63) mod 2 ^ 64 - 2 ^ 63)%Z.

Definition applyTenantFilter (l : list Tenant) (filter : option TenantFilter) : res (list Tenant) :=
match filter with
| None => Ok l
| Some filter =>
    let len := Z.of_nat (length l) in
    if (len <=? Offset filter)%Z then Ok []
    else
      let start := if (Offset filter <? 0)%Z then 0%Z else Offset filter in
      let endd := if (0 <? Limit filter)%Z && (int_add start (Limit filter) <? len)%Z
                  then int_add start (Limit filter) else len in
      if (endd <? start)%Z then Panic
      else Ok (take (Z.to_nat (endd - start)) (drop (Z.to_nat start) l))
end.

Definition matches_tenant (filter : option TenantFilter) (t : Tenant) : bool :=
match filter with
| None => true
| Some f =>
    (bool_decide (flt_Status f = "") || bool_decide (status_text (Status t) = flt_Status f)) &&
    (bool_decide (ParentID f = "") || bool_decide (ParentTenantID t = ParentID f))
end.

(** [result[i].ID < result[j].ID] of the sort. *)
Definition id_le (t t' : Tenant) : Prop := String.le (ID t) (ID t').

#[export] Instance id_le_dec : RelDecision id_le := λ t t', String.le_dec (ID t) (ID t').

Definition ListTenants (s : Store) (filter : option TenantFilter) : res (list Tenant) :=
applyTenantFilter
  (merge_sort id_le (base.filter (λ t, matches_tenant filter t = true) ((map_to_list (tenants s)).*2)))
  filter.

(** ** Guards *)

Definition checkTenantWritable (s : Store) (tenantID : string) : option error :=
match tenants s !! tenantID with
| None => Some ErrTenantNotFound
| Some t =>
    match Status t with
    | TenantDeleted => Some ErrTenantDeleted
    | TenantSuspended => Some ErrTenantSuspended
    | TenantPending => Some ErrTenantSuspended
    | TenantActive => None
    end
end.

Definition checkTenantReadable (s : Store) (tenantID : string) : option error :=
match tenants s !! tenantID with
| None => Some ErrTenantNotFound
| Some t => if bool_decide (Status t = TenantDeleted) then Some ErrTenantDeleted else None
end.

(** The opening of every operation on tenant data that writes, and that reads. *)
Definition writing {A} (ctx : option TenantContext) (s : Store) (body : string → Store * res A) : Store * res A :=
match tenantIDFromCtx ctx with
| Ok tenantID =>
    match checkTenantWritable s tenantID with
    | Some err => (s, Err err)
    | None => body tenantID
    end
| Err err => (s, Err err)
| Panic => (s, Panic)
end.

Definition reading {A} (ctx : option TenantContext) (s : Store) (body : string → res A) : res A :=
tenantID ← tenantIDFromCtx ctx;
match checkTenantReadable s tenantID with
| Some err => Err err
| None => body tenantID
end.

(** ** Tuples *)

Definition tupleIsExpiredAt (now : Time) (t : RelationTuple) : bool :=
match ExpiresAt t with None => false | Some e => negb (now <? e)%Z end.

Definition tupleIdentityKey (t : RelationTuple) : string :=
ObjectType t +:+ ":" +:+ ObjectID t +:+ "#" +:+ Relation t +:+ "@" +:+ SubjectType t +:+ ":" +:+
SubjectID t +:+ "#" +:+ SubjectRelation t.

Definition appendTupleChangelogUnsafe (now : Time) (tenantID : string) (op : ChangeOp)
  (tuple : RelationTuple) (source : string) (s : Store) : Store :=
set_log tenantID
  (append_entry (λ n, MkChangelogEntry n tenantID op tuple now "" source None) (log_of s tenantID)) s.

(** The first loop of [writeTuplesLocked]: keys of live tuples, and the first index
  of each expired key. *)
Fixpoint scan (now : Time) (i : nat) (ts : list RelationTuple)
  (existingKeys : gset string) (expiredIndexes : gmap string nat) : gset string * gmap string nat :=
match ts with
| [] => (existingKeys, expiredIndexes)
| t :: ts =>
    let key := tupleIdentityKey t in
    if tupleIsExpiredAt now t then
      scan now (S i) ts existingKeys
        (match expiredIndexes !! key with Some _ => expiredIndexes | None => <[key := i]> expiredIndexes end)
    else scan now (S i) ts ({[key]} ∪ existingKeys) expiredIndexes
end.

(** The copy of a tuple that is stored. *)
Definition stamp (now : Time) (tenantID : string) (tuple : RelationTuple) : RelationTuple :=
MkRelationTuple tenantID (ObjectType tuple) (ObjectID tuple) (Relation tuple) (SubjectType tuple)
  (SubjectID tuple) (SubjectRelation tuple) (SubjectTenantID tuple) (rt_Attributes tuple) (ExpiresAt tuple)
  (if IsZero (rt_CreatedAt tuple) then now else rt_CreatedAt tuple) now (SourceSystem tuple) (ExternalID tuple).

(** The second loop: no key twice, none of a live tuple. *)
Fixpoint stage (now : Time) (tenantID : string) (existingKeys batchKeys : gset string)
  (l : list RelationTuple) : res (list RelationTuple) :=
match l with
| [] => Ok []
| tuple :: l =>
    let key := tupleIdentityKey tuple in
    if bool_decide (key ∈ existingKeys) then Err ErrDuplicateTuple
    else if bool_decide (key ∈ batchKeys) then Err ErrDuplicateTuple
    else
      staged ← stage now tenantID existingKeys ({[key]} ∪ batchKeys) l;
      Ok (stamp now tenantID tuple :: staged)
end.

(** The third loop: replace expired tuples in place, collect the others. *)
Fixpoint place (expiredIndexes : gmap string nat) (ts appends staged : list RelationTuple)
  : list RelationTuple * list RelationTuple :=
match staged with
| [] => (ts, appends)
| t :: staged =>
    match expiredIndexes !! tupleIdentityKey t with
    | Some idx => place expiredIndexes (<[idx := t]> ts) appends staged
    | None => place expiredIndexes ts (appends ++ [t]) staged
    end
end.

Definition writeTuplesLocked (now : Time) (tenantID : string) (l : list RelationTuple) (s : Store)
  : Store * res () :=
if bool_decide (length l = 0) then (s, Ok ())
else
  let '(existingKeys, expiredIndexes) := scan now 0 (tuples_of s tenantID) ∅ ∅ in
  match stage now tenantID existingKeys ∅ l with
  | Err err => (s, Err err)
  | Panic => (s, Panic)
  | Ok staged =>
      let '(ts, appends) := place expiredIndexes (tuples_of s tenantID) [] staged in
      (foldl (λ s t, appendTupleChangelogUnsafe now tenantID ChangeOpInsert t "api" s)
         (set_tuples tenantID (ts ++ appends) s) staged, Ok ())
  end.

Definition WriteTuples (now : Time) (ctx : option TenantContext) (l : list RelationTuple) (s : Store)
  : Store * res () :=
writing ctx s (λ tenantID, writeTuplesLocked now tenantID l s).

Definition WriteTuple (now : Time) (ctx : option TenantContext) (tuple : RelationTuple) (s : Store)
  : Store * res () :=
WriteTuples now ctx [tuple] s.

(** The fields [DeleteTuple] compares. *)
Definition same_tuple (t tuple : RelationTuple) : bool :=
bool_decide (ObjectType t = ObjectType tuple) && bool_decide (ObjectID t = ObjectID tuple) &&
bool_decide (Relation t = Relation tuple) && bool_decide (SubjectType t = SubjectType tuple) &&
bool_decide (SubjectID t = SubjectID tuple) && bool_decide (SubjectRelation t = SubjectRelation tuple).

(** The loop of [DeleteTuple]: the slice without its first match, and the match. *)
Fixpoint delete_first (tuple : RelationTuple) (ts : list RelationTuple)
  : option (RelationTuple * list RelationTuple) :=
match ts with
| [] => None
| t :: ts =>
    if same_tuple t tuple then Some (t, ts)
    else '(t', rest) ← delete_first tuple ts; Some (t', t :: rest)
end.

Definition DeleteTuple (now : Time) (ctx : option TenantContext) (tuple : RelationTuple) (s : Store)
  : Store * res () :=
writing ctx s (λ tenantID,
  match delete_first tuple (tuples_of s tenantID) with
  | None => (s, Err ErrNotFound)
  | Some (t, ts) =>
      (appendTupleChangelogUnsafe now tenantID ChangeOpDelete t "api" (set_tuples tenantID ts s), Ok ())
  end).

Definition field_matches (f v : string) : bool := bool_decide (f = "") || bool_decide (v = f).

Definition matchesTupleFilter (t : RelationTuple) (filter : option TupleFilter) : bool :=
match filter with
| None => true
| Some f =>
    field_matches (f_ObjectType f) (ObjectType t) && field_matches (f_ObjectID f) (ObjectID t) &&
    field_matches (f_Relation f) (Relation t) && field_matches (f_SubjectType f) (SubjectType t) &&
    field_matches (f_SubjectID f) (SubjectID t) && field_matches (f_SubjectRelation f) (SubjectRelation t)
end.

Definition ReadTuples (now : Time) (ctx : option TenantContext) (filter : option TupleFilter) (s : Store)
  : res (list RelationTuple) :=
reading ctx s (λ tenantID,
  let includeExpired := match filter with Some f => IncludeExpired f | None => false end in
  Ok (base.filter (λ t, (includeExpired || negb (tupleIsExpiredAt now t)) && matchesTupleFilter t filter = true)
        (tuples_of s tenantID))).

(** ** The lookups of a check *)

(** A live tuple of the object's relation. *)
Definition of_relation (now : Time) (objectType objectID relation : string) (t : RelationTuple) : bool :=
bool_decide (ObjectType t = objectType) && bool_decide (ObjectID t = objectID) &&
bool_decide (Relation t = relation) && negb (tupleIsExpiredAt now t).

Definition StoreCheckDirect (now : Time) (ctx : option TenantContext) (s : Store)
  (objectType objectID relation subjectType subjectID : string) : res bool :=
reading ctx s (λ tenantID,
  Ok (existsb (λ t, of_relation now objectType objectID relation t && bool_decide (SubjectType t = subjectType) &&
        bool_decide (SubjectID t = subjectID) && bool_decide (SubjectRelation t = ""))
      (tuples_of s tenantID))).

Definition StoreListRelatedObjects (now : Time) (ctx : option TenantContext) (s : Store)
  (objectType objectID relation : string) : res (list ObjectRef) :=
reading ctx s (λ tenantID,
  Ok ((λ t, MkObjectRef (SubjectType t) (SubjectID t)) <$>
      base.filter (λ t, of_relation now objectType objectID relation t = true) (tuples_of s tenantID))).

Definition StoreListSubjects (now : Time) (ctx : option TenantContext) (s : Store)
  (objectType objectID relation : string) : res (list SubjectRef) :=
reading ctx s (λ tenantID,
  Ok ((λ t, MkSubjectRef (SubjectType t) (SubjectID t) (SubjectRelation t)) <$>
      base.filter (λ t, of_relation now objectType objectID relation t = true) (tuples_of s tenantID))).

Definition Expand (now : Time) (ctx : option TenantContext) (s : Store)
  (objectType objectID relation : string) : res SubjectTree :=
reading ctx s (λ tenantID,
  Ok (MkSubjectTree (MkSubjectRef objectType objectID relation)
      ((λ t, MkSubjectTree (MkSubjectRef (SubjectType t) (SubjectID t) (SubjectRelation t)) []) <$>
       base.filter (λ t, of_relation now objectType objectID relation t = true) (tuples_of s tenantID)))).

Definition CheckDirectCrossTenant (now : Time) (s : Store)
  (targetTenantID objectType objectID relation subjectType subjectID : string) : res bool :=
match checkTenantReadable s targetTenantID with
| Some err => Err err
| None =>
    Ok (existsb (λ t, of_relation now objectType objectID relation t && bool_decide (SubjectType t = subjectType) &&
          bool_decide (SubjectID t = subjectID)) (tuples_of s targetTenantID))
end.
End Store.

Section Data.
Context {EL : ExprLang}.

(** ** Attributes *)

Record AttributesItem := MkAttributesItem {
item_TenantID : string;
item_Type : string;
item_ID : string;
item_Attributes : gomap any }.

Definition attr_key (typ id : string) : string := typ +:+ ":" +:+ id.

(** One implementation for objects and for subjects, on the map the code names. *)
Definition get_attributes (attrs : gmap string (gmap string (gomap any))) (tenantID typ id : string)
  : res (gomap any) :=
match default ∅ (attrs !! tenantID) !! attr_key typ id with
| Some m => Ok m
| None => Err ErrNotFound
end.

(** Assigning into the inner map panics when the tenant has none. *)
Definition set_attributes (attrs : gmap string (gmap string (gomap any))) (tenantID typ id : string)
  (m : gomap any) : res (gmap string (gmap string (gomap any))) :=
match attrs !! tenantID with
| Some inner => Ok (<[tenantID := <[attr_key typ id := m]> inner]> attrs)
| None => Panic
end.

Definition attr_item (tenantID typ : string) (p : string * gomap any) : option AttributesItem :=
match Index p.1 ":" with
| None => None
| Some idx =>
    let objType := str_take idx p.1 in
    if bool_decide (typ ≠ "") && bool_decide (objType ≠ typ) then None
    else Some (MkAttributesItem tenantID objType (str_drop (idx + 1) p.1) p.2)
end.

(** Go ranges over the map in no fixed order; the list here is in the order of the
    [gmap], so what is proved of it must not depend on the order. *)
Definition list_attributes (attrs : gmap string (gmap string (gomap any))) (tenantID typ : string)
  : list AttributesItem := omap (attr_item tenantID typ) (map_to_list (default ∅ (attrs !! tenantID))).

Definition StoreGetObjectAttributes (ctx : option TenantContext) (s : Store) (typ id : string)
  : res (gomap any) := reading ctx s (λ tenantID, get_attributes (objAttrs s) tenantID typ id).

Definition StoreGetSubjectAttributes (ctx : option TenantContext) (s : Store) (typ id : string)
  : res (gomap any) := reading ctx s (λ tenantID, get_attributes (subAttrs s) tenantID typ id).

Definition SetObjectAttributes (ctx : option TenantContext) (typ id : string) (m : gomap any) (s : Store)
  : Store * res () :=
writing ctx s (λ tenantID,
  match set_attributes (objAttrs s) tenantID typ id m with
  | Ok a => (MkStore (tenants s) (tuples s) a (subAttrs s) (log_entries s) (seqCounters s), Ok ())
  | Err e => (s, Err e)
  | Panic => (s, Panic)
  end).

Definition SetSubjectAttributes (ctx : option TenantContext) (typ id : string) (m : gomap any) (s : Store)
  : Store * res () :=
writing ctx s (λ tenantID,
  match set_attributes (subAttrs s) tenantID typ id m with
  | Ok a => (MkStore (tenants s) (tuples s) (objAttrs s) a (log_entries s) (seqCounters s), Ok ())
  | Err e => (s, Err e)
  | Panic => (s, Panic)
  end).

Definition ListObjectAttributes (ctx : option TenantContext) (s : Store) (typ : string)
  : res (list AttributesItem) := reading ctx s (λ tenantID, Ok (list_attributes (objAttrs s) tenantID typ)).

Definition ListSubjectAttributes (ctx : option TenantContext) (s : Store) (typ : string)
  : res (list AttributesItem) := reading ctx s (λ tenantID, Ok (list_attributes (subAttrs s) tenantID typ)).

(** ** Changelog and tenant data *)

Definition AppendChangelog (now : Time) (ctx : option TenantContext) (entry : ChangelogEntry) (s : Store)
  : Store * res () :=
writing ctx s (λ tenantID,
  (set_log tenantID (append_entry (λ n,
     MkChangelogEntry n tenantID (ce_Operation entry) (Tuple entry)
       (if IsZero (Timestamp entry) then now else Timestamp entry) (Actor entry) (Source entry)
       (Metadata entry)) (log_of s tenantID)) s, Ok ())).

Definition ReadChangelog (ctx : option TenantContext) (sinceSeq limit : Z) (s : Store)
  : res (list ChangelogEntry) :=
reading ctx s (λ tenantID, Ok (read_entries (changelog (log_of s tenantID)) sinceSeq limit)).

Definition LatestSequence (ctx : option TenantContext) (s : Store) : res Z :=
reading ctx s (λ tenantID, Ok (seqCounter (log_of s tenantID))).

Definition CountTuples (now : Time) (ctx : option TenantContext) (s : Store) : res Z :=
reading ctx s (λ tenantID,
  Ok (Z.of_nat (length (base.filter (λ t, tupleIsExpiredAt now t = false) (tuples_of s tenantID))))).

(** No guard on the tenant's status. *)
Definition PurgeTenantData (ctx : option TenantContext) (s : Store) : Store * res () :=
match tenantIDFromCtx ctx with
| Ok tenantID =>
    (MkStore (tenants s) (<[tenantID := []]> (tuples s)) (<[tenantID := ∅]> (objAttrs s))
       (<[tenantID := ∅]> (subAttrs s)) (<[tenantID := []]> (log_entries s))
       (<[tenantID := 0%Z]> (seqCounters s)), Ok ())
| Err err => (s, Err err)
| Panic => (s, Panic)
end.

(** The tuples [ExportTenantSnapshot] encodes, in order. *)
Definition ExportTenantSnapshot (now : Time) (ctx : option TenantContext) (s : Store)
  : res (list RelationTuple) :=
reading ctx s (λ tenantID,
  Ok (base.filter (λ t, tupleIsExpiredAt now t = false) (tuples_of s tenantID))).

(** ** The store as a component *)

(** The operations that write, each with the time of its clock. *)
Inductive operation :=
| OpCreateTenant (tenant : Tenant)
| OpUpdateTenant (tenant : Tenant)
| OpWriteTuples (l : list RelationTuple)
| OpDeleteTuple (tuple : RelationTuple)
| OpSetObjectAttributes (typ id : string) (m : gomap any)
| OpSetSubjectAttributes (typ id : string) (m : gomap any)
| OpAppendChangelog (entry : ChangelogEntry)
| OpPurgeTenantData.

Definition perform (now : Time) (ctx : option TenantContext) (o : operation) (s : Store) : Store * res () :=
match o with
| OpCreateTenant t => CreateTenant now s t
| OpUpdateTenant t => UpdateTenant now s t
| OpWriteTuples l => WriteTuples now ctx l s
| OpDeleteTuple t => DeleteTuple now ctx t s
| OpSetObjectAttributes typ id m => SetObjectAttributes ctx typ id m s
| OpSetSubjectAttributes typ id m => SetSubjectAttributes ctx typ id m s
| OpAppendChangelog e => AppendChangelog now ctx e s
| OpPurgeTenantData => PurgeTenantData ctx s
end.

(** The stores a history of operations leads to. *)
Inductive history : Store → Prop :=
| history_new : history NewStore
| history_step now ctx o s : history s → history (perform now ctx o s).1.
End Data.

(** What a check reads: the store at one moment, in the context of its request. *)
Definition memory_store {EL : ExprLang} (now : Time) (ctx : option TenantContext) (s : Store)
  : TupleStore :=
{| CheckDirect := StoreCheckDirect now ctx s;
   ListRelatedObjects := StoreListRelatedObjects now ctx s;
   ListSubjects := StoreListSubjects now ctx s;
   GetObjectAttributes := StoreGetObjectAttributes ctx s;
   GetSubjectAttributes := StoreGetSubjectAttributes ctx s |}.
