(* ===== verification/StoreFacts.v ===== *)
(** * Facts about the memory store

    The three loops of [writeTuplesLocked], the invariant of the store and its
    preservation, and the separation of tenants. *)

From Stdlib Require Import Ascii.
From S2P Require Import Prelude GoLib ServerModel ServerSchema ServerEngine Changelog ServerStore.

Open Scope nat_scope.
Open Scope list_scope.

(** ** The loops of a write *)

Section Write.
Context {EL : ExprLang}.
Implicit Types (t : RelationTuple) (ts l : list RelationTuple) (now : Z) (tenantID : string).

Definition keys ts : list string := tupleIdentityKey <$> ts.

(** The tuples as a map from identity keys. *)
Definition by_key ts : gmap string RelationTuple := list_to_map ((λ t, (tupleIdentityKey t, t)) <$> ts).

Lemma by_key_fst ts : ((λ t, (tupleIdentityKey t, t)) <$> ts).*1 = keys ts.
Proof. unfold keys. rewrite <-list_fmap_compose. by apply list_fmap_ext. Qed.

Lemma by_key_elem ts t : NoDup (keys ts) → by_key ts !! tupleIdentityKey t = Some t ↔ t ∈ ts.
Proof.
intros Hd. unfold by_key. rewrite <-elem_of_list_to_map by (by rewrite by_key_fst).
rewrite list_elem_of_fmap. split.
- by intros (t' & [= _ ->] & Ht).
- intros Ht. by exists t.
Qed.

Lemma by_key_Some ts k t : by_key ts !! k = Some t → t ∈ ts ∧ tupleIdentityKey t = k.
Proof.
intros H%elem_of_list_to_map_2. apply list_elem_of_fmap in H as (t' & [= -> ->] & Ht). done.
Qed.

Lemma by_key_None ts k : by_key ts !! k = None ↔ k ∉ keys ts.
Proof. unfold by_key. by rewrite <-not_elem_of_list_to_map, by_key_fst. Qed.

Lemma by_key_snoc ts t :
tupleIdentityKey t ∉ keys ts → by_key (ts ++ [t]) = <[tupleIdentityKey t := t]> (by_key ts).
Proof.
intros Hk. unfold by_key. rewrite fmap_app, list_to_map_app. simpl.
change (list_to_map ((λ t, (tupleIdentityKey t, t)) <$> ts)) with (by_key ts).
apply by_key_None in Hk. apply map_eq. intros k.
destruct (decide (k = tupleIdentityKey t)) as [->|Hne].
- rewrite lookup_insert_eq, lookup_union_r by done. apply lookup_insert_eq.
- rewrite lookup_insert_ne by done. rewrite lookup_union. rewrite lookup_insert_ne by done.
  rewrite lookup_empty. by destruct (by_key ts !! k).
Qed.

Lemma keys_insert ts idx t t0 :
ts !! idx = Some t0 → tupleIdentityKey t0 = tupleIdentityKey t → keys (<[idx := t]> ts) = keys ts.
Proof.
intros Hi Hk. unfold keys. rewrite list_fmap_insert, <-Hk. apply list_insert_id.
by rewrite list_lookup_fmap, Hi.
Qed.

Lemma by_key_insert ts idx t t0 :
NoDup (keys ts) → ts !! idx = Some t0 → tupleIdentityKey t0 = tupleIdentityKey t →
by_key (<[idx := t]> ts) = <[tupleIdentityKey t := t]> (by_key ts).
Proof.
intros Hd Hi Hk.
assert (Hd' : NoDup (keys (<[idx := t]> ts))) by (by erewrite keys_insert).
assert (Ht : t ∈ <[idx := t]> ts).
{ apply list_elem_of_lookup. exists idx. apply list_lookup_insert_eq. by eapply lookup_lt_Some. }
apply map_eq. intros k. destruct (decide (k = tupleIdentityKey t)) as [->|Hne].
- rewrite lookup_insert_eq. by apply by_key_elem.
- rewrite lookup_insert_ne by done. apply option_eq. intros u. split; intros Hu.
  + apply by_key_Some in Hu as [Hu <-]. apply by_key_elem; [done|].
    apply list_elem_of_lookup in Hu as [j Hj]. destruct (decide (j = idx)) as [->|Hji].
    * rewrite list_lookup_insert_eq in Hj by (by eapply lookup_lt_Some). by injection Hj as <-.
    * rewrite list_lookup_insert_ne in Hj by done. by eapply list_elem_of_lookup_2.
  + apply by_key_Some in Hu as [Hu <-]. apply by_key_elem; [done|].
    apply list_elem_of_lookup in Hu as [j Hj]. destruct (decide (j = idx)) as [->|Hji].
    * rewrite Hi in Hj. injection Hj as ->. by rewrite Hk in Hne.
    * apply (list_elem_of_lookup_2 _ j). by rewrite list_lookup_insert_ne.
Qed.

(** What the first loop has found after a prefix [pre]. *)
Definition scanned now (pre : list RelationTuple) (existing : gset string) (expired : gmap string nat) : Prop :=
(∀ k, k ∈ existing ↔ ∃ t, t ∈ pre ∧ tupleIdentityKey t = k ∧ tupleIsExpiredAt now t = false) ∧
(∀ k, match expired !! k with
      | Some i => ∃ t, pre !! i = Some t ∧ tupleIdentityKey t = k ∧ tupleIsExpiredAt now t = true
      | None => ∀ t, t ∈ pre → tupleIdentityKey t = k → tupleIsExpiredAt now t = false
      end).

Lemma scan_scanned now ts pre E X :
scanned now pre E X →
let '(E', X') := scan now (length pre) ts E X in scanned now (pre ++ ts) E' X'.
Proof.
revert pre E X. induction ts as [|t ts IH]; intros pre E X [HE HX]; simpl; [by rewrite app_nil_r|].
assert (Hpre : pre ++ t :: ts = (pre ++ [t]) ++ ts) by (by rewrite <-app_assoc).
assert (Hlen : S (length pre) = length (pre ++ [t])) by (rewrite length_app; simpl; lia).
rewrite Hpre, Hlen. destruct (tupleIsExpiredAt now t) eqn:Et; apply IH; split.
- intros k. rewrite HE. setoid_rewrite elem_of_app. setoid_rewrite list_elem_of_singleton.
  split; [intros (u & ? & ? & ?); exists u; by auto|].
  intros (u & [?| ->] & ? & ?); [by exists u|congruence].
- intros k. destruct (X !! tupleIdentityKey t) as [i|] eqn:EX; [|destruct (decide (k = tupleIdentityKey t)) as [->|Hne]].
  + specialize (HX k). destruct (X !! k) as [j|] eqn:Ek.
    * destruct HX as (u & Hu & ? & ?). exists u. split; [by apply lookup_app_l_Some|done].
    * intros u [Hu| ->%list_elem_of_singleton]%elem_of_app ?; [by apply HX|congruence].
  + rewrite lookup_insert_eq. exists t. split; [by apply list_lookup_middle|done].
  + rewrite lookup_insert_ne by done. specialize (HX k). destruct (X !! k) as [j|].
    * destruct HX as (u & Hu & ? & ?). exists u. split; [by apply lookup_app_l_Some|done].
    * intros u [Hu| ->%list_elem_of_singleton]%elem_of_app ?; [by apply HX|congruence].
- intros k. rewrite elem_of_union, elem_of_singleton, HE. setoid_rewrite elem_of_app.
  setoid_rewrite list_elem_of_singleton. split.
  + intros [->|(u & ? & ? & ?)]; [exists t|exists u]; by auto.
  + intros (u & [?| ->] & ? & ?); [right; by exists u|by left].
- intros k. specialize (HX k). destruct (X !! k) as [j|].
  + destruct HX as (u & Hu & ? & ?). exists u. split; [by apply lookup_app_l_Some|done].
  + intros u [Hu| ->%list_elem_of_singleton]%elem_of_app ?; [by apply HX|done].
Qed.

Lemma scan_all now ts :
let '(E, X) := scan now 0 ts ∅ ∅ in scanned now ts E X.
Proof.
apply (scan_scanned now ts [] ∅ ∅). split.
- intros k. split; [by intros ?%elem_of_empty|by intros (u & ?%elem_of_nil & _)].
- intros k. rewrite lookup_empty. by intros u ?%elem_of_nil.
Qed.

(** The second loop accepts a batch exactly when its keys are new. *)
Definition fresh (existing batch : gset string) l : Prop :=
NoDup (keys l) ∧ Forall (λ k, (k ∉ existing) ∧ (k ∉ batch)) (keys l).

#[export] Instance fresh_dec existing batch l : Decision (fresh existing batch l).
Proof. unfold fresh. apply _. Defined.

Lemma stage_spec now tenantID E B l :
stage now tenantID E B l =
  (if decide (fresh E B l) then Ok (stamp now tenantID <$> l) else Err ErrDuplicateTuple).
Proof.
revert B. induction l as [|t l IH]; intros B; cbn [stage].
{ rewrite decide_True; [done|]. by split; constructor. }
case_bool_decide as HE; [|case_bool_decide as HB].
- rewrite decide_False; [done|]. intros [_ H]. apply Forall_cons in H as [[? _] _]. done.
- rewrite decide_False; [done|]. intros [_ H]. apply Forall_cons in H as [[_ ?] _]. done.
- rewrite IH. destruct (decide (fresh E _ l)) as [[Hd Hf]|Hn]; cbn.
  + rewrite decide_True; [done|]. split; cbn.
    * constructor; [|done]. intros Hin. rewrite Forall_forall in Hf.
      destruct (Hf _ Hin) as [_ H]. set_solver.
    * constructor; [done|]. eapply Forall_impl; [exact Hf|]. cbn. set_solver.
  + rewrite decide_False; [done|]. intros [Hd Hf]. apply Hn.
    apply NoDup_cons in Hd as [Hnew Hd]. apply Forall_cons in Hf as [_ Hf].
    split; [done|]. rewrite Forall_forall in Hf |- *. intros k Hk. destruct (Hf k Hk). split; [done|].
    intros [->%elem_of_singleton|?]%elem_of_union; done.
Qed.

Lemma stamp_key now tenantID t : tupleIdentityKey (stamp now tenantID t) = tupleIdentityKey t.
Proof. done. Qed.

Lemma stamp_keys now tenantID l : keys (stamp now tenantID <$> l) = keys l.
Proof. unfold keys. rewrite <-list_fmap_compose. by apply list_fmap_ext. Qed.

(** The third loop puts every staged tuple under its key, and nothing else changes. *)
Lemma place_spec (X : gmap string nat) ts app staged :
NoDup (keys (ts ++ app)) → NoDup (keys staged) →
(∀ k i, X !! k = Some i → ∃ t, ts !! i = Some t ∧ tupleIdentityKey t = k) →
(∀ t, t ∈ staged → X !! tupleIdentityKey t = None → tupleIdentityKey t ∉ keys (ts ++ app)) →
let '(ts', app') := place X ts app staged in
NoDup (keys (ts' ++ app')) ∧ by_key (ts' ++ app') = by_key staged ∪ by_key (ts ++ app) ∧
(∀ t, t ∈ ts' ++ app' → t ∈ ts ++ app ∨ t ∈ staged).
Proof.
revert ts app. induction staged as [|t staged IH]; intros ts app Hd Hs HX Hnew; simpl.
{ split; [done|]. split; [|auto]. unfold by_key at 2. simpl. by rewrite (left_id_L ∅ (∪)). }
apply NoDup_cons in Hs as [Ht Hs]. destruct (X !! tupleIdentityKey t) as [i|] eqn:Ei.
- destruct (HX _ _ Ei) as (t0 & Hi & Hk0). pose proof (lookup_lt_Some _ _ _ Hi) as Hlt.
  assert (Hins : <[i := t]> ts ++ app = <[i := t]> (ts ++ app)) by (by rewrite insert_app_l).
  assert (Hi' : (ts ++ app) !! i = Some t0) by (by apply lookup_app_l_Some).
  assert (Hkeys : keys (<[i := t]> ts ++ app) = keys (ts ++ app)) by (rewrite Hins; by eapply keys_insert).
  specialize (IH (<[i := t]> ts) app). rewrite Hkeys in IH.
  destruct (place X (<[i := t]> ts) app staged) as [ts' app'] eqn:Ep.
  destruct IH as (H1 & H2 & H3); [done|done| |intros u Hu; apply Hnew; by right|].
  { intros k j Hj. destruct (HX k j Hj) as (u & Hu & Hku). destruct (decide (j = i)) as [->|Hne].
    - exists t. rewrite list_lookup_insert_eq by done. rewrite Hi in Hu. injection Hu as ->. by rewrite <-Hk0, Hku.
    - exists u. by rewrite list_lookup_insert_ne. }
  split; [done|]. split.
  + rewrite H2, Hins. erewrite by_key_insert by done. unfold by_key at 3. simpl. fold (by_key staged).
    rewrite <-insert_union_l, insert_union_r; [done|]. by apply by_key_None.
  + intros u Hu. destruct (H3 u Hu) as [Hin|Hin]; [|right; by right]. rewrite Hins in Hin.
    apply list_elem_of_lookup in Hin as [j Hj]. destruct (decide (j = i)) as [->|Hne].
    * rewrite list_lookup_insert_eq in Hj by (by eapply lookup_lt_Some). injection Hj as ->. right. by left.
    * rewrite list_lookup_insert_ne in Hj by done. left. by eapply list_elem_of_lookup_2.
- assert (Hfresh : tupleIdentityKey t ∉ keys (ts ++ app)) by (apply Hnew; [by left|done]).
  specialize (IH ts (app ++ [t])).
  assert (Hsnoc : keys (ts ++ app ++ [t]) = keys (ts ++ app) ++ [tupleIdentityKey t]).
  { unfold keys. by rewrite app_assoc, fmap_app. }
  destruct (place X ts (app ++ [t]) staged) as [ts' app'] eqn:Ep.
  destruct IH as (H1 & H2 & H3); [|done|done| |].
  { rewrite Hsnoc. by apply NoDup_snoc. }
  { intros u Hu Hx. rewrite Hsnoc. intros [Hin|Hin%list_elem_of_singleton]%elem_of_app.
    - by apply (Hnew u); [right|..].
    - apply Ht. rewrite <-Hin. by apply list_elem_of_fmap_2. }
  split; [done|]. split.
  + rewrite H2, app_assoc, by_key_snoc by done. unfold by_key at 3. simpl. fold (by_key staged).
    rewrite <-insert_union_l, insert_union_r; [done|]. by apply by_key_None.
  + intros u Hu. destruct (H3 u Hu) as [Hin|Hin]; [|right; by right]. rewrite app_assoc in Hin.
    apply elem_of_app in Hin as [Hin| ->%list_elem_of_singleton]; [by left|right; by left].
Qed.
(** ** The abstract store *)

(** A tenant's tuples as a map from identity keys: writing a batch is all or nothing,
  a key is taken while its tuple has not expired. *)
Definition free now (m : gmap string RelationTuple) (k : string) : bool :=
match m !! k with Some t => tupleIsExpiredAt now t | None => true end.

Definition spec_write now tenantID l (m : gmap string RelationTuple) : gmap string RelationTuple * res () :=
if decide (NoDup (keys l) ∧ Forall (λ k, free now m k = true) (keys l)) then (by_key (stamp now tenantID <$> l) ∪ m, Ok ())
else (m, Err ErrDuplicateTuple).

Definition spec_delete tuple (m : gmap string RelationTuple) : gmap string RelationTuple * res () :=
match m !! tupleIdentityKey tuple with
| Some t => if same_tuple t tuple then (delete (tupleIdentityKey tuple) m, Ok ()) else (m, Err ErrNotFound)
| None => (m, Err ErrNotFound)
end.

Lemma scanned_fresh now ts E X l :
NoDup (keys ts) → scanned now ts E X →
fresh E ∅ l ↔ NoDup (keys l) ∧ Forall (λ k, free now (by_key ts) k = true) (keys l).
Proof.
intros Hd [HE _]. unfold fresh. unfold free. f_equiv. apply Forall_iff. intros k. rewrite HE.
destruct (by_key ts !! k) as [t|] eqn:Ek.
- apply by_key_Some in Ek as [Ht Hk]. split.
  + intros [Hno _]. destruct (tupleIsExpiredAt now t) eqn:Ee; [done|]. destruct Hno. by exists t.
  + intros He. split; [|by apply not_elem_of_empty]. intros (u & Hu & Hku & Hlive).
    assert (u = t) as ->; [|congruence]. apply (by_key_elem ts u Hd) in Hu. apply (by_key_elem ts t Hd) in Ht.
    rewrite Hku in Hu. rewrite Hk in Ht. congruence.
- split; [done|]. intros _. split; [|by apply not_elem_of_empty]. intros (u & Hu & Hku & _).
  apply (by_key_elem ts u Hd) in Hu. by rewrite Hku, Ek in Hu.
Qed.

(** Changelog entries touch the log of their tenant only. *)
Lemma log_tuples now tenantID l s :
tuples (foldl (λ s t, appendTupleChangelogUnsafe now tenantID ChangeOpInsert t "api" s) s l) = tuples s.
Proof. revert s. induction l as [|t l IH]; intros s; simpl; [done|]. by rewrite IH. Qed.

Lemma tuples_of_set tenantID ts s : tuples_of (set_tuples tenantID ts s) tenantID = ts.
Proof. unfold tuples_of. simpl. by rewrite lookup_insert_eq. Qed.

Lemma write_refines_spec now tenantID l s :
NoDup (keys (tuples_of s tenantID)) →
let s' := (writeTuplesLocked now tenantID l s).1 in
by_key (tuples_of s' tenantID) = (spec_write now tenantID l (by_key (tuples_of s tenantID))).1 ∧
(writeTuplesLocked now tenantID l s).2 = (spec_write now tenantID l (by_key (tuples_of s tenantID))).2 ∧
NoDup (keys (tuples_of s' tenantID)) ∧
(∀ t, t ∈ tuples_of s' tenantID → t ∈ tuples_of s tenantID ∨ rt_TenantID t = tenantID).
Proof.
intros Hd. unfold writeTuplesLocked, spec_write. case_bool_decide as Hl.
{ destruct l; [|done]. rewrite decide_True by (split; constructor). simpl.
  split; [|by auto]. unfold by_key at 2. simpl. by rewrite (left_id_L ∅ (∪)). }
pose proof (scan_all now (tuples_of s tenantID)) as Hscan.
destruct (scan now 0 (tuples_of s tenantID) ∅ ∅) as [E X]. rewrite stage_spec.
pose proof (scanned_fresh now _ E X l Hd Hscan) as Hfresh.
destruct (decide (fresh E ∅ l)) as [Hf|Hf]; [|by rewrite decide_False by (by rewrite <-Hfresh); auto].
rewrite decide_True by (by apply Hfresh).
destruct Hf as [Hdl Hnew]. destruct Hscan as [HE HX].
pose proof (place_spec X (tuples_of s tenantID) [] (stamp now tenantID <$> l)) as Hp.
rewrite !app_nil_r, stamp_keys in Hp.
destruct (place X (tuples_of s tenantID) [] (stamp now tenantID <$> l)) as [ts app] eqn:Ep.
destruct Hp as (H1 & H2 & H3); [done|done| | |].
- intros k i Hi. specialize (HX k). rewrite Hi in HX. destruct HX as (t & ? & ? & _). eauto.
- intros t' (t & -> & Ht)%list_elem_of_fmap Hx. rewrite stamp_key in *. specialize (HX (tupleIdentityKey t)).
  rewrite Hx in HX. intros (u & Hk & Hu)%list_elem_of_fmap. symmetry in Hk.
  rewrite Forall_forall in Hnew. destruct (Hnew (tupleIdentityKey t)) as [Hno _]; [by apply list_elem_of_fmap_2|].
  apply Hno, HE. exists u. auto.
- cbn [fst snd].
  assert (tuples_of (foldl (λ s t, appendTupleChangelogUnsafe now tenantID ChangeOpInsert t "api" s)
    (set_tuples tenantID (ts ++ app) s) (stamp now tenantID <$> l)) tenantID = ts ++ app) as Ht.
  { unfold tuples_of. rewrite log_tuples. apply tuples_of_set. }
  rewrite Ht. split; [done|]. split; [done|]. split; [done|]. intros t Hin.
  destruct (H3 t Hin) as [?|(u & -> & _)%list_elem_of_fmap]; [by left|by right].
Qed.

Lemma same_tuple_key t tuple : same_tuple t tuple = true → tupleIdentityKey t = tupleIdentityKey tuple.
Proof. unfold same_tuple. intros H. bool_prop. unfold tupleIdentityKey. congruence. Qed.

Lemma delete_first_None tuple ts :
delete_first tuple ts = None ↔ Forall (λ t, same_tuple t tuple = false) ts.
Proof.
induction ts as [|t ts IH]; simpl; [by split|]. rewrite Forall_cons.
destruct (same_tuple t tuple); [by split; [|intros []]|].
destruct (delete_first tuple ts) as [[t' rest]|]; simpl; rewrite <-IH; [by split; [|intros [_ ?]]|by split].
Qed.

Lemma delete_first_Some tuple ts t rest :
delete_first tuple ts = Some (t, rest) →
same_tuple t tuple = true ∧ ∃ pre post, ts = pre ++ t :: post ∧ rest = pre ++ post.
Proof.
revert rest. induction ts as [|u ts IH]; intros rest; simpl; [done|].
destruct (same_tuple u tuple) eqn:E.
- intros [= -> ->]. split; [done|]. by exists [], rest.
- destruct (delete_first tuple ts) as [[t' r]|]; [|done]. simpl. intros [= -> <-].
  destruct (IH r eq_refl) as (Ht & pre & post & -> & ->). split; [done|]. by exists (u :: pre), post.
Qed.

Lemma by_key_middle pre t post :
NoDup (keys (pre ++ t :: post)) →
by_key (pre ++ post) = delete (tupleIdentityKey t) (by_key (pre ++ t :: post)) ∧ NoDup (keys (pre ++ post)).
Proof.
intros Hd. assert (Hp : keys (pre ++ t :: post) ≡ₚ tupleIdentityKey t :: keys (pre ++ post)).
{ unfold keys. rewrite !fmap_app. simpl. by rewrite Permutation_middle. }
rewrite Hp in Hd. apply NoDup_cons in Hd as [Hk Hd]. split; [|done].
assert (by_key (pre ++ t :: post) = <[tupleIdentityKey t := t]> (by_key (pre ++ post))) as ->.
{ change (<[tupleIdentityKey t := t]> (by_key (pre ++ post))) with (by_key (t :: pre ++ post)).
  apply list_to_map_proper.
  - rewrite by_key_fst, Hp. by constructor.
  - rewrite <-Permutation_middle. done. }
rewrite delete_insert_id; [done|]. by apply by_key_None.
Qed.

Lemma delete_refines_spec tuple ts :
NoDup (keys ts) →
match delete_first tuple ts with
| Some (t, rest) =>
    spec_delete tuple (by_key ts) = (by_key rest, Ok ()) ∧ NoDup (keys rest) ∧ (∀ u, u ∈ rest → u ∈ ts)
| None => spec_delete tuple (by_key ts) = (by_key ts, Err ErrNotFound)
end.
Proof.
intros Hd. unfold spec_delete. destruct (delete_first tuple ts) as [[t rest]|] eqn:E.
- apply delete_first_Some in E as (Ht & pre & post & -> & ->).
  destruct (by_key_middle pre t post Hd) as [Hb Hd']. pose proof (same_tuple_key _ _ Ht) as Hk.
  rewrite <-Hk. rewrite (proj2 (by_key_elem _ t Hd)) by set_solver. rewrite Ht, Hb.
  split; [done|]. split; [done|]. set_solver.
- apply delete_first_None in E. destruct (by_key ts !! tupleIdentityKey tuple) as [t|] eqn:Et; [|done].
  apply by_key_Some in Et as [Hin _]. rewrite Forall_forall in E. by rewrite (E t Hin).
Qed.
End Write.

(** ** The invariant *)

Section Invariant.
Context {EL : ExprLang}.
Implicit Types (s : Store) (t : RelationTuple) (now : Z) (tenantID tid : string).

Record store_ok s : Prop := {
ok_tenants : dom (tenants s) ⊆ dom (tuples s);
ok_objAttrs : dom (objAttrs s) = dom (tuples s);
ok_subAttrs : dom (subAttrs s) = dom (tuples s);
ok_entries : dom (log_entries s) = dom (tuples s);
ok_counters : dom (seqCounters s) = dom (tuples s);
ok_ids tid (t : Tenant) : tenants s !! tid = Some t → ID t = tid;
ok_keys tid : NoDup (keys (tuples_of s tid));
ok_owner tid t : t ∈ tuples_of s tid → rt_TenantID t = tid;
ok_log tid : numbered (log_of s tid) }.

(** What one tenant's buckets hold; no bucket is an empty one. *)
Definition data_of s tid :=
(tuples_of s tid, default ∅ (objAttrs s !! tid), default ∅ (subAttrs s !! tid), log_of s tid).

Lemma NewStore_ok : store_ok NewStore.
Proof.
assert (H : ∀ tid, tuples_of NewStore tid = []) by (intros tid; unfold tuples_of; cbn; by rewrite lookup_empty).
split; try done; cbn.
- intros tid. rewrite H. constructor.
- intros tid t. rewrite H. by intros ?%elem_of_nil.
Qed.

(** Changing the tuples of a tenant that has a bucket. *)
Lemma set_tuples_ok tenantID ts s :
store_ok s → tenantID ∈ dom (tuples s) → NoDup (keys ts) → (∀ t, t ∈ ts → rt_TenantID t = tenantID) →
store_ok (set_tuples tenantID ts s).
Proof.
intros Hs Hin Hd Ho. destruct Hs. unfold set_tuples.
assert (Hdom : dom (<[tenantID := ts]> (tuples s)) = dom (tuples s)) by (rewrite dom_insert_L; set_solver).
assert (Hts : ∀ tid, tuples_of (set_tuples tenantID ts s) tid =
                if decide (tid = tenantID) then ts else tuples_of s tid).
{ intros tid. unfold tuples_of, set_tuples. cbn. case_decide as E; [subst; by rewrite lookup_insert_eq|].
  by rewrite lookup_insert_ne. }
split; cbn; rewrite ?Hdom; try done.
- intros tid. rewrite Hts. by case_decide.
- intros tid t. rewrite Hts. case_decide; subst; auto.
Qed.

Lemma set_log_ok tenantID l s :
store_ok s → tenantID ∈ dom (tuples s) → numbered l → store_ok (set_log tenantID l s).
Proof.
intros Hs Hin Hl. destruct Hs. unfold set_log. split; cbn; try done.
- rewrite dom_insert_L. set_solver.
- rewrite dom_insert_L. set_solver.
- intros tid. unfold log_of. cbn. destruct (decide (tid = tenantID)) as [->|Hne].
  + rewrite !lookup_insert_eq. by destruct l.
  + rewrite !lookup_insert_ne by done. apply ok_log0.
Qed.

Lemma append_changelog_ok now tenantID o t source s :
store_ok s → tenantID ∈ dom (tuples s) → store_ok (appendTupleChangelogUnsafe now tenantID o t source s).
Proof.
intros Hs Hin. apply set_log_ok; [done..|]. apply append_numbered; [done|]. by apply ok_log.
Qed.

Lemma foldl_log_ok now tenantID l s :
store_ok s → tenantID ∈ dom (tuples s) →
store_ok (foldl (λ s t, appendTupleChangelogUnsafe now tenantID ChangeOpInsert t "api" s) s l).
Proof.
intros Hs Hin. apply (foldl_keep _ (λ s, store_ok s ∧ tenantID ∈ dom (tuples s))); [|done].
intros s' t _ [Hs' Hin']. split; [by apply append_changelog_ok|done].
Qed.

Lemma set_tenants_ok s tid (t : Tenant) :
store_ok s → tid ∈ dom (tuples s) → ID t = tid → store_ok (set_tenants <[tid := t]> s).
Proof.
intros Hs Hin Hid. destruct Hs. unfold set_tenants. split; cbn; try done.
- rewrite dom_insert_L. set_solver.
- intros tid' t'. destruct (decide (tid' = tid)) as [->|Hne]; [rewrite lookup_insert_eq; by intros [= <-]|].
  rewrite lookup_insert_ne by done. apply ok_ids0.
Qed.

(** A tenant that can be written has its buckets. *)
Lemma writable_bucket s tid : store_ok s → checkTenantWritable s tid = None → tid ∈ dom (tuples s).
Proof.
unfold checkTenantWritable. intros Hs Hw. apply (ok_tenants _ Hs). apply elem_of_dom.
destruct (tenants s !! tid); [by eexists|done].
Qed.

Lemma write_ok now tenantID l s :
store_ok s → tenantID ∈ dom (tuples s) → store_ok (writeTuplesLocked now tenantID l s).1.
Proof.
intros Hs Hin.
destruct (write_refines_spec now tenantID l s (ok_keys s Hs tenantID)) as (_ & _ & Hd & Ho).
revert Hd Ho. unfold writeTuplesLocked. case_bool_decide; [done|].
destruct (scan now 0 (tuples_of s tenantID) ∅ ∅) as [E X].
destruct (stage now tenantID E ∅ l) as [staged|e|]; [|done|done].
destruct (place X (tuples_of s tenantID) [] staged) as [ts app]. cbn [fst].
assert (Ht : tuples_of (foldl (λ s t, appendTupleChangelogUnsafe now tenantID ChangeOpInsert t "api" s)
    (set_tuples tenantID (ts ++ app) s) staged) tenantID = ts ++ app).
{ unfold tuples_of. rewrite log_tuples. apply tuples_of_set. }
rewrite Ht. intros Hd Ho. apply foldl_log_ok.
- apply set_tuples_ok; [done..|]. intros t Hin'. destruct (Ho t Hin') as [?|?]; [by apply (ok_owner s)|done].
- cbn. rewrite dom_insert_L. set_solver.
Qed.

(** Empty buckets for one tenant, as [initTenant] and [PurgeTenantData] make them. *)
Lemma reset_ok tenantID s :
store_ok s →
store_ok (MkStore (tenants s) (<[tenantID := []]> (tuples s)) (<[tenantID := ∅]> (objAttrs s))
  (<[tenantID := ∅]> (subAttrs s)) (<[tenantID := []]> (log_entries s)) (<[tenantID := 0%Z]> (seqCounters s))).
Proof.
intros Hs. destruct Hs. split; cbn; rewrite ?dom_insert_L; [|congruence..|done| | |].
- etrans; [done|]. apply union_subseteq_r.
- intros tid. unfold tuples_of. cbn. destruct (decide (tid = tenantID)) as [->|Hne];
    [rewrite lookup_insert_eq; constructor|rewrite lookup_insert_ne by done; apply ok_keys0].
- intros tid t. unfold tuples_of. cbn. destruct (decide (tid = tenantID)) as [->|Hne];
    [rewrite lookup_insert_eq; by intros ?%elem_of_nil|rewrite lookup_insert_ne by done; apply ok_owner0].
- intros tid. unfold log_of. cbn. destruct (decide (tid = tenantID)) as [->|Hne];
    [rewrite !lookup_insert_eq; apply empty_numbered|rewrite !lookup_insert_ne by done; apply ok_log0].
Qed.

Lemma init_ok tenantID s :
store_ok s → store_ok (initTenant tenantID s) ∧ tenantID ∈ dom (tuples (initTenant tenantID s)).
Proof.
intros Hs. unfold initTenant. destruct (tuples s !! tenantID) as [ts|] eqn:E.
- split; [done|]. apply elem_of_dom. by eexists.
- split; [by apply reset_ok|]. cbn. rewrite dom_insert_L. set_solver.
Qed.

Lemma init_set_tenants tenantID f s :
initTenant tenantID (set_tenants f s) = set_tenants f (initTenant tenantID s).
Proof. unfold initTenant. cbn. by destruct (tuples s !! tenantID). Qed.

Lemma set_attributes_Ok attrs tenantID typ id m a :
set_attributes attrs tenantID typ id m = Ok a → dom a = dom attrs.
Proof.
unfold set_attributes. destruct (attrs !! tenantID) eqn:E; [|done]. intros [= <-].
rewrite dom_insert_L. apply elem_of_dom_2 in E. set_solver.
Qed.

Lemma perform_ok now ctx o s : store_ok s → store_ok (perform now ctx o s).1.
Proof.
intros Hs. destruct o as [t|t|l|t|typ id m|typ id m|e|]; cbn [perform].
- unfold CreateTenant. destruct (tenants s !! ID t); [done|]. cbn [fst].
  rewrite init_set_tenants. destruct (init_ok (ID t) s Hs). by apply set_tenants_ok.
- unfold UpdateTenant. destruct (tenants s !! ID t) eqn:E; [|done]. cbn [fst].
  apply set_tenants_ok; [done| |done]. apply (ok_tenants _ Hs). apply elem_of_dom. by eexists.
- unfold WriteTuples, writing. destruct (tenantIDFromCtx ctx) as [tid|e|]; [|done..].
  destruct (checkTenantWritable s tid) eqn:E; [done|]. apply write_ok; [done|]. by apply writable_bucket.
- unfold DeleteTuple, writing. destruct (tenantIDFromCtx ctx) as [tid|e|]; [|done..].
  destruct (checkTenantWritable s tid) eqn:E; [done|]. pose proof (writable_bucket s tid Hs E) as Hin.
  pose proof (delete_refines_spec t _ (ok_keys s Hs tid)) as Hd.
  destruct (delete_first t (tuples_of s tid)) as [[u rest]|]; [|done]. destruct Hd as (_ & Hd & Hsub).
  apply append_changelog_ok; [|cbn; rewrite dom_insert_L; set_solver].
  apply set_tuples_ok; [done..|]. intros v Hv. by apply (ok_owner s Hs), Hsub.
- unfold SetObjectAttributes, writing. destruct (tenantIDFromCtx ctx) as [tid|e|]; [|done..].
  destruct (checkTenantWritable s tid); [done|].
  destruct (set_attributes (objAttrs s) tid typ id m) eqn:E; [|done..].
  apply set_attributes_Ok in E. destruct Hs. split; cbn; congruence || done.
- unfold SetSubjectAttributes, writing. destruct (tenantIDFromCtx ctx) as [tid|e|]; [|done..].
  destruct (checkTenantWritable s tid); [done|].
  destruct (set_attributes (subAttrs s) tid typ id m) eqn:E; [|done..].
  apply set_attributes_Ok in E. destruct Hs. split; cbn; congruence || done.
- unfold AppendChangelog, writing. destruct (tenantIDFromCtx ctx) as [tid|e'|]; [|done..].
  destruct (checkTenantWritable s tid) eqn:E; [done|]. apply set_log_ok; [done|by apply writable_bucket|].
  apply append_numbered; [done|by apply ok_log].
- unfold PurgeTenantData. destruct (tenantIDFromCtx ctx) as [tid|e|]; [|done..]. by apply reset_ok.
Qed.

Lemma history_ok s : history s → store_ok s.
Proof. induction 1; [apply NewStore_ok|by apply perform_ok]. Qed.

(** No operation on such a store panics. *)
Lemma perform_no_panic now ctx o s : store_ok s → (perform now ctx o s).2 ≠ Panic.
Proof.
intros Hs. destruct o as [t|t|l|t|typ id m|typ id m|e|]; cbn [perform].
- unfold CreateTenant. by destruct (tenants s !! ID t).
- unfold UpdateTenant. by destruct (tenants s !! ID t).
- unfold WriteTuples, writing. destruct ctx as [tc|]; [|done]. cbn.
  destruct (checkTenantWritable s _); [done|]. unfold writeTuplesLocked. case_bool_decide; [done|].
  destruct (scan now 0 _ ∅ ∅) as [E X]. rewrite stage_spec. destruct (decide _); [|done].
  by destruct (place _ _ _ _).
- unfold DeleteTuple, writing. destruct ctx as [tc|]; [|done]. cbn.
  destruct (checkTenantWritable s _); [done|]. by destruct (delete_first _ _) as [[]|].
- unfold SetObjectAttributes, writing. destruct ctx as [tc|]; [|done]. cbn.
  destruct (checkTenantWritable s _) eqn:E; [done|]. pose proof (writable_bucket s _ Hs E) as Hin.
  rewrite <-(ok_objAttrs _ Hs) in Hin. apply elem_of_dom in Hin as [a Ha].
  unfold set_attributes. by rewrite Ha.
- unfold SetSubjectAttributes, writing. destruct ctx as [tc|]; [|done]. cbn.
  destruct (checkTenantWritable s _) eqn:E; [done|]. pose proof (writable_bucket s _ Hs E) as Hin.
  rewrite <-(ok_subAttrs _ Hs) in Hin. apply elem_of_dom in Hin as [a Ha].
  unfold set_attributes. by rewrite Ha.
- unfold AppendChangelog, writing. destruct ctx as [tc|]; [|done]. cbn. by destruct (checkTenantWritable s _).
- unfold PurgeTenantData. by destruct ctx.
Qed.

(** ** Separation of tenants *)

Lemma data_set_tenants f s tid : data_of (set_tenants f s) tid = data_of s tid.
Proof. done. Qed.

Lemma data_set_tuples tenantID ts s tid : tid ≠ tenantID → data_of (set_tuples tenantID ts s) tid = data_of s tid.
Proof. intros Hne. unfold data_of, tuples_of. cbn. by rewrite lookup_insert_ne. Qed.

Lemma data_set_log tenantID l s tid : tid ≠ tenantID → data_of (set_log tenantID l s) tid = data_of s tid.
Proof. intros Hne. unfold data_of, log_of, tuples_of. cbn. by rewrite !lookup_insert_ne. Qed.

Lemma data_foldl now tenantID l s tid :
tid ≠ tenantID →
data_of (foldl (λ s t, appendTupleChangelogUnsafe now tenantID ChangeOpInsert t "api" s) s l) tid = data_of s tid.
Proof.
intros Hne. revert s. induction l as [|t l IH]; intros s; simpl; [done|]. rewrite IH. by apply data_set_log.
Qed.

Lemma data_reset tenantID s tid :
tid ≠ tenantID →
data_of (MkStore (tenants s) (<[tenantID := []]> (tuples s)) (<[tenantID := ∅]> (objAttrs s))
  (<[tenantID := ∅]> (subAttrs s)) (<[tenantID := []]> (log_entries s))
  (<[tenantID := 0%Z]> (seqCounters s))) tid = data_of s tid.
Proof. intros Hne. unfold data_of, tuples_of, log_of. cbn. by rewrite !lookup_insert_ne. Qed.

(** A bucket that is not there is as good as an empty one. *)
Lemma data_init tenantID s tid : store_ok s → data_of (initTenant tenantID s) tid = data_of s tid.
Proof.
intros Hs. unfold initTenant. destruct (tuples s !! tenantID) as [ts|] eqn:E; [done|].
destruct (decide (tid = tenantID)) as [->|Hne]; [|by apply data_reset].
apply not_elem_of_dom in E. destruct Hs.
assert (Ho : objAttrs s !! tenantID = None) by (apply not_elem_of_dom; congruence).
assert (Hsu : subAttrs s !! tenantID = None) by (apply not_elem_of_dom; congruence).
assert (He : log_entries s !! tenantID = None) by (apply not_elem_of_dom; congruence).
assert (Hc : seqCounters s !! tenantID = None) by (apply not_elem_of_dom; congruence).
apply not_elem_of_dom in E. unfold data_of, tuples_of, log_of. cbn.
by rewrite !lookup_insert_eq, E, Ho, Hsu, He, Hc.
Qed.

(** The tenant of a context. *)
Definition ctx_tenant (ctx : option TenantContext) tid : Prop :=
match ctx with Some tc => tc_TenantID tc = tid | None => False end.

Lemma perform_isolates now ctx o s tid :
store_ok s → ¬ ctx_tenant ctx tid → data_of (perform now ctx o s).1 tid = data_of s tid.
Proof.
intros Hs Hctx. destruct o as [t|t|l|t|typ id m|typ id m|e|]; cbn [perform].
{ unfold CreateTenant. destruct (tenants s !! ID t); [done|]. cbn [fst].
  rewrite init_set_tenants, data_set_tenants. by apply data_init. }
{ unfold UpdateTenant. by destruct (tenants s !! ID t). }
all: destruct ctx as [tc|]; [|done]; assert (Hne : tid ≠ tc_TenantID tc) by (cbn in Hctx; congruence).
- unfold WriteTuples, writing. cbn. destruct (checkTenantWritable s _); [done|].
  unfold writeTuplesLocked. case_bool_decide; [done|].
  destruct (scan now 0 _ ∅ ∅) as [E X]. destruct (stage _ _ _ _ _); [|done..].
  destruct (place _ _ _ _). cbn [fst]. rewrite data_foldl by done. by apply data_set_tuples.
- unfold DeleteTuple, writing. cbn. destruct (checkTenantWritable s _); [done|].
  destruct (delete_first _ _) as [[]|]; [|done]. cbn [fst].
  unfold appendTupleChangelogUnsafe. rewrite data_set_log by done. by apply data_set_tuples.
- unfold SetObjectAttributes, writing, set_attributes. cbn. destruct (checkTenantWritable s _); [done|].
  destruct (objAttrs s !! _); [|done]. cbn. unfold data_of, tuples_of, log_of. cbn. by rewrite lookup_insert_ne.
- unfold SetSubjectAttributes, writing, set_attributes. cbn. destruct (checkTenantWritable s _); [done|].
  destruct (subAttrs s !! _); [|done]. cbn. unfold data_of, tuples_of, log_of. cbn. by rewrite lookup_insert_ne.
- unfold AppendChangelog, writing. cbn. destruct (checkTenantWritable s _); [done|]. by apply data_set_log.
- unfold PurgeTenantData. cbn. by apply data_reset.
Qed.
End Invariant.
