(* ===== verification/ServerTenants.v ===== *)
(** * Tenants: identifiers, lifecycle, configuration

    [pkg/tenant/]: the manager over the memory store, the validation of tenant
    identifiers, the configuration a request context carries, the resolvers. *)

From Stdlib Require Import Ascii.
From S2P Require Import Prelude GoLib ServerModel ServerSchema ServerEngine Changelog ServerStore.

Open Scope nat_scope.

(** ** Identifiers *)

(** The regular expressions the package uses: character classes, counted, between the
    ends of the text.  [matches] tries every count, as backtracking does. *)
Inductive piece := Class (p : ascii → bool) | Repeat (lo hi : nat) (p : ascii → bool).

Fixpoint matches (r : list piece) (s : list ascii) : bool :=
  match r with
  | [] => bool_decide (length s = 0)
  | Class p :: r => match s with c :: s => p c && matches r s | [] => false end
  | Repeat lo hi p :: r =>
      existsb (λ k, bool_decide (k ≤ length s) && forallb p (take k s) && matches r (drop k s))
        (seq lo (S hi - lo))
  end.

Definition between (a b c : ascii) : bool :=
  bool_decide (N_of_ascii a ≤ N_of_ascii c)%N && bool_decide (N_of_ascii c ≤ N_of_ascii b)%N.

(** [[a-z0-9]] and [[a-z0-9-]] *)
Definition lower_alnum (c : ascii) : bool := between "a" "z" c || between "0" "9" c.
Definition lower_alnum_hyphen (c : ascii) : bool := lower_alnum c || bool_decide (c = "-"%char).

(** [^[a-z0-9][a-z0-9-]{0,126}[a-z0-9]$] *)
Definition tenantIDRegexp : list piece :=
  [Class lower_alnum; Repeat 0 126 lower_alnum_hyphen; Class lower_alnum].

Definition ValidateTenantID (id : string) : res () :=
  if matches tenantIDRegexp (String.list_ascii_of_string id) then Ok ()
  else Err (Errorf "invalid tenant ID").

Section Tenants.
Context {EL : ExprLang}.

(** ** Configuration *)

Definition DefaultTenantConfig : TenantConfig := MkTenantConfig 1000000 1000 None [] 30 true "" None.

Definition MergeConfig (t : Tenant) (defaults : option TenantConfig) : TenantConfig :=
let base := default DefaultTenantConfig defaults in
let cfg := Config t in
MkTenantConfig
  (if bool_decide (MaxTuples cfg = 0%Z) then MaxTuples base else MaxTuples cfg)
  (if bool_decide (MaxRequestsPerSec cfg = 0%Z) then MaxRequestsPerSec base else MaxRequestsPerSec cfg)
  (match CacheTTLOverride cfg with None => CacheTTLOverride base | o => o end)
  (AllowedObjectTypes cfg)
  (if bool_decide (RetentionDays cfg = 0%Z) then RetentionDays base else RetentionDays cfg)
  (SyncEnabled cfg) (WebhookURL cfg) (cfg_Metadata cfg).

Definition BuildContext (s : Store) (tenantID : string) : res TenantContext :=
match GetTenant s tenantID with
| Err err => Err (Wrap "build tenant context" err)
| Panic => Panic
| Ok t => Ok (MkTenantContext tenantID t "" (MergeConfig t None))
end.

(** ** The manager *)

Definition with_Status (t : Tenant) (st : TenantStatus) : Tenant :=
MkTenant (ID t) (DisplayName t) (ParentTenantID t) st (tenant_SchemaMode t) (SharedSchemaRef t)
  (Config t) (t_CreatedAt t) (t_UpdatedAt t).

Definition Create (now : Time) (s : Store) (id displayName : string) (mode : SchemaMode) : Store * res Tenant :=
match ValidateTenantID id with
| Err err => (s, Err err)
| Panic => (s, Panic)
| Ok _ =>
    let t := MkTenant id (if bool_decide (displayName = "") then id else displayName) "" TenantPending mode ""
               DefaultTenantConfig now 0 in
    match CreateTenant now s t with
    | (s', Ok _) => (s', Ok t)
    | (s', Err err) => (s', Err (Wrap "create tenant" err))
    | (s', Panic) => (s', Panic)
    end
end.

Definition Get (s : Store) (tenantID : string) : res Tenant := GetTenant s tenantID.

Definition List (s : Store) (filter : option TenantFilter) : res (list Tenant) := ListTenants s filter.

Definition Activate (now : Time) (s : Store) (tenantID : string) : Store * res () :=
match GetTenant s tenantID with
| Err err => (s, Err err)
| Panic => (s, Panic)
| Ok t =>
    if bool_decide (Status t = TenantDeleted) then (s, Err ErrTenantDeleted)
    else UpdateTenant now s (with_Status t TenantActive)
end.

Definition Suspend (now : Time) (s : Store) (tenantID : string) : Store * res () :=
match GetTenant s tenantID with
| Err err => (s, Err err)
| Panic => (s, Panic)
| Ok t =>
    if bool_decide (Status t ≠ TenantActive)
    then (s, Err (Wrap "can only suspend active tenants" ErrInvalidStateTransition))
    else UpdateTenant now s (with_Status t TenantSuspended)
end.

Definition Delete (now : Time) (s : Store) (tenantID : string) : Store * res () :=
match GetTenant s tenantID with
| Err err => (s, Err err)
| Panic => (s, Panic)
| Ok t =>
    if bool_decide (Status t = TenantDeleted) then (s, Err ErrTenantDeleted)
    else UpdateTenant now s (with_Status t TenantDeleted)
end.

(** ** Cross-tenant references and resolvers *)

Definition CrossTenantValidate (enabled : bool) (fromTenantID toTenantID : string) : res () :=
if enabled then Ok () else Err (Errorf "cross-tenant references are disabled").

(** What the resolvers look at of a request: its headers, an absent one is empty. *)
Definition request_headers : Type := option (string → string).

Definition StaticResolve (TenantID : string) : res string :=
if bool_decide (TenantID = "") then Err (Errorf "static resolver: no tenant ID configured") else Ok TenantID.

Definition HeaderResolve (Header : string) (r : request_headers) : res string :=
match r with
| None => Err (Errorf "header resolver: no request")
| Some headers => Ok (headers Header)
end.

(** [ResolverChain.Resolve]: the first resolver with a tenant, else the errors met. *)
Fixpoint resolve_chain (resolvers : list (request_headers → res string)) (errs : list error) (r : request_headers)
  : res string :=
match resolvers with
| [] => match errs with [] => Err (Errorf "no tenant resolver matched") | e :: _ => Err (Wrap "" e) end
| f :: resolvers =>
    match f r with
    | Ok id => if bool_decide (id ≠ "") then Ok id else resolve_chain resolvers errs r
    | Err err => resolve_chain resolvers (errs ++ [err])%list r
    | Panic => Panic
    end
end.

Definition Resolve (resolvers : list (request_headers → res string)) (r : request_headers) : res string :=
resolve_chain resolvers [] r.
End Tenants.
