(* ===== verification/ServerApi.v ===== *)
(** * The HTTP API of the server

    [pkg/api/]: every handler of [management.go] and [authzen.go] as a function of
    the server's state and a request.  A request holds what the handler reads: the
    path values, the query and the header as texts (absent ones are empty), and the
    body as [readJSON] decodes it, or the error it returns.  Of a failure only the
    status code is kept.  A panic of a handler is [Crash]: [net/http] closes the
    connection without a reply.

    The YAML decoder, SHA-256 and [time.Parse] are the interface [Decoders]. *)

From Stdlib Require Import Ascii.
From S2P Require Import Prelude GoLib ServerModel ServerSchema ServerEngine EngineTermination Changelog ServerStore ServerTenants.

Open Scope nat_scope.

Class Decoders := {
  yaml_Decode : string → res RawSchema;
  sha256_hex : string → string;
  parse_RFC3339 : string → option Z }.

(** ** Numbers in queries *)

Definition digit_value (c : ascii) : option Z :=
  if between "0" "9" c then Some (Z.of_N (N_of_ascii c) - 48)%Z else None.

Fixpoint digits_value (acc : Z) (l : list ascii) : option Z :=
  match l with
  | [] => Some acc
  | c :: l => d ← digit_value c; digits_value (10 * acc + d)%Z l
  end.

Definition unsigned_value (l : list ascii) : option Z :=
  match l with [] => None | _ => digits_value 0 l end.

(** [strconv.Atoi]: an optional sign, digits, and the range of a 64-bit [int]. *)
Definition Atoi (s : string) : option Z :=
  let v := match String.list_ascii_of_string s with
           | "-"%char :: l => Z.opp <$> unsigned_value l
           | "+"%char :: l => unsigned_value l
           | l => unsigned_value l
           end in
  n ← v; if bool_decide (- 2 ^ 63 ≤ n < 2 ^ 63)%Z then Some n else None.

(** [strconv.ParseUint(s, 10, 64)] *)
Definition ParseUint (s : string) : option Z :=
  n ← unsigned_value (String.list_ascii_of_string s);
  if bool_decide (n < 2 ^ 64)%Z then Some n else None.

(** [strconv.ParseBool] *)
Definition ParseBool (s : string) : option bool :=
  if bool_decide (s ∈ ["1"; "t"; "T"; "TRUE"; "true"; "True"]%string%list) then Some true
  else if bool_decide (s ∈ ["0"; "f"; "F"; "FALSE"; "false"; "False"]%string%list) then Some false
  else None.

Definition parseNonNegativeInt (raw : string) : option Z :=
  n ← Atoi raw; if bool_decide (n < 0)%Z then None else Some n.

(** ** Errors *)

Definition errStatus (err : error) : Z :=
  if errors_Is err ErrTenantNotFound || errors_Is err ErrNotFound then 404
  else if errors_Is err ErrTenantDeleted then 410
  else if errors_Is err ErrTenantSuspended then 403
  else if errors_Is err ErrDuplicateTuple then 409
  else if errors_Is err ErrQuotaExceeded then 429
  else if errors_Is err ErrInvalidStateTransition then 400
  else 500.

Definition tenantContextErrStatus (err : error) : Z :=
  let status := errStatus err in if bool_decide (status = 500%Z) then 400 else status.

Section Api.
Context {EL : ExprLang} {DC : Decoders}.

(** ** Requests *)

Record TupleRequest := MkTupleRequest {
tr_ObjectType : string;
tr_ObjectID : string;
tr_Relation : string;
tr_SubjectType : string;
tr_SubjectID : string;
tr_SubjectRelation : string;
tr_Attributes : gomap any;
TTLSeconds : option Z;
tr_ExpiresAt : string }.

Record CreateTenantRequest := MkCreateTenantRequest {
ct_ID : string;
ct_DisplayName : string;
ct_SchemaMode : string;
ct_ParentTenantID : string;
ct_SharedSchemaRef : string }.

Record ExpandRequest := MkExpandRequest { ex_ObjectType : string; ex_ObjectID : string; ex_Relation : string }.

(** Subject, resource, action and context; properties are decoded and not used. *)
Record AuthZenSubject := MkAuthZenSubject { az_Type : string; az_ID : string }.

Record AuthZenItem := MkAuthZenItem { item_Resource : AuthZenSubject; item_Action : string; item_Context : gomap any }.

Record AuthZenEvaluationRequest := MkEvaluation { ev_Subject : AuthZenSubject; ev_Item : AuthZenItem }.

Record AuthZenBatchRequest := MkBatch { bt_Subject : AuthZenSubject; Evaluations : list AuthZenItem }.

(** ** The server *)

(** [schemas] and [compiled] hold the text and the compilation of the schemas loaded. *)
Record Server := MkServer {
store : Store;
eng : Engine;
schema_texts : gmap string string;
schema_compiled : gmap string CompiledSchema }.

Definition with_store (s : Store) (srv : Server) : Server :=
MkServer s (eng srv) (schema_texts srv) (schema_compiled srv).

Record SchemaResponse := MkSchemaResponse {
sr_TenantID : string; sr_Hash : string; sr_Version : string; sr_Source : string; sr_CompiledAt : Z }.

Inductive payload :=
| PStatusOk (count : option Z)
| PTenant (t : option Tenant)
| PTenants (l : list Tenant) (count : Z)
| PSchema (s : SchemaResponse)
| PTuples (l : list RelationTuple) (count : Z)
| PAttributes (m : gomap any)
| PItems (l : list AttributesItem) (count : Z)
| PChangelog (l : list ChangelogEntry) (count latest : Z)
| PTree (t : SubjectTree)
| PDecision (decision : bool)
| PDecisions (decisions : list bool)
| PNoContent.

(** [OutOfFuel] is a check that did not end; no request gets it ([requests_answered] of ApiProperties.v). *)
Inductive reply := Reply (code : Z) (p : payload) | Fail (code : Z) | Crash | OutOfFuel.

(** [writeError(w, errStatus(err), ...)] of a store operation, else the reply. *)
Definition answer {A} (code : error → Z) (r : res A) (k : A → reply) : reply :=
match r with Ok a => k a | Err err => Fail (code err) | Panic => Crash end.

Definition tenantCtx (s : Store) (tenantID : string) : res TenantContext :=
if bool_decide (tenantID = "") then Err (Errorf "missing tenant") else BuildContext s tenantID.

(** ** Tuples *)

Definition validateTupleRequest (req : TupleRequest) : res () :=
if bool_decide (TrimSpace (tr_ObjectType req) = "") then Err (Errorf "object_type is required")
else if bool_decide (TrimSpace (tr_ObjectID req) = "") then Err (Errorf "object_id is required")
else if bool_decide (TrimSpace (tr_Relation req) = "") then Err (Errorf "relation is required")
else if bool_decide (TrimSpace (tr_SubjectType req) = "") then Err (Errorf "subject_type is required")
else if bool_decide (TrimSpace (tr_SubjectID req) = "") then Err (Errorf "subject_id is required")
else Ok ().

Definition tupleFromRequest (req : TupleRequest) : RelationTuple :=
MkRelationTuple "" (tr_ObjectType req) (tr_ObjectID req) (tr_Relation req) (tr_SubjectType req)
  (tr_SubjectID req) (tr_SubjectRelation req) "" (tr_Attributes req) None 0 0 "" "".

Definition maxTupleTTLSeconds : Z := 86400.

(** [time.Duration(ttl) * time.Second] in nanoseconds, an [int64]. *)
Definition duration (ttl : Z) : Z := int_add (ttl * 1000000000) 0.

Definition tupleExpiryFromRequest (req : TupleRequest) (now : Z) : res (option Z) :=
let expiresRaw := TrimSpace (tr_ExpiresAt req) in
match TTLSeconds req with
| Some ttl =>
    if bool_decide (expiresRaw ≠ "") then Err (Errorf "mutually exclusive")
    else if (ttl <=? 0)%Z then Err (Errorf "ttl_seconds must be greater than 0")
    else if (maxTupleTTLSeconds <? ttl)%Z then Err (Errorf "ttl_seconds must be <= 86400")
    else Ok (Some (now + duration ttl)%Z)
| None =>
    if bool_decide (expiresRaw = "") then Ok None
    else match parse_RFC3339 expiresRaw with
    | Some expiresAt => Ok (Some expiresAt)
    | None => Err (Errorf "expires_at must be RFC3339")
    end
end.

Definition tupleFromWriteRequest (req : TupleRequest) (now : Z) : res RelationTuple :=
let tuple := tupleFromRequest req in
expiresAt ← tupleExpiryFromRequest req now;
Ok (MkRelationTuple "" (ObjectType tuple) (ObjectID tuple) (Relation tuple) (SubjectType tuple)
      (SubjectID tuple) (SubjectRelation tuple) "" (rt_Attributes tuple) expiresAt 0 0 "" "").

(** Validate and convert one tuple of a write. *)
Definition write_tuple_of (now : Z) (req : TupleRequest) : res RelationTuple :=
validateTupleRequest req ≫= λ _, tupleFromWriteRequest req now.

Definition handleWriteTuple (now : Z) (tenantID : string) (body : res TupleRequest) (srv : Server) : Server * reply :=
match tenantCtx (store srv) tenantID with
| Err err => (srv, Fail (tenantContextErrStatus err))
| Panic => (srv, Crash)
| Ok tCtx =>
    match req ← body; write_tuple_of now req with
    | Err _ => (srv, Fail 400)
    | Panic => (srv, Crash)
    | Ok tuple =>
        let '(s, r) := WriteTuple now (Some tCtx) tuple (store srv) in
        (with_store s srv, answer errStatus r (λ _, Reply 201 (PStatusOk None)))
    end
end.

Definition handleWriteTuples (now : Z) (tenantID : string) (body : res (list TupleRequest)) (srv : Server)
  : Server * reply :=
match tenantCtx (store srv) tenantID with
| Err err => (srv, Fail (tenantContextErrStatus err))
| Panic => (srv, Crash)
| Ok tCtx =>
    match reqs ← body;
          if bool_decide (length reqs = 0) then Err (Errorf "tuples must contain at least one entry")
          else mapR (write_tuple_of now) reqs with
    | Err _ => (srv, Fail 400)
    | Panic => (srv, Crash)
    | Ok tuples =>
        let '(s, r) := WriteTuples now (Some tCtx) tuples (store srv) in
        (with_store s srv, answer errStatus r (λ _, Reply 201 (PStatusOk (Some (Z.of_nat (length tuples))))))
    end
end.

Definition handleDeleteTuple (now : Z) (tenantID : string) (body : res TupleRequest) (srv : Server) : Server * reply :=
match tenantCtx (store srv) tenantID with
| Err err => (srv, Fail (tenantContextErrStatus err))
| Panic => (srv, Crash)
| Ok tCtx =>
    match body ≫= λ req, validateTupleRequest req ≫= λ _, Ok req with
    | Err _ => (srv, Fail 400)
    | Panic => (srv, Crash)
    | Ok req =>
        let '(s, r) := DeleteTuple now (Some tCtx) (tupleFromRequest req) (store srv) in
        (with_store s srv, answer errStatus r (λ _, Reply 204 PNoContent))
    end
end.

(** A handler that only reads, in the tenant context of its path. *)
Definition reading_handler (tenantID : string) (srv : Server) (k : TenantContext → reply) : reply :=
answer tenantContextErrStatus (tenantCtx (store srv) tenantID) k.

Definition tuple_filter (q : string → string) (includeExpired : bool) : TupleFilter :=
MkTupleFilter (q "object_type") (q "object_id") (q "relation") (q "subject_type") (q "subject_id")
  (q "subject_relation") includeExpired.

(** [handleReadTuples] once it has its context. *)
Definition read_tuples (now : Z) (q : string → string) (srv : Server) (tCtx : TenantContext) : reply :=
let v := q "include_expired" in
match (if bool_decide (v = "") then Some false else ParseBool v) with
| None => Fail 400
| Some includeExpired =>
    answer errStatus (ReadTuples now (Some tCtx) (Some (tuple_filter q includeExpired)) (store srv))
      (λ tuples, Reply 200 (PTuples tuples (Z.of_nat (length tuples))))
end.

Definition handleReadTuples (now : Z) (tenantID : string) (q : string → string) (srv : Server) : reply :=
reading_handler tenantID srv (read_tuples now q srv).

(** ** Attributes *)

(** The handlers for objects and for subjects differ in the operation of the store. *)
Definition set_attributes_handler (set : option TenantContext → string → string → gomap any → Store → Store * res ())
  (tenantID typ id : string) (body : res (gomap any)) (srv : Server) : Server * reply :=
match tenantCtx (store srv) tenantID with
| Err err => (srv, Fail (tenantContextErrStatus err))
| Panic => (srv, Crash)
| Ok tCtx =>
    match body with
    | Err _ => (srv, Fail 400)
    | Panic => (srv, Crash)
    | Ok attrs =>
        let '(s, r) := set (Some tCtx) typ id attrs (store srv) in
        (with_store s srv, answer errStatus r (λ _, Reply 200 (PAttributes attrs)))
    end
end.

Definition handleSetObjectAttributes : string → string → string → res (gomap any) → Server → Server * reply :=
set_attributes_handler SetObjectAttributes.

Definition handleSetSubjectAttributes : string → string → string → res (gomap any) → Server → Server * reply :=
set_attributes_handler SetSubjectAttributes.

Definition handleGetObjectAttributes (tenantID typ id : string) (srv : Server) : reply :=
reading_handler tenantID srv (λ tCtx,
  answer errStatus (StoreGetObjectAttributes (Some tCtx) (store srv) typ id) (λ attrs, Reply 200 (PAttributes attrs))).

Definition handleGetSubjectAttributes (tenantID typ id : string) (srv : Server) : reply :=
reading_handler tenantID srv (λ tCtx,
  answer errStatus (StoreGetSubjectAttributes (Some tCtx) (store srv) typ id) (λ attrs, Reply 200 (PAttributes attrs))).

Definition items (l : list AttributesItem) : reply := Reply 200 (PItems l (Z.of_nat (length l))).

Definition handleListObjectAttributes (tenantID : string) (q : string → string) (srv : Server) : reply :=
reading_handler tenantID srv (λ tCtx,
  answer errStatus (ListObjectAttributes (Some tCtx) (store srv) (q "type")) items).

Definition handleListSubjectAttributes (tenantID : string) (q : string → string) (srv : Server) : reply :=
reading_handler tenantID srv (λ tCtx,
  answer errStatus (ListSubjectAttributes (Some tCtx) (store srv) (q "type")) items).

(** ** Changelog and expand *)

(** The query of [handleReadChangelog]: [None] is a bad request. *)
Definition changelog_query (q : string → string) : option (Z * Z) :=
sinceSeq ← (if bool_decide (q "since_seq" = "") then Some 0%Z else ParseUint (q "since_seq"));
n ← (if bool_decide (q "limit" = "") then Some 0%Z else parseNonNegativeInt (q "limit"));
Some (sinceSeq, if (0 <? n)%Z then n else 100%Z).

(** An error of [LatestSequence] leaves a zero. *)
Definition handleReadChangelog (tenantID : string) (q : string → string) (srv : Server) : reply :=
reading_handler tenantID srv (λ tCtx,
  match changelog_query q with
  | None => Fail 400
  | Some (sinceSeq, limit) =>
      answer errStatus (ReadChangelog (Some tCtx) sinceSeq limit (store srv)) (λ entries,
        let latest := match LatestSequence (Some tCtx) (store srv) with Ok n => n | _ => 0%Z end in
        Reply 200 (PChangelog entries (Z.of_nat (length entries)) latest))
  end).

(** [handleExpand] once it has its context. *)
Definition expand (now : Z) (body : res ExpandRequest) (srv : Server) (tCtx : TenantContext) : reply :=
match body with
| Err _ => Fail 400
| Panic => Crash
| Ok req =>
    if bool_decide (TrimSpace (ex_ObjectType req) = "") || bool_decide (TrimSpace (ex_ObjectID req) = "") ||
       bool_decide (TrimSpace (ex_Relation req) = "") then Fail 400
    else answer errStatus (Expand now (Some tCtx) (store srv) (ex_ObjectType req) (ex_ObjectID req) (ex_Relation req))
           (λ tree, Reply 200 (PTree tree))
end.

Definition handleExpand (now : Z) (tenantID : string) (body : res ExpandRequest) (srv : Server) : reply :=
reading_handler tenantID srv (expand now body srv).

(** ** Tenants *)

(** The switch over the modes, with the empty one set to [own]. *)
Definition schema_mode (s : string) : option SchemaMode :=
if bool_decide (s = "") then Some SchemaOwn
else if bool_decide (s = "own") then Some SchemaOwn
else if bool_decide (s = "shared") then Some SchemaShared
else if bool_decide (s = "inherited") then Some SchemaInherited
else None.

Definition with_parent (t : Tenant) (parent ref : string) : Tenant :=
MkTenant (ID t) (DisplayName t) parent (Status t) (tenant_SchemaMode t) ref (Config t) (t_CreatedAt t) (t_UpdatedAt t).

Definition handleCreateTenant (now : Z) (body : res CreateTenantRequest) (srv : Server) : Server * reply :=
match body with
| Err _ => (srv, Fail 400)
| Panic => (srv, Crash)
| Ok req =>
    if bool_decide (ct_ID req = "") then (srv, Fail 400)
    else match schema_mode (ct_SchemaMode req) with
    | None => (srv, Fail 400)
    | Some mode =>
        if bool_decide (mode = SchemaShared) && bool_decide (ct_SharedSchemaRef req = "") then (srv, Fail 400)
        else match Create now (store srv) (ct_ID req) (ct_DisplayName req) mode with
        | (s, Err _) => (with_store s srv, Fail 400)
        | (s, Panic) => (with_store s srv, Crash)
        | (s, Ok t) =>
            if bool_decide (ct_ParentTenantID req ≠ "") || bool_decide (ct_SharedSchemaRef req ≠ "") then
              let t := with_parent t (ct_ParentTenantID req) (ct_SharedSchemaRef req) in
              let '(s, r) := UpdateTenant now s t in
              (with_store s srv, answer errStatus r (λ _, Reply 201 (PTenant (Some t))))
            else (with_store s srv, Reply 201 (PTenant (Some t)))
        end
    end
end.

(** The query of [handleListTenants]: [None] is a bad request. *)
Definition tenant_query (q : string → string) : option TenantFilter :=
limit ← (if bool_decide (q "limit" = "") then Some 0%Z else parseNonNegativeInt (q "limit"));
offset ← (if bool_decide (q "offset" = "") then Some 0%Z else parseNonNegativeInt (q "offset"));
Some (MkTenantFilter (q "status") (q "parent_id") limit offset).

Definition handleListTenants (q : string → string) (srv : Server) : reply :=
match tenant_query q with
| None => Fail 400
| Some filter =>
    answer (λ _, 500%Z) (List (store srv) (Some filter)) (λ l, Reply 200 (PTenants l (Z.of_nat (length l))))
end.

Definition handleGetTenant (tenantID : string) (srv : Server) : reply :=
answer errStatus (Get (store srv) tenantID) (λ t, Reply 200 (PTenant (Some t))).

Definition handleDeleteTenant (now : Z) (tenantID : string) (srv : Server) : Server * reply :=
let '(s, r) := Delete now (store srv) tenantID in
(with_store s srv, answer errStatus r (λ _, Reply 204 PNoContent)).

(** The tenant as it is after the transition; an error of [Get] leaves a null. *)
Definition tenant_now (s : Store) (tenantID : string) : reply :=
Reply 200 (PTenant match Get s tenantID with Ok t => Some t | _ => None end).

Definition handleActivateTenant (now : Z) (tenantID : string) (srv : Server) : Server * reply :=
let '(s, r) := Activate now (store srv) tenantID in
(with_store s srv, answer errStatus r (λ _, tenant_now s tenantID)).

Definition handleSuspendTenant (now : Z) (tenantID : string) (srv : Server) : Server * reply :=
let '(s, r) := Suspend now (store srv) tenantID in
(with_store s srv, answer errStatus r (λ _, tenant_now s tenantID)).

(** ** Schemas *)

(** The body is the text; the three steps that can refuse it answer 422. *)
Definition handleLoadSchema (now : Z) (tenantID : string) (body : res string) (srv : Server) : Server * reply :=
match Get (store srv) tenantID with
| Err err => (srv, Fail (errStatus err))
| Panic => (srv, Crash)
| Ok _ =>
    match body with
    | Err _ => (srv, Fail 400)
    | Panic => (srv, Crash)
    | Ok data =>
        match raw ← yaml_Decode data; Compile (sha256_hex data) now raw with
        | Err _ => (srv, Fail 422)
        | Panic => (srv, Crash)
        | Ok cs =>
            if bool_decide (Validate cs = []) then
              (MkServer (store srv) (LoadSchema (eng srv) tenantID cs) (<[tenantID := data]> (schema_texts srv))
                 (<[tenantID := cs]> (schema_compiled srv)),
               Reply 200 (PSchema (MkSchemaResponse tenantID (Hash cs) (Version cs) data (CompiledAt cs))))
            else (srv, Fail 422)
        end
    end
end.

Definition handleGetSchema (tenantID : string) (srv : Server) : reply :=
match schema_texts srv !! tenantID with
| None => Fail 404
| Some data =>
    match schema_compiled srv !! tenantID with
    | None => Crash
    | Some cs => Reply 200 (PSchema (MkSchemaResponse tenantID (Hash cs) (Version cs) data (CompiledAt cs)))
    end
end.

(** ** AuthZen *)

Definition check_request (subject : AuthZenSubject) (item : AuthZenItem) : CheckRequest :=
MkCheckRequest (az_Type (item_Resource item)) (az_ID (item_Resource item)) (item_Action item)
  (az_Type subject) (az_ID subject) (item_Context item).

(** [s.eng.Check] over the server's store; an error is a decision that denies. *)
Definition decide_item (now : Z) (tCtx : TenantContext) (subject : AuthZenSubject) (srv : Server) (item : AuthZenItem)
  : bool + reply :=
match Check (ST := memory_store now (Some tCtx) (store srv)) (check_fuel (cfg_MaxCheckDepth (eng srv)))
        (eng srv) (Some tCtx) (check_request subject item) with
| Some (Ok result) => inl (Allowed result)
| Some (Err _) => inl false
| Some Panic => inr Crash
| None => inr OutOfFuel
end.

Definition handleAuthZenEvaluation (now : Z) (tenantHeader : string) (body : res AuthZenEvaluationRequest)
  (srv : Server) : reply :=
answer (λ _, 400%Z) (tenantCtx (store srv) tenantHeader) (λ tCtx,
  answer (λ _, 400%Z) body (λ req,
    match decide_item now tCtx (ev_Subject req) srv (ev_Item req) with
    | inl decision => Reply 200 (PDecision decision)
    | inr r => r
    end)).

(** The loop over the items. *)
Fixpoint decide_items (now : Z) (tCtx : TenantContext) (subject : AuthZenSubject) (srv : Server)
  (l : list AuthZenItem) : list bool + reply :=
match l with
| [] => inl []
| item :: l =>
    match decide_item now tCtx subject srv item with
    | inr r => inr r
    | inl decision =>
        match decide_items now tCtx subject srv l with
        | inl results => inl (decision :: results)
        | inr r => inr r
        end
    end
end.

Definition handleAuthZenEvaluations (now : Z) (tenantHeader : string) (body : res AuthZenBatchRequest)
  (srv : Server) : reply :=
answer (λ _, 400%Z) (tenantCtx (store srv) tenantHeader) (λ tCtx,
  answer (λ _, 400%Z) body (λ req,
    match decide_items now tCtx (bt_Subject req) srv (Evaluations req) with
    | inl decisions => Reply 200 (PDecisions decisions)
    | inr r => r
    end)).

(** ** The server as a component *)

(** The routes of [registerRoutes], with what the handler of each reads. *)
Inductive request :=
| GetHealth
| PostTenant (body : res CreateTenantRequest)
| GetTenants (q : string → string)
| GetTenantByID (tenantID : string)
| DeleteTenantByID (tenantID : string)
| PostActivate (tenantID : string)
| PostSuspend (tenantID : string)
| PutSchema (tenantID : string) (body : res string)
| GetSchemaOf (tenantID : string)
| PostTuples (tenantID : string) (body : res (list TupleRequest))
| PostTuple (tenantID : string) (body : res TupleRequest)
| DeleteTuples (tenantID : string) (body : res TupleRequest)
| GetTuples (tenantID : string) (q : string → string)
| GetObjects (tenantID : string) (q : string → string)
| GetObject (tenantID typ id : string)
| PutObject (tenantID typ id : string) (body : res (gomap any))
| GetSubjects (tenantID : string) (q : string → string)
| GetSubject (tenantID typ id : string)
| PutSubject (tenantID typ id : string) (body : res (gomap any))
| GetChangelog (tenantID : string) (q : string → string)
| PostExpand (tenantID : string) (body : res ExpandRequest)
| PostEvaluation (tenantHeader : string) (body : res AuthZenEvaluationRequest)
| PostEvaluations (tenantHeader : string) (body : res AuthZenBatchRequest).

Definition handleHealth : reply := Reply 200 (PStatusOk None).

Definition serve (now : Z) (r : request) (srv : Server) : Server * reply :=
match r with
| GetHealth => (srv, handleHealth)
| PostTenant body => handleCreateTenant now body srv
| GetTenants q => (srv, handleListTenants q srv)
| GetTenantByID id => (srv, handleGetTenant id srv)
| DeleteTenantByID id => handleDeleteTenant now id srv
| PostActivate id => handleActivateTenant now id srv
| PostSuspend id => handleSuspendTenant now id srv
| PutSchema id body => handleLoadSchema now id body srv
| GetSchemaOf id => (srv, handleGetSchema id srv)
| PostTuples id body => handleWriteTuples now id body srv
| PostTuple id body => handleWriteTuple now id body srv
| DeleteTuples id body => handleDeleteTuple now id body srv
| GetTuples id q => (srv, handleReadTuples now id q srv)
| GetObjects id q => (srv, handleListObjectAttributes id q srv)
| GetObject id typ oid => (srv, handleGetObjectAttributes id typ oid srv)
| PutObject id typ oid body => handleSetObjectAttributes id typ oid body srv
| GetSubjects id q => (srv, handleListSubjectAttributes id q srv)
| GetSubject id typ sid => (srv, handleGetSubjectAttributes id typ sid srv)
| PutSubject id typ sid body => handleSetSubjectAttributes id typ sid body srv
| GetChangelog id q => (srv, handleReadChangelog id q srv)
| PostExpand id body => (srv, handleExpand now id body srv)
| PostEvaluation id body => (srv, handleAuthZenEvaluation now id body srv)
| PostEvaluations id body => (srv, handleAuthZenEvaluations now id body srv)
end.

(** [NewServer], on a store and an engine. *)
Definition NewServer (s : Store) (e : Engine) : Server := MkServer s e ∅ ∅.

(** [cmd/server]: the tenant that is there from the start. *)
Definition bootstrapTenantID : string := "super".

Definition ensureBootstrapTenant (now : Z) (s : Store) : Store * res () :=
match Get s bootstrapTenantID with
| Err err =>
    if errors_Is err ErrTenantNotFound then
      match Create now s bootstrapTenantID "Super Tenant" SchemaOwn with
      | (s, Err err) => (s, Err (Wrap "create bootstrap tenant" err))
      | (s, Panic) => (s, Panic)
      | (s, Ok _) =>
          match Activate now s bootstrapTenantID with
          | (s, Err err) => (s, Err (Wrap "activate bootstrap tenant" err))
          | (s, r) => (s, r)
          end
      end
    else (s, Err (Wrap "get bootstrap tenant" err))
| Panic => (s, Panic)
| Ok t =>
    if bool_decide (Status t = TenantActive) then (s, Ok ())
    else match UpdateTenant now s (with_Status t TenantActive) with
    | (s, Err err) => (s, Err (Wrap "set bootstrap tenant active" err))
    | (s, r) => (s, r)
    end
end.

(** [main]: the servers that starts on a store and the requests lead to. *)
Inductive serving : Server → Prop :=
| serving_start now s : history s → serving (NewServer (ensureBootstrapTenant now s).1 (New DefaultConfig))
| serving_request now r srv : serving srv → serving (serve now r srv).1.
End Api.
