(* ===== verification/ServerDemo.v ===== *)
(** * A server to evaluate

    Concrete parameters for the witnesses: an expression language with two
    expressions, a schema compiled by [Compile], and a memory store filled by its
    own operations. *)

From S2P Require Import Prelude GoLib ServerModel ServerSchema ServerEngine Changelog ServerStore.

Open Scope string_scope.
Open Scope list_scope.

(** The expressions [true] and [false]. *)
#[export] Instance demo_expr : ExprLang :=
  {| any := bool; any_bool := Some; Program := bool;
     expr_Compile s := if bool_decide (s = "true") then inr true
                       else if bool_decide (s = "false") then inr false else inl "syntax";
     expr_Run p _ := inr p |}.

(** ** The schema *)

Definition rel_of (types : list string) : option RawRelation := Some (MkRawRelation types).
Definition union_of (refs : list string) : option RawPermission := Some (MkRawPermission "" refs [] [] "").

Definition demo_raw : RawSchema := MkRawSchema "1.0" (list_to_map [
  ("user", Some (MkRawType None ∅ ∅));
  ("group", Some (MkRawType None {["member" := rel_of ["user"]]} ∅));
  ("folder", Some (MkRawType None
    (list_to_map [("viewer", rel_of ["user"]); ("parent", rel_of ["folder"])])
    (list_to_map [("view", union_of ["viewer"; "parent->view"]);
                  ("gated", Some (MkRawPermission "viewer" [] [] [] "false"))])));
  ("document", Some (MkRawType None
    (list_to_map [("viewer", rel_of ["user"; "group#member"]); ("parent", rel_of ["folder"]);
                  ("blocked", rel_of ["folder"])])
    (list_to_map [("view", union_of ["viewer"; "parent->view"]);
                  ("both", Some (MkRawPermission "" [] ["parent->view"; "blocked->view"] [] ""));
                  ("except", Some (MkRawPermission "" [] [] ["parent->view"; "blocked->view"] ""));
                  ("through", union_of ["parent->gated"])])))]).

Definition compiled (raw : RawSchema) : CompiledSchema :=
  match Compile "hash" 1 raw with Ok cs => cs | _ => MkCompiledSchema ∅ "" "" 0 end.

Definition demo_schema : CompiledSchema := compiled demo_raw.

(** Its unions alone. *)
Definition plain_raw : RawSchema := MkRawSchema "1.0" (list_to_map [
  ("user", Some (MkRawType None ∅ ∅));
  ("group", Some (MkRawType None {["member" := rel_of ["user"]]} ∅));
  ("folder", Some (MkRawType None
    (list_to_map [("viewer", rel_of ["user"]); ("parent", rel_of ["folder"])])
    (list_to_map [("view", union_of ["viewer"; "parent->view"])])));
  ("document", Some (MkRawType None
    (list_to_map [("viewer", rel_of ["user"; "group#member"]); ("parent", rel_of ["folder"])])
    (list_to_map [("view", union_of ["viewer"; "parent->view"])])))]).

Definition plain_schema : CompiledSchema := compiled plain_raw.

Example demo_compiles : is_Some (Types demo_schema !! "document") ∧ Validate demo_schema = [].
Proof. vm_compute. by split; [eexists|]. Qed.

(** ** The store *)

Definition demo_config : TenantConfig := MkTenantConfig 1000000 1000 None [] 30 true "" None.

Definition demo_tenant (status : TenantStatus) : Tenant :=
  MkTenant "acme" "Acme" "" status SchemaOwn "" demo_config 1 1.

Definition demo_ctx : option TenantContext :=
  Some (MkTenantContext "acme" (demo_tenant TenantActive) "" demo_config).

Definition demo_tuple (ot oid rel st sid srel : string) : RelationTuple :=
  MkRelationTuple "" ot oid rel st sid srel "" None None 0 0 "" "".

(** Folders a and b are each other's parent; user ann sees folder b. *)
Definition demo_tuples : list RelationTuple := [
  demo_tuple "folder" "a" "parent" "folder" "b" "";
  demo_tuple "folder" "b" "parent" "folder" "a" "";
  demo_tuple "folder" "b" "viewer" "user" "ann" "";
  demo_tuple "document" "spec" "parent" "folder" "b" "";
  demo_tuple "document" "spec" "blocked" "folder" "b" "";
  demo_tuple "document" "spec" "viewer" "group" "eng" "member";
  demo_tuple "group" "eng" "member" "user" "bob" ""].

(** Create the tenant, activate it, write the tuples. *)
Definition demo_store : Store :=
  let s := (CreateTenant 1 NewStore (demo_tenant TenantPending)).1 in
  let s := (UpdateTenant 2 s (demo_tenant TenantActive)).1 in
  (WriteTuples 3 demo_ctx demo_tuples s).1.

Lemma demo_history : history demo_store.
Proof.
  apply (history_step 3 demo_ctx (OpWriteTuples demo_tuples)).
  apply (history_step 2 None (OpUpdateTenant (demo_tenant TenantActive))).
  apply (history_step 1 None (OpCreateTenant (demo_tenant TenantPending))).
  apply history_new.
Qed.

Example demo_stored : length (tuples_of demo_store "acme") = 7.
Proof. by vm_compute. Qed.

(** ** Checks *)

Definition demo_engine (cs : CompiledSchema) : Engine := LoadSchema (New DefaultConfig) "acme" cs.

#[export] Instance demo_queries : TupleStore := memory_store 4 demo_ctx demo_store.

Definition asks (ot oid permission sid : string) : CheckRequest :=
  MkCheckRequest ot oid permission "user" sid None.

Definition demo_check (cs : CompiledSchema) (req : CheckRequest) : option (res CheckResult) :=
  Check 27 (demo_engine cs) demo_ctx req.

Example ann_views : demo_check demo_schema (asks "document" "spec" "view" "ann") =
  Some (Ok (allow ["folder:b#viewer@user:ann"])).
Proof. by vm_compute. Qed.

Example bob_views : demo_check demo_schema (asks "document" "spec" "view" "bob") =
  Some (Ok (allow ["group:eng#member@user:bob"])).
Proof. by vm_compute. Qed.

Example carl_does_not : demo_check demo_schema (asks "document" "spec" "view" "carl") = Some (Ok deny).
Proof. by vm_compute. Qed.
