(* ===== verification/EngineProperties.v ===== *)
(** * Properties of the permission check

    What holds of [Check] for every store, and the same check run on the memory
    store, on a schema compiled from the documentation's example. *)

From Stdlib Require Import Ascii.
From S2P Require Import Prelude GoLib ServerModel ServerSchema ServerEngine EngineTermination EngineSpec EngineDecision EngineSharing Changelog ServerStore StoreFacts ServerDemo.

Open Scope nat_scope.
Open Scope list_scope.

(** ** The memory store as the store of a check *)

Section Memory.
Context {EL : ExprLang} (now : Z) (ctx : option TenantContext) (s : Store).

Lemma reading_no_panic {A} (f : string → res A) : (∀ tid, f tid ≠ Panic) → reading ctx s f ≠ Panic.
Proof.
intros Hf. unfold reading, tenantIDFromCtx. destruct ctx as [tc|]; [|done]. cbn.
by destruct (checkTenantReadable _ _).
Qed.

Lemma memory_answers : StoreAnswers (memory_store now ctx s).
Proof.
split; intros; apply reading_no_panic; try done.
all: intros tid; unfold get_attributes; by destruct (_ !! _).
Qed.

Lemma memory_reads tc :
ctx = Some tc → checkTenantReadable s (tc_TenantID tc) = None → StoreReads (ST := memory_store now ctx s).
Proof.
intros Hctx Hr. split; intros; cbn; unfold StoreCheckDirect, StoreListRelatedObjects, StoreListSubjects, reading;
  rewrite Hctx; cbn; rewrite Hr; by eexists.
Qed.

(** Names of a schema, and of the subjects in a tenant's tuples. *)
Definition schema_names (cs : CompiledSchema) : Prop :=
map_Forall (λ t td, map_Forall (λ p pd,
  perm_Name pd = p ∧ has_char ":"%char t = false ∧ has_char "#"%char p = false) (Permissions td)) (Types cs).

Definition subject_names (ts : list RelationTuple) : Prop :=
Forall (λ t, has_char ":"%char (SubjectType t) = false ∧ has_char "#"%char (SubjectRelation t) = false) ts.

Lemma memory_names cs tc :
ctx = Some tc → schema_names cs → subject_names (tuples_of s (tc_TenantID tc)) →
names_ok (ST := memory_store now ctx s) cs.
Proof.
intros Hctx Hcs Hts. split.
- intros t p pd (td & Ht & Hp)%GetPermission_Ok. exact (Hcs t td Ht p pd Hp).
- cbn. unfold StoreListSubjects, reading. rewrite Hctx. cbn. intros ot oid rel l subj Hl Hin.
  destruct (checkTenantReadable _ _); [done|]. injection Hl as <-.
  apply list_elem_of_fmap in Hin as (t & -> & Ht). apply list_elem_of_filter in Ht as [_ Ht]. cbn.
  unfold subject_names in Hts. rewrite Forall_forall in Hts. by apply Hts.
Qed.
End Memory.

Section Universe.
Context {EL : ExprLang} (now : Z) (tc : TenantContext) (s : Store) (cs : CompiledSchema).

(** The objects a check of the memory store can reach, and the keys of their
  permissions. *)
Definition reachable_objects (req : CheckRequest) : list (string * string) :=
(req_ObjectType req, req_ObjectID req) ::
((λ t, (SubjectType t, SubjectID t)) <$> tuples_of s (tc_TenantID tc)).

Definition object_keys (req : CheckRequest) (o : string * string) : list string :=
match Types cs !! o.1 with
| Some td => (λ p, visitKey o.1 o.2 p (req_SubjectType req) (req_SubjectID req)) <$> (map_to_list (Permissions td)).*1
| None => []
end.

Definition reachable_keys (req : CheckRequest) : gset string :=
list_to_set (concat (object_keys req <$> reachable_objects req)).

Definition reachable_request (req req' : CheckRequest) : Prop :=
(req_ObjectType req', req_ObjectID req') ∈ reachable_objects req ∧
(∃ pd, GetPermission cs (req_ObjectType req') (req_Permission req') = Ok pd) ∧
req_SubjectType req' = req_SubjectType req ∧ req_SubjectID req' = req_SubjectID req.

Lemma memory_universe req :
universe (ST := memory_store now (Some tc) s) cs (reachable_keys req) (reachable_request req).
Proof.
assert (Hlook : ∀ {A} (f : RelationTuple → A) ot oid rel l x,
  reading (Some tc) s (λ tid, Ok (f <$> base.filter (λ t, of_relation now ot oid rel t = true) (tuples_of s tid))) = Ok l →
  x ∈ l → ∃ t, x = f t ∧ t ∈ tuples_of s (tc_TenantID tc)).
{ intros A f ot oid rel l x Hl Hx. unfold reading in Hl. cbn in Hl.
  destruct (checkTenantReadable _ _); [done|]. injection Hl as <-.
  apply list_elem_of_fmap in Hx as (t & -> & Ht). apply list_elem_of_filter in Ht as [_ Ht]. eauto. }
split.
- intros req' (Ho & (pd & (td & Ht & Hp)%GetPermission_Ok) & Est & Esid).
  apply elem_of_list_to_set, elem_of_concat_fmap. eexists. split; [exact Ho|].
  unfold object_keys. cbn. rewrite Ht. unfold req_key. rewrite Est, Esid.
  apply (list_elem_of_fmap_2 (λ p, visitKey _ _ p _ _)). apply list_elem_of_fmap.
  exists (req_Permission req', pd). split; [done|]. by apply elem_of_map_to_list.
- intros req' rel l subj pd (_ & _ & Est & Esid) Hl Hs _ Hpd.
  destruct (Hlook _ _ _ _ _ _ _ Hl Hs) as (t & -> & Ht). split; [|split; [by exists pd|done]].
  apply elem_of_cons. right. apply list_elem_of_fmap. by exists t.
- intros req' rel l target p pd (_ & _ & Est & Esid) Hl Hs Hpd.
  destruct (Hlook _ _ _ _ _ _ _ Hl Hs) as (t & -> & Ht). split; [|split; [by exists pd|done]].
  apply elem_of_cons. right. apply list_elem_of_fmap. by exists t.
Qed.
End Universe.

Section Plain.
Context {EL : ExprLang}.

Definition schema_plain (cs : CompiledSchema) : Prop :=
map_Forall (λ _ td, map_Forall (λ _ pd,
  (Operation pd = PermOpUnion ∨ Operation pd = PermOpDirect) ∧
  Forall (λ r, Kind r ≠ kind_condition) (Children pd)) (Permissions td)) (Types cs).

Lemma schema_plain_plain cs : schema_plain cs → plain cs.
Proof. intros H t p pd (td & Ht & Hp)%GetPermission_Ok. exact (H t td Ht p pd Hp). Qed.
End Plain.

(** ** Properties *)

Section Properties.
Context {EL : ExprLang} {ST : TupleStore}.
Implicit Types (e : Engine) (cs : CompiledSchema) (req : CheckRequest).

(** C10: A check always ends, whatever cycles the tuples and the schema contain: from a
  number of recursive calls on that depends on [MaxCheckDepth] only, the result
  is the same, and it is a result or an error but not a panic. *)
Theorem check_always_answers `{!StoreAnswers ST} e tc req :
∃ r, r ≠ Panic ∧
  ∀ fuel, S (Z.to_nat (cfg_MaxCheckDepth e + 1)) ≤ fuel → Check fuel e tc req = Some r.
Proof.
destruct (check_answers_ e tc req) as (r & Hr & Hall). exists r. split; [done|].
intros fuel Hf. apply Hall. unfold check_fuel, enough. by rewrite Z.sub_0_r.
Qed.

(** C1: What a check allows is grounded: the tenant can be read and has a schema, there is
  a derivation of the permission from the tuples (of its base, for an exclusion),
  and the condition of the permission evaluates to true. *)
Theorem check_allows_grounded fuel e tc req r :
Check fuel e tc req = Some (Ok r) → Allowed r = true →
∃ tc' cs, tc = Some tc' ∧ IsReadable (tc_Tenant tc') = true ∧ schemaForTenant e tc' = Ok cs ∧
  grounded cs req ∧ condition_met cs req.
Proof.
unfold Check. destruct tc as [tc|]; [|done]. case_bool_decide; [done|].
destruct (IsReadable (tc_Tenant tc)) eqn:Er; [|done]. cbn.
destruct (schemaForTenant e tc) as [cs|err|] eqn:Es; [|done..]. intros Hck Ha. exists tc, cs.
destruct (check_schema_sound cs _ fuel req r Hck Ha). by split_and!.
Qed.



(** C22: Two arrows of one permission that lead to the same target spoil it: an
  intersection of them denies everybody, and an exclusion of them allows everybody
  whom its base allows, although the excluded child is granted. *)
Theorem shared_target_decisions fuel MaxCheckDepth cs req pd c1 c2 target p tpd r :
GetPermission cs (req_ObjectType req) (req_Permission req) = Ok pd → Condition pd = None →
Children pd = [c1; c2] → GetPermission cs (obj_Type target) p = Ok tpd → perm_Name tpd = p →
arrow_to req target p c1 → arrow_to req target p c2 →
check_schema (S fuel) MaxCheckDepth cs req = Some (Ok r) →
(Operation pd = PermOpIntersect → Allowed r = false) ∧
(Operation pd = PermOpExclusion → Allowed r = true →
   child_grounded cs req c1 ∧ child_grounded cs req c2) ∧
(Operation pd = PermOpExclusion → ∀ r1 V1,
   walkChild cs (walkPermission cs MaxCheckDepth fuel) req 0 c1
     {[visitKey (req_ObjectType req) (req_ObjectID req) (perm_Name pd) (req_SubjectType req) (req_SubjectID req)]}
     = Some (V1, Ok r1) →
   Allowed r = Allowed r1).
Proof.
intros Hpd Hcond Hch Htpd Htn H1 H2 Hr.
set (key := visitKey _ _ (perm_Name pd) _ _).
unfold check_schema in Hr. rewrite Hpd in Hr. simpl walkPermission in Hr.
destruct (walk_step _ _ _ req pd 0 ∅) as [[V [r'|err|]]|] eqn:Ew; [|done..].
assert (r' = r) as -> by (rewrite Hcond, andb_false_r in Hr; by injection Hr).
clear Hr. unfold walk_step in Ew. destruct (MaxCheckDepth <? 0)%Z; [done|]. fold key in Ew.
rewrite bind_has, bool_decide_eq_false_2 in Ew by set_solver.
change (walk_operation cs (walkPermission cs MaxCheckDepth fuel) req pd 0 ({[key]} ∪ ∅) = Some (V, Ok r)) in Ew.
rewrite (right_id_L ∅ (∪)) in Ew. split; [|split].
- intros Ho. by eapply (intersect_shared cs MaxCheckDepth fuel req 0 target p tpd Htpd Htn pd c1 c2).
- intros Ho Ha.
  assert (Hg : ∀ c, arrow_to req target p c → grounded cs (arrow_request req target p) → child_grounded cs req c).
  { intros c (Hk & Hp & Hl) Hg. rewrite <-Hp in Hg. eapply grounded_arrow; [done|done|by left|done]. }
  enough (grounded cs (arrow_request req target p)) by auto.
  unfold walk_operation, walkExclusion in Ew. rewrite Ho, Hch in Ew.
  apply bind_Ok in Ew as (V1 & r1 & Hw & Hrest). destruct (Allowed r1) eqn:E1; [|by injection Hrest as _ <-].
  destruct (walkChild_sound cs _ (walkPermission_sound cs MaxCheckDepth fuel) req c1 0 _ _ _ Hw E1)
    as [req c Hk|req c l subj Hk|req c l subj e Hk|req c l t Hk Hl Hin Hgr|req c cc Hk];
    try (destruct H1 as [Hk' _]; congruence).
  destruct H1 as (_ & <- & Hl'). rewrite Hl in Hl'. injection Hl' as ->.
  apply list_elem_of_singleton in Hin as ->. done.
- intros Ho r1 V1 Hw. destruct (Allowed r1) eqn:E1.
  + rewrite (exclusion_shared cs MaxCheckDepth fuel req 0 target p tpd Htpd Htn pd c1 c2 _ V1 r1 Ho Hch H1 H2 Hw E1) in Ew.
    by injection Ew as _ <-.
  + unfold walk_operation, walkExclusion in Ew. rewrite Ho, Hch in Ew. unfold mbind, walk_bind in Ew.
    rewrite Hw, E1 in Ew. by injection Ew as _ <-.
Qed.

(** C23: The conditions of permissions reached through arrows and usersets have no
  effect: a check gives the same result on the schema with every condition
  removed but for the one of the permission asked. *)
Theorem inherited_conditions_ignored fuel MaxCheckDepth cs req pd r :
GetPermission cs (req_ObjectType req) (req_Permission req) = Ok pd →
check_schema fuel MaxCheckDepth (strip cs) req = Some (Ok r) →
check_schema fuel MaxCheckDepth cs req =
  (if Allowed r && bool_decide (is_Some (Condition pd)) then
     Some match evaluateCondition req (Condition pd) with
          | Ok true => Ok r | Ok false => Ok deny
          | Err err => Err (Wrap "condition evaluation" err) | Panic => Panic
          end
   else Some (Ok r)).
Proof.
intros Hpd. unfold check_schema. rewrite strip_GetPermission, Hpd.
rewrite <-(walkPermission_strip cs MaxCheckDepth fuel req pd 0 ∅).
destruct (walkPermission cs MaxCheckDepth fuel req pd 0 ∅) as [[V [r'|err|]]|]; [|done..].
cbn [strip_perm Condition]. rewrite bool_decide_eq_false_2, andb_false_r by (by intros []).
by intros [= ->].
Qed.
End Properties.

(** ** The properties on the demo *)

Lemma demo_store_answers : StoreAnswers demo_queries.
Proof. apply memory_answers. Qed.

Lemma check_always_answers_witness :
  ∃ r, r ≠ Panic ∧ ∀ fuel, 27 ≤ fuel → Check fuel (demo_engine demo_schema) demo_ctx
    (asks "folder" "a" "view" "ann") = Some r.
Proof. exact (@check_always_answers _ _ demo_store_answers (demo_engine demo_schema) demo_ctx (asks "folder" "a" "view" "ann")). Defined.

Lemma check_allows_grounded_witness :
  ∃ tc' cs, demo_ctx = Some tc' ∧ IsReadable (tc_Tenant tc') = true ∧
    schemaForTenant (demo_engine demo_schema) tc' = Ok cs ∧
    grounded cs (asks "document" "spec" "view" "ann") ∧ condition_met cs (asks "document" "spec" "view" "ann").
Proof.
  apply (check_allows_grounded 27 _ _ _ (allow ["folder:b#viewer@user:ann"%string])); [by vm_compute|done].
Defined.

Lemma demo_plain : plain plain_schema.
Proof. apply schema_plain_plain. apply (bool_decide_unpack _). by vm_compute. Qed.

Lemma demo_names : schema_names plain_schema.
Proof. apply (bool_decide_unpack _). by vm_compute. Qed.

Lemma demo_subjects : subject_names (tuples_of demo_store "acme").
Proof. apply (bool_decide_unpack _). by vm_compute. Qed.

Definition demo_tc : TenantContext := MkTenantContext "acme" (demo_tenant TenantActive) "" demo_config.



(** Ann sees the blocking folder, and is let in all the same; she holds both children
    of the intersection, and is kept out. *)
Definition arrow_view (rel : string) : PermissionRef := MkPermissionRef "" rel "view" "".

Example except_allows_ann : demo_check demo_schema (asks "document" "spec" "except" "ann") = Some (Ok (allow [])).
Proof. by vm_compute. Qed.

Lemma shared_target_decisions_witness :
  child_grounded demo_schema (asks "document" "spec" "except" "ann") (arrow_view "parent") ∧
  child_grounded demo_schema (asks "document" "spec" "except" "ann") (arrow_view "blocked").
Proof.
  refine (proj1 (proj2 (shared_target_decisions 26 25 demo_schema (asks "document" "spec" "except" "ann")
    (MkPermissionDef "except" PermOpExclusion [arrow_view "parent"; arrow_view "blocked"] None)
    (arrow_view "parent") (arrow_view "blocked") (MkObjectRef "folder" "b") "view"
    (MkPermissionDef "view" PermOpUnion [MkPermissionRef "viewer" "" "" ""; arrow_view "parent"] None)
    (allow []) _ eq_refl eq_refl _ eq_refl _ _ _)) eq_refl eq_refl); by vm_compute.
Defined.

(** Nobody passes the condition of the folder's permission, yet Ann passes through. *)
Example gate_is_shut : demo_check demo_schema (asks "folder" "b" "gated" "ann") = Some (Ok deny).
Proof. by vm_compute. Qed.

Lemma inherited_conditions_ignored_witness :
  check_schema 27 25 demo_schema (asks "document" "spec" "through" "ann") =
  Some (Ok (allow ["folder:b#viewer@user:ann"%string])).
Proof.
  refine (inherited_conditions_ignored 27 25 demo_schema (asks "document" "spec" "through" "ann")
    (MkPermissionDef "through" PermOpUnion [MkPermissionRef "" "parent" "gated" ""] None)
    (allow ["folder:b#viewer@user:ann"%string]) _ _); by vm_compute.
Defined.
