(* ===== verification/StoreProperties.v ===== *)
(** * Properties of the memory store *)

From Stdlib Require Import Ascii.
From S2P Require Import Prelude GoLib ServerModel ServerSchema ServerEngine Changelog ServerStore StoreFacts ServerDemo.

Open Scope nat_scope.
Open Scope list_scope.

(** ** Identity keys *)

Section Keys.
Context {EL : ExprLang}.
Implicit Types (t : RelationTuple).

(** No field but the last holds the separator that ends it. *)
Definition sane t : Prop :=
has_char ":"%char (ObjectType t) = false ∧ has_char "#"%char (ObjectID t) = false ∧
has_char "@"%char (Relation t) = false ∧ has_char ":"%char (SubjectType t) = false ∧
has_char "#"%char (SubjectID t) = false.

Lemma sane_key_inj t t' : sane t → sane t' → tupleIdentityKey t = tupleIdentityKey t' → same_tuple t t' = true.
Proof.
intros (H1 & H2 & H3 & H4 & H5) (H1' & H2' & H3' & H4' & H5') H. unfold tupleIdentityKey in H.
change (":" +:+ ?s)%string with (String ":"%char s) in H.
change ("#" +:+ ?s)%string with (String "#"%char s) in H.
change ("@" +:+ ?s)%string with (String "@"%char s) in H.
apply cut_first in H as [E1 H]; [|done..]. apply cut_first in H as [E2 H]; [|done..].
apply cut_first in H as [E3 H]; [|done..]. apply cut_first in H as [E4 H]; [|done..].
apply cut_first in H as [E5 E6]; [|done..].
unfold same_tuple. by rewrite E1, E2, E3, E4, E5, E6, !bool_decide_eq_true_2 by done.
Qed.

(** The tuple a direct lookup asks for. *)
Definition query_tuple (ot oid rel st sid : string) : RelationTuple :=
MkRelationTuple "" ot oid rel st sid "" "" None None 0 0 "" "".
End Keys.

(** ** What a tenant's operations read *)

Section Reads.
Context {EL : ExprLang} (now : Z) (tc : TenantContext) (s s' : Store).
Context (Htenants : tenants s = tenants s') (Hdata : data_of s (tc_TenantID tc) = data_of s' (tc_TenantID tc)).

Lemma memory_store_agree : memory_store now (Some tc) s = memory_store now (Some tc) s'.
Proof using Htenants Hdata.
injection Hdata as Ht Ho Hs _ _. unfold memory_store.
unfold StoreCheckDirect, StoreListRelatedObjects, StoreListSubjects, StoreGetObjectAttributes,
  StoreGetSubjectAttributes, reading, get_attributes, checkTenantReadable. cbn.
by rewrite Ht, Ho, Hs, Htenants.
Qed.

Lemma ReadTuples_agree filter : ReadTuples now (Some tc) filter s = ReadTuples now (Some tc) filter s'.
Proof using Htenants Hdata.
injection Hdata as Ht _ _ _ _. unfold ReadTuples, reading, checkTenantReadable. cbn. by rewrite Ht, Htenants.
Qed.
End Reads.

(** The operations on a tenant's data, those that do not manage tenants. *)
Definition data_operation {EL : ExprLang} (o : operation) : bool :=
  match o with OpCreateTenant _ | OpUpdateTenant _ => false | _ => true end.

Section Tenants.
Context {EL : ExprLang}.

Lemma data_operation_tenants now ctx o s :
data_operation o = true → tenants (perform now ctx o s).1 = tenants s.
Proof.
assert (Hlog : ∀ tid l s, tenants (foldl (λ s t, appendTupleChangelogUnsafe now tid ChangeOpInsert t "api" s) s l) = tenants s).
{ intros tid l. induction l as [|t l IH]; intros s'; simpl; [done|]. by rewrite IH. }
destruct o as [t|t|l|t|typ id m|typ id m|e|]; try done; intros _; cbn [perform].
all: unfold WriteTuples, DeleteTuple, SetObjectAttributes, SetSubjectAttributes, AppendChangelog, PurgeTenantData, writing.
all: destruct ctx as [tc|]; [|done]; cbn; try done.
all: destruct (checkTenantWritable s _); try done.
- unfold writeTuplesLocked. case_bool_decide; [done|]. destruct (scan now 0 _ ∅ ∅) as [E X].
  destruct (stage _ _ _ _ _); [|done..]. destruct (place _ _ _ _). cbn [fst]. by rewrite Hlog.
- by destruct (delete_first _ _) as [[]|].
- unfold set_attributes. by destruct (objAttrs s !! _).
- unfold set_attributes. by destruct (subAttrs s !! _).
Qed.
End Tenants.

(** ** Properties *)

Section Properties.
Context {EL : ExprLang}.
Implicit Types (s : Store) (t : RelationTuple) (tc : TenantContext).



(** Tenants do not see each other: whatever operation is performed in the context of
  other tenants, the data of a tenant stays, and so do the results of its checks. *)
Theorem tenants_isolated s now' ctx o now tc fuel e req :
history s → ¬ ctx_tenant ctx (tc_TenantID tc) →
let s' := (perform now' ctx o s).1 in
data_of s' (tc_TenantID tc) = data_of s (tc_TenantID tc) ∧
(data_operation o = true →
   Check (ST := memory_store now (Some tc) s') fuel e (Some tc) req =
   Check (ST := memory_store now (Some tc) s) fuel e (Some tc) req).
Proof.
intros Hs%history_ok Hc s'. pose proof (perform_isolates now' ctx o s (tc_TenantID tc) Hs Hc) as Hd.
split; [done|]. intros Ho. f_equal. apply memory_store_agree; [by apply data_operation_tenants|done].
Qed.

(** C36: A page of the tenant list is what offset and limit say as long as their sum fits a
  64-bit integer; beyond, the sum wraps around and the slice expression panics. *)
Theorem tenant_page l f :
(0 ≤ Offset f)%Z → (0 ≤ Limit f < 2 ^ 63)%Z → (Z.of_nat (length l) < 2 ^ 63)%Z →
applyTenantFilter l (Some f) =
  (if (2 ^ 63 <=? Offset f + Limit f)%Z && (Offset f <? Z.of_nat (length l))%Z then Panic
   else Ok (let rest := drop (Z.to_nat (Offset f)) l in
            if (Limit f =? 0)%Z then rest else take (Z.to_nat (Limit f)) rest)).
Proof.
intros Ho Hl Hlen. unfold applyTenantFilter.
destruct (Z.leb_spec (Z.of_nat (length l)) (Offset f)) as [Hpast|Hin].
- rewrite (proj2 (Z.ltb_ge _ _)) by done. rewrite andb_false_r, drop_ge by lia. cbn.
  by destruct (Limit f =? 0)%Z; [|rewrite take_nil].
- rewrite (proj2 (Z.ltb_ge (Offset f) 0)) by lia.
  rewrite (proj2 (Z.ltb_lt (Offset f) _)) by done. rewrite andb_true_r.
  destruct (Z.leb_spec (2 ^ 63) (Offset f + Limit f)) as [Hov|Hfit].
  + assert (Hadd : int_add (Offset f) (Limit f) = (Offset f + Limit f - 2 ^ 64)%Z).
    { unfold int_add. rewrite <-(Z.mod_unique (Offset f + Limit f + 2 ^ 63) (2 ^ 64) 1 (Offset f + Limit f - 2 ^ 63)); lia. }
    rewrite Hadd. rewrite (proj2 (Z.ltb_lt 0 (Limit f))) by lia.
    rewrite (proj2 (Z.ltb_lt _ (Z.of_nat (length l)))) by lia. cbn [andb].
    by rewrite (proj2 (Z.ltb_lt _ (Offset f))) by lia.
  + assert (Hadd : int_add (Offset f) (Limit f) = (Offset f + Limit f)%Z).
    { unfold int_add. rewrite Z.mod_small; lia. }
    rewrite Hadd. destruct (Z.ltb_spec 0 (Limit f)) as [Hpos|Hzero]; cbn [andb].
    * rewrite (proj2 (Z.eqb_neq (Limit f) 0)) by lia.
      destruct (Z.ltb_spec (Offset f + Limit f) (Z.of_nat (length l))) as [Hmid|Hend].
      -- rewrite (proj2 (Z.ltb_ge _ (Offset f))) by lia. do 2 f_equal. lia.
      -- rewrite (proj2 (Z.ltb_ge _ (Offset f))) by lia. f_equal. rewrite !take_ge; [done|..]; rewrite length_drop; lia.
    * rewrite (proj2 (Z.eqb_eq (Limit f) 0)) by lia. rewrite (proj2 (Z.ltb_ge _ (Offset f))) by lia.
      f_equal. rewrite take_ge; [done|]. rewrite length_drop. lia.
Qed.

(** Identity keys tell tuples apart whose fields do not hold the separators; with the
  separators in names, a tuple that is not stored can be refused as a duplicate. *)
Theorem identity_keys_distinguish t t' :
(sane t → sane t' → tupleIdentityKey t = tupleIdentityKey t' ↔ same_tuple t t' = true) ∧
(∃ u u', same_tuple u u' = false ∧ tupleIdentityKey u = tupleIdentityKey u' ∧
   ∀ now tc s, checkTenantWritable s (tc_TenantID tc) = None → tuples_of s (tc_TenantID tc) = [u] →
     (WriteTuple now (Some tc) u' s).2 = Err ErrDuplicateTuple ∧
     (DeleteTuple now (Some tc) u' s).2 = Err ErrNotFound).
Proof.
split; [intros Ht Ht'; split; [by apply sane_key_inj|by apply same_tuple_key]|].
exists (MkRelationTuple "" "doc" "a#b" "r" "user" "u" "" "" None None 0 0 "" ""),
  (MkRelationTuple "" "doc" "a" "b#r" "user" "u" "" "" None None 0 0 "" "").
split; [done|]. split; [done|]. intros now tc s Hw Hts.
unfold WriteTuple, WriteTuples, DeleteTuple, writing. cbn. rewrite Hw.
unfold writeTuplesLocked. rewrite Hts. split; [|done]. by vm_compute.
Qed.
End Properties.

(** ** The properties on the demo *)

Definition demo_tc' : TenantContext := MkTenantContext "acme" (demo_tenant TenantActive) "" demo_config.
Definition other_ctx : option TenantContext :=
  Some (MkTenantContext "other" (demo_tenant TenantActive) "" demo_config).



Lemma tenants_isolated_witness :
  Check (ST := memory_store 6 demo_ctx (perform 5 other_ctx OpPurgeTenantData demo_store).1) 27
    (demo_engine demo_schema) demo_ctx (asks "folder" "b" "view" "ann") =
  Check (ST := memory_store 6 demo_ctx demo_store) 27
    (demo_engine demo_schema) demo_ctx (asks "folder" "b" "view" "ann").
Proof.
  refine (proj2 (tenants_isolated demo_store 5 other_ctx OpPurgeTenantData 6 demo_tc' 27 (demo_engine demo_schema)
    (asks "folder" "b" "view" "ann") demo_history _) eq_refl). done.
Defined.

Lemma tenant_page_witness :
  applyTenantFilter [demo_tenant TenantActive; demo_tenant TenantPending] (Some (MkTenantFilter "" "" (2 ^ 63 - 1) 1)) =
  Panic.
Proof.
  rewrite (tenant_page [demo_tenant TenantActive; demo_tenant TenantPending] (MkTenantFilter "" "" (2 ^ 63 - 1) 1));
    [reflexivity|cbn; lia|cbn; lia|cbn; lia].
Defined.
