(* ===== verification/SchemaProperties.v ===== *)
(** * Properties of the schema compiler and the validator *)

From S2P Require Import Prelude GoLib ServerModel ServerSchema ServerEngine EngineTermination EngineSpec EngineDecision EngineSharing ServerStore StoreFacts ServerDemo.

Open Scope nat_scope.

Section Properties.
Context {EL : ExprLang}.
Implicit Types (cs : CompiledSchema) (raw : RawSchema).

Lemma map_loop_total {A B} (f : string → A → res B) m m' t :
map_loop f m = Ok m' → is_Some (m !! t) ↔ is_Some (m' !! t).
Proof. intros H%map_loop_dom. by rewrite <-!elem_of_dom, H. Qed.

(** C18: A schema that compiles is well formed: every type, relation and permission carries
  its own name, a permission has children, a [resolve] exactly one, each child is
  one of relation, arrow or condition with both parts of an arrow present, and every
  condition is compiled; the types, relations and permissions are those of the text. *)
Theorem compile_well_formed hash now raw cs :
Compile hash now raw = Ok cs →
schema_ok cs ∧ dom (Types cs) = dom (raw_Types raw) ∧
∀ t td, Types cs !! t = Some td →
  ∃ rt, raw_Types raw !! t = Some (Some rt) ∧
    dom (Relations td) = dom (raw_Relations rt) ∧ dom (Permissions td) = dom (raw_Permissions rt).
Proof.
intros H. split; [by eapply compiled_schema_ok|]. split.
- unfold Compile in H. destruct (map_loop compile_type (raw_Types raw)) as [first| |] eqn:E1; [|done..].
  cbn in H. destruct (map_loop (compile_permissions first) (raw_Types raw)) as [types| |] eqn:E2; [|done..].
  injection H as <-. by apply map_loop_dom in E2.
- intros t td Ht. destruct (compile_type_fields _ _ _ _ _ _ H Ht) as (rt & rels & perms & Hrt & -> & Hr & Hp).
  exists rt. cbn. by rewrite (map_loop_dom _ _ _ Hr), (map_loop_dom _ _ _ Hp).
Qed.

(** C31: The validator accepts a schema exactly when every reference names something: the
  types and relations a relation allows, and for each child of a permission a
  relation or permission, or for an arrow a relation, of the same type. *)
Theorem validate_exact cs : Validate cs = [] ↔ references_ok cs.
Proof. apply validate_nil. Qed.

(** A type or a relation without a body makes the compiler panic, whatever the rest of
  the schema is: it dereferences the nil pointer the decoder leaves for it. *)
Theorem empty_body_panics hash now raw t :
(raw_Types raw !! t = Some None ∨
 ∃ rt rel, raw_Types raw !! t = Some (Some rt) ∧ raw_Relations rt !! rel = Some None) →
Compile hash now raw = Panic.
Proof.
assert (Hrel : ∀ (m : gmap string (option RawRelation)) k a e, m !! k = Some a → compile_relation k a ≠ Err e)
  by (by intros m k [r|] e _).
assert (Htype : ∀ (m : gmap string (option RawType)) k a e, m !! k = Some a → compile_type k a ≠ Err e).
{ intros m k [rt|] e _; [|done]. cbn. rewrite map_loop_entries.
  destruct (mapR_no_err (loop_entry compile_relation) (map_to_list (raw_Relations rt))) as [[l Hl]|[Hp _]].
  - intros [k' [r|]] _ e'; [done|done].
  - by rewrite Hl.
  - by rewrite Hp. }
intros H. unfold Compile.
assert (map_loop compile_type (raw_Types raw) = Panic) as ->; [|done].
destruct H as [H|(rt & rel & H & Hr)].
- eapply map_loop_panic; [by apply Htype|exact H|done].
- eapply map_loop_panic; [by apply Htype|exact H|]. cbn.
  by rewrite (map_loop_panic compile_relation _ rel None (Hrel _) Hr eq_refl).
Qed.
End Properties.

Lemma compile_well_formed_witness : schema_ok demo_schema.
Proof. refine (proj1 (compile_well_formed "hash" 1 demo_raw demo_schema _)). by vm_compute. Defined.

(** The schema [types: {user: }], with nothing after the colon. *)
Lemma empty_body_panics_witness :
  Compile (EL := demo_expr) "hash" 1 (MkRawSchema "1.0" {["user" := None]}) = Panic.
Proof. apply (empty_body_panics (EL := demo_expr) "hash" 1 (MkRawSchema "1.0" {["user" := None]}) "user"). by left. Defined.
