(* ===== verification/TenantProperties.v ===== *)
(** * Properties of tenants *)

From Stdlib Require Import Ascii.
From S2P Require Import Prelude GoLib ServerModel ServerSchema ServerEngine Changelog ServerStore StoreFacts ServerTenants ServerDemo StoreProperties.

Open Scope nat_scope.
Open Scope list_scope.

(** ** Identifiers *)

Lemma matches_class_end p s : matches [Class p] s = true ↔ ∃ c, s = [c] ∧ p c = true.
Proof.
  destruct s as [|c [|d s]]; simpl.
  - by split; [|intros (c & ? & _)].
  - rewrite andb_true_r. split; [eauto|]. by intros (c' & [= <-] & H).
  - rewrite andb_false_r. by split; [|intros (c' & ? & _)].
Qed.

Lemma matches_repeat lo hi p r s :
  matches (Repeat lo hi p :: r) s = true ↔
  ∃ s1 s2, s = s1 ++ s2 ∧ lo ≤ length s1 ≤ hi ∧ Forall (λ c, p c = true) s1 ∧ matches r s2 = true.
Proof.
  cbn [matches]. rewrite existsb_exists. split.
  - intros (k & Hk%in_seq & H). bool_prop. exists (take k s), (drop k s).
    rewrite take_drop, length_take. split; [done|]. split; [lia|]. split; [|done].
    apply Forall_forall. intros c Hc. by apply (proj1 (forallb_forall p _) ltac:(eassumption)), list_elem_of_In.
  - intros (s1 & s2 & -> & Hlen & Hp & Hr). exists (length s1). split; [apply in_seq; lia|].
    rewrite take_app_length, drop_app_length, Hr, bool_decide_eq_true_2 by (rewrite length_app; lia). cbn.
    rewrite andb_true_r. apply forallb_forall. intros c Hc%list_elem_of_In. by apply (proj1 (Forall_forall _ _) Hp).
Qed.

(** ** The lifecycle *)

Section Lifecycle.
Context {EL : ExprLang}.
Implicit Types (s : Store) (id : string).

Inductive command := CmdCreate (displayName : string) (mode : SchemaMode) | CmdActivate | CmdSuspend | CmdDelete.

(** A command of the manager on one tenant; the tenant [Create] returns is left out. *)
Definition manage (now : Z) (id : string) (c : command) s : Store * res () :=
match c with
| CmdCreate name mode =>
    match Create now s id name mode with
    | (s', Ok _) => (s', Ok ()) | (s', Err e) => (s', Err e) | (s', Panic) => (s', Panic)
    end
| CmdActivate => Activate now s id
| CmdSuspend => Suspend now s id
| CmdDelete => Delete now s id
end.

Definition status_at s id : option TenantStatus := Status <$> tenants s !! id.

(** The specified state machine: the status a command leads to, if it is accepted. *)
Definition next_status (c : command) (st : option TenantStatus) : option TenantStatus :=
match c, st with
| CmdCreate _ _, None => Some TenantPending
| CmdActivate, Some (TenantPending | TenantActive | TenantSuspended) => Some TenantActive
| CmdSuspend, Some TenantActive => Some TenantSuspended
| CmdDelete, Some (TenantPending | TenantActive | TenantSuspended) => Some TenantDeleted
| _, _ => None
end.

Lemma status_set_tenants s id id' t :
status_at (set_tenants <[id := t]> s) id' = if decide (id' = id) then Some (Status t) else status_at s id'.
Proof.
unfold status_at. cbn. case_decide as E; [subst; by rewrite lookup_insert_eq|by rewrite lookup_insert_ne].
Qed.

Lemma update_status now s t t0 st id' :
tenants s !! ID t0 = Some t →
(UpdateTenant now s (with_Status t0 st)).2 = Ok () ∧
status_at (UpdateTenant now s (with_Status t0 st)).1 id' = if decide (id' = ID t0) then Some st else status_at s id'.
Proof.
intros H. unfold UpdateTenant. cbn. rewrite H. cbn. split; [done|]. by rewrite status_set_tenants.
Qed.

Lemma manage_spec now id c s :
store_ok s → ValidateTenantID id = Ok () →
match next_status c (status_at s id) with
| Some st => (manage now id c s).2 = Ok () ∧
    (∀ id', status_at (manage now id c s).1 id' = if decide (id' = id) then Some st else status_at s id')
| None => (manage now id c s).1 = s ∧ ∃ e, (manage now id c s).2 = Err e
end.
Proof.
intros Hs Hid. unfold status_at at 1. destruct c as [name mode| | |]; cbn [manage].
- unfold Create, CreateTenant. rewrite Hid. cbn. destruct (tenants s !! id) as [t|] eqn:E; [cbn; by eauto|]. cbn.
  split; [done|]. intros id'. rewrite init_set_tenants, status_set_tenants. cbn.
  case_decide; [done|]. unfold status_at, initTenant. by destruct (tuples s !! _).
- unfold Activate, GetTenant. destruct (tenants s !! id) as [t|] eqn:E; [|cbn; by eauto].
  pose proof (ok_ids s Hs id t E) as <-. cbn.
  pose proof (λ id', update_status now s t t TenantActive id' E) as Hu.
  destruct (Status t); cbn; try (split; [by apply (Hu "")|intros id'; by apply Hu]). by eauto.
- unfold Suspend, GetTenant. destruct (tenants s !! id) as [t|] eqn:E; [|cbn; by eauto].
  pose proof (ok_ids s Hs id t E) as <-. cbn.
  pose proof (λ id', update_status now s t t TenantSuspended id' E) as Hu.
  destruct (Status t); cbn; [by eauto| |by eauto..]. split; [by apply (Hu "")|intros id'; by apply Hu].
- unfold Delete, GetTenant. destruct (tenants s !! id) as [t|] eqn:E; [|cbn; by eauto].
  pose proof (ok_ids s Hs id t E) as <-. cbn.
  pose proof (λ id', update_status now s t t TenantDeleted id' E) as Hu.
  destruct (Status t); cbn; try (split; [by apply (Hu "")|intros id'; by apply Hu]). by eauto.
Qed.

Lemma manage_ok now id c s : store_ok s → store_ok (manage now id c s).1.
Proof.
intros Hs. destruct c as [name mode| | |]; cbn [manage].
- unfold Create. destruct (ValidateTenantID id); [|done..].
  match goal with |- context [CreateTenant now s ?t] => pose proof (perform_ok now None (OpCreateTenant t) s Hs) as H end.
  cbn [perform] in H. by destruct (CreateTenant now s _) as [s' [|e|]].
- unfold Activate. destruct (GetTenant s id) as [t|e|]; [|done..]. case_bool_decide; [done|].
  exact (perform_ok now None (OpUpdateTenant (with_Status t TenantActive)) s Hs).
- unfold Suspend. destruct (GetTenant s id) as [t|e|]; [|done..]. case_bool_decide; [done|].
  exact (perform_ok now None (OpUpdateTenant (with_Status t TenantSuspended)) s Hs).
- unfold Delete. destruct (GetTenant s id) as [t|e|]; [|done..]. case_bool_decide; [done|].
  exact (perform_ok now None (OpUpdateTenant (with_Status t TenantDeleted)) s Hs).
Qed.

(** The stores the manager and the requests on tenant data lead to. *)
Inductive served_from : Store → Store → Prop :=
| served_start s : served_from s s
| served_manage now id c s s' : served_from s s' → served_from s (manage now id c s').1
| served_data now ctx o s s' : data_operation o = true → served_from s s' → served_from s (perform now ctx o s').1.

(** The other commands do not validate the identifier; a tenant may have any. *)
Lemma manage_invalid now id c s id' :
store_ok s → ValidateTenantID id ≠ Ok () → status_at s id' = Some TenantDeleted →
status_at (manage now id c s).1 id' = Some TenantDeleted.
Proof.
intros Hs Hv Hd. destruct c; cbn [manage].
{ unfold Create. by destruct (ValidateTenantID id) as [[]|e|]. }
all: unfold Activate, Suspend, Delete, GetTenant; destruct (tenants s !! id) as [t|] eqn:E; [|done];
  case_bool_decide as Hst; [done|]; pose proof (ok_ids s Hs id t E) as <-;
  rewrite (proj2 (update_status now s t t _ id' E)); case_decide as Eid; [subst id'|done];
  unfold status_at in Hd; rewrite E in Hd; cbn in Hd; congruence.
Qed.

Lemma manage_deleted now id c s id' :
store_ok s → status_at s id' = Some TenantDeleted → status_at (manage now id c s).1 id' = Some TenantDeleted.
Proof.
intros Hs Hd. destruct (ValidateTenantID id) as [[]|e|] eqn:Hv.
- pose proof (manage_spec now id c s Hs Hv) as H.
  destruct (next_status c (status_at s id)) as [st|] eqn:En; [|by destruct H as [-> _]].
  destruct H as [_ ->]. case_decide as E; [|done]. subst id'. rewrite Hd in En. by destruct c.
- by apply manage_invalid; rewrite ?Hv.
- by apply manage_invalid; rewrite ?Hv.
Qed.

Lemma served_deleted s s' id :
served_from s s' → store_ok s → status_at s id = Some TenantDeleted →
store_ok s' ∧ status_at s' id = Some TenantDeleted.
Proof.
intros H Hs Hd. induction H as [s|now id' c s s' _ IH|now ctx o s s' Ho _ IH]; [done|..]; destruct (IH Hs Hd) as [Hs' Hd'].
- split; [by apply manage_ok|by apply manage_deleted].
- split; [by apply perform_ok|]. unfold status_at. by rewrite data_operation_tenants.
Qed.
End Lifecycle.

(** ** Properties *)

(** A tenant identifier is accepted exactly when it has between 2 and 128 bytes, all
  lower-case letters, digits and hyphens, and neither starts nor ends with a hyphen. *)
Theorem tenant_id_bounds id :
  let s := String.list_ascii_of_string id in
  ValidateTenantID id = Ok () ↔
  2 ≤ length s ≤ 128 ∧ Forall (λ c, lower_alnum_hyphen c = true) s ∧
  (∃ c, head s = Some c ∧ lower_alnum c = true) ∧ (∃ c, last s = Some c ∧ lower_alnum c = true).
Proof.
  intros s. unfold ValidateTenantID, tenantIDRegexp. fold s.
  assert (Hweak : ∀ c, lower_alnum c = true → lower_alnum_hyphen c = true)
    by (intros c H; unfold lower_alnum_hyphen; by rewrite H).
  assert (Hm : matches [Class lower_alnum; Repeat 0 126 lower_alnum_hyphen; Class lower_alnum] s = true ↔
    2 ≤ length s ≤ 128 ∧ Forall (λ c, lower_alnum_hyphen c = true) s ∧
    (∃ c, head s = Some c ∧ lower_alnum c = true) ∧ (∃ c, last s = Some c ∧ lower_alnum c = true)).
  { split.
    - destruct s as [|c s']; [done|]. intros H. change (lower_alnum c && matches [Repeat 0 126 lower_alnum_hyphen; Class lower_alnum] s' = true) in H.
      apply andb_true_iff in H as [Hc H]. apply matches_repeat in H as (s1 & s2 & -> & Hlen & Hf & H2).
      apply matches_class_end in H2 as (d & -> & Hd). cbn [length head]. rewrite length_app. cbn [length].
      split; [lia|]. split; [constructor; [by apply Hweak|]; apply Forall_app; split; [done|]; repeat constructor; by apply Hweak|].
      split; [eauto|]. exists d. split; [|done]. by rewrite app_comm_cons, last_snoc.
    - intros (Hlen & Hf & (c & Hh & Hc) & (d & Hl & Hd)). destruct s as [|c' s']; [done|]. injection Hh as ->.
      apply last_Some in Hl as [s1 Hs1]. destruct s1 as [|c1 s1]; [injection Hs1 as _ Hs1; rewrite Hs1 in Hlen; simpl in Hlen; lia|].
      injection Hs1 as -> Hs'. change (lower_alnum c1 && matches [Repeat 0 126 lower_alnum_hyphen; Class lower_alnum] s' = true).
      apply andb_true_iff. split; [done|]. apply matches_repeat. exists s1, [d]. split; [done|].
      subst s'. cbn [length] in Hlen. rewrite length_app in Hlen. cbn [length] in Hlen. split; [lia|].
      apply Forall_cons in Hf as [_ Hf]. apply Forall_app in Hf as [Hf _]. split; [done|].
      apply matches_class_end. eauto. }
  rewrite <-Hm. by destruct (matches _ s).
Qed.

Section Properties.
Context {EL : ExprLang}.

(** C34: The manager implements the lifecycle: pending, active, suspended, deleted, with the
  transitions of the state machine [next_status]; a refused command changes nothing,
  and no command touches another tenant's status. *)
Theorem lifecycle_refines now id c s :
history s → ValidateTenantID id = Ok () →
match next_status c (status_at s id) with
| Some st => (manage now id c s).2 = Ok () ∧
    (∀ id', status_at (manage now id c s).1 id' = if decide (id' = id) then Some st else status_at s id')
| None => (manage now id c s).1 = s ∧ ∃ e, (manage now id c s).2 = Err e
end.
Proof. intros Hs Hid. apply manage_spec; [by apply history_ok|done]. Qed.

End Properties.

(** ** The properties on the demo *)

Lemma lifecycle_refines_witness :
  (manage 7 "acme" CmdSuspend demo_store).2 = Ok () ∧
  (∀ id', status_at (manage 7 "acme" CmdSuspend demo_store).1 id' =
     if decide (id' = "acme") then Some TenantSuspended else status_at demo_store id').
Proof. apply (lifecycle_refines 7 "acme" CmdSuspend demo_store demo_history). by vm_compute. Defined.

Definition deleted_store : Store := (manage 7 "acme" CmdDelete demo_store).1.

Lemma deleted_history : history deleted_store.
Proof. exact (history_step 7 None (OpUpdateTenant (with_Status (demo_tenant TenantActive) TenantDeleted)) demo_store demo_history). Qed.

