(* ===== verification/ApiFacts.v ===== *)
(** * Facts about the HTTP API

    What a request does to the store, as a sequence of its operations on the tenant
    the request names, and what follows: the store of the server has a history, and
    requests about other tenants are not noticed. *)

From S2P Require Import Prelude GoLib ServerModel ServerSchema ServerEngine EngineTermination EngineSpec Changelog ServerStore StoreFacts ServerTenants ServerApi EngineProperties StoreProperties TenantProperties.

Open Scope nat_scope.
Open Scope list_scope.

(** ** Sequences of store operations *)

Section Effects.
Context {EL : ExprLang}.
Implicit Types (s : Store) (id : string).

(** The operation is about the tenant. *)
Definition about id (ctx : option TenantContext) (o : operation) : Prop :=
match o with
| OpCreateTenant t | OpUpdateTenant t => ID t = id
| _ => ctx_tenant ctx id
end.

(** The stores that operations about one tenant lead to. *)
Inductive effect id : Store → Store → Prop :=
| effect_none s : effect id s s
| effect_op now ctx o s s' : about id ctx o → effect id (perform now ctx o s).1 s' → effect id s s'.

Lemma effect_one id now ctx o s : about id ctx o → effect id s (perform now ctx o s).1.
Proof. intros Ha. eapply effect_op; [exact Ha|constructor]. Qed.

Lemma effect_trans id s1 s2 s3 : effect id s1 s2 → effect id s2 s3 → effect id s1 s3.
Proof. induction 1; [done|]. intros. econstructor; eauto. Qed.

Lemma effect_history id s s' : effect id s s' → history s → history s'.
Proof. induction 1; [done|]. intros Hs. by apply IHeffect, history_step. Qed.

Lemma effect_ok id s s' : effect id s s' → store_ok s → store_ok s'.
Proof. induction 1; [done|]. intros Hs. by apply IHeffect, perform_ok. Qed.

Lemma perform_tenant now ctx o s tid :
¬ about tid ctx o → tenants (perform now ctx o s).1 !! tid = tenants s !! tid.
Proof.
intros Ha. destruct o as [t|t| | | | | |]; try by rewrite data_operation_tenants.
- cbn [perform about] in *. unfold CreateTenant. destruct (tenants s !! ID t); [done|]. cbn [fst].
  rewrite init_set_tenants. cbn. rewrite lookup_insert_ne by done. unfold initTenant. by destruct (tuples s !! _).
- cbn [perform about] in *. unfold UpdateTenant. destruct (tenants s !! ID t); [|done]. cbn. by rewrite lookup_insert_ne.
Qed.

(** Operations that manage tenants do not look at their context. *)
Lemma perform_about_data now ctx o s tid :
store_ok s → ¬ about tid ctx o → data_of (perform now ctx o s).1 tid = data_of s tid.
Proof.
intros Hs Ha. destruct o as [t|t| | | | | |].
- apply (perform_isolates now None (OpCreateTenant t)); [done|by intros []].
- apply (perform_isolates now None (OpUpdateTenant t)); [done|by intros []].
- by apply perform_isolates.
- by apply perform_isolates.
- by apply perform_isolates.
- by apply perform_isolates.
- by apply perform_isolates.
- by apply perform_isolates.
Qed.

Lemma about_unique id id' ctx o : about id ctx o → about id' ctx o → id = id'.
Proof. by destruct o, ctx as [tc|]; cbn; intros; subst. Qed.

(** Another tenant keeps its data and its entry. *)
Lemma effect_isolates id s s' tid :
effect id s s' → store_ok s → tid ≠ id → data_of s' tid = data_of s tid ∧ tenants s' !! tid = tenants s !! tid.
Proof.
induction 1 as [|now ctx o s s' Ha _ IH]; [done|]. intros Hs Hne.
destruct (IH (perform_ok now ctx o s Hs) Hne) as [-> ->].
assert (Hab : ¬ about tid ctx o) by (intros Hab; apply Hne; by eapply about_unique).
split; [by apply perform_about_data|by apply perform_tenant].
Qed.

(** The commands of the manager. *)
Lemma create_effect now s id name mode : effect id s (Create now s id name mode).1.
Proof.
unfold Create. destruct (ValidateTenantID id); [|constructor..].
match goal with |- context [CreateTenant now s ?t] => pose proof (effect_one id now None (OpCreateTenant t) s eq_refl) as He end.
cbn [perform] in He. by destruct (CreateTenant now s _) as [s' [|e|]].
Qed.

Lemma update_effect now s t : effect (ID t) s (UpdateTenant now s t).1.
Proof. by apply (effect_one _ now None (OpUpdateTenant t)). Qed.

(** A command that updates the tenant it finds. *)
Lemma found_effect now s id st (guard : Tenant → bool) (err : error) :
store_ok s →
effect id s (match GetTenant s id with
  | Err err => (s, Err err) | Panic => (s, Panic)
  | Ok t => if guard t then (s, Err err) else UpdateTenant now s (with_Status t st)
  end).1.
Proof.
intros Hs. unfold GetTenant. destruct (tenants s !! id) as [t|] eqn:E; [|constructor].
destruct (guard t); [constructor|]. rewrite <-(ok_ids s Hs id t E). apply (update_effect now s (with_Status t st)).
Qed.

Lemma activate_effect now s id : store_ok s → effect id s (Activate now s id).1.
Proof. apply (found_effect now s id TenantActive (λ t, bool_decide (Status t = TenantDeleted))). Qed.

Lemma suspend_effect now s id : store_ok s → effect id s (Suspend now s id).1.
Proof. apply (found_effect now s id TenantSuspended (λ t, bool_decide (Status t ≠ TenantActive))). Qed.

Lemma delete_effect now s id : store_ok s → effect id s (Delete now s id).1.
Proof. apply (found_effect now s id TenantDeleted (λ t, bool_decide (Status t = TenantDeleted))). Qed.

Lemma Create_Ok now s id name mode s' t : Create now s id name mode = (s', Ok t) → ID t = id ∧ Status t = TenantPending.
Proof.
unfold Create. destruct (ValidateTenantID id); [|done..].
destruct (CreateTenant now s _) as [s1 [u|e|]]; [|done..]. by intros [= _ <-].
Qed.

Lemma bootstrap_effect now s : store_ok s → effect bootstrapTenantID s (ensureBootstrapTenant now s).1.
Proof.
intros Hs. unfold ensureBootstrapTenant, Get, GetTenant. destruct (tenants s !! bootstrapTenantID) as [t|] eqn:E.
- case_bool_decide; [constructor|]. pose proof (update_effect now s (with_Status t TenantActive)) as He.
  cbn [ID with_Status] in He. rewrite (ok_ids s Hs _ t E) in He.
  by destruct (UpdateTenant now s _) as [s' [u|e|]].
- cbn [errors_Is]. rewrite bool_decide_eq_true_2 by done. cbn [orb].
  pose proof (create_effect now s bootstrapTenantID "Super Tenant" SchemaOwn) as He.
  destruct (Create now s bootstrapTenantID _ _) as [s1 [u|e|]]; cbn [fst] in He; [|done..].
  pose proof (activate_effect now s1 bootstrapTenantID (effect_ok _ _ _ He Hs)) as Ha.
  by destruct (Activate now s1 _) as [s2 [v|e|]]; apply (effect_trans _ _ _ _ He).
Qed.
End Effects.

(** ** Requests *)

Section Requests.
Context {EL : ExprLang} {DC : Decoders}.
Implicit Types (srv : Server) (r : request).

(** The tenant a request names. *)
Definition addressed r : option string :=
match r with
| GetHealth | GetTenants _ => None
| PostTenant body => match body with Ok req => Some (ct_ID req) | _ => None end
| GetTenantByID id | DeleteTenantByID id | PostActivate id | PostSuspend id | PutSchema id _ | GetSchemaOf id
| PostTuples id _ | PostTuple id _ | DeleteTuples id _ | GetTuples id _ | GetObjects id _ | GetObject id _ _
| PutObject id _ _ _ | GetSubjects id _ | GetSubject id _ _ | PutSubject id _ _ _ | GetChangelog id _
| PostExpand id _ | PostEvaluation id _ | PostEvaluations id _ => Some id
end.

Lemma tenantCtx_Ok s id tc :
tenantCtx s id = Ok tc ↔ id ≠ "" ∧ ∃ t, tenants s !! id = Some t ∧ tc = MkTenantContext id t "" (MergeConfig t None).
Proof.
unfold tenantCtx, BuildContext, GetTenant. case_bool_decide; [by split; [|intros []]|].
destruct (tenants s !! id) as [t|]; split; try done.
- intros [= <-]. eauto.
- by intros (_ & u & [= <-] & ->).
- by intros (_ & u & ? & _).
Qed.

Lemma tenantCtx_id s id tc : tenantCtx s id = Ok tc → tc_TenantID tc = id.
Proof. intros (_ & t & _ & ->)%tenantCtx_Ok. done. Qed.

Lemma tenantCtx_no_panic s id : tenantCtx s id ≠ Panic.
Proof. unfold tenantCtx, BuildContext, GetTenant. case_bool_decide; [done|]. by destruct (tenants s !! id). Qed.

(** What the handlers that write tuples and attributes have in common. *)
Lemma writing_handler_effect {A} id (body : res A) srv (op : TenantContext → A → Store * res ()) (k : A → reply) :
(∀ tc a, tc_TenantID tc = id → effect id (store srv) (op tc a).1) →
effect id (store srv) (store (match tenantCtx (store srv) id with
  | Err err => (srv, Fail (tenantContextErrStatus err))
  | Panic => (srv, Crash)
  | Ok tc =>
      match body with
      | Err _ => (srv, Fail 400)
      | Panic => (srv, Crash)
      | Ok a => let '(s, r) := op tc a in (with_store s srv, answer errStatus r (λ _, k a))
      end
  end).1).
Proof.
intros Hop. destruct (tenantCtx (store srv) id) as [tc|e|] eqn:E; [|constructor..].
destruct body as [a|e|]; [|constructor..]. specialize (Hop tc a (tenantCtx_id _ _ _ E)).
by destruct (op tc a).
Qed.

Lemma serve_effect now r srv :
store_ok (store srv) → effect (default "" (addressed r)) (store srv) (store (serve now r srv).1).
Proof.
intros Hs. destruct r; cbn [serve addressed default fst]; try constructor.
- destruct body as [req|e|]; [|constructor..]. cbn. case_bool_decide; [constructor|].
  destruct (schema_mode _) as [mode|]; [|constructor]. destruct (_ && _); [constructor|].
  pose proof (create_effect now (store srv) (ct_ID req) (ct_DisplayName req) mode) as He.
  destruct (Create now (store srv) _ _ mode) as [s [t|e|]] eqn:E; [|done..]. cbn [fst] in He.
  apply Create_Ok in E as [Hid _]. destruct (_ || _); [|done].
  pose proof (update_effect now s (with_parent t (ct_ParentTenantID req) (ct_SharedSchemaRef req))) as Hu.
  cbn [ID with_parent] in Hu. rewrite Hid in Hu. pose proof (effect_trans _ _ _ _ He Hu).
  by destruct (UpdateTenant now s _).
- pose proof (delete_effect now (store srv) tenantID Hs) as He. unfold handleDeleteTenant. by destruct (Delete _ _ _).
- pose proof (activate_effect now (store srv) tenantID Hs) as He. unfold handleActivateTenant. by destruct (Activate _ _ _).
- pose proof (suspend_effect now (store srv) tenantID Hs) as He. unfold handleSuspendTenant. by destruct (Suspend _ _ _).
- unfold handleLoadSchema. destruct (Get _ _); [|constructor..]. destruct body; [|constructor..].
  destruct (_ ≫= _); [|constructor..]. destruct (bool_decide _); constructor.
- unfold handleWriteTuples.
  apply (writing_handler_effect tenantID _ srv (λ tc l, WriteTuples now (Some tc) l (store srv))).
  intros tc l Hid. exact (effect_one tenantID now (Some tc) (OpWriteTuples l) (store srv) Hid).
- apply (writing_handler_effect tenantID _ srv (λ tc t, WriteTuple now (Some tc) t (store srv))
    (λ _, Reply 201 (PStatusOk None))).
  intros tc t Hid. exact (effect_one tenantID now (Some tc) (OpWriteTuples [t]) (store srv) Hid).
- apply (writing_handler_effect tenantID _ srv (λ tc req, DeleteTuple now (Some tc) (tupleFromRequest req) (store srv))
    (λ _, Reply 204 PNoContent)).
  intros tc req Hid. exact (effect_one tenantID now (Some tc) (OpDeleteTuple (tupleFromRequest req)) (store srv) Hid).
- apply (writing_handler_effect tenantID body srv (λ tc m, SetObjectAttributes (Some tc) typ id m (store srv))
    (λ m, Reply 200 (PAttributes m))).
  intros tc m Hid. exact (effect_one tenantID now (Some tc) (OpSetObjectAttributes typ id m) (store srv) Hid).
- apply (writing_handler_effect tenantID body srv (λ tc m, SetSubjectAttributes (Some tc) typ id m (store srv))
    (λ m, Reply 200 (PAttributes m))).
  intros tc m Hid. exact (effect_one tenantID now (Some tc) (OpSetSubjectAttributes typ id m) (store srv) Hid).
Qed.

(** What a tenant's schema is, in the engine and in the registry. *)
Definition schema_of srv tid := (schemas (eng srv) !! tid, schema_texts srv !! tid, schema_compiled srv !! tid).

Definition put_schema r : bool := match r with PutSchema _ _ => true | _ => false end.

Lemma serve_keeps_schemas now r srv :
put_schema r = false →
eng (serve now r srv).1 = eng srv ∧ schema_texts (serve now r srv).1 = schema_texts srv ∧
schema_compiled (serve now r srv).1 = schema_compiled srv.
Proof.
destruct r; try done; intros _; cbn [serve].
- unfold handleCreateTenant. destruct body as [req|e|]; [|done..]. case_bool_decide; [done|].
  destruct (schema_mode _) as [mode|]; [|done]. destruct (_ && _); [done|].
  destruct (Create now (store srv) _ _ mode) as [s [t|e|]]; [|done..]. destruct (_ || _); [|done].
  by destruct (UpdateTenant now s _).
- unfold handleDeleteTenant. by destruct (Delete _ _ _).
- unfold handleActivateTenant. by destruct (Activate _ _ _).
- unfold handleSuspendTenant. by destruct (Suspend _ _ _).
- unfold handleWriteTuples. destruct (tenantCtx _ _); [|done..]. destruct (_ ≫= _); [|done..]. by destruct (WriteTuples _ _ _ _).
- unfold handleWriteTuple. destruct (tenantCtx _ _); [|done..]. destruct (_ ≫= _); [|done..]. by destruct (WriteTuple _ _ _ _).
- unfold handleDeleteTuple. destruct (tenantCtx _ _); [|done..]. destruct (_ ≫= _); [|done..]. by destruct (DeleteTuple _ _ _ _).
- unfold handleSetObjectAttributes, set_attributes_handler. destruct (tenantCtx _ _); [|done..]. destruct body; [|done..].
  by destruct (SetObjectAttributes _ _ _ _ _).
- unfold handleSetSubjectAttributes, set_attributes_handler. destruct (tenantCtx _ _); [|done..]. destruct body; [|done..].
  by destruct (SetSubjectAttributes _ _ _ _ _).
Qed.

(** Loading a schema replaces the schema of its tenant, or changes nothing. *)
Lemma load_schema_cases now id body srv :
let '(srv', r) := handleLoadSchema now id body srv in
(∃ data raw cs, body = Ok data ∧ is_Some (tenants (store srv) !! id) ∧ yaml_Decode data = Ok raw ∧
   Compile (sha256_hex data) now raw = Ok cs ∧ Validate cs = [] ∧
   srv' = MkServer (store srv) (LoadSchema (eng srv) id cs) (<[id := data]> (schema_texts srv))
            (<[id := cs]> (schema_compiled srv)) ∧
   r = Reply 200 (PSchema (MkSchemaResponse id (Hash cs) (Version cs) data (CompiledAt cs)))) ∨
(srv' = srv ∧ ∀ p, r ≠ Reply 200 p).
Proof.
unfold handleLoadSchema, Get, GetTenant. destruct (tenants (store srv) !! id) as [t|] eqn:Et; [|by right].
destruct body as [data|e|]; [|by right..].
destruct (yaml_Decode data) as [raw|e|] eqn:Ey; [|by right..]. cbn.
destruct (Compile _ now raw) as [cs|e|] eqn:Ec; [|by right..].
case_bool_decide as Hv; [|by right]. left. exists data, raw, cs. by split_and!.
Qed.
End Requests.

(** ** The invariant of the server *)

Section Serving.
Context {EL : ExprLang} {DC : Decoders}.
Implicit Types (srv : Server) (r : request).

(** [srv_loaded]: a schema in the registry is the compilation of the text kept with it,
  of a tenant that exists, and it passed the validator. *)
Record server_ok srv : Prop := {
srv_history : history (store srv);
srv_depth : cfg_MaxCheckDepth (eng srv) = DefaultConfig;
srv_shared : sharedSchemas (eng srv) = ∅;
srv_engine : schemas (eng srv) = schema_compiled srv;
srv_texts : dom (schema_texts srv) = dom (schema_compiled srv);
srv_loaded id cs :
  schema_compiled srv !! id = Some cs →
  is_Some (tenants (store srv) !! id) ∧
  ∃ data raw now, schema_texts srv !! id = Some data ∧ yaml_Decode data = Ok raw ∧
    Compile (sha256_hex data) now raw = Ok cs ∧ Validate cs = [] }.

Lemma perform_keeps_tenants now ctx o s tid :
is_Some (tenants s !! tid) → is_Some (tenants (perform now ctx o s).1 !! tid).
Proof.
intros Hin. destruct o as [t|t| | | | | |]; try by rewrite data_operation_tenants.
- cbn [perform]. unfold CreateTenant. destruct (tenants s !! ID t); [done|]. cbn [fst].
  rewrite init_set_tenants. cbn. apply lookup_insert_is_Some'. right.
  unfold initTenant. by destruct (tuples s !! _).
- cbn [perform]. unfold UpdateTenant. destruct (tenants s !! ID t); [|done]. cbn. apply lookup_insert_is_Some'. by right.
Qed.

Lemma effect_keeps_tenants id s s' tid : effect id s s' → is_Some (tenants s !! tid) → is_Some (tenants s' !! tid).
Proof. induction 1; [done|]. intros Hin. by apply IHeffect, perform_keeps_tenants. Qed.

Lemma load_schema_ok now id body srv : server_ok srv → server_ok (handleLoadSchema now id body srv).1.
Proof.
intros Hs. pose proof (load_schema_cases now id body srv) as Hl. destruct (handleLoadSchema now id body srv) as [srv' r].
destruct Hl as [(data & raw & cs & -> & Ht & Hy & Hc & Hv & -> & _)|[-> _]]; [|done].
destruct Hs as [H1 H2 H3 H4 H5 H6]. split; cbn; try done.
- by rewrite H4.
- by rewrite !dom_insert_L, H5.
- intros id' cs'. destruct (decide (id' = id)) as [->|Hne].
  + rewrite !lookup_insert_eq. intros [= <-]. split; [done|]. eauto 10.
  + rewrite !lookup_insert_ne by done. apply H6.
Qed.

Lemma serve_ok now r srv : server_ok srv → server_ok (serve now r srv).1.
Proof.
intros Hs. destruct (put_schema r) eqn:Ep; [destruct r; try done; by apply load_schema_ok|].
destruct (serve_keeps_schemas now r srv Ep) as (He & Ht & Hc).
pose proof (serve_effect now r srv (history_ok _ (srv_history _ Hs))) as Heff.
destruct Hs as [H1 H2 H3 H4 H5 H6]. split; rewrite ?He, ?Ht, ?Hc; try done.
- by eapply effect_history.
- intros id cs Hcs. destruct (H6 id cs Hcs) as [Hin Hx]. split; [by eapply effect_keeps_tenants|done].
Qed.

Lemma start_ok now s : history s → server_ok (NewServer (ensureBootstrapTenant now s).1 (New DefaultConfig)).
Proof.
intros Hs. split; try done. eapply effect_history; [|done]. apply bootstrap_effect. by apply history_ok.
Qed.

Lemma serving_ok srv : serving srv → server_ok srv.
Proof. induction 1; [by apply start_ok|by apply serve_ok]. Qed.

(** Requests served one after the other, each at its time. *)
Definition run (l : list (Z * request)) srv : Server := foldl (λ srv p, (serve p.1 p.2 srv).1) srv l.

Lemma run_serving l srv : serving srv → serving (run l srv).
Proof. revert srv. induction l as [|p l IH]; intros srv Hs; [done|]. by apply IH, serving_request. Qed.

(** ** Replies that are not replies *)

(** Neither a panic nor a check without an end. *)
Definition answered (rep : reply) : Prop := rep ≠ Crash ∧ rep ≠ OutOfFuel.

Lemma answer_answered {A} (code : error → Z) (r : res A) k :
r ≠ Panic → (∀ a, answered (k a)) → answered (answer code r k).
Proof. intros Hr Hk. destruct r; [apply Hk|done|done]. Qed.

Lemma reading_handler_answered id srv k : (∀ tc, answered (k tc)) → answered (reading_handler id srv k).
Proof. intros Hk. apply answer_answered; [apply tenantCtx_no_panic|done]. Qed.

Lemma decide_item_answers now tc subject srv item :
∃ d, decide_item now tc subject srv item = inl d.
Proof.
unfold decide_item.
pose proof (memory_answers now (Some tc) (store srv)) as HSA.
destruct (check_answers_ (ST := memory_store now (Some tc) (store srv)) (eng srv) (Some tc) (check_request subject item))
  as (r & Hr & Hall).
rewrite Hall by done. destruct r as [a|e|]; [eauto..|done].
Qed.

Lemma decide_items_answers now tc subject srv l :
∃ ds, decide_items now tc subject srv l = inl ds ∧
  Forall2 (λ item d, decide_item now tc subject srv item = inl d) l ds.
Proof.
induction l as [|item l (ds & IH & Hds)]; simpl; [by exists []|].
destruct (decide_item_answers now tc subject srv item) as [d Hd]. rewrite Hd, IH.
exists (d :: ds). split; [done|]. by constructor.
Qed.

Lemma writing_handler_answered {A B} id (body : res A) srv (op : TenantContext → A → Store * res B) (k : A → reply) :
body ≠ Panic → (∀ tc a, (op tc a).2 ≠ Panic) → (∀ a, answered (k a)) →
answered (match tenantCtx (store srv) id with
  | Err err => (srv, Fail (tenantContextErrStatus err))
  | Panic => (srv, Crash)
  | Ok tc =>
      match body with
      | Err _ => (srv, Fail 400)
      | Panic => (srv, Crash)
      | Ok a => let '(s, r) := op tc a in (with_store s srv, answer errStatus r (λ _, k a))
      end
  end).2.
Proof.
intros Hb Hop Hk. pose proof (tenantCtx_no_panic (store srv) id).
destruct (tenantCtx (store srv) id) as [tc|e|]; [|done..].
destruct body as [a|e|]; [|done..]. specialize (Hop tc a). destruct (op tc a) as [s r]. by apply answer_answered.
Qed.

Lemma bind_no_panic {A B} (m : res A) (f : A → res B) : m ≠ Panic → (∀ a, f a ≠ Panic) → m ≫= f ≠ Panic.
Proof. intros Hm Hf. destruct m; [apply Hf|done|done]. Qed.

Lemma mapR_no_panic {A B} (f : A → res B) l : (∀ a, f a ≠ Panic) → mapR f l ≠ Panic.
Proof.
intros Hf. induction l as [|x l IH]; [done|]. cbn [mapR]. apply bind_no_panic; [done|]. intros y.
by apply bind_no_panic.
Qed.

Lemma write_tuple_of_no_panic now req : write_tuple_of now req ≠ Panic.
Proof.
apply bind_no_panic.
- unfold validateTupleRequest. by repeat case_bool_decide.
- intros _. apply bind_no_panic; [|done]. unfold tupleExpiryFromRequest.
  destruct (TTLSeconds req).
  + case_bool_decide; [done|]. destruct (_ <=? _)%Z; [done|]. by destruct (_ <? _)%Z.
  + case_bool_decide; [done|]. by destruct (parse_RFC3339 _).
Qed.

(** A page panics only when offset plus limit overflows. *)
Lemma page_panic l f :
applyTenantFilter l (Some f) = Panic → (0 ≤ Offset f)%Z → (0 ≤ Limit f)%Z → (2 ^ 63 ≤ Offset f + Limit f)%Z.
Proof.
unfold applyTenantFilter. intros H Ho Hl. destruct (Z.leb_spec (Z.of_nat (length l)) (Offset f)); [done|].
rewrite (proj2 (Z.ltb_ge (Offset f) 0)) in H by lia.
destruct (Z.leb_spec (2 ^ 63) (Offset f + Limit f)) as [|Hfit]; [lia|].
assert (Hadd : int_add (Offset f) (Limit f) = (Offset f + Limit f)%Z) by (unfold int_add; rewrite Z.mod_small; lia).
rewrite Hadd in H. destruct (Z.ltb_spec 0 (Limit f)), (Z.ltb_spec (Offset f + Limit f) (Z.of_nat (length l)));
  cbn [andb] in H; revert H; case_match eqn:El; try done; apply Z.ltb_lt in El; lia.
Qed.

Lemma parseNonNegativeInt_nonneg s n : parseNonNegativeInt s = Some n → (0 ≤ n)%Z.
Proof.
unfold parseNonNegativeInt. destruct (Atoi s) as [m|]; [|done]. cbn. case_bool_decide; [done|]. intros [= <-]. lia.
Qed.

Lemma tenant_query_nonneg q f : tenant_query q = Some f → (0 ≤ Offset f)%Z ∧ (0 ≤ Limit f)%Z.
Proof.
assert (Hp : ∀ s n, (if bool_decide (s = "") then Some 0%Z else parseNonNegativeInt s) = Some n → (0 ≤ n)%Z).
{ intros s n. case_bool_decide; [by intros [= <-]|apply parseNonNegativeInt_nonneg]. }
unfold tenant_query. destruct (if bool_decide (q "limit" = "") then _ else _) as [l|] eqn:El; [|done]. cbn [mbind option_bind].
destruct (if bool_decide (q "offset" = "") then _ else _) as [o|] eqn:Eo; [|done]. cbn. intros [= <-]. cbn. eauto.
Qed.
End Serving.
