(* ===== verification/ApiDemo.v ===== *)
(** * A server that served requests

    Decoders that know one schema text, and the server after a start on an empty
    store and four requests, for the witnesses of the API's properties. *)

From S2P Require Import Prelude GoLib ServerModel ServerSchema ServerEngine Changelog ServerStore ServerTenants ServerApi ServerDemo ApiFacts.

Open Scope string_scope.
Open Scope list_scope.

#[export] Instance demo_decoders : Decoders :=
  {| yaml_Decode s := if bool_decide (s = "demo") then Ok demo_raw else Err (Errorf "yaml");
     sha256_hex s := s;
     parse_RFC3339 s := if bool_decide (s = "tomorrow") then Some 86400000000000%Z else None |}.

Definition tuple_request (ot oid rel st sid srel : string) (ttl : option Z) : TupleRequest :=
  MkTupleRequest ot oid rel st sid srel None ttl "".

Definition demo_requests : list (Z * request) := [
  (2%Z, PutSchema "super" (Ok "demo"));
  (3%Z, PostTuples "super" (Ok [tuple_request "folder" "b" "viewer" "user" "ann" "" None;
                                tuple_request "folder" "a" "parent" "folder" "b" "" None]));
  (4%Z, PostTenant (Ok (MkCreateTenantRequest "acme" "Acme" "" "" "")));
  (5%Z, PostActivate "acme")].

Definition demo_server : Server :=
  run demo_requests (NewServer (ensureBootstrapTenant 1 NewStore).1 (New DefaultConfig)).

Lemma demo_serving : serving demo_server.
Proof. apply run_serving, serving_start, history_new. Qed.

Definition ask (ot oid permission sid : string) : res AuthZenEvaluationRequest :=
  Ok (MkEvaluation (MkAuthZenSubject "user" sid) (MkAuthZenItem (MkAuthZenSubject ot oid) permission None)).

Example ann_is_allowed : handleAuthZenEvaluation 6 "super" (ask "folder" "a" "view" "ann") demo_server = Reply 200 (PDecision true).
Proof. by vm_compute. Qed.

Example no_schema_denies : handleAuthZenEvaluation 6 "acme" (ask "folder" "a" "view" "ann") demo_server = Reply 200 (PDecision false).
Proof. by vm_compute. Qed.

Example unknown_tenant_refused : handleAuthZenEvaluation 6 "nobody" (ask "folder" "a" "view" "ann") demo_server = Fail 400.
Proof. by vm_compute. Qed.

Example duplicate_refused :
  (serve 6 (PostTuple "super" (Ok (tuple_request "folder" "b" "viewer" "user" "ann" "" (Some 60%Z)))) demo_server).2 = Fail 409.
Proof. by vm_compute. Qed.

(** The schema the bootstrap tenant has loaded. *)
Definition demo_schema_at : CompiledSchema :=
  match Compile "demo" 2 demo_raw with Ok cs => cs | _ => MkCompiledSchema ∅ "" "" 0 end.

Lemma demo_schema_found : schema_compiled demo_server !! "super" = Some demo_schema_at.
Proof. by vm_compute. Qed.
