(* ===== verification/ApiProperties.v ===== *)
(** * Properties of the HTTP API *)

From S2P Require Import Prelude GoLib ServerModel ServerSchema ServerEngine EngineTermination EngineSpec Changelog ServerStore StoreFacts ServerTenants ServerApi ServerDemo EngineProperties StoreProperties TenantProperties ApiFacts ApiDemo.

Open Scope nat_scope.
Open Scope list_scope.

(** [readJSON] and [io.ReadAll] return a value or an error, they do not panic. *)
Definition body_read {EL : ExprLang} (r : request) : Prop :=
  match r with
  | PostTenant b => b ≠ Panic
  | PutSchema _ b => b ≠ Panic
  | PostTuples _ b => b ≠ Panic
  | PostTuple _ b | DeleteTuples _ b => b ≠ Panic
  | PutObject _ _ _ b | PutSubject _ _ _ b => b ≠ Panic
  | PostExpand _ b => b ≠ Panic
  | PostEvaluation _ b => b ≠ Panic
  | PostEvaluations _ b => b ≠ Panic
  | _ => True
  end.

Section Properties.
Context {EL : ExprLang} {DC : Decoders}.
Implicit Types (srv : Server) (r : request).

(** A server that was started and served requests one at a time keeps its invariant: its store has a
  history, no shared schema is registered, the engine checks with the schemas of the
  registry, and each of them is the validated compilation of the text kept with it:
  well formed, without dangling references, of a tenant that exists. *)
Theorem server_invariant srv :
serving srv →
server_ok srv ∧ ∀ id cs, schemas (eng srv) !! id = Some cs → schema_ok cs ∧ references_ok cs.
Proof.
intros Hs%serving_ok. split; [done|]. intros id cs. rewrite (srv_engine _ Hs). intros Hcs.
destruct (srv_loaded _ Hs id cs Hcs) as (_ & data & raw & now & _ & _ & Hc & Hv).
split; [by eapply compiled_schema_ok|by apply validate_nil].
Qed.

Lemma list_answered q srv :
answered (handleListTenants q srv) ∨
(∃ f, tenant_query q = Some f ∧ (2 ^ 63 ≤ Offset f + Limit f)%Z ∧ handleListTenants q srv = Crash).
Proof.
unfold handleListTenants. destruct (tenant_query q) as [f|] eqn:Eq; [|by left].
unfold List, ListTenants. destruct (applyTenantFilter _ (Some f)) as [l|e|] eqn:Ea; [by left..|right].
destruct (tenant_query_nonneg q f Eq). exists f. split; [done|]. split; [by eapply page_panic|done].
Qed.

Lemma create_answered now body srv :
store_ok (store srv) → body ≠ Panic → answered (handleCreateTenant now body srv).2.
Proof.
intros Hs Hb. unfold handleCreateTenant. destruct body as [req|e|]; [|done..].
case_bool_decide; [done|]. destruct (schema_mode _) as [mode|]; [|done]. destruct (_ && _); [done|].
unfold Create, ValidateTenantID. destruct (matches _ _); [|done]. unfold CreateTenant.
destruct (tenants (store srv) !! ID _) as [t|]; [done|]. destruct (_ || _); [|done].
destruct (UpdateTenant now _ _) as [s rr] eqn:Eu. unfold UpdateTenant in Eu. cbn in Eu.
by destruct (_ !! _); injection Eu as <- <-.
Qed.

Lemma found_answered now id s st (guard : Tenant → bool) (err : error) code k :
(∀ a, answered (k a)) →
answered (answer code (match GetTenant s id with
  | Err err => (s, Err err) | Panic => (s, Panic)
  | Ok t => if guard t then (s, Err err) else UpdateTenant now s (with_Status t st)
  end).2 k).
Proof.
intros Hk. unfold GetTenant. destruct (tenants s !! id) as [t|]; [|done]. destruct (guard t); [done|].
unfold UpdateTenant. cbn. destruct (tenants s !! _); [apply Hk|done].
Qed.

Lemma transition_answered now id srv :
answered (handleDeleteTenant now id srv).2 ∧ answered (handleActivateTenant now id srv).2 ∧
answered (handleSuspendTenant now id srv).2.
Proof.
pose proof (found_answered now id (store srv) TenantDeleted (λ t, bool_decide (Status t = TenantDeleted)) ErrTenantDeleted
  errStatus : ∀ k, _ → answered (answer errStatus (Delete now (store srv) id).2 k)) as H1.
pose proof (found_answered now id (store srv) TenantActive (λ t, bool_decide (Status t = TenantDeleted)) ErrTenantDeleted
  errStatus : ∀ k, _ → answered (answer errStatus (Activate now (store srv) id).2 k)) as H2.
pose proof (found_answered now id (store srv) TenantSuspended (λ t, bool_decide (Status t ≠ TenantActive))
  (Wrap "can only suspend active tenants" ErrInvalidStateTransition) errStatus
  : ∀ k, _ → answered (answer errStatus (Suspend now (store srv) id).2 k)) as H3.
unfold handleDeleteTenant, handleActivateTenant, handleSuspendTenant.
destruct (Delete now (store srv) id), (Activate now (store srv) id), (Suspend now (store srv) id).
split_and!; [by apply H1|by apply H2|by apply H3].
Qed.

(** What the check of an item gives. *)
Lemma check_answers_sound now tc srv req :
let c := Check (ST := memory_store now (Some tc) (store srv)) (check_fuel (cfg_MaxCheckDepth (eng srv))) (eng srv) (Some tc) req in
(∃ e, c = Some (Err e)) ∨
∃ a : CheckResult, c = Some (Ok a) ∧ (Allowed a = true → ∃ cs, IsReadable (tc_Tenant tc) = true ∧ schemaForTenant (eng srv) tc = Ok cs ∧
  grounded (ST := memory_store now (Some tc) (store srv)) cs req ∧
  condition_met (ST := memory_store now (Some tc) (store srv)) cs req).
Proof.
pose proof (memory_answers now (Some tc) (store srv)) as HSA.
destruct (check_answers_ (ST := memory_store now (Some tc) (store srv)) (eng srv) (Some tc) req) as (r & Hr & Hall).
specialize (Hall _ (le_n _)). rewrite Hall. destruct r as [r|e|]; [right|by left; exists e|done].
exists r. split; [done|]. intros Ha. revert Hall. unfold Check. case_bool_decide; [done|].
destruct (IsReadable (tc_Tenant tc)) eqn:Er; [|done]. cbn [negb].
destruct (schemaForTenant (eng srv) tc) as [cs|err|] eqn:Es; [|done..]. intros Hck. exists cs.
destruct (check_schema_sound (ST := memory_store now (Some tc) (store srv)) cs _ _ req r Hck Ha). by split_and!.
Qed.

(** Requests that write tuples and attributes. *)
Definition writes_data r : bool :=
match r with
| PostTuples _ _ | PostTuple _ _ | DeleteTuples _ _ | PutObject _ _ _ _ | PutSubject _ _ _ _ => true
| _ => false
end.

Lemma writes_answered now r srv :
server_ok srv → body_read r → writes_data r = true → answered (serve now r srv).2.
Proof.
intros Hs Hb Hw. pose proof (history_ok _ (srv_history _ Hs)) as Hok.
destruct r; try done; cbn [serve snd body_read] in *.
- apply (writing_handler_answered tenantID _ srv (λ tc l, WriteTuples now (Some tc) l (store srv))); [|intros tc l|done].
  + apply bind_no_panic; [done|]. intros l. case_bool_decide; [done|]. apply mapR_no_panic, write_tuple_of_no_panic.
  + by apply (perform_no_panic now (Some tc) (OpWriteTuples l)).
- apply (writing_handler_answered tenantID _ srv (λ tc t, WriteTuple now (Some tc) t (store srv))
    (λ _, Reply 201 (PStatusOk None))); [|intros tc t|done].
  + apply bind_no_panic; [done|]. apply write_tuple_of_no_panic.
  + by apply (perform_no_panic now (Some tc) (OpWriteTuples [t])).
- apply (writing_handler_answered tenantID _ srv (λ tc req, DeleteTuple now (Some tc) (tupleFromRequest req) (store srv))
    (λ _, Reply 204 PNoContent)); [|intros tc t|done].
  + apply bind_no_panic; [done|]. intros req. apply bind_no_panic; [|done].
    unfold validateTupleRequest. by repeat case_bool_decide.
  + by apply (perform_no_panic now (Some tc) (OpDeleteTuple (tupleFromRequest t))).
- apply (writing_handler_answered tenantID body srv (λ tc m, SetObjectAttributes (Some tc) typ id m (store srv))
    (λ m, Reply 200 (PAttributes m))); [done|intros tc m|done].
  by apply (perform_no_panic now (Some tc) (OpSetObjectAttributes typ id m)).
- apply (writing_handler_answered tenantID body srv (λ tc m, SetSubjectAttributes (Some tc) typ id m (store srv))
    (λ m, Reply 200 (PAttributes m))); [done|intros tc m|done].
  by apply (perform_no_panic now (Some tc) (OpSetSubjectAttributes typ id m)).
Qed.

(** The others, but for the two that may crash. *)
Lemma others_answered now r srv :
server_ok srv → body_read r → writes_data r = false → put_schema r = false → (∀ q, r ≠ GetTenants q) →
answered (serve now r srv).2.
Proof.
intros Hs Hb Hw Hp Hl. pose proof (history_ok _ (srv_history _ Hs)) as Hok.
destruct r; try done; cbn [serve snd body_read] in *; try (by destruct (Hl q)).
- by apply create_answered.
- unfold handleGetTenant, Get, GetTenant. by destruct (_ !! _).
- apply transition_answered.
- apply transition_answered.
- apply transition_answered.
- unfold handleGetSchema. destruct (schema_texts srv !! tenantID) as [data|] eqn:Ed; [|done].
  assert (Hin : tenantID ∈ dom (schema_compiled srv)) by (rewrite <-(srv_texts _ Hs); apply elem_of_dom; by eexists).
  apply elem_of_dom in Hin as [cs ->]. done.
- apply reading_handler_answered. intros tc. unfold read_tuples, expand. cbv zeta. case_match; [|done].
  apply answer_answered; [by apply reading_no_panic|done].
- apply reading_handler_answered. intros tc. apply answer_answered; [by apply reading_no_panic|done].
- apply reading_handler_answered. intros tc. apply answer_answered; [|done]. apply reading_no_panic. intros tid. unfold get_attributes. by destruct (_ !! _).
- apply reading_handler_answered. intros tc. apply answer_answered; [by apply reading_no_panic|done].
- apply reading_handler_answered. intros tc. apply answer_answered; [|done]. apply reading_no_panic. intros tid. unfold get_attributes. by destruct (_ !! _).
- apply reading_handler_answered. intros tc. destruct (changelog_query q) as [[since lim]|]; [|done].
  apply answer_answered; [by apply reading_no_panic|done].
- apply reading_handler_answered. intros tc. unfold read_tuples, expand. destruct body as [req|e|]; [|done..]. destruct (_ || _); [done|].
  apply answer_answered; [by apply reading_no_panic|done].
- apply answer_answered; [apply tenantCtx_no_panic|]. intros tc. apply answer_answered; [done|]. intros req.
  destruct (decide_item_answers now tc (ev_Subject req) srv (ev_Item req)) as [d ->]. done.
- apply answer_answered; [apply tenantCtx_no_panic|]. intros tc. apply answer_answered; [done|]. intros req.
  destruct (decide_items_answers now tc (bt_Subject req) srv (Evaluations req)) as (ds & -> & _). done.
Qed.

Lemma load_answered now id body srv :
(∀ data, yaml_Decode data ≠ Panic) → body ≠ Panic →
answered (handleLoadSchema now id body srv).2 ∨
(handleLoadSchema now id body srv).2 ≠ OutOfFuel ∧
∃ data raw, body = Ok data ∧ yaml_Decode data = Ok raw ∧ Compile (sha256_hex data) now raw = Panic.
Proof.
intros Hy Hb. unfold handleLoadSchema, Get, GetTenant. destruct (tenants _ !! _); [|by left].
  destruct body as [data|e|]; [|by left|done]. specialize (Hy data).
  destruct (yaml_Decode data) as [raw|e|] eqn:Ey; [|by left|done]. cbn.
  destruct (Compile _ now raw) as [cs|e|] eqn:Ec; [|by left|right; split; [done|eauto 6]].
  left. by destruct (bool_decide _).
Qed.

(** Every request is answered: no check runs out of fuel, and a handler panics only on a
  schema that makes the compiler panic, or on a page of the tenant list whose offset
  and limit overflow together. *)
Theorem requests_answered now r srv :
(∀ data, yaml_Decode data ≠ Panic) → serving srv → body_read r →
let rep := (serve now r srv).2 in
rep ≠ OutOfFuel ∧
(rep = Crash →
  (∃ id data raw, r = PutSchema id (Ok data) ∧ yaml_Decode data = Ok raw ∧ Compile (sha256_hex data) now raw = Panic) ∨
  (∃ q f, r = GetTenants q ∧ tenant_query q = Some f ∧ (2 ^ 63 ≤ Offset f + Limit f)%Z)).
Proof.
intros Hy Hs%serving_ok Hb rep.
enough (answered rep ∨ rep ≠ OutOfFuel ∧
  ((∃ id data raw, r = PutSchema id (Ok data) ∧ yaml_Decode data = Ok raw ∧ Compile (sha256_hex data) now raw = Panic) ∨
   (∃ q f, r = GetTenants q ∧ tenant_query q = Some f ∧ (2 ^ 63 ≤ Offset f + Limit f)%Z)))
  as [[H1 H2]|[H1 H2]] by done.
subst rep. destruct (writes_data r) eqn:Ew; [left; by apply writes_answered|].
destruct r; try (left; by apply others_answered); cbn [serve snd body_read] in *.
- destruct (list_answered q srv) as [H|(f & Hq & Hf & H)]; [by left|]. right. rewrite H. split; [done|]. right. eauto.
- destruct (load_answered now tenantID body srv Hy Hb) as [H|(H & data & raw & -> & ? & ?)]; [by left|].
  right. split; [done|]. left. eauto 6.
Qed.


(** A batch of evaluations is the evaluations of its items, in order: it is refused
  exactly when each of them would be, and an item's error denies that item alone. *)
Theorem batch_is_evaluations now id subject items srv :
(∃ ds, handleAuthZenEvaluations now id (Ok (MkBatch subject items)) srv = Reply 200 (PDecisions ds) ∧
  Forall2 (λ item d, handleAuthZenEvaluation now id (Ok (MkEvaluation subject item)) srv = Reply 200 (PDecision d)) items ds) ∨
(handleAuthZenEvaluations now id (Ok (MkBatch subject items)) srv = Fail 400 ∧
  ∀ item, handleAuthZenEvaluation now id (Ok (MkEvaluation subject item)) srv = Fail 400).
Proof.
unfold handleAuthZenEvaluations, handleAuthZenEvaluation. pose proof (tenantCtx_no_panic (store srv) id) as Hctx.
destruct (tenantCtx (store srv) id) as [tc|e|]; [left|by right|done]. cbn [answer bt_Subject Evaluations].
destruct (decide_items_answers now tc subject srv items) as (ds & -> & Hds). exists ds. split; [done|].
eapply Forall2_impl; [exact Hds|]. intros item d Hd. cbn. by rewrite Hd.
Qed.
End Properties.

(** ** The properties on the demo *)

Lemma server_invariant_witness : server_ok demo_server.
Proof. exact (proj1 (server_invariant demo_server demo_serving)). Defined.

Lemma demo_decodes data : yaml_Decode data ≠ Panic.
Proof. cbn. by case_bool_decide. Qed.

(** The page that starts at 1 and has [2^63-1] tenants. *)
Definition overflowing_page (name : string) : string :=
  if bool_decide (name = "limit") then "9223372036854775807"
  else if bool_decide (name = "offset") then "1" else "".

Example overflowing_page_crashes : handleListTenants overflowing_page demo_server = Crash.
Proof. by vm_compute. Qed.

Lemma requests_answered_witness :
  (serve 7 (GetTenants overflowing_page) demo_server).2 ≠ OutOfFuel ∧
  ∃ q f, GetTenants overflowing_page = GetTenants q ∧ tenant_query q = Some f ∧ (2 ^ 63 ≤ Offset f + Limit f)%Z.
Proof.
  pose proof (requests_answered 7 (GetTenants overflowing_page) demo_server demo_decodes demo_serving I) as H.
  split; [exact (proj1 H)|].
  destruct (proj2 H overflowing_page_crashes) as [(id & data & raw & Hr & _)|Hq]; [discriminate Hr|exact Hq].
Defined.

