(* ===== verification/ApiWrites.v ===== *)
(** * Properties of writes through the HTTP API

    The status codes of a tuple write, how long a written tuple is read, loading a
    schema, and the tenant the server starts with. *)

From S2P Require Import Prelude GoLib ServerModel ServerSchema ServerEngine EngineTermination EngineSpec Changelog ServerStore StoreFacts ServerTenants ServerApi ServerDemo EngineProperties StoreProperties TenantProperties ApiFacts ApiDemo.

Open Scope nat_scope.
Open Scope list_scope.

Section Writes.
Context {EL : ExprLang} {DC : Decoders}.
Implicit Types (srv : Server) (r : request) (req : TupleRequest).

(** The documented status codes of a write whose body decodes, on the map of the
  tenant's tuples by key. *)
Definition write_code (now : Z) id req srv : Z :=
if bool_decide (id = "") then 400
else match tenants (store srv) !! id with
| None => 404
| Some t =>
    match write_tuple_of now req with
    | Ok tuple =>
        match Status t with
        | TenantDeleted => 410
        | TenantPending | TenantSuspended => 403
        | TenantActive =>
            if free now (by_key (tuples_of (store srv) id)) (tupleIdentityKey tuple) then 201 else 409
        end
    | _ => 400
    end
end.

Lemma write_one_spec now id s tuple :
NoDup (keys (tuples_of s id)) →
let m := by_key (tuples_of s id) in
if free now m (tupleIdentityKey tuple) then
  (writeTuplesLocked now id [tuple] s).2 = Ok () ∧
  by_key (tuples_of (writeTuplesLocked now id [tuple] s).1 id) = <[tupleIdentityKey tuple := stamp now id tuple]> m
else writeTuplesLocked now id [tuple] s = (s, Err ErrDuplicateTuple).
Proof.
intros Hd m. destruct (write_refines_spec now id [tuple] s Hd) as (H1 & H2 & _). fold m in H1, H2.
unfold spec_write in H1, H2. cbn [keys fmap list_fmap] in H1, H2.
destruct (free now m (tupleIdentityKey tuple)) eqn:Ef.
- rewrite decide_True in H1, H2.
  + rewrite H1, H2. split; [done|]. cbn [fst]. by rewrite insert_union_singleton_l.
  + split; [by apply NoDup_singleton|]. by constructor.
  + split; [by apply NoDup_singleton|]. by constructor.
- clear H1 H2. unfold writeTuplesLocked. cbn [length]. rewrite bool_decide_eq_false_2 by done.
  pose proof (scan_all now (tuples_of s id)) as Hscan.
  destruct (scan now 0 (tuples_of s id) ∅ ∅) as [E X]. rewrite stage_spec.
  rewrite decide_False; [done|]. rewrite (scanned_fresh now _ E X _ Hd Hscan).
  intros [_ Hf]. apply Forall_cons in Hf as [Hf _]. fold m in Hf. congruence.
Qed.


(** ** Reading back *)

(** The query with the fields of a tuple. *)
Definition tuple_query req (name : string) : string :=
if bool_decide (name = "object_type") then tr_ObjectType req
else if bool_decide (name = "object_id") then tr_ObjectID req
else if bool_decide (name = "relation") then tr_Relation req
else if bool_decide (name = "subject_type") then tr_SubjectType req
else if bool_decide (name = "subject_id") then tr_SubjectID req
else if bool_decide (name = "subject_relation") then tr_SubjectRelation req
else "".

Lemma write_tuple_of_Ok now req tuple :
write_tuple_of now req = Ok tuple →
∃ e, tupleExpiryFromRequest req now = Ok e ∧ ExpiresAt tuple = e ∧ rt_Attributes tuple = tr_Attributes req ∧
  same_tuple tuple (tupleFromRequest req) = true.
Proof.
unfold write_tuple_of. destruct (validateTupleRequest req); [|done..]. cbn. unfold tupleFromWriteRequest.
destruct (tupleExpiryFromRequest req now) as [e|err|]; [|done..]. cbn. intros [= <-]. exists e.
split_and!; try done. unfold same_tuple. cbn. by rewrite !bool_decide_eq_true_2.
Qed.

(** A tuple the store has under the key of a query is in the reply while it lives. *)
Lemma read_exactly now' id req srv t tn :
store_ok (store srv) → id ≠ "" → tenants (store srv) !! id = Some tn → Status tn = TenantActive →
by_key (tuples_of (store srv) id) !! tupleIdentityKey t = Some t → same_tuple t (tupleFromRequest req) = true →
∃ l, handleReadTuples now' id (tuple_query req) srv = Reply 200 (PTuples l (Z.of_nat (length l))) ∧
  ∀ u, u ∈ l ∧ same_tuple u (tupleFromRequest req) = true ↔ u = t ∧ tupleIsExpiredAt now' t = false.
Proof.
intros Hok Hid Ht Hst Hk Hsame. pose proof (ok_keys _ Hok id) as Hd.
unfold handleReadTuples, reading_handler, read_tuples. set (tc := MkTenantContext id tn "" (MergeConfig tn None)).
rewrite (proj2 (tenantCtx_Ok (store srv) id tc)) by eauto. cbn [answer].
change (tuple_query req "include_expired") with "". cbn zeta. rewrite bool_decide_eq_true_2 by done.
unfold ReadTuples, reading, checkTenantReadable. cbn [tenantIDFromCtx tc tc_TenantID mbind res_bind].
rewrite Ht, Hst. rewrite bool_decide_eq_false_2 by done. cbn [answer IncludeExpired tuple_filter orb].
eexists. split; [done|]. intros u. rewrite list_elem_of_filter. split.
- intros [[H Hu] Hsu]. bool_prop. apply (by_key_elem _ u Hd) in Hu.
  assert (u = t) as ->; [|done].
  rewrite (same_tuple_key u _ Hsu), <-(same_tuple_key t _ Hsame), Hk in Hu. by injection Hu.
- intros [-> Hlive]. apply by_key_elem in Hk; [|done]. split; [|done]. split; [|done].
  rewrite Hlive. cbn [negb andb]. unfold same_tuple in Hsame. cbn in Hsame. bool_prop.
  assert (Hf : ∀ f v : string, v = f → field_matches f v = true)
    by (intros f v ->; unfold field_matches; rewrite (bool_decide_eq_true_2 (f = f)) by done; by rewrite orb_true_r).
  unfold matchesTupleFilter. change (tuple_filter (tuple_query req) false) with
    (MkTupleFilter (tr_ObjectType req) (tr_ObjectID req) (tr_Relation req) (tr_SubjectType req) (tr_SubjectID req)
       (tr_SubjectRelation req) false). cbn [f_ObjectType f_ObjectID f_Relation f_SubjectType f_SubjectID f_SubjectRelation].
  by rewrite !Hf by done.
Qed.

(** What a write that was accepted leaves. *)
Lemma write_tuple_key now id req srv srv' p :
serving srv → handleWriteTuple now id (Ok req) srv = (srv', Reply 201 p) →
id ≠ "" ∧ ∃ tn tuple, tenants (store srv') !! id = Some tn ∧ Status tn = TenantActive ∧
  write_tuple_of now req = Ok tuple ∧
  by_key (tuples_of (store srv') id) =
    <[tupleIdentityKey tuple := stamp now id tuple]> (by_key (tuples_of (store srv) id)).
Proof.
intros Hs%serving_ok Hw. pose proof (history_ok _ (srv_history _ Hs)) as Hok. unfold handleWriteTuple in Hw.
destruct (tenantCtx (store srv) id) as [tc|e|] eqn:Etc; [|done..].
apply tenantCtx_Ok in Etc as (Hid & tn & Htn & ->). split; [done|].
change (Ok req ≫= _) with (write_tuple_of now req) in Hw.
destruct (write_tuple_of now req) as [tuple|e|]; [|done..]. exists tn, tuple.
set (tc := MkTenantContext id tn "" _) in Hw.
pose proof (data_operation_tenants now (Some tc) (OpWriteTuples [tuple]) (store srv) eq_refl) as Hts.
cbn [perform] in Hts. unfold WriteTuple in Hw. revert Hw Hts. unfold WriteTuples, writing, checkTenantWritable.
cbn [tenantIDFromCtx tc tc_TenantID]. rewrite Htn. destruct (Status tn) eqn:Est; [done| |done..].
pose proof (write_one_spec now id (store srv) tuple (ok_keys _ Hok id)) as Hw. cbn zeta in Hw.
destruct (free now _ _); [|by rewrite Hw].
destruct Hw as [Hw1 Hw2]. destruct (writeTuplesLocked _ _ _ _) as [s rr]. cbn [fst snd] in *.
rewrite Hw1. intros [= <- _] Hts. cbn. by rewrite Hts.
Qed.

(** C32: A tuple that was written is read back, with its attributes, by a query of its
  fields, until the instant it expires and not from then on. *)
Theorem written_tuple_expires now id req srv srv' p :
serving srv → handleWriteTuple now id (Ok req) srv = (srv', Reply 201 p) →
∃ expiry, tupleExpiryFromRequest req now = Ok expiry ∧
  ∀ now', ∃ l, handleReadTuples now' id (tuple_query req) srv' = Reply 200 (PTuples l (Z.of_nat (length l))) ∧
    (∀ t, t ∈ l → same_tuple t (tupleFromRequest req) = true → rt_Attributes t = tr_Attributes req) ∧
    ((∃ t, t ∈ l ∧ same_tuple t (tupleFromRequest req) = true) ↔
     match expiry with Some e => (now' < e)%Z | None => True end).
Proof.
intros Hs Hw. pose proof (serve_ok now (PostTuple id (Ok req)) srv (serving_ok _ Hs)) as Hs'.
pose proof (write_tuple_key now id req srv srv' p Hs Hw) as (Hid & tn & tuple & Htn & Hst & Ht & Hk).
cbn [serve] in Hs'. rewrite Hw in Hs'. cbn [fst] in Hs'.
destruct (write_tuple_of_Ok now req tuple Ht) as (e & He & Hexp & Hattr & Hsame). exists e. split; [done|]. intros now'.
destruct (read_exactly now' id req srv' (stamp now id tuple) tn) as (l & Hl & Hin); try done.
{ by apply history_ok, srv_history. }
{ rewrite stamp_key, Hk. by rewrite lookup_insert_eq. }
exists l. split; [done|]. split.
- intros t Htl Hts. by destruct (proj1 (Hin t) (conj Htl Hts)) as [-> _].
- setoid_rewrite Hin. unfold tupleIsExpiredAt. cbn [stamp ExpiresAt]. rewrite Hexp. split.
  + intros (t & -> & H). destruct e as [e|]; [|done]. apply negb_false_iff in H. by apply Z.ltb_lt.
  + intros H. exists (stamp now id tuple). split; [done|]. destruct e as [e|]; [|done].
    by apply negb_false_iff, Z.ltb_lt.
Qed.

(** A tuple with [ttl_seconds] is accepted exactly for a value from 1 to 86400 without
  an [expires_at], and expires that many seconds later: the product with the
  nanoseconds of a second does not overflow. *)
Theorem ttl_bounds req (now n : Z) e :
TTLSeconds req = Some n →
tupleExpiryFromRequest req now = Ok e ↔
  TrimSpace (tr_ExpiresAt req) = "" ∧ (1 ≤ n ≤ 86400)%Z ∧ e = Some (now + n * 1000000000)%Z.
Proof.
intros Hn. unfold tupleExpiryFromRequest. rewrite Hn. cbn zeta. case_bool_decide as Hb; [split; [done|intros (H & _); by destruct Hb]|].
unfold maxTupleTTLSeconds, duration, int_add.
destruct (Z.leb_spec n 0) as [Hle|Hpos]; [split; [done|]; lia|].
destruct (Z.ltb_spec 86400 n) as [Hgt|Hle]; [split; [done|]; lia|].
rewrite Z.mod_small by lia. split.
- intros [= <-]. split; [destruct (decide (TrimSpace (tr_ExpiresAt req) = "")); [done|by destruct Hb]|].
  split; [lia|]. f_equal. lia.
- intros (_ & _ & ->). do 2 f_equal. lia.
Qed.

(** ** Schemas *)

Lemma Compile_fields hash now raw cs :
Compile hash now raw = Ok cs → Hash cs = hash ∧ Version cs = raw_Version raw ∧ CompiledAt cs = now.
Proof.
unfold Compile. destruct (map_loop compile_type _) as [first| |]; [|done..]. cbn.
destruct (map_loop (compile_permissions first) _) as [types| |]; [|done..]. by intros [= <-].
Qed.

(** Loading a schema is all or nothing: either the text is decoded, compiled and valid,
  and then it is what the server gives back with its hash, what the checks of the
  tenant use, unless it is in shared mode, and no other tenant's schema changes; or
  the request fails and the server is as it was. *)
Theorem load_schema_roundtrip now id body srv :
let '(srv', rep) := serve now (PutSchema id body) srv in
(∃ data raw cs, body = Ok data ∧ yaml_Decode data = Ok raw ∧ Compile (sha256_hex data) now raw = Ok cs ∧
   references_ok cs ∧
   rep = Reply 200 (PSchema (MkSchemaResponse id (sha256_hex data) (raw_Version raw) data now)) ∧
   handleGetSchema id srv' = rep ∧
   (∀ tc, tenantCtx (store srv') id = Ok tc → tenant_SchemaMode (tc_Tenant tc) ≠ SchemaShared →
      schemaForTenant (eng srv') tc = Ok cs) ∧
   store srv' = store srv ∧ ∀ id', id' ≠ id → schema_of srv' id' = schema_of srv id') ∨
(srv' = srv ∧ ∀ p, rep ≠ Reply 200 p).
Proof.
cbn [serve]. pose proof (load_schema_cases now id body srv) as Hl. destruct (handleLoadSchema now id body srv) as [srv' rep].
destruct Hl as [(data & raw & cs & -> & Ht & Hy & Hc & Hv & -> & ->)|H]; [left|by right].
destruct (Compile_fields _ _ _ _ Hc) as (Hh & Hve & Hat). exists data, raw, cs.
split_and!; try done; [by apply validate_nil|by rewrite Hh, Hve, Hat|..].
- unfold handleGetSchema. cbn. by rewrite !lookup_insert_eq.
- intros tc Htc Hmode. cbn. rewrite <-(tenantCtx_id _ _ _ Htc). unfold schemaForTenant. cbn.
  destruct (tenant_SchemaMode (tc_Tenant tc)); [|done|]; by rewrite lookup_insert_eq.
- intros id' Hne. unfold schema_of. cbn. by rewrite !lookup_insert_ne.
Qed.

(** ** The bootstrap tenant *)

(** Starting the server leaves the bootstrap tenant active, whatever it was before: one
  that was deleted comes back with the data it had; no other tenant changes. *)
Theorem bootstrap_activates now s :
history s →
let '(s', r) := ensureBootstrapTenant now s in
r = Ok () ∧ status_at s' bootstrapTenantID = Some TenantActive ∧
data_of s' bootstrapTenantID = data_of s bootstrapTenantID ∧
∀ id, id ≠ bootstrapTenantID → status_at s' id = status_at s id ∧ data_of s' id = data_of s id.
Proof.
intros Hs%history_ok. pose proof (bootstrap_effect now s Hs) as Heff.
assert (Hothers : ∀ id, id ≠ bootstrapTenantID → status_at (ensureBootstrapTenant now s).1 id = status_at s id ∧
  data_of (ensureBootstrapTenant now s).1 id = data_of s id).
{ intros id Hne. unfold status_at. by destruct (effect_isolates _ _ _ id Heff Hs Hne) as [-> ->]. }
destruct (ensureBootstrapTenant now s) as [s' r] eqn:E. cbn [fst] in Hothers.
enough (r = Ok () ∧ status_at s' bootstrapTenantID = Some TenantActive ∧
  data_of s' bootstrapTenantID = data_of s bootstrapTenantID) by (destruct_and!; by split_and!).
clear Hothers Heff. revert E. unfold ensureBootstrapTenant, Get, GetTenant.
destruct (tenants s !! bootstrapTenantID) as [t|] eqn:Et.
- case_bool_decide as Hst; [intros [= <- <-]; split_and!; try done; unfold status_at; rewrite Et; cbn; by rewrite Hst|].
  unfold UpdateTenant. cbn. rewrite (ok_ids s Hs _ t Et), Et. cbn. intros [= <- <-].
  split_and!; [done| |done]. unfold status_at. cbn. by rewrite lookup_insert_eq.
- cbn [errors_Is]. rewrite bool_decide_eq_true_2 by done. cbn [orb].
  unfold Create. replace (ValidateTenantID bootstrapTenantID) with (Ok ()) by (by vm_compute).
  unfold CreateTenant. cbn [ID]. rewrite Et. cbn zeta. rewrite init_set_tenants.
  set (t := MkTenant bootstrapTenantID _ _ _ _ _ _ _ _). unfold Activate, GetTenant. cbn [tenants set_tenants].
  rewrite lookup_insert_eq. cbn [Status t]. rewrite bool_decide_eq_false_2 by done. unfold UpdateTenant. cbn [tenants set_tenants].
  change (ID (with_Status t TenantActive)) with bootstrapTenantID. rewrite lookup_insert_eq.
  intros [= <- <-]. split_and!; [done| |].
  + unfold status_at. cbn. by rewrite lookup_insert_eq.
  + rewrite !data_set_tenants. by apply data_init.
Qed.
End Writes.

(** ** The properties on the demo *)

Definition carl_views : TupleRequest := tuple_request "folder" "a" "viewer" "user" "carl" "" (Some 60%Z).


Lemma written_tuple_expires_witness :
  ∃ expiry, tupleExpiryFromRequest carl_views 6 = Ok expiry ∧
    ∀ now', ∃ l, handleReadTuples now' "super" (tuple_query carl_views)
        (handleWriteTuple 6 "super" (Ok carl_views) demo_server).1 = Reply 200 (PTuples l (Z.of_nat (length l))) ∧
      (∀ t, t ∈ l → same_tuple t (tupleFromRequest carl_views) = true → rt_Attributes t = tr_Attributes carl_views) ∧
      ((∃ t, t ∈ l ∧ same_tuple t (tupleFromRequest carl_views) = true) ↔
       match expiry with Some e => (now' < e)%Z | None => True end).
Proof.
  apply (written_tuple_expires 6 "super" carl_views demo_server
    (handleWriteTuple 6 "super" (Ok carl_views) demo_server).1 (PStatusOk None) demo_serving).
  by vm_compute.
Defined.

Lemma ttl_bounds_witness :
  tupleExpiryFromRequest carl_views 6 = Ok (Some 60000000006%Z).
Proof. apply (ttl_bounds carl_views 6 60 _ eq_refl). by split_and!. Defined.

Lemma bootstrap_activates_witness :
  status_at (ensureBootstrapTenant 6 demo_store).1 bootstrapTenantID = Some TenantActive.
Proof.
  pose proof (bootstrap_activates 6 demo_store demo_history) as H.
  destruct (ensureBootstrapTenant 6 demo_store) as [s' r]. exact (proj1 (proj2 H)).
Defined.
