(* ===== verification/ApiIsolation.v ===== *)
(** * Tenants of the API do not see each other

    The reply to a request is a function of what the server holds for the tenant the
    request names, and requests about other tenants do not change that. *)

From S2P Require Import Prelude GoLib ServerModel ServerSchema ServerEngine EngineTermination Changelog ServerStore StoreFacts ServerTenants ServerApi ServerDemo StoreProperties ApiFacts ApiDemo.

Open Scope nat_scope.
Open Scope list_scope.

Section Isolation.
Context {EL : ExprLang} {DC : Decoders}.
Implicit Types (srv : Server) (r : request) (s : Store) (tid : string).

(** What the server holds for a tenant, and for all of them. *)
Record same_view tid srv srv' : Prop := {
view_tenant : tenants (store srv) !! tid = tenants (store srv') !! tid;
view_data : data_of (store srv) tid = data_of (store srv') tid;
view_schema : schema_of srv tid = schema_of srv' tid;
view_depth : cfg_MaxCheckDepth (eng srv) = cfg_MaxCheckDepth (eng srv');
view_shared : sharedSchemas (eng srv) = sharedSchemas (eng srv') }.

Lemma same_view_refl tid srv : same_view tid srv srv.
Proof. by split. Qed.

(** ** Requests about other tenants *)

Lemma serve_unaddressed now r srv : addressed r = None → (serve now r srv).1 = srv.
Proof. destruct r; try done. by destruct body. Qed.

Lemma serve_same_view now r srv tid :
store_ok (store srv) → addressed r ≠ Some tid → same_view tid (serve now r srv).1 srv.
Proof.
intros Hs Ha. destruct (addressed r) as [id|] eqn:Er; [|rewrite serve_unaddressed by done; apply same_view_refl].
assert (Hne : tid ≠ id) by congruence.
pose proof (serve_effect now r srv Hs) as He. rewrite Er in He.
destruct (effect_isolates _ _ _ tid He Hs Hne) as [Hd Ht].
destruct (put_schema r) eqn:Ep.
- destruct r as [| | | | | | |id' body| | | | | | | | | | | | | | |]; try done. injection Er as ->. clear He Hd Ht. cbn [serve].
  pose proof (load_schema_cases now id body srv) as Hl. destruct (handleLoadSchema now id body srv) as [srv' rep].
  destruct Hl as [(data & raw & cs & _ & _ & _ & _ & _ & -> & _)|[-> _]]; [|apply same_view_refl].
  split; try done. unfold schema_of. cbn. by rewrite !lookup_insert_ne.
- destruct (serve_keeps_schemas now r srv Ep) as (H1 & H2 & H3).
  split; [done|done|..]; unfold schema_of; by rewrite ?H1, ?H2, ?H3.
Qed.

(** ** Replies from a view *)

Section View.
Context tid srv srv' (Hv : same_view tid srv srv').

Lemma view_readable : checkTenantReadable (store srv) tid = checkTenantReadable (store srv') tid.
Proof using Hv. unfold checkTenantReadable. by rewrite (view_tenant _ _ _ Hv). Qed.

Lemma view_writable : checkTenantWritable (store srv) tid = checkTenantWritable (store srv') tid.
Proof using Hv. unfold checkTenantWritable. by rewrite (view_tenant _ _ _ Hv). Qed.

Lemma view_ctx : tenantCtx (store srv) tid = tenantCtx (store srv') tid.
Proof using Hv. unfold tenantCtx, BuildContext, GetTenant. by rewrite (view_tenant _ _ _ Hv). Qed.

Lemma view_parts :
tuples_of (store srv) tid = tuples_of (store srv') tid ∧
default ∅ (objAttrs (store srv) !! tid) = default ∅ (objAttrs (store srv') !! tid) ∧
default ∅ (subAttrs (store srv) !! tid) = default ∅ (subAttrs (store srv') !! tid) ∧
log_of (store srv) tid = log_of (store srv') tid.
Proof using Hv.
pose proof (view_data _ _ _ Hv) as Hd. unfold data_of in Hd. apply pair_equal_spec in Hd as [Hd ?].
apply pair_equal_spec in Hd as [Hd ?]. by apply pair_equal_spec in Hd as [? ?].
Qed.

Lemma view_reading {A} tc (f g : string → res A) :
tc_TenantID tc = tid → f tid = g tid → reading (Some tc) (store srv) f = reading (Some tc) (store srv') g.
Proof using Hv. intros Htc Hf. unfold reading. cbn. rewrite Htc, view_readable, Hf. by destruct (checkTenantReadable _ _). Qed.

Lemma view_reading_handler (k k' : TenantContext → reply) :
(∀ tc, tc_TenantID tc = tid → k tc = k' tc) → reading_handler tid srv k = reading_handler tid srv' k'.
Proof using Hv.
intros Hk. unfold reading_handler. rewrite view_ctx. destruct (tenantCtx _ _) as [tc|e|] eqn:E; [|done..].
apply Hk. by eapply tenantCtx_id.
Qed.

Lemma view_writing_handler {A B} (body : res A) (op op' : TenantContext → A → Store * res B) (k : A → reply) :
(∀ tc a, tc_TenantID tc = tid → (op tc a).2 = (op' tc a).2) →
(match tenantCtx (store srv) tid with
 | Err err => (srv, Fail (tenantContextErrStatus err))
 | Panic => (srv, Crash)
 | Ok tc =>
     match body with
     | Err _ => (srv, Fail 400)
     | Panic => (srv, Crash)
     | Ok a => let '(s, r) := op tc a in (with_store s srv, answer errStatus r (λ _, k a))
     end
 end).2 =
(match tenantCtx (store srv') tid with
 | Err err => (srv', Fail (tenantContextErrStatus err))
 | Panic => (srv', Crash)
 | Ok tc =>
     match body with
     | Err _ => (srv', Fail 400)
     | Panic => (srv', Crash)
     | Ok a => let '(s, r) := op' tc a in (with_store s srv', answer errStatus r (λ _, k a))
     end
 end).2.
Proof using Hv.
intros Hop. rewrite view_ctx. destruct (tenantCtx _ _) as [tc|e|] eqn:E; [|done..]. destruct body as [a|e|]; [|done..].
specialize (Hop tc a (tenantCtx_id _ _ _ E)). destruct (op tc a), (op' tc a). cbn in *. by rewrite Hop.
Qed.

Lemma view_store now tc :
tc_TenantID tc = tid → memory_store now (Some tc) (store srv) = memory_store now (Some tc) (store srv').
Proof using Hv.
destruct view_parts as (Ht & Ho & Hs & _). intros Htc. unfold memory_store.
unfold StoreCheckDirect, StoreListRelatedObjects, StoreListSubjects, StoreGetObjectAttributes,
  StoreGetSubjectAttributes, reading, get_attributes. cbn.
by rewrite Htc, Ht, Ho, Hs, view_readable.
Qed.

Lemma view_schemaForTenant tc : tc_TenantID tc = tid → schemaForTenant (eng srv) tc = schemaForTenant (eng srv') tc.
Proof using Hv.
intros Htc. pose proof (view_schema _ _ _ Hv) as H. unfold schema_of in H. injection H as H _ _.
unfold schemaForTenant. by rewrite Htc, H, (view_shared _ _ _ Hv).
Qed.

Lemma view_decide_item now tc subject item :
tc_TenantID tc = tid → decide_item now tc subject srv item = decide_item now tc subject srv' item.
Proof using Hv.
intros Htc. unfold decide_item, Check.
by rewrite (view_store now tc Htc), (view_schemaForTenant tc Htc), (view_depth _ _ _ Hv).
Qed.

Lemma view_decide_items now tc subject l :
tc_TenantID tc = tid → decide_items now tc subject srv l = decide_items now tc subject srv' l.
Proof using Hv.
intros Htc. induction l as [|item l IH]; simpl; [done|]. by rewrite (view_decide_item now tc subject item Htc), IH.
Qed.

(** ** What the operations of the store return *)

Lemma view_write now tc l :
tc_TenantID tc = tid → (WriteTuples now (Some tc) l (store srv)).2 = (WriteTuples now (Some tc) l (store srv')).2.
Proof using Hv.
intros Htc. unfold WriteTuples, writing. cbn. rewrite Htc. rewrite view_writable. destruct (checkTenantWritable _ _); [done|].
unfold writeTuplesLocked. case_bool_decide; [done|]. destruct view_parts as (-> & _).
destruct (scan now 0 _ ∅ ∅) as [E X]. destruct (stage _ _ _ _ _); [|done..]. by destruct (place _ _ _ _).
Qed.

Lemma view_delete now tc t :
tc_TenantID tc = tid → (DeleteTuple now (Some tc) t (store srv)).2 = (DeleteTuple now (Some tc) t (store srv')).2.
Proof using Hv.
intros Htc. unfold DeleteTuple, writing. cbn. rewrite Htc. rewrite view_writable. destruct (checkTenantWritable _ _); [done|].
destruct view_parts as (-> & _). by destruct (delete_first _ _) as [[]|].
Qed.

(** A tenant that can be written has its buckets. *)
Lemma view_set (now : Z) tc typ id m :
tc_TenantID tc = tid → store_ok (store srv) → store_ok (store srv') →
(SetObjectAttributes (Some tc) typ id m (store srv)).2 = (SetObjectAttributes (Some tc) typ id m (store srv')).2 ∧
(SetSubjectAttributes (Some tc) typ id m (store srv)).2 = (SetSubjectAttributes (Some tc) typ id m (store srv')).2.
Proof using Hv.
intros Htc Hs Hs'.
pose proof (perform_no_panic now (Some tc) (OpSetObjectAttributes typ id m) _ Hs) as P1.
pose proof (perform_no_panic now (Some tc) (OpSetObjectAttributes typ id m) _ Hs') as P2.
pose proof (perform_no_panic now (Some tc) (OpSetSubjectAttributes typ id m) _ Hs) as P3.
pose proof (perform_no_panic now (Some tc) (OpSetSubjectAttributes typ id m) _ Hs') as P4.
revert P1 P2 P3 P4. cbn [perform]. unfold SetObjectAttributes, SetSubjectAttributes, writing, set_attributes. cbn.
rewrite Htc, view_writable. destruct (checkTenantWritable _ _); [done|].
by destruct (objAttrs (store srv) !! _), (objAttrs (store srv') !! _), (subAttrs (store srv) !! _), (subAttrs (store srv') !! _).
Qed.

(** ** What the commands of the manager return *)

Lemma view_found (now : Z) st (guard : Tenant → bool) (err : error) code (k : Store → reply) :
(∀ s, k s = tenant_now s tid) ∨ (∃ rep, ∀ s, k s = rep) →
store_ok (store srv) → store_ok (store srv') →
let cmd s := match GetTenant s tid with
  | Err err => (s, Err err) | Panic => (s, Panic)
  | Ok t => if guard t then (s, Err err) else UpdateTenant now s (with_Status t st)
  end in
(let '(s, r) := cmd (store srv) in answer code r (λ _, k s)) =
(let '(s, r) := cmd (store srv') in answer code r (λ _, k s)).
Proof using Hv.
intros Hk Hs Hs' cmd. subst cmd. cbn. unfold GetTenant. rewrite (view_tenant _ _ _ Hv).
destruct (tenants (store srv') !! tid) as [t|] eqn:E; [|done]. destruct (guard t); [done|].
unfold UpdateTenant. cbn. rewrite (ok_ids _ Hs' _ _ E), (view_tenant _ _ _ Hv), E. cbn.
destruct Hk as [Hk|[rep Hk]]; rewrite !Hk; [|done]. unfold tenant_now, Get, GetTenant. cbn. by rewrite !lookup_insert_eq.
Qed.
End View.

Lemma view_create now req srv srv' :
same_view (ct_ID req) srv srv' →
(handleCreateTenant now (Ok req) srv).2 = (handleCreateTenant now (Ok req) srv').2.
Proof.
intros Hv. unfold handleCreateTenant. case_bool_decide; [done|]. destruct (schema_mode _) as [mode|]; [|done].
destruct (_ && _); [done|]. unfold Create. destruct (ValidateTenantID _); [|done..]. unfold CreateTenant. cbn [ID].
rewrite (view_tenant _ _ _ Hv). destruct (tenants (store srv') !! ct_ID req); [done|]. cbn.
destruct (_ || _); [|done]. rewrite !init_set_tenants. unfold UpdateTenant. cbn. by rewrite !lookup_insert_eq.
Qed.

Lemma view_reply now r srv srv' tid :
same_view tid srv srv' → store_ok (store srv) → store_ok (store srv') → addressed r = Some tid →
(serve now r srv).2 = (serve now r srv').2.
Proof.
intros Hv Hs Hs' Ha. destruct (view_parts _ _ _ Hv) as (Ht & Ho & Hsub & Hl).
destruct r; cbn [addressed] in Ha; try done; cbn [serve snd].
{ destruct body as [req|e|]; try done. injection Ha as <-. by apply view_create. }
all: injection Ha as ->.
- unfold handleGetTenant, Get, GetTenant. by rewrite (view_tenant _ _ _ Hv).
- pose proof (view_found tid srv srv' Hv now TenantDeleted (λ t, bool_decide (Status t = TenantDeleted)) ErrTenantDeleted
    errStatus (λ _, Reply 204 PNoContent) (or_intror (ex_intro _ (Reply 204 PNoContent) (λ _, eq_refl))) Hs Hs'
    : (let '(s, r) := Delete now (store srv) tid in answer errStatus r (λ _, _)) =
      (let '(s, r) := Delete now (store srv') tid in answer errStatus r (λ _, _))) as H.
  unfold handleDeleteTenant. by destruct (Delete _ _ _), (Delete _ _ _).
- pose proof (view_found tid srv srv' Hv now TenantActive (λ t, bool_decide (Status t = TenantDeleted)) ErrTenantDeleted
    errStatus (λ s, tenant_now s tid) (or_introl (λ _, eq_refl)) Hs Hs'
    : (let '(s, r) := Activate now (store srv) tid in answer errStatus r (λ _, _)) =
      (let '(s, r) := Activate now (store srv') tid in answer errStatus r (λ _, _))) as H.
  unfold handleActivateTenant. by destruct (Activate _ _ _), (Activate _ _ _).
- pose proof (view_found tid srv srv' Hv now TenantSuspended (λ t, bool_decide (Status t ≠ TenantActive))
    (Wrap "can only suspend active tenants" ErrInvalidStateTransition)
    errStatus (λ s, tenant_now s tid) (or_introl (λ _, eq_refl)) Hs Hs'
    : (let '(s, r) := Suspend now (store srv) tid in answer errStatus r (λ _, _)) =
      (let '(s, r) := Suspend now (store srv') tid in answer errStatus r (λ _, _))) as H.
  unfold handleSuspendTenant. by destruct (Suspend _ _ _), (Suspend _ _ _).
- unfold handleLoadSchema, Get, GetTenant. rewrite (view_tenant _ _ _ Hv). destruct (tenants _ !! _); [|done].
  destruct body; [|done..]. destruct (_ ≫= _); [|done..]. by case_bool_decide.
- unfold handleGetSchema. pose proof (view_schema _ _ _ Hv) as H. unfold schema_of in H.
  apply pair_equal_spec in H as [H H3]. apply pair_equal_spec in H as [_ H2]. by rewrite H2, H3.
- apply (view_writing_handler tid srv srv' Hv _ (λ tc l, WriteTuples now (Some tc) l (store srv))
    (λ tc l, WriteTuples now (Some tc) l (store srv')) (λ l, Reply 201 (PStatusOk (Some (Z.of_nat (length l)))))).
  intros tc l Htc. by apply (view_write tid).
- apply (view_writing_handler tid srv srv' Hv _ (λ tc t, WriteTuple now (Some tc) t (store srv))
    (λ tc t, WriteTuple now (Some tc) t (store srv')) (λ _, Reply 201 (PStatusOk None))).
  intros tc t Htc. by apply (view_write tid).
- apply (view_writing_handler tid srv srv' Hv _ (λ tc t, DeleteTuple now (Some tc) (tupleFromRequest t) (store srv))
    (λ tc t, DeleteTuple now (Some tc) (tupleFromRequest t) (store srv')) (λ _, Reply 204 PNoContent)).
  intros tc t Htc. by apply (view_delete tid).
- apply (view_reading_handler tid srv srv' Hv). intros tc Htc. unfold read_tuples, expand. cbv zeta. case_match; [|done]. f_equal.
  apply (view_reading tid srv srv' Hv); [done|]. by rewrite Ht.
- apply (view_reading_handler tid srv srv' Hv). intros tc Htc. f_equal.
  apply (view_reading tid srv srv' Hv); [done|]. unfold list_attributes. by rewrite Ho.
- apply (view_reading_handler tid srv srv' Hv). intros tc Htc. f_equal.
  apply (view_reading tid srv srv' Hv); [done|]. unfold get_attributes. by rewrite Ho.
- apply (view_writing_handler tid srv srv' Hv body (λ tc m, SetObjectAttributes (Some tc) typ id m (store srv))
    (λ tc m, SetObjectAttributes (Some tc) typ id m (store srv')) (λ m, Reply 200 (PAttributes m))).
  intros tc m Htc. by apply (view_set tid srv srv' Hv now).
- apply (view_reading_handler tid srv srv' Hv). intros tc Htc. f_equal.
  apply (view_reading tid srv srv' Hv); [done|]. unfold list_attributes. by rewrite Hsub.
- apply (view_reading_handler tid srv srv' Hv). intros tc Htc. f_equal.
  apply (view_reading tid srv srv' Hv); [done|]. unfold get_attributes. by rewrite Hsub.
- apply (view_writing_handler tid srv srv' Hv body (λ tc m, SetSubjectAttributes (Some tc) typ id m (store srv))
    (λ tc m, SetSubjectAttributes (Some tc) typ id m (store srv')) (λ m, Reply 200 (PAttributes m))).
  intros tc m Htc. by apply (view_set tid srv srv' Hv now).
- apply (view_reading_handler tid srv srv' Hv). intros tc Htc. destruct (changelog_query q) as [[since lim]|]; [|done].
  unfold ReadChangelog, LatestSequence.
  rewrite (view_reading tid srv srv' Hv tc (λ t, Ok (read_entries (changelog (log_of (store srv) t)) since lim))
    (λ t, Ok (read_entries (changelog (log_of (store srv') t)) since lim))) by (by rewrite ?Hl).
  by rewrite (view_reading tid srv srv' Hv tc (λ t, Ok (seqCounter (log_of (store srv) t)))
    (λ t, Ok (seqCounter (log_of (store srv') t)))) by (by rewrite ?Hl).
- apply (view_reading_handler tid srv srv' Hv). intros tc Htc. unfold read_tuples, expand. destruct body as [req|e|]; [|done..]. destruct (_ || _); [done|].
  f_equal. apply (view_reading tid srv srv' Hv); [done|]. by rewrite Ht.
- unfold handleAuthZenEvaluation. rewrite (view_ctx tid srv srv' Hv). destruct (tenantCtx _ _) as [tc|e|] eqn:E; [|done..].
  cbn. destruct body; [|done..]. cbn. by rewrite (view_decide_item tid srv srv' Hv) by (by eapply tenantCtx_id).
- unfold handleAuthZenEvaluations. rewrite (view_ctx tid srv srv' Hv). destruct (tenantCtx _ _) as [tc|e|] eqn:E; [|done..].
  cbn. destruct body; [|done..]. cbn. by rewrite (view_decide_items tid srv srv' Hv) by (by eapply tenantCtx_id).
Qed.

(** Requests about other tenants are not noticed: whatever was served in between, the
  reply to any request that names a tenant is what it would have been without every
  request that names another one, or none. *)
Theorem requests_isolate tid (l : list (Z * request)) now r srv :
serving srv → Forall (λ p, addressed p.2 ≠ Some tid) l → addressed r = Some tid →
(serve now r (run l srv)).2 = (serve now r srv).2.
Proof.
intros Hs Hl Hr. revert srv Hs. induction Hl as [|[now' r'] l Ha Hl IH]; intros srv Hs; [done|].
cbn [run foldl fst snd]. change (foldl _ ?s l) with (run l s). rewrite IH by (by apply serving_request).
pose proof (history_ok _ (srv_history _ (serving_ok _ Hs))) as Hok.
apply (view_reply now r _ _ tid); [by apply serve_same_view| |done|done].
by apply (history_ok _ (srv_history _ (serving_ok _ (serving_request now' r' srv Hs)))).
Qed.
End Isolation.

Definition busy : list (Z * request) := [
  (6%Z, PutSchema "acme" (Ok "demo"%string));
  (7%Z, PostTuple "acme" (Ok (tuple_request "folder" "a" "viewer" "user" "ann" "" None)));
  (8%Z, DeleteTenantByID "acme")].

Lemma requests_isolate_witness :
  (serve 9 (PostEvaluation "super" (ask "folder" "a" "view" "ann")) (run busy demo_server)).2 =
  (serve 9 (PostEvaluation "super" (ask "folder" "a" "view" "ann")) demo_server).2.
Proof.
  apply (requests_isolate "super" busy 9 (PostEvaluation "super" (ask "folder" "a" "view" "ann")) demo_server demo_serving);
    [repeat constructor; discriminate|reflexivity].
Defined.
