(* ===== verification/ServerRoutes.v ===== *)
(** * The routes of the server and the paths of the console

    [registerRoutes] of [pkg/api/server.go] as a table, and what [http.ServeMux] does
    with it: a pattern matches a path segment by segment, a wildcard matches any
    nonempty segment.  The client side is [console/src/lib/api/] of ApiClient.v.
    Paths are taken as the browser sends them: the segments considered are made of
    unreserved characters, which percent-encoding leaves alone, and are not the dot
    segments, which both sides rewrite. *)

From S2P Require Import Prelude JsString JsObject Json JsonIntegers ApiTypes ApiClient.

Open Scope nat_scope.

(** ** The table *)

Inductive handler :=
  | HHealth | HCreateTenant | HListTenants | HGetTenant | HDeleteTenant | HActivateTenant | HSuspendTenant
  | HLoadSchema | HGetSchema | HWriteTuples | HWriteTuple | HDeleteTuple | HReadTuples
  | HListObjectAttributes | HGetObjectAttributes | HSetObjectAttributes
  | HListSubjectAttributes | HGetSubjectAttributes | HSetSubjectAttributes
  | HReadChangelog | HExpand | HAuthZenEvaluation | HAuthZenEvaluations.

#[export] Instance handler_eq_dec : EqDecision handler.
Proof. solve_decision. Defined.

Definition registerRoutes : list (http_method * string * handler) := [
  (GET, "/healthz", HHealth);
  (POST, "/api/v1/tenants", HCreateTenant);
  (GET, "/api/v1/tenants", HListTenants);
  (GET, "/api/v1/tenants/{tenantID}", HGetTenant);
  (HTTP_DELETE, "/api/v1/tenants/{tenantID}", HDeleteTenant);
  (POST, "/api/v1/tenants/{tenantID}/activate", HActivateTenant);
  (POST, "/api/v1/tenants/{tenantID}/suspend", HSuspendTenant);
  (PUT, "/api/v1/tenants/{tenantID}/schema", HLoadSchema);
  (GET, "/api/v1/tenants/{tenantID}/schema", HGetSchema);
  (POST, "/api/v1/t/{tenantID}/tuples/batch", HWriteTuples);
  (POST, "/api/v1/t/{tenantID}/tuples", HWriteTuple);
  (HTTP_DELETE, "/api/v1/t/{tenantID}/tuples", HDeleteTuple);
  (GET, "/api/v1/t/{tenantID}/tuples", HReadTuples);
  (GET, "/api/v1/t/{tenantID}/attributes/objects", HListObjectAttributes);
  (GET, "/api/v1/t/{tenantID}/attributes/objects/{type}/{id}", HGetObjectAttributes);
  (PUT, "/api/v1/t/{tenantID}/attributes/objects/{type}/{id}", HSetObjectAttributes);
  (GET, "/api/v1/t/{tenantID}/attributes/subjects", HListSubjectAttributes);
  (GET, "/api/v1/t/{tenantID}/attributes/subjects/{type}/{id}", HGetSubjectAttributes);
  (PUT, "/api/v1/t/{tenantID}/attributes/subjects/{type}/{id}", HSetSubjectAttributes);
  (GET, "/api/v1/t/{tenantID}/changelog", HReadChangelog);
  (POST, "/api/v1/t/{tenantID}/expand", HExpand);
  (POST, "/access/v1/evaluation", HAuthZenEvaluation);
  (POST, "/access/v1/evaluations", HAuthZenEvaluations)]%string.

Notation route := (http_method * string * handler)%type.

(** ** The mux *)

Definition segments (path : jstring) : list jstring := split SLASH path.

Definition wildcard (p : jstring) : bool := startsWith p [LBRACE].

Definition segment_matches (p s : jstring) : bool := if wildcard p then truthy s else bool_decide (p = s).

Fixpoint pattern_matches (ps ss : list jstring) : bool :=
  match ps, ss with
  | [], [] => true
  | p :: ps, s :: ss => segment_matches p s && pattern_matches ps ss
  | _, _ => false
  end.

(** The values of [PathValue], in the order of the wildcards. *)
Fixpoint path_values (ps ss : list jstring) : list jstring :=
  match ps, ss with
  | p :: ps, s :: ss => if wildcard p then s :: path_values ps ss else path_values ps ss
  | _, _ => []
  end.

Definition route_matches (m : http_method) (path : jstring) (r : route) : bool :=
  bool_decide (r.1.1 = m) && pattern_matches (segments (js r.1.2)) (segments path).

Definition dispatch (m : http_method) (path : jstring) : option (handler * list jstring) :=
  r ← find (route_matches m path) registerRoutes;
  Some (r.2, path_values (segments (js r.1.2)) (segments path)).

(** ** No two routes overlap *)

(** A path that both patterns match is possible. *)
Fixpoint overlap (ps qs : list jstring) : bool :=
  match ps, qs with
  | [], [] => true
  | p :: ps, q :: qs => (wildcard p || wildcard q || bool_decide (p = q)) && overlap ps qs
  | _, _ => false
  end.

Lemma matches_overlap ps qs ss : pattern_matches ps ss = true → pattern_matches qs ss = true → overlap ps qs = true.
Proof.
  revert qs ss. induction ps as [|p ps IH]; intros [|q qs] [|s ss]; try done. cbn.
  intros [Hp Hps]%andb_true_iff [Hq Hqs]%andb_true_iff. apply andb_true_iff. split; [|by eapply IH].
  unfold segment_matches in *. destruct (wildcard p), (wildcard q); try done. bool_prop.
  apply orb_true_iff. right. apply bool_decide_eq_true_2. congruence.
Qed.

Definition route_overlap (r r' : route) : bool :=
  bool_decide (r.1.1 = r'.1.1) && overlap (segments (js r.1.2)) (segments (js r'.1.2)).

(** Each route against those after it. *)
Fixpoint exclusive (l : list route) : bool :=
  match l with [] => true | r :: l => forallb (λ r', negb (route_overlap r r')) l && exclusive l end.

Lemma exclusive_spec l m path r r' :
  exclusive l = true → r ∈ l → r' ∈ l → route_matches m path r = true → route_matches m path r' = true → r = r'.
Proof.
  assert (Hov : ∀ r r', route_matches m path r = true → route_matches m path r' = true → route_overlap r r' = true).
  { intros s s' [H1 H2]%andb_true_iff [H3 H4]%andb_true_iff. apply andb_true_iff. apply bool_decide_eq_true in H1, H3. split; [apply bool_decide_eq_true; congruence|].
    by eapply matches_overlap. }
  induction l as [|x l IH]; intros He Hr Hr' Hm Hm'; [by apply elem_of_nil in Hr|]. cbn in He.
  apply andb_true_iff in He as [Hx He].
  assert (Hno : ∀ y, y ∈ l → route_overlap x y = false)
    by (intros y Hy; apply negb_true_iff, (proj1 (forallb_forall _ _) Hx); by apply list_elem_of_In).
  apply elem_of_cons in Hr as [->|Hr], Hr' as [->|Hr']; [done| | |by apply IH].
  - pose proof (Hov _ _ Hm Hm'). by rewrite Hno in *.
  - pose proof (Hov _ _ Hm' Hm). by rewrite Hno in *.
Qed.

(** No two routes of the server match the same request, so the order in which they
  are registered does not matter: any matching route is the one that is served. *)
Theorem routes_exclusive m path r :
  r ∈ registerRoutes → route_matches m path r = true →
  dispatch m path = Some (r.2, path_values (segments (js r.1.2)) (segments path)).
Proof.
  intros Hr Hm. unfold dispatch. destruct (find _ _) as [r'|] eqn:E.
  - apply find_Some in E as [Hr' Hm'].
    by rewrite (exclusive_spec registerRoutes m path r' r) by (try done; by vm_compute).
  - rewrite find_None in E. by rewrite E in Hm.
Qed.

(** ** The console's requests *)

Section Calls.
Context `{!JsNumber}.

(** A call of the client's functions, and a call's path parameters. *)
Inductive api_call :=
| CallListObjects (t : jstring) (ty : option jstring)
| CallListSubjects (t : jstring) (ty : option jstring)
| CallGetObject (t ty id : jstring)
| CallSetObject (t ty id : jstring) (a : jobject json)
| CallGetSubject (t ty id : jstring)
| CallSetSubject (t ty id : jstring) (a : jobject json)
| CallChangelog (t : jstring) (since limit : option Z)
| CallCheck (t : jstring) (req : CheckRequest)
| CallExpand (t : jstring) (req : ExpandRequest)
| CallGetSchema (t : jstring)
| CallLoadSchema (t yaml : jstring)
| CallListTenants (status parent : option jstring) (limit offset : option Z)
| CallGetTenant (t : jstring)
| CallReadTuples (t : jstring) (f : option TupleFilter)
| CallWriteTuple (t : jstring) (tu : TupleRequest)
| CallWriteBatch (t : jstring) (b : BatchTuplesRequest)
| CallDeleteTuple (t : jstring) (tu : TupleRequest).

Definition sent (c : api_call) : request :=
match c with
| CallListObjects t ty => listObjectAttributes t ty
| CallListSubjects t ty => listSubjectAttributes t ty
| CallGetObject t ty id => getObjectAttributes t ty id
| CallSetObject t ty id a => setObjectAttributes t ty id a
| CallGetSubject t ty id => getSubjectAttributes t ty id
| CallSetSubject t ty id a => setSubjectAttributes t ty id a
| CallChangelog t since limit => readChangelog t since limit
| CallCheck t req => checkPermission t req
| CallExpand t req => expandRelation t req
| CallGetSchema t => getSchema t
| CallLoadSchema t yaml => loadSchema t yaml
| CallListTenants status parent limit offset => listTenants status parent limit offset
| CallGetTenant t => getTenant t
| CallReadTuples t f => readTuples t f
| CallWriteTuple t tu => writeTuple t tu
| CallWriteBatch t b => writeTuplesBatch t b
| CallDeleteTuple t tu => deleteTuple t tu
end.

(** The handler that is meant, and the parameters in the path. *)
Definition meant (c : api_call) : handler * list jstring :=
match c with
| CallListObjects t _ => (HListObjectAttributes, [t])
| CallListSubjects t _ => (HListSubjectAttributes, [t])
| CallGetObject t ty id => (HGetObjectAttributes, [t; ty; id])
| CallSetObject t ty id _ => (HSetObjectAttributes, [t; ty; id])
| CallGetSubject t ty id => (HGetSubjectAttributes, [t; ty; id])
| CallSetSubject t ty id _ => (HSetSubjectAttributes, [t; ty; id])
| CallChangelog t _ _ => (HReadChangelog, [t])
| CallCheck _ _ => (HAuthZenEvaluation, [])
| CallExpand t _ => (HExpand, [t])
| CallGetSchema t => (HGetSchema, [t])
| CallLoadSchema t _ => (HLoadSchema, [t])
| CallListTenants _ _ _ _ => (HListTenants, [])
| CallGetTenant t => (HGetTenant, [t])
| CallReadTuples t _ => (HReadTuples, [t])
| CallWriteTuple t _ => (HWriteTuple, [t])
| CallWriteBatch t _ => (HWriteTuples, [t])
| CallDeleteTuple t _ => (HDeleteTuple, [t])
end.

(** [A-Z a-z 0-9 - . _ ~] *)
Definition unreserved (c : N) : bool :=
(bool_decide (65 ≤ c ≤ 90) || bool_decide (97 ≤ c ≤ 122) || bool_decide (48 ≤ c ≤ 57) ||
 bool_decide (c = 45) || bool_decide (c = 46) || bool_decide (c = 95) || bool_decide (c = 126))%N.

Definition plain_segment (s : jstring) : Prop :=
s ≠ [] ∧ s ≠ js "." ∧ s ≠ js ".." ∧ Forall (λ c, unreserved c = true) s.

Lemma plain_no_slash s : plain_segment s → SLASH ∉ s.
Proof. intros (_ & _ & _ & Hu) Hs. rewrite Forall_forall in Hu. by apply Hu in Hs. Qed.

(** The segments of a path that starts with a literal, and has a parameter next. *)
Lemma segments_literal q s : segments ((q ++ [SLASH]) ++ s) = segments q ++ segments s.
Proof. unfold segments. rewrite <-app_assoc. apply split_app. Qed.

Lemma segments_param s t : plain_segment s → segments (s ++ SLASH :: t) = s :: segments t.
Proof. intros Hs. by apply split_app_sep, plain_no_slash. Qed.

Lemma segments_last s : plain_segment s → segments s = [s].
Proof. intros Hs. by apply split_no_sep, plain_no_slash. Qed.

Lemma tenant_segments t s : plain_segment t →
segments (SLASH :: tenant_path t ++ SLASH :: s) = segments (js "/api/v1/t") ++ t :: segments s.
Proof.
intros Ht. change (SLASH :: tenant_path t ++ SLASH :: s) with ((js "/api/v1/t" ++ [SLASH]) ++ t ++ SLASH :: s).
by rewrite segments_literal, segments_param.
Qed.

Lemma object_segments q t ty id : plain_segment t → plain_segment ty → plain_segment id →
segments (SLASH :: tenant_path t ++ SLASH :: (q ++ [SLASH]) ++ slash ty id) =
segments (js "/api/v1/t") ++ t :: segments q ++ [ty; id].
Proof.
intros Ht Hty Hid. rewrite tenant_segments by done. rewrite segments_literal. unfold slash.
by rewrite segments_param, (segments_last id).
Qed.

(** What the mux makes of a list of segments. *)
Lemma dispatch_segments m path ss :
segments path = ss →
dispatch m path =
  (r ← find (λ r, bool_decide (r.1.1 = m) && pattern_matches (segments (js r.1.2)) ss) registerRoutes;
   Some (r.2, path_values (segments (js r.1.2)) ss)).
Proof. by intros <-. Qed.

(** A segment is not empty, which is all that the mux looks at. *)
Lemma plain_cons s : plain_segment s → ∃ c s', s = c :: s'.
Proof. intros [Hs _]. destruct s; [done|eauto]. Qed.

(** The segments of a call's path. *)
Definition call_segments (c : api_call) : list jstring :=
let tenant t rest := segments (js "/api/v1/t") ++ t :: rest in
match c with
| CallListObjects t _ => tenant t [js "attributes"; js "objects"]
| CallListSubjects t _ => tenant t [js "attributes"; js "subjects"]
| CallGetObject t ty id | CallSetObject t ty id _ => tenant t [js "attributes"; js "objects"; ty; id]
| CallGetSubject t ty id | CallSetSubject t ty id _ => tenant t [js "attributes"; js "subjects"; ty; id]
| CallChangelog t _ _ => tenant t [js "changelog"]
| CallCheck _ _ => segments (js "/access/v1/evaluation")
| CallExpand t _ => tenant t [js "expand"]
| CallGetSchema t | CallLoadSchema t _ => segments (js "/api/v1/tenants") ++ [t; js "schema"]
| CallListTenants _ _ _ _ => segments (js "/api/v1/tenants")
| CallGetTenant t => segments (js "/api/v1/tenants") ++ [t]
| CallReadTuples t _ | CallWriteTuple t _ | CallDeleteTuple t _ => tenant t [js "tuples"]
| CallWriteBatch t _ => tenant t [js "tuples"; js "batch"]
end.

Lemma call_path c : Forall plain_segment (meant c).2 → segments (SLASH :: url (sent c)) = call_segments c.
Proof.
destruct c; cbn [meant snd sent]; intros Hps; repeat apply Forall_cons in Hps as [? Hps].
- by apply (tenant_segments t (js "attributes/objects")).
- by apply (tenant_segments t (js "attributes/subjects")).
- by apply (object_segments (js "attributes/objects") t ty id).
- by apply (object_segments (js "attributes/objects") t ty id).
- by apply (object_segments (js "attributes/subjects") t ty id).
- by apply (object_segments (js "attributes/subjects") t ty id).
- by apply (tenant_segments t (js "changelog")).
- done.
- by apply (tenant_segments t (js "expand")).
- change (SLASH :: url (getSchema t)) with ((js "/api/v1/tenants" ++ [SLASH]) ++ t ++ SLASH :: js "schema").
  by rewrite segments_literal, segments_param.
- change (SLASH :: url (loadSchema t yaml)) with ((js "/api/v1/tenants" ++ [SLASH]) ++ t ++ SLASH :: js "schema").
  by rewrite segments_literal, segments_param.
- done.
- change (SLASH :: url (getTenant t)) with ((js "/api/v1/tenants" ++ [SLASH]) ++ t).
  by rewrite segments_literal, (segments_last t).
- by apply (tenant_segments t (js "tuples")).
- by apply (tenant_segments t (js "tuples")).
- by apply (tenant_segments t (js "tuples/batch")).
- by apply (tenant_segments t (js "tuples")).
Qed.

(** Every call of the console's client is served by the handler it means, with the
  tenant, type and identifier it was given, whatever they are made of unreserved
  characters: the client's paths and the server's table agree. *)
Theorem console_calls_served c :
Forall plain_segment (meant c).2 → dispatch (method (sent c)) (SLASH :: url (sent c)) = Some (meant c).
Proof.
intros Hps. rewrite (dispatch_segments _ _ _ (call_path c Hps)).
destruct c; cbn [meant snd] in Hps; repeat apply Forall_cons in Hps as [? Hps];
  repeat match goal with Hp : plain_segment ?s |- _ => destruct (plain_cons s Hp) as (? & ? & ->); clear Hp end;
  by vm_compute.
Qed.
End Calls.

(** ** The properties on the demo *)

Lemma console_calls_served_witness :
  dispatch PUT (js "/api/v1/t/acme/attributes/objects/doc/readme.md") =
  Some (HSetObjectAttributes, [js "acme"; js "doc"; js "readme.md"]).
Proof.
  apply (console_calls_served (H := integers) (CallSetObject (js "acme") (js "doc") (js "readme.md") [])).
  repeat constructor; try discriminate; by vm_compute.
Defined.

Lemma routes_exclusive_witness :
  dispatch POST (js "/api/v1/t/acme/tuples/batch") = Some (HWriteTuples, [js "acme"]).
Proof.
  apply (routes_exclusive POST (js "/api/v1/t/acme/tuples/batch")
    (POST, "/api/v1/t/{tenantID}/tuples/batch"%string, HWriteTuples)); [do 9 right; left|by vm_compute].
Defined.
