(* ===== verification/Utf8.v ===== *)
(** * Texts on the wire

    The console's strings are sequences of UTF-16 code units, the server's are
    bytes.  A request is encoded in UTF-8, a surrogate without its other half
    becoming U+FFFD; Go decodes bytes that are no UTF-8 as U+FFFD, one for each.
    Text without lone surrogates survives the way ([units_of_utf8]). *)

From Stdlib Require Import Ascii.
From S2P Require Import Prelude JsString Json.

Open Scope N_scope.

(** ** Code points *)

Definition replacement : N := 65533.

Definition scalar (c : N) : bool :=
  bool_decide (c < 1114112) && negb (is_lead c) && negb (is_trail c).

(** The code points of a string; a lone surrogate is replaced. *)
Fixpoint points (s : jstring) : list N :=
  match s with
  | [] => []
  | c :: s' =>
      match s' with
      | d :: s'' => if is_lead c && is_trail d then (65536 + (c - 55296) * 1024 + (d - 56320)) :: points s''
                    else (if scalar c then c else replacement) :: points s'
      | [] => [if scalar c then c else replacement]
      end
  end.

Definition units_of_point (p : N) : jstring :=
  if bool_decide (p < 65536) then [p]
  else [55296 + (p - 65536) / 1024; 56320 + (p - 65536) mod 1024].

(** ** UTF-8 *)

Definition cont (n : N) : N := 128 + n mod 64.

Definition utf8_point (p : N) : list N :=
  if bool_decide (p < 128) then [p]
  else if bool_decide (p < 2048) then [192 + p / 64; cont p]
  else if bool_decide (p < 65536) then [224 + p / 4096; cont (p / 64); cont p]
  else [240 + p / 262144; cont (p / 4096); cont (p / 64); cont p].

(** The bytes of a string as the server holds them. *)
Definition string_of_bytes (l : list N) : string := String.string_of_list_ascii (ascii_of_N <$> l).
Definition bytes_of_string (s : string) : list N := N_of_ascii <$> String.list_ascii_of_string s.

Definition utf8 (s : jstring) : string := string_of_bytes (concat (utf8_point <$> points s)).

Definition in_range (lo hi b : N) : bool := bool_decide (lo ≤ b ≤ hi).
Definition is_cont (b : N) : bool := in_range 128 191 b.
Definition low (b : N) : N := b - 128.

(** The second byte of a sequence of three or four, which excludes overlong forms,
    surrogates and what is beyond the last code point. *)
Definition second3 (a b : N) : bool :=
  if bool_decide (a = 224) then in_range 160 191 b
  else if bool_decide (a = 237) then in_range 128 159 b else is_cont b.
Definition second4 (a b : N) : bool :=
  if bool_decide (a = 240) then in_range 144 191 b
  else if bool_decide (a = 244) then in_range 128 143 b else is_cont b.

(** [utf8.DecodeRune] from the start to the end. *)
Fixpoint decode_runes (l : list N) : list N :=
  match l with
  | [] => []
  | a :: l1 =>
      if bool_decide (a < 128) then a :: decode_runes l1
      else
        let bad := replacement :: decode_runes l1 in
        match l1 with
        | b :: l2 =>
            if in_range 194 223 a && is_cont b then ((a - 192) * 64 + low b) :: decode_runes l2
            else match l2 with
            | c :: l3 =>
                if in_range 224 239 a && second3 a b && is_cont c
                then ((a - 224) * 4096 + low b * 64 + low c) :: decode_runes l3
                else match l3 with
                | d :: l4 =>
                    if in_range 240 244 a && second4 a b && is_cont c && is_cont d
                    then ((a - 240) * 262144 + low b * 4096 + low c * 64 + low d) :: decode_runes l4
                    else bad
                | [] => bad
                end
            | [] => bad
            end
        | [] => bad
        end
  end.

(** The code units of bytes. *)
Definition units_of (s : string) : jstring := concat (units_of_point <$> decode_runes (bytes_of_string s)).

(** ** What was encoded is decoded *)

(** Divisions by literals, for [lia]. *)
Ltac div_lia := zify; Z.to_euclidean_division_equations; lia.

Lemma in_range_true lo hi b : lo ≤ b ≤ hi → in_range lo hi b = true.
Proof. intros. by apply bool_decide_eq_true. Qed.

Lemma in_range_false lo hi b : ¬ (lo ≤ b ≤ hi) → in_range lo hi b = false.
Proof. intros. by apply bool_decide_eq_false. Qed.

Lemma cont_range p : 128 ≤ cont p ≤ 191.
Proof. unfold cont. div_lia. Qed.

Lemma is_cont_cont p : is_cont (cont p) = true.
Proof. apply in_range_true, cont_range. Qed.

Lemma low_cont p : low (cont p) = p mod 64.
Proof. unfold low, cont. div_lia. Qed.

Definition unicode (p : N) : Prop := p < 1114112 ∧ ¬ (55296 ≤ p ≤ 57343).

Lemma scalar_spec p : scalar p = true ↔ unicode p.
Proof.
  unfold scalar, is_lead, is_trail, unicode. rewrite !andb_true_iff, !negb_true_iff, !bool_decide_eq_true, !bool_decide_eq_false. lia.
Qed.

(** The decoder on each form of [utf8_point]. *)
Lemma decode_two p l : 128 ≤ p < 2048 → decode_runes (192 + p / 64 :: cont p :: l) = p :: decode_runes l.
Proof.
  intros Hp. cbn [decode_runes]. rewrite bool_decide_eq_false_2 by div_lia.
  rewrite (in_range_true 194 223 (192 + p / 64)), is_cont_cont by div_lia. cbn [andb]. rewrite low_cont. f_equal. div_lia.
Qed.

Lemma decode_three p l : 2048 ≤ p < 65536 → unicode p →
  decode_runes (224 + p / 4096 :: cont (p / 64) :: cont p :: l) = p :: decode_runes l.
Proof.
  intros Hp [_ Hu]. cbn [decode_runes]. rewrite bool_decide_eq_false_2 by div_lia.
  rewrite (in_range_false 194 223 (224 + p / 4096)), (in_range_true 224 239 (224 + p / 4096)) by div_lia. cbn [andb].
  assert (Hs : second3 (224 + p / 4096) (cont (p / 64)) = true).
  { unfold second3. repeat case_bool_decide; [apply in_range_true; unfold cont; div_lia..|apply is_cont_cont]. }
  rewrite Hs, (is_cont_cont p). cbn [andb]. rewrite !low_cont. f_equal. div_lia.
Qed.

Lemma decode_four p l : 65536 ≤ p < 1114112 →
  decode_runes (240 + p / 262144 :: cont (p / 4096) :: cont (p / 64) :: cont p :: l) = p :: decode_runes l.
Proof.
  intros Hp. cbn [decode_runes]. rewrite bool_decide_eq_false_2 by div_lia.
  rewrite (in_range_false 194 223 (240 + p / 262144)), (in_range_false 224 239 (240 + p / 262144)),
    (in_range_true 240 244 (240 + p / 262144)) by div_lia. cbn [andb].
  assert (Hs : second4 (240 + p / 262144) (cont (p / 4096)) = true).
  { unfold second4. repeat case_bool_decide; [apply in_range_true; unfold cont; div_lia..|apply is_cont_cont]. }
  rewrite Hs, (is_cont_cont (p / 64)), (is_cont_cont p). cbn [andb]. rewrite !low_cont. f_equal. div_lia.
Qed.

Lemma decode_point p l : unicode p → decode_runes (utf8_point p ++ l) = p :: decode_runes l.
Proof.
  intros Hu. unfold utf8_point. repeat case_bool_decide; cbn [app].
  - cbn [decode_runes]. by rewrite bool_decide_eq_true_2.
  - apply decode_two. lia.
  - apply decode_three; [lia|done].
  - apply decode_four. destruct Hu. lia.
Qed.

Lemma decode_points ps : Forall unicode ps → decode_runes (concat (utf8_point <$> ps)) = ps.
Proof.
  induction 1 as [|p ps Hp Hps IH]; [done|]. cbn [fmap list_fmap concat].
  by rewrite decode_point, IH.
Qed.

Lemma utf8_point_bytes p : p < 1114112 → Forall (λ b, b < 256) (utf8_point p).
Proof.
  intros Hp. unfold utf8_point, cont. repeat case_bool_decide; repeat constructor; div_lia.
Qed.

Lemma bytes_of_string_of l : Forall (λ b, b < 256) l → bytes_of_string (string_of_bytes l) = l.
Proof.
  intros Hl. unfold bytes_of_string, string_of_bytes. rewrite String.list_ascii_of_string_of_list_ascii.
  induction Hl as [|b l Hb Hl IH]; [done|]. cbn. f_equal; [|done]. by apply N_ascii_embedding.
Qed.

(** ** Texts without lone surrogates *)

(** Every surrogate has its other half. *)
Fixpoint paired (s : jstring) : bool :=
  match s with
  | [] => true
  | c :: s' =>
      if is_lead c then match s' with d :: s'' => is_trail d && paired s'' | [] => false end
      else scalar c && paired s'
  end.

Lemma points_lead c d s : is_lead c = true → is_trail d = true →
  points (c :: d :: s) = (65536 + (c - 55296) * 1024 + (d - 56320)) :: points s.
Proof. intros Hc Hd. cbn [points]. by rewrite Hc, Hd. Qed.

Lemma points_unit c s : is_lead c = false → points (c :: s) = (if scalar c then c else replacement) :: points s.
Proof. intros Hc. destruct s as [|d s]; [done|]. cbn [points]. by rewrite Hc. Qed.

(** Induction on a string unit by unit, or pair by pair. *)
Lemma paired_ind (P : jstring → Prop) :
  P [] → (∀ c s, is_lead c = false → scalar c = true → paired s = true → P s → P (c :: s)) →
  (∀ c d s, is_lead c = true → is_trail d = true → paired s = true → P s → P (c :: d :: s)) →
  ∀ s, paired s = true → P s.
Proof.
  intros H0 H1 H2 s. induction s as [s IH] using (well_founded_induction (well_founded_ltof _ (@length N))).
  unfold ltof in IH. destruct s as [|c s]; [done|]. cbn [paired]. destruct (is_lead c) eqn:Hc.
  - destruct s as [|d s]; [done|]. intros [Hd Hs]%andb_true_iff. apply H2; [done..|]. apply IH; [simpl; lia|done].
  - intros [Hu Hs]%andb_true_iff. apply H1; [done..|]. apply IH; [simpl; lia|done].
Qed.

Lemma unit_point c : scalar c = true → is_lead c = false → unicode c ∧ (c < 65536 → units_of_point c = [c]).
Proof.
  intros Hc Hl. split; [by apply scalar_spec|]. intros Hb. unfold units_of_point. by rewrite bool_decide_eq_true_2.
Qed.

Lemma pair_point c d : is_lead c = true → is_trail d = true →
  let p := 65536 + (c - 55296) * 1024 + (d - 56320) in unicode p ∧ units_of_point p = [c; d].
Proof.
  intros Hc%bool_decide_eq_true Hd%bool_decide_eq_true p. split; [unfold unicode, p; lia|].
  unfold units_of_point. rewrite bool_decide_eq_false_2 by (unfold p; lia). unfold p.
  f_equal; [|f_equal]; div_lia.
Qed.

Definition code_units (s : jstring) : Prop := Forall (λ c, c < 65536) s.

(** The server reads back what the console sends. *)
Lemma units_of_utf8 s : paired s = true → code_units s → units_of (utf8 s) = s.
Proof.
  intros Hp Hs. unfold units_of, utf8.
  assert (Hu : Forall unicode (points s) ∧ concat (units_of_point <$> points s) = s).
  { revert s Hp Hs. refine (paired_ind _ _ _ _); [done|intros c s Hl Hc _ IH Hs|intros c d s Hc Hd _ IH Hs].
    - apply Forall_cons in Hs as [Hb Hs]. destruct (IH Hs) as [Hf He], (unit_point c Hc Hl) as [Hu Hn].
      rewrite points_unit, Hc by done. split; [by constructor|]. cbn. by rewrite Hn, He.
    - do 2 apply Forall_cons in Hs as [_ Hs]. destruct (IH Hs) as [Hf He], (pair_point c d Hc Hd) as [Hu Hn].
      rewrite points_lead by done. split; [by constructor|]. cbn [fmap list_fmap concat]. by rewrite Hn, He. }
  destruct Hu as [Hf He]. rewrite bytes_of_string_of, decode_points; [done..|].
  clear -Hf. induction Hf as [|p ps [Hp _] _ IH]; [done|]. cbn. apply Forall_app. split; [|done].
  by apply utf8_point_bytes.
Qed.

(** ** The texts of JSON values *)

Lemma paired_app a b : paired a = true → paired (a ++ b) = paired b.
Proof.
  revert a. refine (paired_ind _ _ _ _); [done|intros c s Hl Hc _ IH|intros c d s Hc Hd _ IH]; cbn [app paired].
  - by rewrite Hl, Hc, IH.
  - by rewrite Hc, Hd, IH.
Qed.

Definition ascii_text (s : jstring) : Prop := Forall (λ c, c < 128) s.

Lemma ascii_unit c : c < 65536 → is_lead c = false → is_trail c = false → scalar c = true.
Proof. intros Hc Hl Ht. unfold scalar. rewrite Hl, Ht, bool_decide_eq_true_2 by lia. done. Qed.

Lemma not_surrogate c : c < 128 → is_lead c = false ∧ is_trail c = false.
Proof. intros Hc. split; apply bool_decide_eq_false; lia. Qed.

Lemma paired_ascii s : ascii_text s → paired s = true.
Proof.
  induction 1 as [|c s Hc Hs IH]; [done|]. cbn. destruct (not_surrogate c Hc) as [Hl Ht].
  by rewrite Hl, ascii_unit, IH by (done || lia).
Qed.

(** A text the server reads back. *)
Definition clean (s : jstring) : Prop := paired s = true ∧ code_units s.

Lemma clean_app a b : clean a → clean b → clean (a ++ b).
Proof. intros [Ha Hua] [Hb Hub]. split; [by rewrite paired_app|by apply Forall_app]. Qed.

Lemma clean_ascii s : ascii_text s → clean s.
Proof. intros Hs. split; [by apply paired_ascii|]. eapply Forall_impl; [exact Hs|]. cbv beta. lia. Qed.

Lemma clean_nil : clean [].
Proof. apply clean_ascii. constructor. Qed.

Lemma clean_cons c s : c < 128 → clean s → clean (c :: s).
Proof. intros Hc. apply (clean_app [c]), clean_ascii. by constructor. Qed.

Lemma clean_join l : Forall clean l → clean (join [COMMA] l).
Proof.
  induction 1 as [|s l Hs Hl IH]; [apply clean_nil|]. destruct l as [|s' l]; [done|].
  cbn [join] in *. apply clean_app; [done|]. by apply clean_cons.
Qed.

Lemma hex_digit_ascii n : n < 16 → hex_digit n < 128.
Proof. intros Hn. unfold hex_digit. case_bool_decide; lia. Qed.

Lemma clean_quote_unit c : c < 65536 → clean (quote_unit c).
Proof.
  intros Hc. unfold quote_unit. repeat case_bool_decide; try (apply clean_ascii; by repeat constructor).
  all: destruct (is_lead c) eqn:Hl, (is_trail c) eqn:Ht; cbn [orb].
  all: try (apply clean_ascii; unfold unicode_escape; repeat constructor; try apply hex_digit_ascii; div_lia).
  split; [|by repeat constructor]. cbn. by rewrite Hl, ascii_unit.
Qed.

Lemma clean_quote_body s : code_units s → clean (quote_body s).
Proof.
  induction s as [s IH] using (well_founded_induction (well_founded_ltof _ (@length N))).
  unfold ltof in IH. destruct s as [|c [|d s]]; intros Hs; [apply clean_nil|..].
  { apply clean_quote_unit. by inversion Hs. }
  apply Forall_cons in Hs as [Hc Hs]. cbn [quote_body]. destruct (is_lead c && is_trail d) eqn:Hp.
  - apply andb_true_iff in Hp as [Hl Ht]. apply Forall_cons in Hs as [Hd Hs].
    destruct (IH s ltac:(simpl; lia) Hs) as [IH1 IH2]. split; [|by repeat constructor].
    cbn [paired]. by rewrite Hl, Ht.
  - apply clean_app; [by apply clean_quote_unit|]. apply (IH (d :: s)); [simpl; lia|done].
Qed.

Lemma clean_quote s : code_units s → clean (quote s).
Proof.
  intros Hs. apply clean_cons; [done|]. apply clean_app; [by apply clean_quote_body|].
  apply clean_ascii. by repeat constructor.
Qed.

(** ASCII text is its own encoding. *)
Lemma points_ascii s : ascii_text s → concat (utf8_point <$> points s) = s.
Proof.
  induction 1 as [|c s Hc Hs IH]; [done|]. destruct (not_surrogate c Hc) as [Hl Ht].
  rewrite points_unit, ascii_unit by (done || lia). cbn [fmap list_fmap concat]. rewrite IH.
  unfold utf8_point. by rewrite bool_decide_eq_true_2.
Qed.

Lemma utf8_ascii s : ascii_text s → String.list_ascii_of_string (utf8 s) = ascii_of_N <$> s.
Proof.
  intros Hs. unfold utf8, string_of_bytes. by rewrite String.list_ascii_of_string_of_list_ascii, points_ascii.
Qed.

(** Number tokens. *)
Lemma digits_ascii s : ascii_text (digits s).1.
Proof.
  induction s as [|c s IH]; [constructor|]. cbn [digits]. destruct (is_digit c) eqn:Hc; [|constructor].
  destruct (digits s) as [d r]. constructor; [|done]. apply bool_decide_eq_true in Hc. lia.
Qed.

Ltac use_digits :=
  match goal with |- context [digits ?s] => pose proof (digits_ascii s); destruct (digits s) as [[|??] ?] end.

Lemma scan_int_ascii s t r : scan_int s = Some (t, r) → ascii_text t.
Proof.
  unfold scan_int. destruct (strip 48 s); [intros [= <- <-]; by repeat constructor|].
  use_digits; [done|]. by intros [= <- <-].
Qed.

Lemma scan_frac_ascii s t r : scan_frac s = Some (t, r) → ascii_text t.
Proof.
  unfold scan_frac. destruct (strip 46 s); [|intros [= <- <-]; constructor].
  use_digits; [done|]. intros [= <- <-]. by constructor.
Qed.

Lemma scan_exp_digits_ascii m s t r : ascii_text m → scan_exp_digits m s = Some (t, r) → ascii_text t.
Proof. intros Hm. unfold scan_exp_digits. use_digits; [done|]. intros [= <- <-]. by apply Forall_app. Qed.

Lemma scan_exp_ascii s t r : scan_exp s = Some (t, r) → ascii_text t.
Proof.
  destruct s as [|c s]; [intros [= <- <-]; constructor|]. cbn. destruct (is_exp c) eqn:Hc; [|intros [= <- <-]; constructor].
  apply bool_decide_eq_true in Hc. destruct s as [|d s]; [done|]. destruct (is_sign d) eqn:Hd; apply scan_exp_digits_ascii.
  - apply bool_decide_eq_true in Hd. repeat constructor; lia.
  - repeat constructor; lia.
Qed.

Lemma scan_number_ascii s t r : scan_number s = Some (t, r) → ascii_text t.
Proof.
  unfold scan_number. set (sg := match strip 45 s with Some s' => ([45], s') | None => ([], s) end).
  assert (Hsg : ascii_text sg.1) by (unfold sg; destruct (strip 45 s); by repeat constructor).
  destruct sg as [sign s1]. destruct (scan_int s1) as [[i s2]|] eqn:Ei; [|done].
  destruct (scan_frac s2) as [[f s3]|] eqn:Ef; [|done]. destruct (scan_exp s3) as [[e s4]|] eqn:Ee; [|done].
  intros [= <- <-]. repeat (apply Forall_app; split); [done|by eapply scan_int_ascii|by eapply scan_frac_ascii|by eapply scan_exp_ascii].
Qed.

Section Values.
Context `{!JsNumber, !JsNumberLaws _}.

(** A value whose strings are made of code units. *)
Inductive json_units : json → Prop :=
| units_null : json_units JNull
| units_bool b : json_units (JBool b)
| units_number n : json_units (JNumber n)
| units_string s : code_units s → json_units (JString s)
| units_array l : Forall json_units l → json_units (JArray l)
| units_object o : Forall (λ e, code_units e.1) o → Forall (λ e, json_units e.2) o → json_units (JObject o).

Lemma clean_stringify v : json_units v → clean (stringify v).
Proof.
induction v as [|b|n|s|l IH|o IH] using json_deep_ind; intros Hv;
  inversion Hv as [| | |? Hs|? Hl|? Hk Ho]; subst; cbn [stringify].
- apply clean_ascii. apply (bool_decide_unpack _). by vm_compute.
- destruct b; apply clean_ascii; apply (bool_decide_unpack _); by vm_compute.
- eapply clean_ascii, scan_number_ascii, print_number_token.
- by apply clean_quote.
- apply clean_cons; [done|]. apply clean_app; [|by apply clean_cons, clean_nil]. apply clean_join, Forall_fmap.
  rewrite Forall_forall in IH, Hl |- *. intros v Hv'. by apply IH; [|apply Hl].
- apply clean_cons; [done|]. apply clean_app; [|by apply clean_cons, clean_nil]. apply clean_join, Forall_fmap.
  rewrite Forall_forall in IH, Hk, Ho |- *. intros e He.
  apply (clean_app (quote e.1)); [by apply clean_quote, Hk|].
  apply clean_cons; [done|]. by apply IH; [|apply Ho].
Qed.

(** The same, as a test. *)
Definition units_ok (s : jstring) : bool := forallb (λ c, bool_decide (c < 65536)) s.

Fixpoint json_units_ok (v : json) : bool :=
match v with
| JString s => units_ok s
| JArray l => forallb json_units_ok l
| JObject o => forallb (λ e, units_ok e.1 && json_units_ok e.2) o
| _ => true
end.

Lemma units_ok_sound s : units_ok s = true → code_units s.
Proof. intros Hs. apply Forall_forall. intros c Hc%list_elem_of_In. eapply bool_decide_eq_true_1, (proj1 (forallb_forall _ _) Hs), Hc. Qed.

Lemma json_units_ok_sound v : json_units_ok v = true → json_units v.
Proof.
induction v as [|b|n|s|l IH|o IH] using json_deep_ind; cbn [json_units_ok]; try by constructor.
- intros Hs. by constructor; apply units_ok_sound.
- intros Hl. constructor. rewrite Forall_forall in IH |- *. intros v Hv. apply IH; [done|].
  by apply (proj1 (forallb_forall _ _) Hl), list_elem_of_In.
- intros Ho. assert (He : ∀ e, e ∈ o → units_ok e.1 = true ∧ json_units_ok e.2 = true)
    by (intros e He; apply andb_true_iff, (proj1 (forallb_forall _ _) Ho), list_elem_of_In, He).
  rewrite Forall_forall in IH. constructor; apply Forall_forall; intros e Hin; destruct (He e Hin) as [H1 H2];
    [by apply units_ok_sound|by apply IH].
Qed.

(** The server reads in the bytes of a value's text what was written. *)
Lemma read_stringify {JS : JsonShape} v :
json_units v → parse_text (units_of (utf8 (stringify v))) = Some (shape_of v).
Proof.
intros Hv. destruct (clean_stringify v Hv) as [Hp Hu].
by rewrite units_of_utf8, parse_text_stringify.
Qed.
End Values.
