(* ===== verification/GoJson.v ===== *)
(** * How the server reads JSON

    [readJSON] of [pkg/api/helpers.go] and what [encoding/json] does for the request
    types of [pkg/api/types.go]: a member is matched with the field of its name, or
    of its name in other case; an unknown member is an error; null leaves a string as
    it is and makes a map, a slice or a pointer nil; a value of another kind is an
    error; members that are repeated decode into what is there.  The text is read
    with the grammar of Json.v, which is also Go's, into the tree [gvalue]. *)

From S2P Require Import Prelude JsString Json Utf8 GoLib ServerModel ServerSchema ServerEngine ServerStore ServerTenants ServerApi.

Open Scope nat_scope.
Open Scope list_scope.

(** ** Trees *)

(** A number is its literal; the members of an object are in the order of the text. *)
Inductive gvalue :=
  | GNull
  | GBool (b : bool)
  | GNumber (literal : jstring)
  | GString (s : jstring)
  | GArray (l : list gvalue)
  | GObject (l : list (jstring * gvalue)).

#[export] Instance go_shape : JsonShape := {|
  shape := gvalue; shape_null := GNull; shape_bool := GBool; shape_number := GNumber;
  shape_string := GString; shape_array := GArray; shape_object := GObject |}.

(** How deep arrays and objects are nested. *)
Fixpoint nesting (v : gvalue) : nat :=
  match v with
  | GArray l => S (foldr (λ w n, Nat.max (nesting w) n) 0 l)
  | GObject l => S (foldr (λ e n, Nat.max (nesting e.2) n) 0 l)
  | _ => 0
  end.

Definition maxNestingDepth : N := 10000.

(** One JSON value and nothing after it. *)
Definition decode_text (body : string) : option gvalue :=
  v ← parse_text (JS := go_shape) (units_of body);
  if bool_decide (N.of_nat (nesting v) ≤ maxNestingDepth)%N then Some v else None.

(** ** Destinations *)

(** What decoding a value does to the variable that receives it. *)
Definition decoder (A : Type) : Type := gvalue → A → res A.

Definition type_error {A} : res A := Err (Errorf "cannot unmarshal").

Definition into_string : decoder string := λ v old,
  match v with GNull => Ok old | GString s => Ok (utf8 s) | _ => type_error end.

(** [*int64]: the literal must be an integer in range. *)
Definition into_int64 : decoder (option Z) := λ v _,
  match v with
  | GNull => Ok None
  | GNumber t => match Atoi (utf8 t) with Some n => Ok (Some n) | None => type_error end
  | _ => type_error
  end.

(** A slice is filled from its start. *)
Definition into_slice {A} (zero : A) (dec : decoder A) : decoder (list A) := λ v _,
  match v with
  | GNull => Ok []
  | GArray l => mapR (λ w, dec w zero) l
  | _ => type_error
  end.

(** ASCII letters in upper case; two other letters fold to ASCII ones. *)
Definition fold_unit (c : N) : N :=
  if bool_decide (97 ≤ c ≤ 122)%N then (c - 32)%N
  else if bool_decide (c = 383)%N then 83%N
  else if bool_decide (c = 8490)%N then 75%N
  else c.

Definition same_name (k : jstring) (name : string) : bool := bool_decide (k = js name).
Definition same_folded (k : jstring) (name : string) : bool :=
  bool_decide (fold_unit <$> k = fold_unit <$> js name).

(** A field of a struct: its name and what decoding into it does to the struct. *)
Abbreviation field A := (string * decoder A)%type.

Definition find_field {A} (fields : list (field A)) (k : jstring) : option (decoder A) :=
  match find (λ f, same_name k f.1) fields with
  | Some f => Some f.2
  | None => snd <$> find (λ f, same_folded k f.1) fields
  end.

Definition into_member {A} (fields : list (field A)) (a : res A) (e : jstring * gvalue) : res A :=
  a ← a;
  match find_field fields e.1 with
  | Some dec => dec e.2 a
  | None => Err (Errorf "unknown field")
  end.

Definition into_struct {A} (fields : list (field A)) : decoder A := λ v old,
  match v with
  | GNull => Ok old
  | GObject l => foldl (into_member fields) (Ok old) l
  | _ => type_error
  end.

(** The field [name], read with [get] and set with [set]. *)
Definition fld {A B} (name : string) (get : A → B) (set : B → A → A) (dec : decoder B) : field A :=
  (name, λ v a, b ← dec v (get a); Ok (set b a)).

(** [readJSON] into a variable with its zero value. *)
Definition readJSON {A} (zero : A) (dec : decoder A) (body : string) : res A :=
  match decode_text body with
  | Some v => dec v zero
  | None => Err (Errorf "invalid JSON")
  end.

(** ** Values of type [any] *)

(** What [encoding/json] stores in an interface: nil, a bool, a float64 if the literal
    is in range, a string, a slice, a map. *)
Class GoAny {EL : ExprLang} := {
  any_nil : any;
  any_of_bool : bool → any;
  any_of_float : string → option any;
  any_of_string : string → any;
  any_of_slice : list any → any;
  any_of_map : gmap string any → any }.

Section Decoders.
Context {EL : ExprLang} {GA : GoAny}.

(** Assigning members to a map one after the other. *)
Definition put_members (m : gmap string any) (l : list (string * any)) : gmap string any :=
foldl (λ m e, <[e.1 := e.2]> m) m l.

Fixpoint into_any (v : gvalue) : res any :=
match v with
| GNull => Ok any_nil
| GBool b => Ok (any_of_bool b)
| GNumber t => match any_of_float (utf8 t) with Some a => Ok a | None => type_error end
| GString s => Ok (any_of_string (utf8 s))
| GArray l =>
    let fix go l := match l with [] => Ok [] | w :: l => a ← into_any w; k ← go l; Ok (a :: k) end in
    k ← go l; Ok (any_of_slice k)
| GObject l =>
    let fix go l := match l with [] => Ok [] | e :: l => a ← into_any e.2; k ← go l; Ok ((utf8 e.1, a) :: k) end in
    k ← go l; Ok (any_of_map (put_members ∅ k))
end.

Definition into_map : decoder (gomap any) := λ v old,
match v with
| GNull => Ok None
| GObject l =>
    k ← mapR (λ e, a ← into_any e.2; Ok (utf8 e.1, a)) l;
    Ok (Some (put_members (default ∅ old) k))
| _ => type_error
end.

(** ** The request types *)

Definition tuple_fields : list (field TupleRequest) :=
let set f r := let '(MkTupleRequest a b c d e g h i j) := r in f a b c d e g h i j in
[ fld "object_type" tr_ObjectType (λ x, set (λ a b c d e g h i j, MkTupleRequest x b c d e g h i j)) into_string;
  fld "object_id" tr_ObjectID (λ x, set (λ a b c d e g h i j, MkTupleRequest a x c d e g h i j)) into_string;
  fld "relation" tr_Relation (λ x, set (λ a b c d e g h i j, MkTupleRequest a b x d e g h i j)) into_string;
  fld "subject_type" tr_SubjectType (λ x, set (λ a b c d e g h i j, MkTupleRequest a b c x e g h i j)) into_string;
  fld "subject_id" tr_SubjectID (λ x, set (λ a b c d e g h i j, MkTupleRequest a b c d x g h i j)) into_string;
  fld "subject_relation" tr_SubjectRelation (λ x, set (λ a b c d e g h i j, MkTupleRequest a b c d e x h i j)) into_string;
  fld "attributes" tr_Attributes (λ x, set (λ a b c d e g h i j, MkTupleRequest a b c d e g x i j)) into_map;
  fld "ttl_seconds" TTLSeconds (λ x, set (λ a b c d e g h i j, MkTupleRequest a b c d e g h x j)) into_int64;
  fld "expires_at" tr_ExpiresAt (λ x, set (λ a b c d e g h i j, MkTupleRequest a b c d e g h i x)) into_string ].

Definition no_tuple_request : TupleRequest := MkTupleRequest "" "" "" "" "" "" None None "".

Definition batch_fields : list (field (list TupleRequest)) :=
[ fld "tuples" id (λ x _, x) (into_slice no_tuple_request (into_struct tuple_fields)) ].

Definition create_tenant_fields : list (field CreateTenantRequest) :=
let set f r := let '(MkCreateTenantRequest a b c d e) := r in f a b c d e in
[ fld "id" ct_ID (λ x, set (λ a b c d e, MkCreateTenantRequest x b c d e)) into_string;
  fld "display_name" ct_DisplayName (λ x, set (λ a b c d e, MkCreateTenantRequest a x c d e)) into_string;
  fld "schema_mode" ct_SchemaMode (λ x, set (λ a b c d e, MkCreateTenantRequest a b x d e)) into_string;
  fld "parent_tenant_id" ct_ParentTenantID (λ x, set (λ a b c d e, MkCreateTenantRequest a b c x e)) into_string;
  fld "shared_schema_ref" ct_SharedSchemaRef (λ x, set (λ a b c d e, MkCreateTenantRequest a b c d x)) into_string ].

Definition attributes_fields : list (field (gomap any)) := [ fld "attributes" id (λ x _, x) into_map ].

Definition expand_fields : list (field ExpandRequest) :=
let set f r := let '(MkExpandRequest a b c) := r in f a b c in
[ fld "object_type" ex_ObjectType (λ x, set (λ a b c, MkExpandRequest x b c)) into_string;
  fld "object_id" ex_ObjectID (λ x, set (λ a b c, MkExpandRequest a x c)) into_string;
  fld "relation" ex_Relation (λ x, set (λ a b c, MkExpandRequest a b x)) into_string ].

(** Properties are decoded and kept nowhere. *)
Definition properties {A} : field A := fld "properties" (λ _, None) (λ _ a, a) into_map.

Definition subject_fields : list (field AuthZenSubject) :=
[ fld "type" az_Type (λ x r, MkAuthZenSubject x (az_ID r)) into_string;
  fld "id" az_ID (λ x r, MkAuthZenSubject (az_Type r) x) into_string;
  properties ].

Definition action_fields : list (field string) := [ fld "name" id (λ x _, x) into_string; properties ].

Definition item_fields : list (field AuthZenItem) :=
[ fld "resource" item_Resource (λ x r, MkAuthZenItem x (item_Action r) (item_Context r)) (into_struct subject_fields);
  fld "action" item_Action (λ x r, MkAuthZenItem (item_Resource r) x (item_Context r)) (into_struct action_fields);
  fld "context" item_Context (λ x r, MkAuthZenItem (item_Resource r) (item_Action r) x) into_map ].

Definition no_subject : AuthZenSubject := MkAuthZenSubject "" "".
Definition no_item : AuthZenItem := MkAuthZenItem no_subject "" None.

(** The fields of an item, inside the request of a single evaluation. *)
Definition evaluation_fields : list (field AuthZenEvaluationRequest) :=
fld "subject" ev_Subject (λ x r, MkEvaluation x (ev_Item r)) (into_struct subject_fields) ::
((λ f, (f.1, λ v r, i ← f.2 v (ev_Item r); Ok (MkEvaluation (ev_Subject r) i))) <$> item_fields).

Definition evaluations_fields : list (field AuthZenBatchRequest) :=
[ fld "subject" bt_Subject (λ x r, MkBatch x (Evaluations r)) (into_struct subject_fields);
  fld "evaluations" Evaluations (λ x r, MkBatch (bt_Subject r) x) (into_slice no_item (into_struct item_fields)) ].

Definition read_tuple : string → res TupleRequest := readJSON no_tuple_request (into_struct tuple_fields).
Definition read_batch : string → res (list TupleRequest) := readJSON [] (into_struct batch_fields).
Definition read_tenant : string → res CreateTenantRequest :=
readJSON (MkCreateTenantRequest "" "" "" "" "") (into_struct create_tenant_fields).
Definition read_attributes : string → res (gomap any) := readJSON None (into_struct attributes_fields).
Definition read_expand : string → res ExpandRequest := readJSON (MkExpandRequest "" "" "") (into_struct expand_fields).
Definition read_evaluation : string → res AuthZenEvaluationRequest :=
readJSON (MkEvaluation no_subject no_item) (into_struct evaluation_fields).
Definition read_evaluations : string → res AuthZenBatchRequest :=
readJSON (MkBatch no_subject []) (into_struct evaluations_fields).
End Decoders.
