(* ===== verification/ServerReply.v ===== *)
(** * How the server writes its replies

    [writeJSON] of [pkg/api/helpers.go] and what [encoding/json] writes for the reply
    types of [pkg/api/types.go] and [pkg/model/]: the fields of a struct in order, under
    the names of their tags or their own, empty ones left out where the tag says so; a
    nil slice, map or pointer as null; a map with its keys sorted; strings with the
    characters [<], [>], [&] and the line separators escaped and the bytes that are no
    UTF-8 as the escape of U+FFFD.  The texts of times are the interface [TimeText],
    what is written for a value of type [any] the interface [AnyOut]. *)

From Stdlib Require Import Ascii.
From stdpp Require Import sorting.
From S2P Require Import Prelude JsString Json Utf8 GoLib ServerModel ServerSchema ServerEngine Changelog ServerStore ServerTenants ServerApi.

Open Scope nat_scope.
Open Scope list_scope.

(** ** Strings *)

(** The runes of bytes; [None] is a byte that belongs to none. *)
Fixpoint go_runes (l : list N) : list (option N) :=
  match l with
  | [] => []
  | a :: l1 =>
      if bool_decide (a < 128)%N then Some a :: go_runes l1
      else
        let bad := None :: go_runes l1 in
        match l1 with
        | b :: l2 =>
            if in_range 194 223 a && is_cont b then Some ((a - 192) * 64 + low b)%N :: go_runes l2
            else match l2 with
            | c :: l3 =>
                if in_range 224 239 a && second3 a b && is_cont c
                then Some ((a - 224) * 4096 + low b * 64 + low c)%N :: go_runes l3
                else match l3 with
                | d :: l4 =>
                    if in_range 240 244 a && second4 a b && is_cont c && is_cont d
                    then Some ((a - 240) * 262144 + low b * 4096 + low c * 64 + low d)%N :: go_runes l4
                    else bad
                | [] => bad
                end
            | [] => bad
            end
        | [] => bad
        end
  end.

(** What stands for a rune between the quotes, in code units. *)
Definition escape_rune (x : option N) : jstring :=
  match x with
  | None => unicode_escape replacement
  | Some p =>
      if bool_decide (p = DQUOTE ∨ p = BACKSLASH) then [BACKSLASH; p]
      else if bool_decide (p = 8)%N then [BACKSLASH; 98%N]
      else if bool_decide (p = 12)%N then [BACKSLASH; 102%N]
      else if bool_decide (p = 10)%N then [BACKSLASH; 110%N]
      else if bool_decide (p = 13)%N then [BACKSLASH; 114%N]
      else if bool_decide (p = 9)%N then [BACKSLASH; 116%N]
      else if bool_decide (p < 32 ∨ p = 38 ∨ p = 60 ∨ p = 62 ∨ p = 8232 ∨ p = 8233)%N then unicode_escape p
      else units_of_point p
  end.

Definition go_quote (s : string) : jstring := concat (escape_rune <$> go_runes (bytes_of_string s)).

(** ** Trees *)

(** Integers are written in decimal; [ONumber] is the text of a float. *)
Inductive gout :=
  | ONull
  | OBool (b : bool)
  | OInt (z : Z)
  | ONumber (token : jstring)
  | OString (s : string)
  | OArray (l : list gout)
  | OObject (l : list (string * gout)).

Fixpoint out_doc (o : gout) : doc :=
  match o with
  | ONull => DNull
  | OBool b => DBool b
  | OInt z => DNumber (js_of_Z z)
  | ONumber t => DNumber t
  | OString s => DString (go_quote s) (units_of s)
  | OArray l => DArray (out_doc <$> l)
  | OObject l => DObject ((λ e, ((go_quote e.1, units_of e.1), out_doc e.2)) <$> l)
  end.

(** The bytes [json.Encoder.Encode] writes, with the newline at the end. *)
Definition encode (o : gout) : string := utf8 (doc_text (out_doc o) ++ [10%N]).

Inductive out_ok : gout → Prop :=
  | out_null : out_ok ONull
  | out_bool b : out_ok (OBool b)
  | out_int z : out_ok (OInt z)
  | out_number t : number_token t → out_ok (ONumber t)
  | out_string s : out_ok (OString s)
  | out_array l : Forall out_ok l → out_ok (OArray l)
  | out_object l : Forall (λ e, out_ok e.2) l → out_ok (OObject l).

Class TimeText := {
  rfc3339_nano : Z → string;        (* [time.Time.MarshalJSON] *)
  schema_time : Z → string }.       (* [Format("2006-01-02T15:04:05Z")] *)

Class AnyOut {EL : ExprLang} := {
  any_out : any → gout;
  any_out_ok a : out_ok (any_out a) }.

(** ** The reply types *)

Section Replies.
Context {EL : ExprLang} {DC : Decoders} {TT : TimeText} {AO : AnyOut}.

(** The fields of a struct; one that is left out has no value. *)
Definition struct_out (l : list (string * option gout)) : gout :=
OObject (omap (λ e, (λ v, (e.1, v)) <$> e.2) l).

Definition text (k s : string) : string * option gout := (k, Some (OString s)).
Definition int (k : string) (z : Z) : string * option gout := (k, Some (OInt z)).
Definition time (k : string) (t : Z) : string * option gout := (k, Some (OString (rfc3339_nano t))).

(** A string whose tag says [omitempty]. *)
Definition text_omitempty (k s : string) : string * option gout :=
(k, if bool_decide (s = "") then None else Some (OString s)).

(** A slice that is nil when it is empty: a result built with [append]. *)
Definition slice_out {A} (f : A → gout) (l : list A) : gout :=
match l with [] => ONull | _ => OArray (f <$> l) end.

Definition key_le (a b : string * any) : Prop := String.le a.1 b.1.

#[export] Instance key_le_dec : RelDecision key_le := λ a b, String.le_dec a.1 b.1.

Definition members_out (m : gmap string any) : list (string * gout) :=
(λ e, (e.1, any_out e.2)) <$> merge_sort key_le (map_to_list m).

Definition map_out (m : gomap any) : gout :=
match m with None => ONull | Some m => OObject (members_out m) end.

Definition map_omitempty (k : string) (m : gomap any) : string * option gout :=
(k, match m with None => None | Some m => if bool_decide (m = ∅) then None else Some (OObject (members_out m)) end).

Definition tuple_out (t : RelationTuple) : gout := struct_out [
text "tenant_id" (rt_TenantID t); text "object_type" (ObjectType t); text "object_id" (ObjectID t);
text "relation" (Relation t); text "subject_type" (SubjectType t); text "subject_id" (SubjectID t);
text_omitempty "subject_relation" (SubjectRelation t); text_omitempty "subject_tenant_id" (SubjectTenantID t);
map_omitempty "attributes" (rt_Attributes t);
("expires_at", (λ e, OString (rfc3339_nano e)) <$> ExpiresAt t);
time "created_at" (rt_CreatedAt t); time "updated_at" (rt_UpdatedAt t);
text_omitempty "source_system" (SourceSystem t); text_omitempty "external_id" (ExternalID t)].

Definition texts_omitempty (l : list string) : option gout :=
match l with [] => None | _ => Some (OArray (OString <$> l)) end.

Definition config_out (c : TenantConfig) : gout := struct_out [
int "max_tuples" (MaxTuples c); int "max_requests_per_sec" (MaxRequestsPerSec c);
("cache_ttl_override", OInt <$> CacheTTLOverride c);
("allowed_object_types", texts_omitempty (AllowedObjectTypes c));
int "retention_days" (RetentionDays c); ("sync_enabled", Some (OBool (SyncEnabled c)));
text_omitempty "webhook_url" (WebhookURL c); map_omitempty "metadata" (cfg_Metadata c)].

Definition mode_text (m : SchemaMode) : string :=
match m with SchemaOwn => "own" | SchemaShared => "shared" | SchemaInherited => "inherited" end.

Definition tenant_out (t : Tenant) : gout := struct_out [
text "id" (ID t); text "display_name" (DisplayName t); text_omitempty "parent_tenant_id" (ParentTenantID t);
text "status" (status_text (Status t)); text "schema_mode" (mode_text (tenant_SchemaMode t));
text_omitempty "shared_schema_ref" (SharedSchemaRef t); ("config", Some (config_out (Config t)));
time "created_at" (t_CreatedAt t); time "updated_at" (t_UpdatedAt t)].

Definition op_out (o : ChangeOp) : string :=
match o with ChangeOpInsert => "INSERT" | ChangeOpDelete => "DELETE" | ChangeOpUpdate => "UPDATE" end.

Definition entry_out (e : ChangelogEntry) : gout := struct_out [
int "seq" (Sequence e); text "tenant_id" (ce_TenantID e); text "op" (op_out (ce_Operation e));
("tuple", Some (tuple_out (Tuple e))); time "ts" (Timestamp e); text "actor" (Actor e); text "source" (Source e);
map_omitempty "meta" (Metadata e)].

(** The types of objects and of subjects differ in two names; the time of the update is
  never set. *)
Definition item_out (type_key id_key : string) (i : AttributesItem) : gout := struct_out [
text "tenant_id" (item_TenantID i); text type_key (item_Type i); text id_key (item_ID i);
("attributes", Some (map_out (item_Attributes i))); time "updated_at" 0].

(** No tags: the names of the fields. *)
Definition ref_out (r : SubjectRef) : gout :=
struct_out [text "Type" (sub_Type r); text "ID" (sub_ID r); text "Relation" (sub_Relation r)].

Fixpoint tree_out (t : SubjectTree) : gout :=
match t with
| MkSubjectTree s l => struct_out [("Subject", Some (ref_out s)); ("Children", Some (slice_out tree_out l))]
end.

Definition schema_out (s : SchemaResponse) : gout := struct_out [
text "tenant_id" (sr_TenantID s); text "hash" (sr_Hash s); text "version" (sr_Version s);
text "source" (sr_Source s); text "compiled_at" (schema_time (sr_CompiledAt s))].

Definition decision_out (d : bool) : gout := struct_out [("decision", Some (OBool d))].

(** The page of [ListTenants] is an empty slice, not a nil one, when nothing is on it. *)
Definition body_of (r : request) (p : payload) : option gout :=
match p with
| PStatusOk None => Some (struct_out [text "status" "ok"])
| PStatusOk (Some n) => Some (struct_out [int "count" n; text "status" "ok"])
| PTenant None => Some ONull
| PTenant (Some t) => Some (tenant_out t)
| PTenants l n => Some (struct_out [("tenants", Some (OArray (tenant_out <$> l))); int "count" n])
| PSchema s => Some (schema_out s)
| PTuples l n => Some (struct_out [("tuples", Some (slice_out tuple_out l)); int "count" n])
| PAttributes m => Some (struct_out [("attributes", Some (map_out m))])
| PItems l n =>
    match r with
    | GetSubjects _ _ =>
        Some (struct_out [("subjects", Some (slice_out (item_out "subject_type" "subject_id") l)); int "count" n])
    | _ => Some (struct_out [("objects", Some (slice_out (item_out "object_type" "object_id") l)); int "count" n])
    end
| PChangelog l n latest =>
    Some (struct_out [("entries", Some (slice_out entry_out l)); int "count" n; int "latest_sequence" latest])
| PTree t => Some (tree_out t)
| PDecision d => Some (decision_out d)
| PDecisions l => Some (struct_out [("evaluations", Some (OArray (decision_out <$> l)))])
| PNoContent => None
end.

(** The body of a success. *)
Definition reply_body (r : request) (p : payload) : string := default "" (encode <$> body_of r p).
End Replies.
