(* ===== verification/ReplyText.v ===== *)
(** * The bytes of a reply, read as JSON

    What [encode] writes is JSON: any reader of the grammar gets from the bytes the tree
    that was written, with the strings as the code units of the server's bytes. *)

From Stdlib Require Import Ascii.
From S2P Require Import Prelude JsString Json JsonFuel JsonIntegers Utf8 GoLib ServerModel ServerApi ServerReply.

Open Scope N_scope.

(** ** Runes *)

Lemma go_runes_decode l : default replacement <$> go_runes l = decode_runes l.
Proof.
  induction l as [l IH] using (well_founded_induction (well_founded_ltof _ (@length N))). unfold ltof in IH.
  destruct l as [|a l1]; [done|]. cbn [go_runes decode_runes].
  case_bool_decide; [cbn; f_equal; apply IH; simpl; lia|].
  assert (Hbad : default replacement <$> (None :: go_runes l1) = replacement :: decode_runes l1).
  { cbn. f_equal. apply IH. simpl. lia. }
  destruct l1 as [|b l2]; [done|].
  destruct (in_range 194 223 a && is_cont b); [cbn; f_equal; apply IH; simpl; lia|].
  destruct l2 as [|c l3]; [done|].
  destruct (in_range 224 239 a && second3 a b && is_cont c); [cbn; f_equal; apply IH; simpl; lia|].
  destruct l3 as [|d l4]; [done|].
  destruct (in_range 240 244 a && second4 a b && is_cont c && is_cont d); [cbn; f_equal; apply IH; simpl; lia|done].
Qed.

(** A rune is a code point that is no surrogate. *)
Definition valid_rune (x : option N) : Prop := from_option unicode True x.

Ltac ranges := unfold is_cont, in_range, low in *; repeat match goal with
  | H : _ && _ = true |- _ => apply andb_true_iff in H as [? ?]
  | H : bool_decide _ = true |- _ => apply bool_decide_eq_true in H
  end.

Lemma rune_two a b : in_range 194 223 a && is_cont b = true → unicode ((a - 192) * 64 + low b).
Proof. intros H. ranges. unfold unicode. lia. Qed.

Lemma rune_three a b c : in_range 224 239 a && second3 a b && is_cont c = true →
  unicode ((a - 224) * 4096 + low b * 64 + low c).
Proof.
  intros H. apply andb_true_iff in H as [[Ha Hb]%andb_true_iff Hc]. unfold second3 in Hb.
  repeat case_bool_decide; ranges; unfold unicode; lia.
Qed.

Lemma rune_four a b c d : in_range 240 244 a && second4 a b && is_cont c && is_cont d = true →
  unicode ((a - 240) * 262144 + low b * 4096 + low c * 64 + low d).
Proof.
  intros H. apply andb_true_iff in H as [[[Ha Hb]%andb_true_iff Hc]%andb_true_iff Hd]. unfold second4 in Hb.
  repeat case_bool_decide; ranges; unfold unicode; lia.
Qed.

Lemma go_runes_valid l : Forall valid_rune (go_runes l).
Proof.
  induction l as [l IH] using (well_founded_induction (well_founded_ltof _ (@length N))). unfold ltof in IH.
  destruct l as [|a l1]; [done|]. cbn [go_runes].
  case_bool_decide; [constructor; [unfold valid_rune, unicode; cbn; lia|apply IH; simpl; lia]|].
  assert (Hbad : Forall valid_rune (None :: go_runes l1)) by (constructor; [done|apply IH; simpl; lia]).
  destruct l1 as [|b l2]; [done|].
  destruct (in_range 194 223 a && is_cont b) eqn:E2; [constructor; [by apply rune_two|apply IH; simpl; lia]|].
  destruct l2 as [|c l3]; [done|].
  destruct (in_range 224 239 a && second3 a b && is_cont c) eqn:E3; [constructor; [by apply rune_three|apply IH; simpl; lia]|].
  destruct l3 as [|d l4]; [done|].
  destruct (in_range 240 244 a && second4 a b && is_cont c && is_cont d) eqn:E4;
    [constructor; [by apply rune_four|apply IH; simpl; lia]|done].
Qed.

(** ** Strings *)

Lemma parse_units p s t r :
  unicode p → p ≠ DQUOTE → p ≠ BACKSLASH → 32 ≤ p → parse_chars s = Some (t, r) →
  parse_chars (units_of_point p ++ s) = Some (units_of_point p ++ t, r).
Proof.
  intros [Hp _] Hq Hb Hlo Hs. unfold units_of_point. case_bool_decide; cbn [app].
  - by rewrite parse_plain, Hs.
  - assert (55296 ≤ 55296 + (p - 65536) / 1024) by apply N.le_add_r.
    assert (56320 ≤ 56320 + (p - 65536) mod 1024) by apply N.le_add_r.
    by rewrite parse_plain, parse_plain, Hs by lia.
Qed.

Lemma escape_reads x s t r :
  valid_rune x → parse_chars s = Some (t, r) →
  parse_chars (escape_rune x ++ s) = Some (units_of_point (default replacement x) ++ t, r).
Proof.
  intros Hx Hs. destruct x as [p|]; [|cbn [escape_rune]; rewrite parse_escape by done; by rewrite Hs].
  change (default replacement (Some p)) with p. cbn [escape_rune]. case_bool_decide as Hq.
  { destruct Hq as [->| ->]; cbn; by rewrite Hs. }
  repeat (case_bool_decide; [subst p; cbn; by rewrite Hs|]).
  case_bool_decide as He.
  - rewrite parse_escape, Hs by lia. unfold units_of_point. by rewrite bool_decide_eq_true_2 by lia.
  - apply parse_units; [done|tauto|tauto|lia|done].
Qed.

Lemma go_quote_reads s : raw_reads (go_quote s) (units_of s).
Proof.
  intros r. unfold go_quote, units_of. rewrite <-go_runes_decode.
  induction (go_runes_valid (bytes_of_string s)) as [|x l Hx _ IH]; [done|].
  cbn [fmap list_fmap concat]. rewrite <-!app_assoc. by apply escape_reads.
Qed.

Lemma clean_point p : unicode p → clean (units_of_point p).
Proof.
  intros Hu. pose proof Hu as [Hp Hs]. unfold units_of_point. case_bool_decide as Hb.
  - split; [|by repeat constructor]. cbn.
    assert (Hl : is_lead p = false) by (apply bool_decide_eq_false; lia).
    by rewrite Hl, (proj2 (scalar_spec p) Hu).
  - split; [|repeat constructor; div_lia]. cbn [paired].
    assert (Hl : is_lead (55296 + (p - 65536) / 1024) = true) by (apply bool_decide_eq_true; div_lia).
    assert (Ht : is_trail (56320 + (p - 65536) mod 1024) = true) by (apply bool_decide_eq_true; div_lia).
    by rewrite Hl, Ht.
Qed.

Lemma clean_escape c : c < 65536 → clean (unicode_escape c).
Proof.
  intros Hc. apply clean_ascii. unfold unicode_escape.
  repeat apply Forall_cons_2; try apply Forall_nil_2; try (by vm_compute); apply hex_digit_ascii, N.mod_lt; lia.
Qed.

Lemma clean_rune x : valid_rune x → clean (escape_rune x).
Proof.
  intros Hx. destruct x as [p|]; [|by apply clean_escape]. cbn [escape_rune].
  case_bool_decide as Hq; [destruct Hq as [->| ->]; apply clean_ascii; by repeat constructor|].
  repeat (case_bool_decide; [apply clean_ascii; by repeat constructor|]).
  case_bool_decide; [apply clean_escape; lia|by apply clean_point].
Qed.

Lemma clean_quoted s : clean (quoted (go_quote s)).
Proof.
  apply clean_cons; [done|]. apply clean_app; [|by apply clean_cons, clean_nil]. unfold go_quote.
  induction (go_runes_valid (bytes_of_string s)) as [|x l Hx _ IH]; [apply clean_nil|].
  cbn [fmap list_fmap concat]. by apply clean_app; [apply clean_rune|].
Qed.

(** ** Trees *)

Section OutInd.
Context (P : gout → Prop).
Hypothesis (Pnull : P ONull) (Pbool : ∀ b, P (OBool b)) (Pint : ∀ z, P (OInt z)) (Pnum : ∀ t, P (ONumber t))
(Pstr : ∀ s, P (OString s)) (Parr : ∀ l, Forall P l → P (OArray l))
(Pobj : ∀ l, Forall (λ e, P e.2) l → P (OObject l)).

Fixpoint gout_deep_ind (o : gout) : P o :=
match o with
| ONull => Pnull
| OBool b => Pbool b
| OInt z => Pint z
| ONumber t => Pnum t
| OString s => Pstr s
| OArray l =>
  Parr l ((fix go l : Forall P l :=
    match l with [] => List.Forall_nil _ | o :: l => List.Forall_cons _ _ _ (gout_deep_ind o) (go l) end) l)
| OObject l =>
  Pobj l ((fix go (l : list (string * gout)) : Forall (λ e, P e.2) l :=
    match l with [] => List.Forall_nil _ | e :: l => List.Forall_cons _ _ _ (gout_deep_ind e.2) (go l) end) l)
end.
End OutInd.

Lemma integer_token z : number_token (js_of_Z z).
Proof. split; [exact (print_number_token (H := integers) z)|exact (print_number_head (H := integers) z)]. Qed.

Lemma out_doc_ok o : out_ok o → doc_ok (out_doc o).
Proof.
  induction o as [|b|z|t|s|l IH|l IH] using gout_deep_ind; intros Ho; inversion Ho as [| | | | |? Hl|? Hl]; subst;
    cbn [out_doc]; try by constructor.
  - constructor. apply integer_token.
  - constructor. apply go_quote_reads.
  - constructor. apply Forall_fmap. rewrite Forall_forall in IH, Hl |- *. cbn. auto.
  - constructor; apply Forall_fmap; apply Forall_forall; intros e He; cbn; [apply go_quote_reads|].
    rewrite Forall_forall in IH, Hl. auto.
Qed.

Lemma clean_token t : number_token t → clean t.
Proof. intros [Ht _]. by eapply clean_ascii, scan_number_ascii. Qed.

Lemma clean_out o : out_ok o → clean (doc_text (out_doc o)).
Proof.
  induction o as [|b|z|t|s|l IH|l IH] using gout_deep_ind; intros Ho; inversion Ho as [| | | | |? Hl|? Hl]; subst;
    cbn [out_doc doc_text].
  - apply clean_ascii, (bool_decide_unpack _). by vm_compute.
  - destruct b; apply clean_ascii, (bool_decide_unpack _); by vm_compute.
  - apply clean_token, integer_token.
  - by apply clean_token.
  - apply clean_quoted.
  - apply clean_cons; [done|]. apply clean_app; [|by apply clean_cons, clean_nil]. apply clean_join.
    rewrite Forall_fmap, Forall_fmap. rewrite Forall_forall in IH, Hl |- *. cbn. auto.
  - apply clean_cons; [done|]. apply clean_app; [|by apply clean_cons, clean_nil]. apply clean_join.
    rewrite Forall_fmap, Forall_fmap. rewrite Forall_forall in IH, Hl |- *. cbn. intros e He.
    apply (clean_app (quoted _)); [apply clean_quoted|]. apply clean_cons; [done|]. auto.
Qed.

(** ** Texts *)

(** The newline after the value is white space. *)
Lemma parse_text_line {JS : JsonShape} d : doc_ok d → parse_text (doc_text d ++ [10]) = Some (doc_value d).
Proof.
  intros Hd. unfold parse_text. rewrite (parse_value_doc d Hd); [done| |by apply stops_char].
  rewrite length_app. simpl. lia.
Qed.

(** The bytes of a tree are read as the tree. *)
Lemma encode_read {JS : JsonShape} o :
  out_ok o → parse_text (units_of (encode o)) = Some (doc_value (out_doc o)).
Proof.
  intros Ho. unfold encode. destruct (clean_app (doc_text (out_doc o)) [10]) as [Hp Hu].
  - by apply clean_out.
  - by apply clean_cons, clean_nil.
  - by rewrite units_of_utf8, parse_text_line by (done || by apply out_doc_ok).
Qed.
