(* ===== verification/ServerWire.v ===== *)
(** * From the console's calls to the server's requests

    A request of ApiClient.v as the server receives it: the mux of ServerRoutes.v
    chooses the handler, the body is the UTF-8 of its text and is read by [readJSON],
    the path values, query parameters and headers arrive as they were given (browser
    and [net/http] undo each other's percent-encoding).  [asks] says what each call of
    the client means; the theorem is that every call is understood as it is meant. *)

From Stdlib Require Import Ascii.
From S2P Require Import Prelude JsString JsObject Json JsonIntegers ApiTypes ApiClient ServerRoutes Utf8.
From S2P Require Import GoLib ServerModel ServerSchema ServerEngine ServerStore ServerTenants ServerApi GoJson ServerDemo.

Open Scope nat_scope.
Open Scope list_scope.

(** ** Receiving *)

(** [r.URL.Query().Get(k)] *)
Definition query_of (ps : jobject jstring) (k : string) : string := utf8 (default [] (map_get ps (units_of k))).

Section Wire.
Context `{!JsNumber} {EL : ExprLang} {DC : Decoders} {GA : GoAny}.

Definition body_bytes (p : ApiClient.payload) : string :=
match p with
| NoBody => ""
| JsonBody v => utf8 (stringify v)
| RawBody s => utf8 s
end.

Definition receive (r : ApiClient.request) : option ServerApi.request :=
let body := body_bytes (ApiClient.body r) in
let q := query_of (searchParams r) in
let header := query_of (headers r) "X-Tenant-ID" in
'(h, vs) ← dispatch (method r) (SLASH :: url r);
match h, utf8 <$> vs with
| HHealth, [] => Some GetHealth
| HCreateTenant, [] => Some (PostTenant (read_tenant body))
| HListTenants, [] => Some (GetTenants q)
| HGetTenant, [id] => Some (GetTenantByID id)
| HDeleteTenant, [id] => Some (DeleteTenantByID id)
| HActivateTenant, [id] => Some (PostActivate id)
| HSuspendTenant, [id] => Some (PostSuspend id)
| HLoadSchema, [id] => Some (PutSchema id (Ok body))
| HGetSchema, [id] => Some (GetSchemaOf id)
| HWriteTuples, [id] => Some (PostTuples id (read_batch body))
| HWriteTuple, [id] => Some (PostTuple id (read_tuple body))
| HDeleteTuple, [id] => Some (DeleteTuples id (read_tuple body))
| HReadTuples, [id] => Some (GetTuples id q)
| HListObjectAttributes, [id] => Some (GetObjects id q)
| HGetObjectAttributes, [id; typ; oid] => Some (GetObject id typ oid)
| HSetObjectAttributes, [id; typ; oid] => Some (PutObject id typ oid (read_attributes body))
| HListSubjectAttributes, [id] => Some (GetSubjects id q)
| HGetSubjectAttributes, [id; typ; sid] => Some (GetSubject id typ sid)
| HSetSubjectAttributes, [id; typ; sid] => Some (PutSubject id typ sid (read_attributes body))
| HReadChangelog, [id] => Some (GetChangelog id q)
| HExpand, [id] => Some (PostExpand id (read_expand body))
| HAuthZenEvaluation, [] => Some (PostEvaluation header (read_evaluation body))
| HAuthZenEvaluations, [] => Some (PostEvaluations header (read_evaluations body))
| _, _ => None
end.

(** ** What is meant *)

Definition given (s : option jstring) : string := utf8 (default [] s).

(** Attributes as [encoding/json] stores them. *)
Definition attributes_meant (a : option (jobject json)) : res (gomap any) :=
match a with
| Some o => into_map (shape_of (JS := go_shape) (JObject o)) None
| None => Ok None
end.

Definition tuple_meant (t : ApiTypes.TupleRequest) : res TupleRequest :=
a ← attributes_meant (tr_attributes t);
Ok (MkTupleRequest (utf8 (tr_object_type t)) (utf8 (tr_object_id t)) (utf8 (tr_relation t))
      (utf8 (tr_subject_type t)) (utf8 (tr_subject_id t)) (given (tr_subject_relation t)) a None "").

Definition asks (c : api_call) (r : ServerApi.request) : Prop :=
match c, r with
| CallListObjects t ty, GetObjects id q => id = utf8 t ∧ q "type" = given ty
| CallListSubjects t ty, GetSubjects id q => id = utf8 t ∧ q "type" = given ty
| CallGetObject t ty oid, GetObject id typ o => id = utf8 t ∧ typ = utf8 ty ∧ o = utf8 oid
| CallGetSubject t ty sid, GetSubject id typ s => id = utf8 t ∧ typ = utf8 ty ∧ s = utf8 sid
| CallSetObject t ty oid a, PutObject id typ o body =>
    id = utf8 t ∧ typ = utf8 ty ∧ o = utf8 oid ∧ body = attributes_meant (Some a)
| CallSetSubject t ty sid a, PutSubject id typ s body =>
    id = utf8 t ∧ typ = utf8 ty ∧ s = utf8 sid ∧ body = attributes_meant (Some a)
| CallChangelog t since limit, GetChangelog id q =>
    id = utf8 t ∧
    (0 ≤ default 0 since < 2 ^ 64 → 0 ≤ default 0 limit < 2 ^ 63 →
     changelog_query q = Some (default 0 since, if 0 <? default 0 limit then default 0 limit else 100))%Z
| CallCheck t req, PostEvaluation id body =>
    id = utf8 t ∧
    body = Ok (MkEvaluation (MkAuthZenSubject (utf8 (ck_subject_type req)) (utf8 (ck_subject_id req)))
                 (MkAuthZenItem (MkAuthZenSubject (utf8 (ck_resource_type req)) (utf8 (ck_resource_id req)))
                    (utf8 (ck_action req)) None))
| CallExpand t req, PostExpand id body =>
    id = utf8 t ∧
    body = Ok (MkExpandRequest (utf8 (ex_object_type req)) (utf8 (ex_object_id req)) (utf8 (ex_relation req)))
| CallGetSchema t, GetSchemaOf id => id = utf8 t
| CallLoadSchema t yaml, PutSchema id body => id = utf8 t ∧ body = Ok (utf8 yaml)
| CallListTenants status parent limit offset, GetTenants q =>
    (0 ≤ default 0 limit < 2 ^ 63 → 0 ≤ default 0 offset < 2 ^ 63 →
     tenant_query q = Some (MkTenantFilter (given status) (given parent) (default 0 limit) (default 0 offset)))%Z
| CallGetTenant t, GetTenantByID id => id = utf8 t
| CallReadTuples t f, GetTuples id q =>
    let f := default no_filter f in
    id = utf8 t ∧ q "include_expired" = "" ∧
    tuple_filter q false =
      MkTupleFilter (given (f_object_type f)) (given (f_object_id f)) (given (f_relation f))
        (given (f_subject_type f)) (given (f_subject_id f)) (given (f_subject_relation f)) false
| CallWriteTuple t tu, PostTuple id body => id = utf8 t ∧ body = tuple_meant tu
| CallDeleteTuple t tu, DeleteTuples id body => id = utf8 t ∧ body = tuple_meant tu
| CallWriteBatch t b, PostTuples id body => id = utf8 t ∧ body = mapR tuple_meant (batch_tuples b)
| _, _ => False
end.

(** ** Queries *)

Lemma query_param k v ps k' :
js k ≠ js "__proto__" →
query_of (param k v ps) k' =
  if bool_decide (units_of k' = js k) && truthy (default [] v) then given v else query_of ps k'.
Proof.
intros Hk. unfold query_of. rewrite param_get by done. by destruct (bool_decide _ && truthy _).
Qed.

(** A parameter that is not sent reads as an empty one. *)
Lemma given_sent v : (if truthy (default [] v) then given v else "") = given v.
Proof. by destruct v as [[|c s]|]. Qed.

Lemma query_number k n ps k' :
js k ≠ js "__proto__" →
query_of (number_param k n ps) k' =
  match n with Some z => if bool_decide (units_of k' = js k) then utf8 (js_of_Z z) else query_of ps k'
             | None => query_of ps k' end.
Proof.
intros Hk. destruct n as [z|]; [|done]. cbn [number_param]. unfold query_of.
rewrite map_get_obj_assign by done. by case_bool_decide.
Qed.

Lemma truthy_number k n ps :
truthy_number_param k n ps = number_param k (z ← n; if bool_decide (z = 0)%Z then None else Some z) ps.
Proof. destruct n as [z|]; [|done]. cbn. by case_bool_decide. Qed.

Lemma digit_value_unit c : is_digit c = true → digit_value (ascii_of_N c) = Some (Z.of_N c - 48)%Z.
Proof.
intros Hc%bool_decide_eq_true.
assert (Hd : c ∈ [48; 49; 50; 51; 52; 53; 54; 55; 56; 57]%N) by (rewrite !elem_of_cons; lia).
clear Hc. revert c Hd. apply Forall_forall. apply (bool_decide_unpack _). by vm_compute.
Qed.

Lemma digits_value_units acc s :
Forall (λ c, is_digit c = true) s →
digits_value (Z.of_N acc) (ascii_of_N <$> s) = Some (Z.of_N (foldl (λ a c, 10 * a + (c - 48)) acc s))%N.
Proof.
intros Hs. revert acc. induction Hs as [|c s Hc Hs IH]; intros acc; [done|].
cbn [fmap list_fmap ServerApi.digits_value]. rewrite digit_value_unit by done. cbn [mbind option_bind foldl].
rewrite <-IH. f_equal. apply bool_decide_eq_true in Hc. lia.
Qed.

Lemma numeral_value n : unsigned_value (String.list_ascii_of_string (utf8 (js_of_N n))) = Some (Z.of_N n).
Proof.
pose proof (js_of_N_digits n) as Hd. rewrite utf8_ascii.
2:{ eapply Forall_impl; [exact Hd|]. intros c Hc%bool_decide_eq_true. lia. }
destruct (numeral_head n) as (c & s & E & _). unfold unsigned_value.
pose proof (digits_value_units 0 _ Hd) as Hv. change (foldl _ 0%N ?s) with (JsObject.digits_value s) in Hv.
rewrite digits_value_numeral in Hv. rewrite <-Hv. by rewrite E.
Qed.

Lemma numeral_sign n : ∃ c s, String.list_ascii_of_string (utf8 (js_of_N n)) = c :: s ∧ c ≠ "-"%char ∧ c ≠ "+"%char.
Proof.
destruct (numeral_head n) as (c & s & E & Hc). pose proof (js_of_N_digits n) as Hd. rewrite utf8_ascii, E.
2:{ eapply Forall_impl; [exact Hd|]. intros d Hd'%bool_decide_eq_true. lia. }
exists (ascii_of_N c), (ascii_of_N <$> s). split; [done|]. apply bool_decide_eq_true in Hc.
split; intros Heq%(f_equal N_of_ascii); rewrite N_ascii_embedding in Heq by lia; vm_compute in Heq; lia.
Qed.

(** A number of the client is read back by the server. *)
Lemma number_text z : (0 ≤ z)%Z → js_of_Z z = js_of_N (Z.to_N z).
Proof. by destruct z. Qed.

Lemma ParseUint_number z : (0 ≤ z < 2 ^ 64)%Z → ParseUint (utf8 (js_of_Z z)) = Some z.
Proof.
intros Hz. rewrite number_text by lia. unfold ParseUint. rewrite numeral_value. cbn [mbind option_bind].
rewrite Z2N.id by lia. by rewrite bool_decide_eq_true_2 by lia.
Qed.

Lemma parse_number_given z : (0 ≤ z < 2 ^ 63)%Z → parseNonNegativeInt (utf8 (js_of_Z z)) = Some z.
Proof.
intros Hz. rewrite number_text by lia. unfold parseNonNegativeInt, Atoi.
destruct (numeral_sign (Z.to_N z)) as (c & s & E & Hm & Hp).
assert (Hv : (match String.list_ascii_of_string (utf8 (js_of_N (Z.to_N z))) with
  | "-"%char :: l => Z.opp <$> unsigned_value l | "+"%char :: l => unsigned_value l
  | l => unsigned_value l end) = Some z).
{ pose proof (numeral_value (Z.to_N z)) as Hn. rewrite Z2N.id in Hn by lia. rewrite E in Hn |- *. clear -Hn Hm Hp.
  destruct c as [[] [] [] [] [] [] [] []]; done. }
cbn zeta. rewrite Hv. cbn [mbind option_bind]. rewrite bool_decide_eq_true_2 by lia. cbn [mbind option_bind].
by rewrite bool_decide_eq_false_2 by lia.
Qed.

Lemma number_not_empty z : (0 ≤ z)%Z → utf8 (js_of_Z z) ≠ "".
Proof.
intros Hz. rewrite number_text by done. destruct (numeral_sign (Z.to_N z)) as (c & s & E & _).
intros Heq. by rewrite Heq in E.
Qed.

(** An absent number reads as zero. *)
Definition number_given (n : option Z) : string := match n with Some z => utf8 (js_of_Z z) | None => "" end.

Lemma uint_given n : (0 ≤ default 0 n < 2 ^ 64)%Z →
(if bool_decide (number_given n = "") then Some 0%Z else ParseUint (number_given n)) = Some (default 0%Z n).
Proof.
destruct n as [z|]; [|done]. cbn. intros Hz. rewrite bool_decide_eq_false_2 by (apply number_not_empty; lia).
by apply ParseUint_number.
Qed.

Lemma int_given n : (0 ≤ default 0 n < 2 ^ 63)%Z →
(if bool_decide (number_given n = "") then Some 0%Z else parseNonNegativeInt (number_given n)) = Some (default 0%Z n).
Proof.
destruct n as [z|]; [|done]. cbn. intros Hz. rewrite bool_decide_eq_false_2 by (apply number_not_empty; lia).
by apply parse_number_given.
Qed.

(** ** Bodies *)

(** A body the server's decoder follows: code units, not nested too deep. *)
Definition sendable (v : json) : Prop :=
json_units v ∧ (N.of_nat (nesting (shape_of (JS := go_shape) v)) ≤ maxNestingDepth)%N.

Context `{!JsNumberLaws _}.

Lemma read_body {A} (zero : A) (dec : decoder A) v :
sendable v → readJSON zero dec (utf8 (stringify v)) = dec (shape_of (JS := go_shape) v) zero.
Proof.
intros [Hu Hn]. unfold readJSON, decode_text. rewrite read_stringify by done. cbn [mbind option_bind].
by rewrite bool_decide_eq_true_2.
Qed.

(** Decoding with every value of the request kept folded. *)
Ltac decode := lazy -[utf8 into_any mapR put_members].

Lemma decode_tuple t :
into_struct tuple_fields (shape_of (JS := go_shape) (tuple_json t)) no_tuple_request = tuple_meant t.
Proof.
destruct t as [ot oi r st si [sr|] [a|]]; by decode.
Qed.

Lemma mapR_fmap {A B C} (f : B → res C) (g : A → B) l : mapR f (g <$> l) = mapR (λ x, f (g x)) l.
Proof. induction l as [|x l IH]; [done|]. cbn [fmap list_fmap mapR]. by rewrite IH. Qed.

Lemma mapR_ext {A B} (f g : A → res B) l : (∀ x, f x = g x) → mapR f l = mapR g l.
Proof. intros Hfg. induction l as [|x l IH]; [done|]. cbn [mapR]. by rewrite Hfg, IH. Qed.

Lemma into_struct_one {A} (fs : list (field A)) k v old dec :
find_field fs k = Some dec → into_struct fs (GObject [(k, v)]) old = dec v old.
Proof. intros Hf. cbn. by rewrite Hf. Qed.

Lemma decode_batch l :
into_struct batch_fields (shape_of (JS := go_shape) (fields [(js "tuples", Some (JArray (tuple_json <$> l)))])) [] =
mapR tuple_meant l.
Proof.
change (shape_of (fields [(js "tuples", Some (JArray (tuple_json <$> l)))])) with
  (GObject [(js "tuples", GArray (shape_of (JS := go_shape) <$> (tuple_json <$> l)))]).
erewrite into_struct_one by reflexivity. cbn.
rewrite !mapR_fmap, (mapR_ext _ _ _ decode_tuple). by destruct (mapR tuple_meant l).
Qed.

Lemma decode_attributes a :
into_struct attributes_fields (shape_of (JS := go_shape) (fields [(js "attributes", Some (JObject a))])) None =
attributes_meant (Some a).
Proof. decode. by destruct (mapR _ _). Qed.

Lemma decode_check req :
into_struct evaluation_fields (shape_of (JS := go_shape) (check_body req)) (MkEvaluation no_subject no_item) =
Ok (MkEvaluation (MkAuthZenSubject (utf8 (ck_subject_type req)) (utf8 (ck_subject_id req)))
      (MkAuthZenItem (MkAuthZenSubject (utf8 (ck_resource_type req)) (utf8 (ck_resource_id req)))
         (utf8 (ck_action req)) None)).
Proof. by decode. Qed.

Lemma decode_expand ot oi r :
into_struct expand_fields (shape_of (JS := go_shape)
  (fields [str_field "object_type" ot; str_field "object_id" oi; str_field "relation" r])) (MkExpandRequest "" "" "") =
Ok (MkExpandRequest (utf8 ot) (utf8 oi) (utf8 r)).
Proof. by decode. Qed.

(** ** Calls *)

Definition call_body (c : api_call) : Prop :=
match ApiClient.body (sent c) with JsonBody v => sendable v | _ => True end.

(** The tenant of the header, which is no part of a path. *)
Definition header_ok (c : api_call) : Prop :=
match c with CallCheck t _ => plain_segment t | _ => True end.

Ltac queries :=
rewrite ?truthy_number, ?query_number, ?query_param by decide_literal;
repeat match goal with |- context [bool_decide (units_of ?a = js ?b)] =>
  let d := eval vm_compute in (bool_decide (units_of a = js b)) in
  replace (bool_decide (units_of a = js b)) with d by (by vm_compute) end;
cbn [andb]; rewrite ?given_sent.

Lemma changelog_meant t since limit :
let q := query_of (searchParams (readChangelog t since limit)) in
(0 ≤ default 0 since < 2 ^ 64 → 0 ≤ default 0 limit < 2 ^ 63 →
 changelog_query q = Some (default 0 since, if 0 <? default 0 limit then default 0 limit else 100))%Z.
Proof.
intros q Hs Hl. unfold changelog_query.
assert (q "since_seq" = number_given since) as -> by (unfold q; cbn [readChangelog get searchParams]; queries; by destruct limit, since).
assert (q "limit" = number_given limit) as -> by (unfold q; cbn [readChangelog get searchParams]; queries; by destruct limit, since).
rewrite uint_given by done. cbn [mbind option_bind]. by rewrite int_given.
Qed.

Lemma tenants_meant status parent limit offset :
let q := query_of (searchParams (listTenants status parent limit offset)) in
(0 ≤ default 0 limit < 2 ^ 63 → 0 ≤ default 0 offset < 2 ^ 63 →
 tenant_query q = Some (MkTenantFilter (given status) (given parent) (default 0 limit) (default 0 offset)))%Z.
Proof.
intros q Hl Ho. unfold tenant_query.
set (nonzero n := z ← n; if bool_decide (z = 0)%Z then None else Some z : option Z).
assert (Hn : ∀ n, (0 ≤ default 0 n < 2 ^ 63)%Z → default 0%Z (nonzero n) = default 0%Z n).
{ intros [z|] Hz; [|done]. cbn. by case_bool_decide; subst. }
assert (q "limit" = number_given (nonzero limit) ∧ q "offset" = number_given (nonzero offset) ∧
  q "status" = given status ∧ q "parent_id" = given parent) as (-> & -> & -> & ->).
{ unfold q; cbn [listTenants get searchParams]. split_and!; queries; fold (nonzero limit) (nonzero offset);
    by destruct (nonzero limit), (nonzero offset). }
rewrite int_given by by rewrite Hn. cbn [mbind option_bind]. rewrite int_given by by rewrite Hn. cbn [mbind option_bind].
by rewrite !Hn.
Qed.

Lemma filter_meant t f :
let q := query_of (searchParams (readTuples t f)) in let f := default no_filter f in
q "include_expired" = "" ∧
tuple_filter q false =
  MkTupleFilter (given (f_object_type f)) (given (f_object_id f)) (given (f_relation f))
    (given (f_subject_type f)) (given (f_subject_id f)) (given (f_subject_relation f)) false.
Proof.
intros q g. unfold tuple_filter, q. cbn [readTuples get searchParams]. fold g. unfold filter_params.
split; [by queries|]. by queries.
Qed.
(** The mux gives the handler that is meant and its values. *)
Lemma receive_sent c :
Forall plain_segment (meant c).2 → dispatch (method (sent c)) (SLASH :: url (sent c)) = Some (meant c).
Proof. apply console_calls_served. Qed.

(** The one parameter of the attribute lists. *)
Lemma type_meant t ty :
query_of (searchParams (listObjectAttributes t ty)) "type" = given ty ∧
query_of (searchParams (listSubjectAttributes t ty)) "type" = given ty.
Proof. split; cbn [listObjectAttributes listSubjectAttributes get searchParams]; by queries. Qed.

Lemma tuple_body_meant t tu : sendable (tuple_json tu) → read_tuple (body_bytes (ApiClient.body (writeTuple t tu))) = tuple_meant tu.
Proof. intros Hs. unfold read_tuple. cbn [body_bytes ApiClient.body writeTuple]. by rewrite read_body, decode_tuple. Qed.

Lemma attributes_body_meant a : sendable (fields [(js "attributes", Some (JObject a))]) →
read_attributes (body_bytes (attributes_body a)) = attributes_meant (Some a).
Proof. intros Hs. unfold read_attributes. cbn [body_bytes attributes_body]. by rewrite read_body, decode_attributes. Qed.

Lemma call_received c :
Forall plain_segment (meant c).2 → header_ok c → call_body c →
∃ r, receive (sent c) = Some r ∧ asks c r.
Proof.
intros Hp Hh Hb. pose proof (receive_sent c Hp) as Hd. unfold receive. rewrite Hd. clear Hd Hp Hh.
destruct c as [t ty|t ty|t ty id|t ty id a|t ty id|t ty id a|t since limit|t req|t req|t|t yaml|
  status parent limit offset|t|t f|t tu|t b|t tu];
  cbn [meant mbind option_bind fmap list_fmap]; (eexists; split; [reflexivity|]); cbn [asks sent] in *;
  repeat (split; [done|]); try done.
- apply type_meant.
- apply type_meant.
- by apply attributes_body_meant.
- by apply attributes_body_meant.
- apply changelog_meant.
- unfold read_evaluation. cbn [body_bytes ApiClient.body checkPermission]. rewrite read_body by done. apply decode_check.
- unfold read_expand. cbn [body_bytes ApiClient.body expandRelation]. rewrite read_body by done. apply decode_expand.
- apply tenants_meant.
- apply filter_meant.
- by apply tuple_body_meant.
- unfold read_batch. cbn [body_bytes ApiClient.body writeTuplesBatch]. rewrite read_body by done. apply decode_batch.
- by apply (tuple_body_meant t).
Qed.

End Wire.

(** ** The properties on the demo *)

#[export] Instance demo_any : GoAny := {|
  any_nil := false; any_of_bool b := b; any_of_float _ := Some true; any_of_string _ := true;
  any_of_slice _ := true; any_of_map _ := true |}.

(** "ann" with an accent, and an emoji. *)
Definition ann : jstring := [228; 110; 110; 55357; 56832]%N.

Definition demo_call : api_call (H := integers) :=
  CallWriteTuple (js "acme") (ApiTypes.MkTupleRequest (js "folder") (js "a") (js "viewer") (js "user") ann
    None (Some [(js "level", JNumber (H := integers) 3%Z)])).


(** Member names match in any case, and a member of no field is refused. *)
Example folded_names :
  read_expand (utf8 (stringify (fields (H := integers) [str_field "OBJECT_type" (js "doc"); str_field "Object_Id" (js "d")]))) =
  Ok (MkExpandRequest "doc" "d" "").
Proof. by vm_compute. Qed.

Example unknown_member :
  read_expand (utf8 (stringify (fields (H := integers) [str_field "object" (js "doc")]))) = Err (Errorf "unknown field").
Proof. by vm_compute. Qed.
