(* ===== verification/ReplyWire.v ===== *)
(** * What the console reads in a reply

    Every function of the client returns [response.json()] as a type of
    [console/src/lib/api/types.ts]: the text is parsed and the pages look up the
    properties the type declares.  A reader here looks those up, for the type a function
    returns, and the theorem says that they are there with what the server replied: the
    names of the Go structs and of the TypeScript interfaces agree, optional fields are
    absent exactly when they are empty, and null stands for an empty list. *)

From stdpp Require Import sorting.
From S2P Require Import Prelude JsString JsObject Json JsonIntegers ApiTypes ApiClient ServerRoutes Utf8.
From S2P Require Import GoLib ServerModel ServerSchema ServerEngine EngineTermination Changelog ServerStore ServerTenants ServerApi GoJson ServerDemo ApiFacts ApiDemo ServerReply ReplyText ServerWire.

Open Scope nat_scope.
Open Scope list_scope.

(** The integer a number is, as far as doubles are exact. *)
Class JsExact `{!JsNumber} := {
  number_value : number → option Z;
  number_value_exact z : (Z.abs z ≤ 2 ^ 53)%Z → number_value (read_number (js_of_Z z)) = Some z }.

#[export] Instance integers_exact : JsExact (H := integers).
Proof. refine {| number_value := Some : number (JsNumber := integers) → _ |}. intros z _. f_equal. by apply (read_print_number (H := integers)). Defined.

Section Readers.
Context `{!JsNumber, !JsNumberLaws _, !JsExact}.

(** ** Reading *)

(** Looking up properties of an object. *)
Definition getter : Type := string → option json.

Definition with_props {A} (read : getter → option A) (v : json) : option A :=
o ← as_object v; read (λ k, map_get o (js k)).

Definition as_bool (v : json) : option bool := match v with JBool b => Some b | _ => None end.
Definition as_Z (v : json) : option Z := match v with JNumber n => number_value n | _ => None end.
Definition as_list {A} (read : json → option A) (v : json) : option (list A) :=
match v with JArray l => mapM read l | _ => None end.

(** A value or null. *)
Definition nullable {A} (read : json → option A) (v : json) : option (option A) :=
match v with JNull => Some None | _ => Some <$> read v end.

Definition as_status (v : json) : option ApiTypes.TenantStatus :=
s ← as_string v; List.find (λ st, bool_decide (s = ApiTypes.status_text st)) [pending; active; suspended; deleted].

Definition as_mode (v : json) : option ApiTypes.SchemaMode :=
s ← as_string v;
if bool_decide (s = js "own") then Some own else if bool_decide (s = js "shared") then Some shared
else if bool_decide (s = js "inherited") then Some inherited else None.

Definition as_op (v : json) : option ApiTypes.ChangeOp :=
s ← as_string v; List.find (λ o, bool_decide (s = op_text o)) [INSERT; DELETE; UPDATE].

Definition as_RelationTuple : json → option ApiTypes.RelationTuple := with_props (λ get,
tid ← get "tenant_id" ≫= as_string; ot ← get "object_type" ≫= as_string; oi ← get "object_id" ≫= as_string;
r ← get "relation" ≫= as_string; st ← get "subject_type" ≫= as_string; si ← get "subject_id" ≫= as_string;
sr ← optional as_string (get "subject_relation"); stid ← optional as_string (get "subject_tenant_id");
a ← optional as_object (get "attributes");
c ← get "created_at" ≫= as_string; u ← get "updated_at" ≫= as_string;
src ← optional as_string (get "source_system"); ext ← optional as_string (get "external_id");
Some (ApiTypes.MkRelationTuple tid ot oi r st si sr stid a c u src ext)).

Definition as_TenantConfig : json → option ApiTypes.TenantConfig := with_props (λ get,
mt ← get "max_tuples" ≫= as_Z; mr ← get "max_requests_per_sec" ≫= as_Z;
ttl ← optional (nullable as_Z) (get "cache_ttl_override");
types ← optional (as_list as_string) (get "allowed_object_types");
rd ← get "retention_days" ≫= as_Z; se ← get "sync_enabled" ≫= as_bool;
wu ← optional as_string (get "webhook_url"); m ← optional as_object (get "metadata");
Some (ApiTypes.MkTenantConfig mt mr ttl types rd se wu m)).

Definition as_Tenant : json → option ApiTypes.Tenant := with_props (λ get,
i ← get "id" ≫= as_string; n ← get "display_name" ≫= as_string; p ← optional as_string (get "parent_tenant_id");
st ← get "status" ≫= as_status; m ← get "schema_mode" ≫= as_mode; r ← optional as_string (get "shared_schema_ref");
c ← get "config" ≫= as_TenantConfig; ca ← get "created_at" ≫= as_string; ua ← get "updated_at" ≫= as_string;
Some (ApiTypes.MkTenant i n p st m r c ca ua)).

Definition as_ChangelogEntry : json → option ApiTypes.ChangelogEntry := with_props (λ get,
n ← get "seq" ≫= as_Z; tid ← get "tenant_id" ≫= as_string; o ← get "op" ≫= as_op;
t ← get "tuple" ≫= as_RelationTuple; w ← get "ts" ≫= as_string; a ← get "actor" ≫= as_string;
s ← get "source" ≫= as_string; m ← optional as_object (get "meta");
Some (ApiTypes.MkChangelogEntry n tid o (Some t) w a s m)).

Definition as_SchemaResponse : json → option ApiTypes.SchemaResponse := with_props (λ get,
tid ← get "tenant_id" ≫= as_string; h ← get "hash" ≫= as_string; v ← get "version" ≫= as_string;
s ← get "source" ≫= as_string; c ← get "compiled_at" ≫= as_string;
Some (ApiTypes.MkSchemaResponse tid h v s c)).

Definition as_SubjectRef : json → option ApiTypes.SubjectRef := with_props (λ get,
t ← get "Type" ≫= as_string; i ← get "ID" ≫= as_string; r ← optional as_string (get "Relation");
Some (ApiTypes.MkSubjectRef t i r)).

Fixpoint as_SubjectTree (v : json) : option ApiTypes.SubjectTree :=
match v with
| JObject o =>
    s ← map_get o (js "Subject") ≫= as_SubjectRef;
    c ← (fix children o := match o with
         | [] => None
         | (k, w) :: o =>
             if bool_decide (js "Children" = k) then
               match w with
               | JNull => Some None
               | JArray l =>
                   Some <$> (fix go l := match l with
                     | [] => Some []
                     | x :: l => t ← as_SubjectTree x; k ← go l; Some (t :: k) end) l
               | _ => None
               end
             else children o
         end) o;
    Some (ApiTypes.MkSubjectTree s c)
| _ => None
end.

(** [data?.attributes ?? {}]: null attributes are none. *)
Definition as_attributes (v : json) : option (jobject json) := default [] <$> nullable as_object v.

Definition as_ObjectAttributesItem : json → option ObjectAttributesItem := with_props (λ get,
tid ← get "tenant_id" ≫= as_string; t ← get "object_type" ≫= as_string; i ← get "object_id" ≫= as_string;
a ← get "attributes" ≫= as_attributes; u ← get "updated_at" ≫= as_string;
Some (MkObjectAttributesItem tid t i a u)).

Definition as_SubjectAttributesItem : json → option SubjectAttributesItem := with_props (λ get,
tid ← get "tenant_id" ≫= as_string; t ← get "subject_type" ≫= as_string; i ← get "subject_id" ≫= as_string;
a ← get "attributes" ≫= as_attributes; u ← get "updated_at" ≫= as_string;
Some (MkSubjectAttributesItem tid t i a u)).

(** What a function of the client returns. *)
Inductive returned :=
| RTenants (r : ListTenantsResponse)
| RTenant (t : ApiTypes.Tenant)
| RSchema (s : ApiTypes.SchemaResponse)
| RTuples (r : TuplesResponse)
| RBatch (status : jstring) (count : Z)
| RAttributes (r : AttributesResponse)
| RObjects (r : ListObjectAttributesResponse)
| RSubjects (r : ListSubjectAttributesResponse)
| RChangelog (r : ChangelogResponse)
| RTree (t : ApiTypes.SubjectTree)
| RDecision (r : CheckResponse)
| RVoid.

Definition read_return (c : api_call) (v : option json) : option returned :=
match c with
| CallWriteTuple _ _ | CallDeleteTuple _ _ => Some RVoid
| CallListTenants _ _ _ _ => v ≫= with_props (λ get,
    l ← get "tenants" ≫= as_list as_Tenant; n ← get "count" ≫= as_Z; Some (RTenants (MkListTenantsResponse l n)))
| CallGetTenant _ => RTenant <$> (v ≫= as_Tenant)
| CallGetSchema _ | CallLoadSchema _ _ => RSchema <$> (v ≫= as_SchemaResponse)
| CallReadTuples _ _ => v ≫= with_props (λ get,
    l ← get "tuples" ≫= nullable (as_list as_RelationTuple); n ← get "count" ≫= as_Z;
    Some (RTuples (MkTuplesResponse l n)))
| CallWriteBatch _ _ => v ≫= with_props (λ get,
    s ← get "status" ≫= as_string; n ← get "count" ≫= as_Z; Some (RBatch s n))
| CallGetObject _ _ _ | CallGetSubject _ _ _ | CallSetObject _ _ _ _ | CallSetSubject _ _ _ _ =>
    v ≫= with_props (λ get, a ← get "attributes" ≫= as_attributes; Some (RAttributes (MkAttributesResponse a)))
| CallListObjects _ _ => v ≫= with_props (λ get,
    l ← get "objects" ≫= nullable (as_list as_ObjectAttributesItem); n ← get "count" ≫= as_Z;
    Some (RObjects (MkListObjectAttributesResponse l n)))
| CallListSubjects _ _ => v ≫= with_props (λ get,
    l ← get "subjects" ≫= nullable (as_list as_SubjectAttributesItem); n ← get "count" ≫= as_Z;
    Some (RSubjects (MkListSubjectAttributesResponse l n)))
| CallChangelog _ _ _ => v ≫= with_props (λ get,
    l ← get "entries" ≫= nullable (as_list as_ChangelogEntry); n ← get "count" ≫= as_Z;
    s ← get "latest_sequence" ≫= as_Z; Some (RChangelog (MkChangelogResponse l n s)))
| CallExpand _ _ => RTree <$> (v ≫= as_SubjectTree)
| CallCheck _ _ => v ≫= with_props (λ get, d ← get "decision" ≫= as_bool; Some (RDecision (MkCheckResponse d)))
end.
End Readers.

(** ** What was replied, in the console's terms *)

Section Shown.
Context `{!JsNumber, !JsNumberLaws _, !JsExact} {EL : ExprLang} {DC : Decoders} {TT : TimeText} {AO : AnyOut}.

(** The value [JSON.parse] makes of what the server writes. *)
Definition js_value (o : gout) : json := doc_value (JS := json_shape) (out_doc o).

Definition shown_text (s : string) : option jstring := if bool_decide (s = "") then None else Some (units_of s).
Definition shown_time (t : Z) : jstring := units_of (rfc3339_nano t).

Definition js_members (m : gmap string any) : jobject json :=
obj_of ((λ e, (units_of e.1, js_value e.2)) <$> members_out m).

Definition shown_map (m : gomap any) : option (jobject json) :=
match m with None => None | Some m => if bool_decide (m = ∅) then None else Some (js_members m) end.

Definition shown_attributes (m : gomap any) : jobject json := default [] (js_members <$> m).

Definition shown_slice {A B} (f : A → B) (l : list A) : option (list B) :=
match l with [] => None | _ => Some (f <$> l) end.

Definition shown_tuple (t : ServerModel.RelationTuple) : ApiTypes.RelationTuple :=
ApiTypes.MkRelationTuple (units_of (rt_TenantID t)) (units_of (ObjectType t)) (units_of (ObjectID t))
  (units_of (Relation t)) (units_of (SubjectType t)) (units_of (SubjectID t)) (shown_text (SubjectRelation t))
  (shown_text (SubjectTenantID t)) (shown_map (rt_Attributes t)) (shown_time (rt_CreatedAt t))
  (shown_time (rt_UpdatedAt t)) (shown_text (SourceSystem t)) (shown_text (ExternalID t)).

Definition shown_config (c : ServerModel.TenantConfig) : ApiTypes.TenantConfig :=
ApiTypes.MkTenantConfig (MaxTuples c) (MaxRequestsPerSec c) (Some <$> CacheTTLOverride c)
  (shown_slice units_of (AllowedObjectTypes c)) (RetentionDays c) (SyncEnabled c) (shown_text (WebhookURL c))
  (shown_map (cfg_Metadata c)).

Definition shown_status (s : ServerModel.TenantStatus) : ApiTypes.TenantStatus :=
match s with TenantPending => pending | TenantActive => active | TenantSuspended => suspended | TenantDeleted => deleted end.

Definition shown_mode (m : ServerModel.SchemaMode) : ApiTypes.SchemaMode :=
match m with SchemaOwn => own | SchemaShared => shared | SchemaInherited => inherited end.

Definition shown_op (o : ServerModel.ChangeOp) : ApiTypes.ChangeOp :=
match o with ChangeOpInsert => INSERT | ChangeOpDelete => DELETE | ChangeOpUpdate => UPDATE end.

Definition shown_tenant (t : ServerModel.Tenant) : ApiTypes.Tenant :=
ApiTypes.MkTenant (units_of (ID t)) (units_of (DisplayName t)) (shown_text (ParentTenantID t)) (shown_status (Status t))
  (shown_mode (tenant_SchemaMode t)) (shown_text (SharedSchemaRef t)) (shown_config (Config t))
  (shown_time (t_CreatedAt t)) (shown_time (t_UpdatedAt t)).

Definition shown_entry (e : ServerModel.ChangelogEntry) : ApiTypes.ChangelogEntry :=
ApiTypes.MkChangelogEntry (Sequence e) (units_of (ce_TenantID e)) (shown_op (ce_Operation e)) (Some (shown_tuple (Tuple e)))
  (shown_time (Timestamp e)) (units_of (Actor e)) (units_of (Source e)) (shown_map (Metadata e)).

Definition shown_schema (s : ServerApi.SchemaResponse) : ApiTypes.SchemaResponse :=
ApiTypes.MkSchemaResponse (units_of (sr_TenantID s)) (units_of (ServerApi.sr_Hash s)) (units_of (sr_Version s))
  (units_of (sr_Source s)) (units_of (schema_time (sr_CompiledAt s))).

(** The relation is always there, empty for a plain subject. *)
Definition shown_ref (r : ServerModel.SubjectRef) : ApiTypes.SubjectRef :=
ApiTypes.MkSubjectRef (units_of (ServerModel.sub_Type r)) (units_of (ServerModel.sub_ID r))
  (Some (units_of (ServerModel.sub_Relation r))).

Fixpoint shown_tree (t : ServerModel.SubjectTree) : ApiTypes.SubjectTree :=
match t with
| ServerModel.MkSubjectTree s l => ApiTypes.MkSubjectTree (shown_ref s) (match l with [] => None | _ => Some (shown_tree <$> l) end)
end.

Definition shown_object (i : AttributesItem) : ObjectAttributesItem :=
MkObjectAttributesItem (units_of (item_TenantID i)) (units_of (item_Type i)) (units_of (item_ID i))
  (shown_attributes (item_Attributes i)) (shown_time 0).

Definition shown_subject (i : AttributesItem) : SubjectAttributesItem :=
MkSubjectAttributesItem (units_of (item_TenantID i)) (units_of (item_Type i)) (units_of (item_ID i))
  (shown_attributes (item_Attributes i)) (shown_time 0).

(** What a call gets for a reply. *)
Definition meant_return (c : api_call) (p : payload) : option returned :=
match c, p with
| CallWriteTuple _ _, PStatusOk None | CallDeleteTuple _ _, PNoContent => Some RVoid
| CallListTenants _ _ _ _, PTenants l n => Some (RTenants (MkListTenantsResponse (shown_tenant <$> l) n))
| CallGetTenant _, PTenant (Some t) => Some (RTenant (shown_tenant t))
| CallGetSchema _, PSchema s | CallLoadSchema _ _, PSchema s => Some (RSchema (shown_schema s))
| CallReadTuples _ _, PTuples l n => Some (RTuples (MkTuplesResponse (shown_slice shown_tuple l) n))
| CallWriteBatch _ _, PStatusOk (Some n) => Some (RBatch (js "ok") n)
| CallGetObject _ _ _, PAttributes m | CallGetSubject _ _ _, PAttributes m
| CallSetObject _ _ _ _, PAttributes m | CallSetSubject _ _ _ _, PAttributes m =>
    Some (RAttributes (MkAttributesResponse (shown_attributes m)))
| CallListObjects _ _, PItems l n => Some (RObjects (MkListObjectAttributesResponse (shown_slice shown_object l) n))
| CallListSubjects _ _, PItems l n => Some (RSubjects (MkListSubjectAttributesResponse (shown_slice shown_subject l) n))
| CallChangelog _ _ _, PChangelog l n s => Some (RChangelog (MkChangelogResponse (shown_slice shown_entry l) n s))
| CallExpand _ _, PTree t => Some (RTree (shown_tree t))
| CallCheck _ _, PDecision d => Some (RDecision (MkCheckResponse d))
| _, _ => None
end.

(** The integers of a reply are exact doubles. *)
Definition exact (z : Z) : Prop := (Z.abs z ≤ 2 ^ 53)%Z.

Definition exact_config (c : ServerModel.TenantConfig) : Prop :=
exact (MaxTuples c) ∧ exact (MaxRequestsPerSec c) ∧ exact (default 0%Z (CacheTTLOverride c)) ∧ exact (RetentionDays c).

Definition exact_reply (p : payload) : Prop :=
match p with
| PStatusOk n => exact (default 0%Z n)
| PTenant t => from_option (λ t, exact_config (Config t)) True t
| PTenants l n => Forall (λ t, exact_config (Config t)) l ∧ exact n
| PTuples _ n => exact n
| PItems _ n => exact n
| PChangelog l n s => Forall (λ e, exact (Sequence e)) l ∧ exact n ∧ exact s
| _ => True
end.

(** ** Properties of a struct *)

Fixpoint assoc {A} (l : list (string * option A)) (k : string) : option A :=
match l with
| [] => None
| e :: l => if String.eqb k e.1 then e.2 else assoc l k
end.

(** Names that are no array indices, each once. *)
Definition names_ok (ks : list string) : bool :=
bool_decide (NoDup ks) && forallb (λ k, bool_decide (units_of k = js k) && bool_decide (array_index (js k) = None)) ks.

Lemma js_inj k k' : js k = js k' → k = k'.
Proof.
unfold js. intros Heq. rewrite <-(String.string_of_list_ascii_of_string k), <-(String.string_of_list_ascii_of_string k').
f_equal. revert Heq. apply list_fmap_eq_inj. intros a b Hab.
by rewrite <-(Ascii.ascii_N_embedding a), Hab, Ascii.ascii_N_embedding.
Qed.

(** The members of a struct as properties. *)
Definition members (l : list (string * option gout)) : jobject json := omap (λ e, (λ v, (js e.1, js_value v)) <$> e.2) l.

Lemma names_ok_spec ks : names_ok ks = true →
NoDup ks ∧ ∀ k, k ∈ ks → units_of k = js k ∧ array_index (js k) = None.
Proof.
intros [Hnd%bool_decide_eq_true Hall]%andb_true_iff. split; [done|]. intros k Hk.
pose proof (proj1 (forallb_forall _ _) Hall k (proj1 (list_elem_of_In _ _) Hk)) as Hb.
apply andb_true_iff in Hb as [H1%bool_decide_eq_true H2%bool_decide_eq_true]. done.
Qed.

Lemma members_keys l k : k ∈ map_keys (members l) → ∃ n, n ∈ l.*1 ∧ k = js n.
Proof.
intros Hk. apply list_elem_of_fmap in Hk as ([k' v] & -> & Hin).
apply list_elem_of_omap in Hin as ([n o] & He & Hv). cbn in Hv. destruct o as [w|]; [|done]. injection Hv as <- _.
exists n. split; [|done]. by apply (list_elem_of_fmap_2 fst) in He.
Qed.

Lemma members_wf l : names_ok (l.*1) = true → obj_wf (members l).
Proof.
intros [Hnd Hok]%names_ok_spec. unfold obj_wf. induction l as [|[n o] l IH]; [constructor|].
cbn [fmap list_fmap] in Hnd, Hok. apply NoDup_cons in Hnd as [Hn Hnd].
assert (IH' : StronglySorted key_before (members l).*1) by (apply IH; [done|]; intros k Hk; apply Hok; by right).
destruct o as [w|]; [|exact IH']. cbn. constructor; [exact IH'|]. apply Forall_forall. intros k Hk.
destruct (members_keys l k Hk) as (n' & Hn' & ->). unfold key_before.
rewrite (proj2 (Hok n (list_elem_of_here _ _))), (proj2 (Hok n' (list_elem_of_further _ _ _ Hn'))).
by intros ->%js_inj.
Qed.

Lemma struct_value l : names_ok (l.*1) = true → js_value (struct_out l) = JObject (members l).
Proof.
intros Hok. unfold js_value, struct_out. cbn [out_doc doc_value json_shape shape_object]. f_equal.
rewrite <-(obj_of_wf (members l)) by by apply members_wf. f_equal. rewrite <-list_fmap_compose.
apply names_ok_spec in Hok as [_ Hok]. induction l as [|[n o] l IH]; [done|].
assert (IH' := IH (λ k Hk, Hok k (list_elem_of_further _ _ _ Hk))).
destruct o as [w|]; [|exact IH']. cbn -[units_of]. f_equal; [|exact IH'].
by rewrite (proj1 (Hok n (list_elem_of_here _ _))).
Qed.

Lemma struct_get l k : names_ok (l.*1) = true → map_get (members l) (js k) = js_value <$> assoc l k.
Proof.
intros [Hnd _]%names_ok_spec. induction l as [|[n o] l IH]; [done|].
apply NoDup_cons in Hnd as [Hn Hnd]. cbn [assoc fst snd]. destruct (String.eqb_spec k n) as [->|Hne].
- destruct o as [w|]; cbn; [by rewrite bool_decide_eq_true_2|]. apply map_get_None.
  intros (n' & Hn' & Heq%js_inj)%members_keys. by subst.
- rewrite <-IH by done. destruct o as [w|]; [|done]. cbn. rewrite bool_decide_eq_false_2; [done|]. by intros ?%js_inj.
Qed.

Lemma with_struct {A} (read : getter → option A) l :
names_ok (l.*1) = true → with_props read (js_value (struct_out l)) = read (λ k, map_get (members l) (js k)).
Proof. intros Hok. unfold with_props. by rewrite struct_value. Qed.

(** ** The types read back *)

Local Arguments units_of : simpl never.
Local Arguments js_value : simpl never.
Local Arguments struct_out : simpl never.

Lemma value_text s : as_string (js_value (OString s)) = Some (units_of s).
Proof. done. Qed.

Lemma value_int z : exact z → as_Z (js_value (OInt z)) = Some z.
Proof. apply number_value_exact. Qed.

Lemma optional_text s :
optional as_string (js_value <$> (if bool_decide (s = "") then None else Some (OString s))) = Some (shown_text s).
Proof. unfold shown_text. by case_bool_decide. Qed.

Lemma value_members m : as_object (js_value (OObject (members_out m))) = Some (js_members m).
Proof. unfold js_value. cbn. unfold js_members. by rewrite <-list_fmap_compose. Qed.

Lemma optional_map (m : gomap any) :
optional as_object (js_value <$> match m with None => None
  | Some m => if bool_decide (m = ∅) then None else Some (OObject (members_out m)) end) = Some (shown_map m).
Proof.
destruct m as [m|]; [|done]. cbn [shown_map]. case_bool_decide; [done|]. cbn [fmap option_fmap option_map optional].
by rewrite value_members.
Qed.

Lemma value_attributes (m : gomap any) : as_attributes (js_value (map_out m)) = Some (shown_attributes m).
Proof.
destruct m as [m|]; [|done]. cbn [map_out]. unfold as_attributes.
transitivity (default [] <$> (Some <$> as_object (js_value (OObject (members_out m))))); [done|].
by rewrite value_members.
Qed.

(** A struct read property by property. *)
Ltac read_props :=
  rewrite with_struct by (by vm_compute); cbv beta; rewrite !struct_get by (by vm_compute);
  cbn [assoc text int time text_omitempty map_omitempty fst snd String.eqb Ascii.eqb Bool.eqb];
  rewrite ?optional_text, ?optional_map;
  cbn [fmap option_fmap option_map mbind option_bind];
  rewrite ?value_text; cbn [mbind option_bind].

Lemma value_tuple t : as_RelationTuple (js_value (tuple_out t)) = Some (shown_tuple t).
Proof. unfold as_RelationTuple, tuple_out. read_props. done. Qed.

Lemma value_schema s : as_SchemaResponse (js_value (schema_out s)) = Some (shown_schema s).
Proof. unfold as_SchemaResponse, schema_out. read_props. done. Qed.

Lemma value_ref r : as_SubjectRef (js_value (ref_out r)) = Some (shown_ref r).
Proof. unfold as_SubjectRef, ref_out. read_props. done. Qed.

Lemma value_object i : as_ObjectAttributesItem (js_value (item_out "object_type" "object_id" i)) = Some (shown_object i).
Proof. unfold as_ObjectAttributesItem, item_out. read_props. by rewrite value_attributes. Qed.

Lemma value_subject i : as_SubjectAttributesItem (js_value (item_out "subject_type" "subject_id" i)) = Some (shown_subject i).
Proof. unfold as_SubjectAttributesItem, item_out. read_props. by rewrite value_attributes. Qed.

Lemma value_status st : as_status (js_value (OString (ServerModel.status_text st))) = Some (shown_status st).
Proof. by destruct st; vm_compute. Qed.

Lemma value_mode m : as_mode (js_value (OString (mode_text m))) = Some (shown_mode m).
Proof. by destruct m; vm_compute. Qed.

Lemma value_op o : as_op (js_value (OString (op_out o))) = Some (shown_op o).
Proof. by destruct o; vm_compute. Qed.

Lemma value_list {A B} (read : json → option B) (out : A → gout) (f : A → B) l :
Forall (λ a, read (js_value (out a)) = Some (f a)) l → as_list read (js_value (OArray (out <$> l))) = Some (f <$> l).
Proof.
intros Hl. unfold js_value. cbn [out_doc doc_value json_shape shape_array as_list].
apply mapM_Some_2. rewrite !Forall2_fmap_l, Forall2_fmap_r. by apply Forall_Forall2_diag.
Qed.

Lemma value_slice {A B} (read : json → option B) (out : A → gout) (f : A → B) l :
Forall (λ a, read (js_value (out a)) = Some (f a)) l →
nullable (as_list read) (js_value (slice_out out l)) = Some (shown_slice f l).
Proof.
intros Hl. destruct l as [|a l]; [done|].
transitivity (Some <$> as_list read (js_value (OArray (out <$> a :: l)))); [done|]. by rewrite (value_list _ _ f).
Qed.

Lemma value_all {A B} (read : json → option B) (out : A → gout) (f : A → B) l :
(∀ a, read (js_value (out a)) = Some (f a)) → Forall (λ a, read (js_value (out a)) = Some (f a)) l.
Proof. intros Ha. by apply Forall_forall. Qed.

Lemma optional_ttl (o : option Z) : exact (default 0%Z o) →
optional (nullable as_Z) (js_value <$> (OInt <$> o)) = Some (Some <$> o).
Proof.
intros Ho. destruct o as [z|]; [|done].
transitivity (Some <$> (Some <$> as_Z (js_value (OInt z)))); [done|]. by rewrite value_int.
Qed.

Lemma optional_types l :
optional (as_list as_string) (js_value <$> texts_omitempty l) =
Some (shown_slice units_of l).
Proof.
destruct l as [|s l]; [done|].
transitivity (Some <$> as_list as_string (js_value (OArray (OString <$> s :: l)))); [done|].
by rewrite (value_list _ _ units_of) by by apply value_all.
Qed.

Lemma value_config c : exact_config c → as_TenantConfig (js_value (config_out c)) = Some (shown_config c).
Proof.
intros (H1 & H2 & H3 & H4). unfold as_TenantConfig, config_out. read_props.
rewrite !value_int by done. cbn [mbind option_bind]. by rewrite optional_ttl, optional_types.
Qed.

Lemma value_tenant t : exact_config (Config t) → as_Tenant (js_value (tenant_out t)) = Some (shown_tenant t).
Proof.
intros Hc. unfold as_Tenant, tenant_out. read_props. rewrite value_status, value_mode. cbn [mbind option_bind].
by rewrite value_config.
Qed.

Lemma value_entry e : exact (Sequence e) → as_ChangelogEntry (js_value (entry_out e)) = Some (shown_entry e).
Proof.
intros Hs. unfold as_ChangelogEntry, entry_out. read_props. rewrite value_int by done. cbn [mbind option_bind].
rewrite value_op. cbn [mbind option_bind]. by rewrite value_tuple.
Qed.

(** ** Trees *)

Section TreeInd.
Context (P : ServerModel.SubjectTree → Prop).
Hypothesis (Pnode : ∀ s l, Forall P l → P (ServerModel.MkSubjectTree s l)).

Fixpoint tree_deep_ind (t : ServerModel.SubjectTree) : P t :=
match t with
| ServerModel.MkSubjectTree s l =>
    Pnode s l ((fix go l : Forall P l :=
      match l with [] => List.Forall_nil _ | t :: l => List.Forall_cons _ _ _ (tree_deep_ind t) (go l) end) l)
end.
End TreeInd.

Lemma value_tree t : as_SubjectTree (js_value (tree_out t)) = Some (shown_tree t).
Proof.
induction t as [s l IH] using tree_deep_ind. cbn [tree_out].
rewrite struct_value by (by vm_compute). cbn [members omap list_omap fst snd fmap option_fmap option_map as_SubjectTree].
assert (Hs : ∀ (v w : json), map_get [(js "Subject", v); (js "Children", w)] (js "Subject") = Some v) by done.
rewrite Hs. cbn [mbind option_bind]. rewrite value_ref. cbn [mbind option_bind].
rewrite (bool_decide_eq_false_2 (js "Children" = js "Subject")) by by vm_compute.
rewrite (bool_decide_eq_true_2 (js "Children" = js "Children")) by done.
destruct l as [|t l]; [done|]. unfold js_value. cbn [slice_out out_doc doc_value json_shape shape_array].
assert (Hgo : ∀ l, Forall (λ t, as_SubjectTree (js_value (tree_out t)) = Some (shown_tree t)) l →
  (fix go l := match l with
   | [] => Some []
   | x :: l => t ← as_SubjectTree x; k ← go l; Some (t :: k)
   end) (doc_value (JS := json_shape) <$> (out_doc <$> (tree_out <$> l))) = Some (shown_tree <$> l)).
{ clear. intros l Hl. induction Hl as [|t l Ht _ IH]; [done|]. cbn [fmap list_fmap]. unfold js_value in Ht.
  rewrite Ht. cbn [mbind option_bind]. by rewrite IH. }
rewrite Hgo by done. done.
Qed.

(** ** Trees that can be written *)

Lemma out_struct l : Forall (λ e, from_option out_ok True e.2) l → out_ok (struct_out l).
Proof.
intros Hl. constructor. apply Forall_forall. intros [k o] Hin.
apply list_elem_of_omap in Hin as ([n w] & He & Heq). rewrite Forall_forall in Hl. specialize (Hl _ He).
cbn in Heq, Hl. destruct w as [w|]; [|done]. by injection Heq as <- <-.
Qed.

Lemma out_members m : Forall (λ e, out_ok e.2) (members_out m).
Proof. unfold members_out. apply Forall_fmap, Forall_forall. intros e _. apply any_out_ok. Qed.

Lemma out_map (m : gomap any) : out_ok (map_out m).
Proof. destruct m as [m|]; constructor. apply out_members. Qed.

Lemma out_list {A} (f : A → gout) l : Forall (λ a, out_ok (f a)) l → out_ok (OArray (f <$> l)).
Proof. intros Hf. constructor. by apply Forall_fmap. Qed.

Lemma out_slice {A} (f : A → gout) l : Forall (λ a, out_ok (f a)) l → out_ok (slice_out f l).
Proof. intros Hf. destruct l as [|a l]; [constructor|by apply (out_list f (a :: l))]. Qed.

Lemma out_all {A} (f : A → gout) l : (∀ a, out_ok (f a)) → Forall (λ a, out_ok (f a)) l.
Proof. intros Ha. by apply Forall_forall. Qed.

Ltac out_fields :=
  apply out_struct; repeat (apply Forall_cons_2; [|]); try apply Forall_nil_2;
  cbn [text int time text_omitempty map_omitempty fst snd from_option fmap option_fmap option_map];
  try (by constructor); try (case_bool_decide; by constructor).

Lemma out_omit (m : gomap any) :
from_option out_ok True (match m with None => None | Some m => if bool_decide (m = ∅) then None else Some (OObject (members_out m)) end).
Proof. destruct m as [m|]; [|done]. case_bool_decide; [done|]. constructor. apply out_members. Qed.

Lemma out_tuple t : out_ok (tuple_out t).
Proof. unfold tuple_out. out_fields; [apply out_omit|]. destruct (ExpiresAt t); by constructor. Qed.

Lemma out_config c : out_ok (config_out c).
Proof.
unfold config_out. out_fields; [| |apply out_omit].
- destruct (CacheTTLOverride c); by constructor.
- unfold texts_omitempty. destruct (AllowedObjectTypes c) as [|s l]; [done|]. apply (out_list OString), out_all. constructor.
Qed.

Lemma out_tenant t : out_ok (tenant_out t).
Proof. unfold tenant_out. out_fields. apply out_config. Qed.

Lemma out_entry e : out_ok (entry_out e).
Proof. unfold entry_out. out_fields; [apply out_tuple|apply out_omit]. Qed.

Lemma out_item tk ik i : out_ok (item_out tk ik i).
Proof. unfold item_out. out_fields. apply out_map. Qed.

Lemma out_tree t : out_ok (tree_out t).
Proof.
induction t as [s l IH] using tree_deep_ind. cbn [tree_out]. out_fields.
- unfold ref_out. out_fields.
- by apply out_slice.
Qed.

Lemma out_body r p o : body_of r p = Some o → out_ok o.
Proof.
destruct p as [[n|]|[t|]|l n|s|l n|m|l n|l n k|t|d|l|]; cbn [body_of]; try (intros [= <-]); try done; try (by constructor).
all: try apply out_tenant; try apply out_tree; try out_fields; try apply out_map.
- apply (out_list tenant_out), out_all, out_tenant.
- apply out_slice, out_all, out_tuple.
- revert o. destruct r; intros o [= <-]; out_fields; apply out_slice, out_all, out_item.
- apply out_slice, out_all, out_entry.
- apply (out_list decision_out), out_all. intros d. unfold decision_out. out_fields.
Qed.

(** The console parses the body of a reply. *)
Lemma parse_reply r p o : body_of r p = Some o → parse (units_of (reply_body r p)) = Some (js_value o).
Proof.
intros Ho. unfold reply_body, parse, js_value. rewrite Ho.
exact (encode_read (JS := json_shape) o (out_body r p o Ho)).
Qed.

(** ** Calls and their replies *)

Lemma answer_Reply {A} code (m : res A) k n p : answer code m k = Reply n p → ∃ a, m = Ok a ∧ k a = Reply n p.
Proof. destruct m as [a|e|]; [|done..]. eauto. Qed.

Lemma writing_Reply {A B} id (body : res A) srv (op : TenantContext → A → Store * res B) (k : A → reply) srv' n p :
match tenantCtx (store srv) id with
| Err err => (srv, Fail (tenantContextErrStatus err))
| Panic => (srv, Crash)
| Ok tc =>
    match body with
    | Err _ => (srv, Fail 400)
    | Panic => (srv, Crash)
    | Ok a => let '(s, r) := op tc a in (with_store s srv, answer errStatus r (λ _, k a))
    end
end = (srv', Reply n p) → ∃ a, k a = Reply n p.
Proof.
destruct (tenantCtx _ _) as [tc|e|]; [|done..]. destruct body as [a|e|]; [|done..].
destruct (op tc a) as [s r]. intros [= _ (b & _ & Hb)%answer_Reply]. eauto.
Qed.

Context {GA : GoAny}.

(** The reply to a call is of the kind the call returns. *)
Lemma reply_kind c r now srv srv' n p :
asks c r → serve now r srv = (srv', Reply n p) → is_Some (meant_return c p).
Proof.
destruct c, r; try done; intros _; cbn [serve].
- intros [= _ (tc & _ & (l & _ & [= _ <-])%answer_Reply)%answer_Reply]. eauto.
- intros [= _ (tc & _ & (l & _ & [= _ <-])%answer_Reply)%answer_Reply]. eauto.
- intros [= _ (tc & _ & (m & _ & [= _ <-])%answer_Reply)%answer_Reply]. eauto.
- intros (m & [= _ <-])%writing_Reply. eauto.
- intros [= _ (tc & _ & (m & _ & [= _ <-])%answer_Reply)%answer_Reply]. eauto.
- intros (m & [= _ <-])%writing_Reply. eauto.
- intros [= _ (tc & _ & Hk)%answer_Reply]. destruct (changelog_query q) as [[k m]|]; [|done].
  apply answer_Reply in Hk as (l & _ & [= _ <-]). eauto.
- intros [= _ (tc & _ & (req' & _ & Hk)%answer_Reply)%answer_Reply].
  destruct (decide_item _ _ _ _ _) as [d|rep] eqn:Ed; [injection Hk as _ <-; eauto|]. exfalso. subst rep.
  unfold decide_item in Ed. by destruct (Check _ _ _ _) as [[| |]|].
- intros [= _ (tc & _ & Hk)%answer_Reply]. unfold ServerApi.expand in Hk. destruct body as [req'|e|]; [|done..].
  destruct (_ || _); [done|]. apply answer_Reply in Hk as (tr & _ & [= _ <-]). eauto.
- unfold handleGetSchema. destruct (schema_texts srv !! _) as [data|]; [|done]. destruct (schema_compiled srv !! _) as [cs|]; [|done].
  intros [= _ _ <-]. eauto.
- intros Hl. pose proof (load_schema_cases now tenantID body srv) as Hc. rewrite Hl in Hc.
  destruct Hc as [(data & raw & cs & _ & _ & _ & _ & _ & _ & [= _ ->])|[_ Hn]]; [eauto|].
  exfalso. unfold handleLoadSchema in Hl. destruct (Get _ _); [|done..]. destruct body; [|done..].
  destruct (_ ≫= _); [|done..]. case_bool_decide; [|done]. injection Hl as _ <- <-. by eapply Hn.
- unfold handleListTenants. destruct (tenant_query q) as [f|]; [|done].
  intros [= _ (l & _ & [= _ <-])%answer_Reply]. eauto.
- intros [= _ (tn & _ & [= _ <-])%answer_Reply]. eauto.
- intros [= _ (tc & _ & Hk)%answer_Reply]. unfold ServerApi.read_tuples in Hk. cbn zeta in Hk.
  destruct (if bool_decide _ then _ else _); [|done]. apply answer_Reply in Hk as (l & _ & [= _ <-]). eauto.
- intros (a & [= _ <-])%(writing_Reply _ _ _ _ (λ _, Reply 201 (PStatusOk None))). eauto.
- intros (a & [= _ <-])%writing_Reply. eauto.
- intros (a & [= _ <-])%(writing_Reply _ _ _ _ (λ _, Reply 204 PNoContent)). eauto.
Qed.

Lemma value_objects l : Forall (λ i, as_ObjectAttributesItem (js_value (item_out "object_type" "object_id" i)) = Some (shown_object i)) l.
Proof. apply value_all, value_object. Qed.

Lemma value_subjects l : Forall (λ i, as_SubjectAttributesItem (js_value (item_out "subject_type" "subject_id" i)) = Some (shown_subject i)) l.
Proof. apply value_all, value_subject. Qed.

(** What the call returns is what the reply means. *)
Lemma reply_return c r p :
asks c r → is_Some (meant_return c p) → exact_reply p →
read_return c (parse (units_of (reply_body r p))) = meant_return c p.
Proof.
intros Ha [v Hv] Hx.
destruct c, p as [[m|]|[tn|]|l m|s|l m|a'|l m|l m k|t'|d|l|]; try done; clear v Hv;
  cbn [read_return meant_return exact_reply] in *;
  try (destruct r; try done; []); try (erewrite parse_reply by reflexivity; cbn [mbind option_bind]); clear Ha.
- read_props. rewrite (value_slice _ _ shown_object) by apply value_objects. cbn [mbind option_bind]. by rewrite value_int.
- read_props. rewrite (value_slice _ _ shown_subject) by apply value_subjects. cbn [mbind option_bind]. by rewrite value_int.
- read_props. by rewrite value_attributes.
- read_props. by rewrite value_attributes.
- read_props. by rewrite value_attributes.
- read_props. by rewrite value_attributes.
- destruct Hx as (He & Hm & Hk). read_props.
  rewrite (value_slice _ _ shown_entry) by (eapply Forall_impl; [exact He|apply value_entry]).
  cbn [mbind option_bind]. by rewrite !value_int.
- unfold decision_out. read_props. done.
- by rewrite value_tree.
- by rewrite value_schema.
- by rewrite value_schema.
- destruct Hx as [Hl Hm]. read_props.
  rewrite (value_list _ _ shown_tenant) by (eapply Forall_impl; [exact Hl|apply value_tenant]).
  cbn [mbind option_bind]. by rewrite value_int.
- by rewrite value_tenant.
- read_props. rewrite (value_slice _ _ shown_tuple) by apply value_all, value_tuple. cbn [mbind option_bind]. by rewrite value_int.
- read_props. by rewrite value_int.
Qed.

End Shown.

(** ** The properties on the demo *)

#[export] Instance demo_time : TimeText := {| rfc3339_nano z := if bool_decide (z = 0%Z) then "0001" else "2024"; schema_time _ := "2024" |}.

#[export] Instance demo_any_out : AnyOut := {| any_out (b : any (ExprLang := demo_expr)) := OBool b; any_out_ok _ := out_bool _ |}.

(** The tuples of the folders a and b, as the page of tuples gets them. *)
Definition demo_listing : list RelationTuple :=
  match serve 6 (GetTuples "super" (λ _, "")) demo_server with
  | (_, Reply _ (PTuples l _)) => l
  | _ => []
  end.

Example listing_text :
  reply_body (GetTuples "super" (λ _, "")) (PTuples (take 1 demo_listing) 1) =
  utf8 (js "{'tuples':[{'tenant_id':'super','object_type':'folder','object_id':'b','relation':'viewer','subject_type':'user','subject_id':'ann','created_at':'2024','updated_at':'2024'}],'count':1}" ≫= (λ c, [if bool_decide (c = 39%N) then 34%N else c])) +:+ utf8 [10%N].
Proof. by vm_compute. Qed.

