(* ===== verification/EndToEnd.v ===== *)
(** * From the console's client to the store and back

    A call of the client, received and served: what is written in the console is what
    the server stores, lists and deletes, and what the evaluator shows is the decision
    of the server's check. *)

From S2P Require Import Prelude JsString JsObject Json JsonIntegers ApiTypes ApiClient ServerRoutes Utf8.
From S2P Require Import GoLib ServerModel ServerSchema ServerEngine EngineTermination EngineSpec Changelog ServerStore StoreFacts ServerTenants ServerApi GoJson ServerDemo StoreProperties ApiFacts ApiDemo ApiProperties ApiWrites ServerReply ServerWire ReplyWire.

Open Scope nat_scope.
Open Scope list_scope.

Section EndToEnd.
Context `{!JsNumber, !JsNumberLaws _, !JsExact} {EL : ExprLang} {DC : Decoders} {GA : GoAny} {TT : TimeText} {AO : AnyOut}.
Implicit Types (tu : ApiTypes.TupleRequest) (srv : Server).

(** The server's side of a call; [None] is a request no route takes. *)
Definition exchange (now : Z) (c : api_call) srv : option (Server * reply) :=
r ← receive (sent c); Some (serve now r srv).

Lemma exchange_served now c srv :
Forall plain_segment (meant c).2 → header_ok c → call_body c →
∃ r, exchange now c srv = Some (serve now r srv) ∧ asks c r.
Proof.
intros Hp Hh Hb. destruct (call_received c Hp Hh Hb) as (r & Hr & Ha). exists r.
split; [|done]. unfold exchange. by rewrite Hr.
Qed.

(** What the function of the client returns, with the server after it; [None] is an
  exception of the client. *)
Definition call (now : Z) (c : api_call) srv : option (Server * returned) :=
r ← receive (sent c);
match serve now r srv with
| (srv', Reply _ p) => v ← read_return c (parse (units_of (reply_body r p))); Some (srv', v)
| _ => None
end.

Lemma call_exchange now c srv srv' n p :
Forall plain_segment (meant c).2 → header_ok c → call_body c →
exchange now c srv = Some (srv', Reply n p) → exact_reply p →
is_Some (meant_return c p) ∧ call now c srv = (λ v, (srv', v)) <$> meant_return c p.
Proof.
intros Hp Hh Hb He Hx. destruct (call_received c Hp Hh Hb) as (r & Hr & Ha).
unfold exchange in He. rewrite Hr in He. injection He as He.
pose proof (reply_kind c r now srv srv' n p Ha He) as Hk. split; [done|].
unfold call. rewrite Hr. cbn [mbind option_bind]. rewrite He, (reply_return c r p Ha Hk Hx).
by destruct (meant_return c p).
Qed.

(** ** Tuples *)

(** The tuple the console gets has the texts that were typed; an empty subject relation
  is left out. *)
Definition shows tu (t : ApiTypes.RelationTuple) : Prop :=
rt_object_type t = tr_object_type tu ∧ rt_object_id t = tr_object_id tu ∧ rt_relation t = tr_relation tu ∧
rt_subject_type t = tr_subject_type tu ∧ rt_subject_id t = tr_subject_id tu ∧
default [] (rt_subject_relation t) = default [] (tr_subject_relation tu).

(** No lone surrogates. *)
Definition clean_entry tu : Prop :=
clean (tr_object_type tu) ∧ clean (tr_object_id tu) ∧ clean (tr_relation tu) ∧ clean (tr_subject_type tu) ∧
clean (tr_subject_id tu) ∧ clean (default [] (tr_subject_relation tu)).

(** The tuple of the server is the one entered in the console. *)
Definition entered tu (t : RelationTuple) : Prop :=
ObjectType t = utf8 (tr_object_type tu) ∧ ObjectID t = utf8 (tr_object_id tu) ∧
Relation t = utf8 (tr_relation tu) ∧ SubjectType t = utf8 (tr_subject_type tu) ∧
SubjectID t = utf8 (tr_subject_id tu) ∧ SubjectRelation t = given (tr_subject_relation tu).

Lemma units_back s : clean s → units_of (utf8 s) = s.
Proof. intros [Hp Hu]. by apply units_of_utf8. Qed.

Lemma entered_shows tu t : clean_entry tu → entered tu t → shows tu (shown_tuple t).
Proof.
intros (H1 & H2 & H3 & H4 & H5 & H6) (E1 & E2 & E3 & E4 & E5 & E6). unfold shows. cbn.
rewrite E1, E2, E3, E4, E5, E6, !units_back by done. split_and!; try done.
unfold shown_text, given. case_bool_decide as He; cbn; [|by rewrite units_back].
by rewrite <-(units_back (default [] (tr_subject_relation tu))), He by done.
Qed.

(** The filter with the fields of a tuple. *)
Definition exact_filter tu : ApiTypes.TupleFilter :=
ApiTypes.MkTupleFilter (Some (tr_object_type tu)) (Some (tr_object_id tu)) (Some (tr_relation tu))
  (Some (tr_subject_type tu)) (Some (tr_subject_id tu)) (tr_subject_relation tu).

Lemma entered_same tu req t :
tuple_meant tu = Ok req → entered tu t ↔ same_tuple t (tupleFromRequest req) = true.
Proof.
unfold tuple_meant. destruct (attributes_meant _) as [a|e|]; [|done..]. intros [= <-].
unfold same_tuple, entered. cbn. rewrite !andb_true_iff, !bool_decide_eq_true. naive_solver.
Qed.

(** A reading of tuples looks at the query through [tuple_filter]. *)
Lemma read_by_filter now id q q' srv :
q "include_expired" = "" → q' "include_expired" = "" → tuple_filter q false = tuple_filter q' false →
handleReadTuples now id q srv = handleReadTuples now id q' srv.
Proof.
intros Hq Hq' Hf. unfold handleReadTuples, read_tuples. cbn zeta. rewrite Hq, Hq'.
rewrite bool_decide_eq_true_2 by done. by rewrite Hf.
Qed.

(** Reading with the filter of a tuple, in terms of the request that writes it. *)
Lemma read_exchange now t tu req srv :
plain_segment t → tuple_meant tu = Ok req →
exchange now (CallReadTuples t (Some (exact_filter tu))) srv =
  Some (srv, handleReadTuples now (utf8 t) (tuple_query req) srv).
Proof.
intros Ht Hreq. destruct (exchange_served now (CallReadTuples t (Some (exact_filter tu))) srv) as (r & -> & Ha);
  [by apply Forall_singleton|done..|].
destruct r; cbn [asks] in Ha; try done. destruct Ha as (-> & Hi & Hf). cbn [serve]. do 2 f_equal.
apply read_by_filter; [done|done|]. rewrite Hf. revert Hreq.
unfold tuple_meant. destruct (attributes_meant _) as [a|e|]; [|done..]. by intros [= <-].
Qed.

(** What a reading lists is stored. *)
Lemma read_stored now id q srv l n :
store_ok (store srv) → handleReadTuples now id q srv = Reply 200 (PTuples l n) →
∀ u, u ∈ l → by_key (tuples_of (store srv) id) !! tupleIdentityKey u = Some u.
Proof.
intros Hok Hr u Hu. apply by_key_elem; [apply (ok_keys _ Hok)|]. revert Hr.
unfold handleReadTuples, reading_handler, read_tuples.
destruct (tenantCtx (store srv) id) as [tc|e|] eqn:Etc; [|done..].
apply tenantCtx_Ok in Etc as (_ & tn & Htn & ->). cbn [answer].
destruct (if bool_decide _ then _ else _) as [ie|]; [|done].
unfold ReadTuples, reading, checkTenantReadable. cbn [tenantIDFromCtx tc_TenantID mbind res_bind].
rewrite Htn. case_bool_decide; [done|]. cbn [answer]. intros [= <- _].
by apply list_elem_of_filter in Hu as [_ Hu].
Qed.

(** A delete of a tuple that is stored. *)
Lemma delete_spec now id req srv tn t :
store_ok (store srv) → id ≠ "" → tenants (store srv) !! id = Some tn → Status tn = TenantActive →
validateTupleRequest req = Ok () → same_tuple t (tupleFromRequest req) = true →
by_key (tuples_of (store srv) id) !! tupleIdentityKey t = Some t →
∃ srv', handleDeleteTuple now id (Ok req) srv = (srv', Reply 204 PNoContent) ∧
  tenants (store srv') = tenants (store srv) ∧ store_ok (store srv') ∧
  ∀ u, same_tuple u (tupleFromRequest req) = true → by_key (tuples_of (store srv') id) !! tupleIdentityKey u = None.
Proof.
intros Hok Hid Htn Hst Hv Hsame Hk. pose proof (ok_keys _ Hok id) as Hd.
set (tc := MkTenantContext id tn "" (MergeConfig tn None)).
pose proof (perform_ok now (Some tc) (OpDeleteTuple (tupleFromRequest req)) (store srv) Hok) as Hok'.
pose proof (data_operation_tenants now (Some tc) (OpDeleteTuple (tupleFromRequest req)) (store srv) eq_refl) as Hts.
unfold handleDeleteTuple. rewrite (proj2 (tenantCtx_Ok (store srv) id tc)) by eauto.
cbn [mbind res_bind]. rewrite Hv. cbn [res_bind]. cbn [perform] in Hok', Hts.
pose proof (delete_refines_spec (tupleFromRequest req) (tuples_of (store srv) id) Hd) as Hspec.
revert Hok' Hts. unfold DeleteTuple, writing, checkTenantWritable. cbn [tenantIDFromCtx tc tc_TenantID].
rewrite Htn, Hst. cbn [mbind res_bind].
unfold spec_delete in Hspec. rewrite <-(same_tuple_key t _ Hsame), Hk, Hsame in Hspec.
destruct (delete_first _ _) as [[t' rest]|]; [|by injection Hspec].
destruct Hspec as (Hspec & _ & _). injection Hspec as Hspec. cbn. intros Hok' Hts.
eexists. split; [reflexivity|]. cbn [fst]. split_and!; [done|done|]. intros u Hu.
match goal with |- by_key ?l !! _ = _ => replace l with rest by (symmetry; exact (tuples_of_set id rest (store srv))) end.
rewrite <-Hspec. by rewrite (same_tuple_key u _ Hu), <-(same_tuple_key t _ Hsame), lookup_delete_eq.
Qed.

(** A tenant that is there and not deleted can be read. *)
Lemma read_replies now id req srv tn :
id ≠ "" → tenants (store srv) !! id = Some tn → Status tn = TenantActive →
∃ l, handleReadTuples now id (tuple_query req) srv = Reply 200 (PTuples l (Z.of_nat (length l))).
Proof.
intros Hid Htn Hst. set (tc := MkTenantContext id tn "" (MergeConfig tn None)).
unfold handleReadTuples, reading_handler, read_tuples. rewrite (proj2 (tenantCtx_Ok (store srv) id tc)) by eauto. cbn [answer].
change (tuple_query req "include_expired") with "". cbn zeta. rewrite bool_decide_eq_true_2 by done.
unfold ReadTuples, reading, checkTenantReadable. cbn [tenantIDFromCtx tc tc_TenantID mbind res_bind].
rewrite Htn, Hst. rewrite bool_decide_eq_false_2 by done. cbn [answer]. by eexists.
Qed.

(** The console gives no expiry. *)
Lemma entered_forever now tu req tuple :
tuple_meant tu = Ok req → write_tuple_of now req = Ok tuple →
attributes_meant (tr_attributes tu) = Ok (rt_Attributes tuple) ∧ ExpiresAt tuple = None ∧
validateTupleRequest req = Ok () ∧ same_tuple tuple (tupleFromRequest req) = true.
Proof.
intros Hreq Htu. destruct (write_tuple_of_Ok now req tuple Htu) as (e & He & -> & -> & Hsame).
unfold tuple_meant in Hreq. destruct (attributes_meant _) as [a|err|]; [|done..]. injection Hreq as <-.
unfold tupleExpiryFromRequest in He. cbn in He. injection He as <-. split_and!; try done.
unfold write_tuple_of in Htu. by destruct (validateTupleRequest _) as [[]| |].
Qed.

Lemma write_exchange now t tu srv srv1 p :
plain_segment t → sendable (tuple_json tu) →
exchange now (CallWriteTuple t tu) srv = Some (srv1, Reply 201 p) →
∃ req, tuple_meant tu = Ok req ∧ handleWriteTuple now (utf8 t) (Ok req) srv = (srv1, Reply 201 p).
Proof.
intros Ht Hb. destruct (exchange_served now (CallWriteTuple t tu) srv) as (r & -> & Ha);
  [by apply Forall_singleton|done..|].
destruct r; cbn [asks] in Ha; try done. destruct Ha as (-> & ->). cbn [serve]. intros [= Hw].
destruct (tuple_meant tu) as [req|e|]; [by exists req|..]; unfold handleWriteTuple in Hw;
  by destruct (tenantCtx (store srv) (utf8 t)).
Qed.

Lemma delete_exchange now t tu req srv :
plain_segment t → sendable (tuple_json tu) → tuple_meant tu = Ok req →
exchange now (CallDeleteTuple t tu) srv = Some (handleDeleteTuple now (utf8 t) (Ok req) srv).
Proof.
intros Ht Hb Hreq. destruct (exchange_served now (CallDeleteTuple t tu) srv) as (r & -> & Ha);
  [by apply Forall_singleton|done..|].
destruct r; cbn [asks] in Ha; try done. destruct Ha as (-> & ->). cbn [serve]. by rewrite Hreq.
Qed.

(** A list the server replied is the one the console gets. *)
Lemma read_listed now t f srv l :
plain_segment t →
exchange now (CallReadTuples t f) srv = Some (srv, Reply 200 (PTuples l (Z.of_nat (length l)))) →
let n := Z.of_nat (length l) in
exchange now (CallReadTuples t f) srv = Some (srv, Reply 200 (PTuples l n)) ∧
(exact n → call now (CallReadTuples t f) srv = Some (srv, RTuples (MkTuplesResponse (shown_slice shown_tuple l) n))).
Proof.
intros Ht He n. split; [done|]. intros Hn.
by destruct (call_exchange now (CallReadTuples t f) srv srv 200 _ (proj2 (Forall_singleton _ _) Ht) I I He Hn) as [_ ->].
Qed.

(** C5: The life of a tuple of the console: one whose write was answered 201 is listed by
  its exact filter at any later time, once, with the texts and attributes entered, and
  the list the console gets is the one the server replied; its delete is answered 204,
  and from then on it is not listed. *)
Theorem console_tuple_life now t tu srv srv1 p :
serving srv → plain_segment t → sendable (tuple_json tu) → clean_entry tu →
exchange now (CallWriteTuple t tu) srv = Some (srv1, Reply 201 p) →
let read := CallReadTuples t (Some (exact_filter tu)) in
let listed now srv l :=
  let n := Z.of_nat (length l) in
  exchange now read srv = Some (srv, Reply 200 (PTuples l n)) ∧
  (exact n → call now read srv = Some (srv, RTuples (MkTuplesResponse (shown_slice shown_tuple l) n))) in
(∃ rt, shows tu (shown_tuple rt) ∧ attributes_meant (tr_attributes tu) = Ok (rt_Attributes rt) ∧
  ∀ now', ∃ l, listed now' srv1 l ∧ ∀ u, u ∈ l ∧ entered tu u ↔ u = rt) ∧
∀ now1, ∃ srv2, exchange now1 (CallDeleteTuple t tu) srv1 = Some (srv2, Reply 204 PNoContent) ∧
  ∀ now2, ∃ l, listed now2 srv2 l ∧ ∀ u, u ∈ l → ¬ entered tu u.
Proof.
intros Hs Ht Hb Hcl Hx read listed. destruct (write_exchange now t tu srv srv1 p Ht Hb Hx) as (req & Hreq & Hw).
pose proof (serve_ok now (PostTuple (utf8 t) (Ok req)) srv (serving_ok _ Hs)) as Hs1.
cbn [serve] in Hs1. rewrite Hw in Hs1. pose proof (history_ok _ (srv_history _ Hs1)) as Hok1. cbn [fst] in Hok1.
destruct (write_tuple_key now _ req srv srv1 p Hs Hw) as (Hid & tn & tuple & Htn & Hst & Htu & Hk).
destruct (entered_forever now tu req tuple Hreq Htu) as (Hattr & Hexp & Hv & Hsame).
set (rt := stamp now (utf8 t) tuple). change (same_tuple rt (tupleFromRequest req) = true) in Hsame.
assert (Hrt : by_key (tuples_of (store srv1) (utf8 t)) !! tupleIdentityKey rt = Some rt)
  by (rewrite Hk; apply lookup_insert_eq).
assert (Hent : entered tu rt) by by apply (entered_same tu req rt Hreq).
assert (Hlisted : ∀ now srv l, handleReadTuples now (utf8 t) (tuple_query req) srv =
  Reply 200 (PTuples l (Z.of_nat (length l))) → listed now srv l).
{ intros now' srv' l Hl. apply read_listed; [done|]. unfold read. by rewrite (read_exchange now' t tu req srv' Ht Hreq), Hl. }
split.
- exists rt. split; [by apply entered_shows|]. split; [done|]. intros now'.
  destruct (read_exactly now' _ req srv1 rt tn Hok1 Hid Htn Hst Hrt Hsame) as (l & Hl & Hin).
  exists l. split; [by apply Hlisted|]. intros u.
  rewrite (entered_same tu req u Hreq), Hin. unfold tupleIsExpiredAt. cbn [rt stamp ExpiresAt]. rewrite Hexp. naive_solver.
- intros now1. destruct (delete_spec now1 (utf8 t) req srv1 tn rt) as (srv2 & Hdel & Hts & Hok2 & Hgone); [done..|].
  exists srv2. split; [by rewrite (delete_exchange now1 t tu req srv1 Ht Hb Hreq), Hdel|]. intros now2.
  destruct (read_replies now2 (utf8 t) req srv2 tn) as (l & Hl); [done|by rewrite Hts|done|].
  exists l. split; [by apply Hlisted|]. intros u Hu Hu'.
  pose proof (read_stored now2 _ _ srv2 l _ Hok2 Hl u Hu) as Hstored.
  apply (entered_same tu req u Hreq) in Hu'. by rewrite (Hgone u Hu') in Hstored.
Qed.
End EndToEnd.

(** ** The properties on the demo *)

Definition carl_entry : ApiTypes.TupleRequest (H := integers) :=
  ApiTypes.MkTupleRequest (js "folder") (js "a") (js "viewer") (js "user") ann (Some (js "")) 
    (Some [(js "level", JNumber (H := integers) 3%Z)]).

Definition written : option (Server * reply) := exchange (H := integers) 6 (CallWriteTuple (js "super") carl_entry) demo_server.

Example write_accepted : snd <$> written = Some (Reply 201 (PStatusOk None)).
Proof. by vm_compute. Qed.

Lemma carl_written : ∃ srv1, exchange (H := integers) 6 (CallWriteTuple (js "super") carl_entry) demo_server =
  Some (srv1, Reply 201 (PStatusOk None)).
Proof.
  pose proof write_accepted as Hw. unfold written in Hw.
  destruct (exchange _ _ _) as [[srv1 rep]|]; [|done]. injection Hw as ->. exists srv1. reflexivity.
Qed.

Lemma super_plain : plain_segment (js "super").
Proof. apply (bool_decide_unpack _). by vm_compute. Qed.

Lemma carl_sendable : sendable (H := integers) (tuple_json carl_entry).
Proof. split; [apply json_units_ok_sound|]; by vm_compute. Qed.

Lemma carl_clean : clean_entry carl_entry.
Proof. repeat split; apply (bool_decide_unpack _); by vm_compute. Qed.

Lemma console_tuple_life_witness :
  ∃ srv1 srv2, exchange (H := integers) 6 (CallWriteTuple (js "super") carl_entry) demo_server =
    Some (srv1, Reply 201 (PStatusOk None)) ∧
  exchange (H := integers) 8 (CallDeleteTuple (js "super") carl_entry) srv1 = Some (srv2, Reply 204 PNoContent).
Proof.
  destruct carl_written as (srv1 & Hw). exists srv1.
  destruct (proj2 (console_tuple_life (H := integers) 6 (js "super") carl_entry demo_server srv1 (PStatusOk None)
    demo_serving super_plain carl_sendable carl_clean Hw) 8%Z) as (srv2 & Hd & _).
  exists srv2. exact (conj Hw Hd).
Defined.
