(* ===== verification/Concurrent.v ===== *)
(** * Requests served at the same time

    [net/http] runs every handler on a goroutine of its own.  A handler is a program of
    atomic steps: each call of the memory store runs under the store's mutex, each access
    to the schemas of the engine or of the server under theirs, and what a handler does
    between two of them (reading the body, compiling a schema, taking the time) is local.
    A schedule says which request moves next and what its clock shows.

    A check reads the schemas of the engine once and the store once for every query of
    its dialogue (EngineSteps.v); the body of a request is read before its first step. *)

From S2P Require Import Prelude GoLib ServerModel ServerSchema ServerEngine EngineTermination EngineSteps Changelog ServerStore ServerTenants ServerApi ApiFacts.

Open Scope nat_scope.

Section Concurrent.
Context {EL : ExprLang} {DC : Decoders}.

(** ** Programs *)

(** What is left of a handler: nothing but its reply, or one atomic step on the server at
  the time its clock shows, and then the rest. *)
Inductive program :=
| Done (rep : reply)
| Step (f : Z → Server → Server * program).

(** A step that only looks at the server, and one of the store. *)
Definition look (k : Server → program) : program := Step (λ _ srv, (srv, k srv)).

Definition store_step {A} (op : Z → Store → Store * res A) (k : res A → program) : program :=
Step (λ now srv, let '(s, r) := op now (store srv) in (with_store s srv, k r)).

(** The reply of a failure, else the rest. *)
Definition proceed {A} (code : error → Z) (r : res A) (k : A → program) : program :=
match r with Ok a => k a | Err err => Done (Fail (code err)) | Panic => Done Crash end.

(** [tenantCtxFromPath], the opening of the handlers of a tenant's data. *)
Definition with_ctx (id : string) (k : TenantContext → program) : program :=
look (λ srv, proceed tenantContextErrStatus (tenantCtx (store srv) id) k).

(** The handlers that write a tenant's data: the context, the body with what is made of it
  at the handler's time, the operation of the store at the store's time. *)
Definition writing_program {A} (id : string) (body : Z → res A) (op : TenantContext → A → Z → Store → Store * res ())
  (k : A → reply) : program :=
with_ctx id (λ tCtx,
  Step (λ now srv, (srv, proceed (λ _, 400%Z) (body now) (λ a,
    store_step (op tCtx a) (λ r, Done (answer errStatus r (λ _, k a))))))).

(** The handlers that read it with one call of the store. *)
Definition reading_program (id : string) (k : Z → Server → TenantContext → reply) : program :=
with_ctx id (λ tCtx, Step (λ now srv, (srv, Done (k now srv tCtx)))).

Definition write_tuple_program (id : string) (body : res TupleRequest) : program :=
writing_program id (λ now, req ← body; write_tuple_of now req)
  (λ tCtx tuple now s, WriteTuple now (Some tCtx) tuple s) (λ _, Reply 201 (PStatusOk None)).

Definition write_tuples_program (id : string) (body : res (list TupleRequest)) : program :=
writing_program id
  (λ now, reqs ← body;
     if bool_decide (length reqs = 0) then Err (Errorf "tuples must contain at least one entry")
     else mapR (write_tuple_of now) reqs)
  (λ tCtx tuples now s, WriteTuples now (Some tCtx) tuples s)
  (λ tuples, Reply 201 (PStatusOk (Some (Z.of_nat (length tuples))))).

Definition delete_tuple_program (id : string) (body : res TupleRequest) : program :=
writing_program id (λ _, body ≫= λ req, validateTupleRequest req ≫= λ _, Ok req)
  (λ tCtx req now s, DeleteTuple now (Some tCtx) (tupleFromRequest req) s) (λ _, Reply 204 PNoContent).

Definition set_attributes_program
  (set : option TenantContext → string → string → gomap any → Store → Store * res ())
  (id typ oid : string) (body : res (gomap any)) : program :=
writing_program id (λ _, body) (λ tCtx attrs _ s, set (Some tCtx) typ oid attrs s) (λ attrs, Reply 200 (PAttributes attrs)).

(** The page of the changelog and the latest sequence are two calls of the store. *)
Definition changelog_program (id : string) (q : string → string) : program :=
with_ctx id (λ tCtx,
  match changelog_query q with
  | None => Done (Fail 400)
  | Some (sinceSeq, limit) =>
      look (λ srv, proceed errStatus (ReadChangelog (Some tCtx) sinceSeq limit (store srv)) (λ entries,
        look (λ srv,
          let latest := match LatestSequence (Some tCtx) (store srv) with Ok n => n | _ => 0%Z end in
          Done (Reply 200 (PChangelog entries (Z.of_nat (length entries)) latest)))))
  end).

(** The transitions of the manager: read the tenant, then write it with its new status. *)
Definition transition (id : string) (refused : Tenant → option error) (st : TenantStatus) (k : program) : program :=
look (λ srv, proceed errStatus (GetTenant (store srv) id) (λ t,
  match refused t with
  | Some err => Done (Fail (errStatus err))
  | None => store_step (λ now s, UpdateTenant now s (with_Status t st)) (λ r, proceed errStatus r (λ _, k))
  end)).

Definition is_deleted (t : Tenant) : option error :=
if bool_decide (Status t = TenantDeleted) then Some ErrTenantDeleted else None.

Definition is_not_active (t : Tenant) : option error :=
if bool_decide (Status t ≠ TenantActive) then Some (Wrap "can only suspend active tenants" ErrInvalidStateTransition)
else None.

Definition show_tenant (id : string) : program := look (λ srv, Done (tenant_now (store srv) id)).

Definition create_tenant_program (body : res CreateTenantRequest) : program :=
proceed (λ _, 400%Z) body (λ req,
  if bool_decide (ct_ID req = "") then Done (Fail 400)
  else match schema_mode (ct_SchemaMode req) with
  | None => Done (Fail 400)
  | Some mode =>
      if bool_decide (mode = SchemaShared) && bool_decide (ct_SharedSchemaRef req = "") then Done (Fail 400)
      else store_step (λ now s, Create now s (ct_ID req) (ct_DisplayName req) mode) (λ r,
        proceed (λ _, 400%Z) r (λ t,
          if bool_decide (ct_ParentTenantID req ≠ "") || bool_decide (ct_SharedSchemaRef req ≠ "") then
            let t := with_parent t (ct_ParentTenantID req) (ct_SharedSchemaRef req) in
            store_step (λ now s, UpdateTenant now s t) (λ r, Done (answer errStatus r (λ _, Reply 201 (PTenant (Some t)))))
          else Done (Reply 201 (PTenant (Some t)))))
  end).

(** The engine takes the schema first, the server's own maps take it in a later step. *)
Definition load_engine (id : string) (cs : CompiledSchema) (srv : Server) : Server :=
MkServer (store srv) (LoadSchema (eng srv) id cs) (schema_texts srv) (schema_compiled srv).

Definition load_registry (id data : string) (cs : CompiledSchema) (srv : Server) : Server :=
MkServer (store srv) (eng srv) (<[id := data]> (schema_texts srv)) (<[id := cs]> (schema_compiled srv)).

Definition load_schema_program (id : string) (body : res string) : program :=
look (λ srv, proceed errStatus (Get (store srv) id) (λ _,
  proceed (λ _, 400%Z) body (λ data,
    Step (λ now srv, (srv, proceed (λ _, 422%Z) (raw ← yaml_Decode data; Compile (sha256_hex data) now raw) (λ cs,
      if bool_decide (Validate cs = []) then
        Step (λ _ srv, (load_engine id cs srv,
          Step (λ _ srv, (load_registry id data cs srv,
            Done (Reply 200 (PSchema (MkSchemaResponse id (Hash cs) (Version cs) data (CompiledAt cs))))))))
      else Done (Fail 422))))))).

(** ** Checks *)

(** A dialogue with the store: every query is a step, answered at the step's time by the
  store of that moment. *)
Fixpoint converse {A} (tCtx : TenantContext) (m : dialogue A) (k : A → program) : program :=
match m with
| Says a => k a
| Asks q f =>
    Step (λ now srv, (srv, converse tCtx (f (consult (memory_store now (Some tCtx) (store srv)) q)) k))
end.

(** [s.eng.Check] for one item, and what is done with its decision: the status of the
  tenant is that of the context, the schema is taken from the engine in one step. *)
Definition check_item (tCtx : TenantContext) (subject : AuthZenSubject) (item : AuthZenItem) (k : bool → program)
  : program :=
if bool_decide (Status (tc_Tenant tCtx) = TenantDeleted) then k false
else if negb (IsReadable (tc_Tenant tCtx)) then k false
else look (λ srv,
  match schemaForTenant (eng srv) tCtx with
  | Err _ => k false
  | Panic => Done Crash
  | Ok cs =>
      let depth := cfg_MaxCheckDepth (eng srv) in
      converse tCtx (Steps.check_schema (check_fuel depth) depth cs (check_request subject item)) (λ o,
        match o with
        | Some (Ok result) => k (Allowed result)
        | Some (Err _) => k false
        | Some Panic => Done Crash
        | None => Done OutOfFuel
        end)
  end).

(** The loop over the items. *)
Fixpoint check_items (tCtx : TenantContext) (subject : AuthZenSubject) (l : list AuthZenItem) (k : list bool → program)
  : program :=
match l with
| [] => k []
| item :: l =>
    check_item tCtx subject item (λ decision, check_items tCtx subject l (λ decisions, k (decision :: decisions)))
end.

(** The context of the header and the body, refused alike. *)
Definition with_header {A} (tenantHeader : string) (body : res A) (k : TenantContext → A → program) : program :=
look (λ srv, proceed (λ _, 400%Z) (tenantCtx (store srv) tenantHeader) (λ tCtx,
  proceed (λ _, 400%Z) body (k tCtx))).

Definition evaluation_program (tenantHeader : string) (body : res AuthZenEvaluationRequest) : program :=
with_header tenantHeader body (λ tCtx req,
  check_item tCtx (ev_Subject req) (ev_Item req) (λ decision, Done (Reply 200 (PDecision decision)))).

Definition evaluations_program (tenantHeader : string) (body : res AuthZenBatchRequest) : program :=
with_header tenantHeader body (λ tCtx req,
  check_items tCtx (bt_Subject req) (Evaluations req) (λ decisions, Done (Reply 200 (PDecisions decisions)))).

(** The handler of a request. *)
Definition handler (r : request) : program :=
match r with
| GetHealth => Done handleHealth
| PostTenant body => create_tenant_program body
| GetTenants q => look (λ srv, Done (handleListTenants q srv))
| GetTenantByID id => look (λ srv, Done (handleGetTenant id srv))
| DeleteTenantByID id => transition id is_deleted TenantDeleted (Done (Reply 204 PNoContent))
| PostActivate id => transition id is_deleted TenantActive (show_tenant id)
| PostSuspend id => transition id is_not_active TenantSuspended (show_tenant id)
| PutSchema id body => load_schema_program id body
| GetSchemaOf id => look (λ srv, Done (handleGetSchema id srv))
| PostTuples id body => write_tuples_program id body
| PostTuple id body => write_tuple_program id body
| DeleteTuples id body => delete_tuple_program id body
| GetTuples id q => reading_program id (λ now srv tCtx, read_tuples now q srv tCtx)
| GetObjects id q =>
    reading_program id (λ _ srv tCtx, answer errStatus (ListObjectAttributes (Some tCtx) (store srv) (q "type")) items)
| GetObject id typ oid =>
    reading_program id (λ _ srv tCtx,
      answer errStatus (StoreGetObjectAttributes (Some tCtx) (store srv) typ oid) (λ attrs, Reply 200 (PAttributes attrs)))
| PutObject id typ oid body => set_attributes_program SetObjectAttributes id typ oid body
| GetSubjects id q =>
    reading_program id (λ _ srv tCtx, answer errStatus (ListSubjectAttributes (Some tCtx) (store srv) (q "type")) items)
| GetSubject id typ sid =>
    reading_program id (λ _ srv tCtx,
      answer errStatus (StoreGetSubjectAttributes (Some tCtx) (store srv) typ sid) (λ attrs, Reply 200 (PAttributes attrs)))
| PutSubject id typ sid body => set_attributes_program SetSubjectAttributes id typ sid body
| GetChangelog id q => changelog_program id q
| PostExpand id body => reading_program id (λ now srv tCtx, expand now body srv tCtx)
| PostEvaluation id body => evaluation_program id body
| PostEvaluations id body => evaluations_program id body
end.

(** ** Runs *)

Record config := MkConfig { server : Server; threads : list program }.

(** The requests before their first steps. *)
Definition start (srv : Server) (rs : list request) : config := MkConfig srv (handler <$> rs).

(** One step of a thread; nothing when it is done. *)
Definition move (i : nat) (now : Z) (c : config) : config :=
match threads c !! i with
| Some (Step f) => let '(srv, p) := f now (server c) in MkConfig srv (<[i := p]> (threads c))
| _ => c
end.

Definition run_schedule (sched : list (nat * Z)) (c : config) : config := foldl (λ c p, move p.1 p.2 c) c sched.

(** A program that nothing interrupts, with the times its clock shows step by step. *)
Fixpoint alone (clock : nat → Z) (p : program) (srv : Server) : Server * reply :=
match p with
| Done rep => (srv, rep)
| Step f => let '(srv', p') := f (clock 0) srv in alone (λ n, clock (S n)) p' srv'
end.

Definition is_done (p : program) : bool := match p with Done _ => true | Step _ => false end.
End Concurrent.
