(* ===== verification/ConcurrentFacts.v ===== *)
(** * What interleaving does to requests

    The programs of [Concurrent] against the handlers they come from, the steps they
    take, and how requests on tenant data behave however they are interleaved. *)

From S2P Require Import Prelude GoLib ServerModel ServerSchema ServerEngine EngineTermination EngineSteps Changelog ServerStore StoreFacts ServerTenants ServerApi ApiFacts Concurrent.

Open Scope nat_scope.

Section Alone.
Context {EL : ExprLang} {DC : Decoders}.
Implicit Types (srv : Server) (r : request) (p : program).

(** ** Uninterrupted programs *)

Lemma alone_proceed {A} clock (code : error → Z) (m : res A) k srv :
alone clock (proceed code m k) srv =
match m with Ok a => alone clock (k a) srv | Err err => (srv, Fail (code err)) | Panic => (srv, Crash) end.
Proof. by destruct m. Qed.

Lemma alone_with_ctx clock id k srv :
alone clock (with_ctx id k) srv =
match tenantCtx (store srv) id with
| Ok tc => alone (λ n, clock (S n)) (k tc) srv
| Err err => (srv, Fail (tenantContextErrStatus err))
| Panic => (srv, Crash)
end.
Proof. exact (alone_proceed _ _ _ _ _). Qed.

Lemma alone_store_step {A} clock (op : Z → Store → Store * res A) k srv :
alone clock (store_step op k) srv =
alone (λ n, clock (S n)) (k (op (clock 0) (store srv)).2) (with_store (op (clock 0) (store srv)).1 srv).
Proof. cbn. by destruct (op _ _). Qed.

Lemma alone_writing {A} clock id (body : Z → res A) op k srv :
alone clock (writing_program id body op k) srv =
match tenantCtx (store srv) id with
| Err err => (srv, Fail (tenantContextErrStatus err))
| Panic => (srv, Crash)
| Ok tc =>
    match body (clock 1) with
    | Err _ => (srv, Fail 400)
    | Panic => (srv, Crash)
    | Ok a => let '(s, r) := op tc a (clock 2) (store srv) in (with_store s srv, answer errStatus r (λ _, k a))
    end
end.
Proof.
unfold writing_program. rewrite alone_with_ctx. destruct (tenantCtx _ _) as [tc|e|]; [|done..].
cbn [alone]. rewrite alone_proceed. destruct (body _) as [a|e|]; [|done..].
rewrite alone_store_step. by destruct (op _ _ _ _).
Qed.

Lemma alone_reading clock id k srv :
alone clock (reading_program id k) srv = (srv, reading_handler id srv (k (clock 1) srv)).
Proof. unfold reading_program, reading_handler. rewrite alone_with_ctx. by destruct (tenantCtx _ _). Qed.

Lemma alone_transition clock id refused st k srv :
alone clock (transition id refused st k) srv =
match GetTenant (store srv) id with
| Err err => (srv, Fail (errStatus err))
| Panic => (srv, Crash)
| Ok t =>
    match refused t with
    | Some err => (srv, Fail (errStatus err))
    | None =>
        let '(s, r) := UpdateTenant (clock 1) (store srv) (with_Status t st) in
        match r with
        | Ok _ => alone (λ n, clock (S (S n))) k (with_store s srv)
        | Err err => (with_store s srv, Fail (errStatus err))
        | Panic => (with_store s srv, Crash)
        end
    end
end.
Proof.
cbn [transition look alone]. rewrite alone_proceed. destruct (GetTenant _ _) as [t|e|]; [|done..].
destruct (refused t); [done|]. rewrite alone_store_step, alone_proceed. by destruct (UpdateTenant _ _ _) as [s [u|e|]].
Qed.

Lemma with_store_same srv : with_store (store srv) srv = srv.
Proof. by destruct srv. Qed.

Lemma alone_deleted_guard now id st k srv :
alone (λ _, now) (transition id is_deleted st k) srv =
(let '(s, r) := (match GetTenant (store srv) id with
  | Err err => (store srv, Err err)
  | Panic => (store srv, Panic)
  | Ok t => if bool_decide (Status t = TenantDeleted) then (store srv, Err ErrTenantDeleted)
            else UpdateTenant now (store srv) (with_Status t st)
  end) in
 match r with
 | Ok _ => alone (λ _, now) k (with_store s srv)
 | Err err => (with_store s srv, Fail (errStatus err))
 | Panic => (with_store s srv, Crash)
 end).
Proof.
rewrite alone_transition. destruct (GetTenant _ _) as [t|e|]; rewrite ?with_store_same; try done.
unfold is_deleted. case_bool_decide; [by rewrite with_store_same|]. done.
Qed.

Lemma alone_create now body srv : alone (λ _, now) (create_tenant_program body) srv = handleCreateTenant now body srv.
Proof.
unfold create_tenant_program, handleCreateTenant. rewrite alone_proceed. destruct body as [req|e|]; [|done..].
case_bool_decide; [done|]. destruct (schema_mode _) as [mode|]; [|done]. destruct (_ && _); [done|].
rewrite alone_store_step, alone_proceed. destruct (Create _ _ _ _ _) as [s [t|e|]]; cbn [fst snd]; [|done..].
destruct (_ || _); [|done]. rewrite alone_store_step. cbn [store with_store]. by destruct (UpdateTenant _ _ _).
Qed.

Lemma alone_load now id body srv : alone (λ _, now) (load_schema_program id body) srv = handleLoadSchema now id body srv.
Proof.
unfold load_schema_program, handleLoadSchema. cbn [look alone]. rewrite alone_proceed.
destruct (Get _ _) as [t|e|]; [|done..]. rewrite alone_proceed. destruct body as [data|e|]; [|done..].
cbn [alone]. rewrite alone_proceed. destruct (_ ≫= _) as [cs|e|]; [|done..]. by case_bool_decide.
Qed.

Lemma alone_converse {A} now tc (m : dialogue A) k srv :
alone (λ _, now) (converse tc m k) srv =
alone (λ _, now) (k (answered_by (memory_store now (Some tc) (store srv)) m)) srv.
Proof. induction m as [a|q f IH]; [done|]. apply IH. Qed.

Lemma alone_check_item now tc subject item k srv :
alone (λ _, now) (check_item tc subject item k) srv =
match decide_item now tc subject srv item with
| inl decision => alone (λ _, now) (k decision) srv
| inr rep => (srv, rep)
end.
Proof.
unfold check_item, decide_item, Check. case_bool_decide; [done|]. destruct (negb _); [done|]. cbn [look alone].
destruct (schemaForTenant _ _) as [cs|e|]; [|done..]. rewrite alone_converse, check_follows.
by destruct (check_schema _ _ _ _) as [[r|e|]|].
Qed.

Lemma alone_check_items now tc subject l k srv :
alone (λ _, now) (check_items tc subject l k) srv =
match decide_items now tc subject srv l with
| inl decisions => alone (λ _, now) (k decisions) srv
| inr rep => (srv, rep)
end.
Proof.
revert k. induction l as [|item l IH]; intros k; [done|]. cbn [check_items decide_items]. rewrite alone_check_item.
destruct (decide_item _ _ _ _ _) as [d|rep]; [|done]. rewrite IH. by destruct (decide_items _ _ _ _ _).
Qed.

Lemma alone_with_header {A} now header (body : res A) k srv :
alone (λ _, now) (with_header header body k) srv =
match tenantCtx (store srv) header with
| Ok tc =>
    match body with
    | Ok a => alone (λ _, now) (k tc a) srv
    | Err _ => (srv, Fail 400)
    | Panic => (srv, Crash)
    end
| Err _ => (srv, Fail 400)
| Panic => (srv, Crash)
end.
Proof.
cbn [with_header look alone]. rewrite alone_proceed. destruct (tenantCtx _ _); [|done..].
rewrite alone_proceed. by destruct body.
Qed.

(** Uninterrupted, at one time, a program is its handler. *)
Lemma alone_serves now r srv : alone (λ _, now) (handler r) srv = serve now r srv.
Proof.
destruct r; cbn [handler]; try done; cbn [serve]; try exact (alone_reading _ _ _ _); try exact (alone_writing _ _ _ _ _ _).
- apply alone_create.
- rewrite alone_deleted_guard. unfold handleDeleteTenant, Delete. destruct (GetTenant _ _); [|done..].
  case_bool_decide; [done|]. by destruct (UpdateTenant _ _ _) as [s [u|e|]].
- rewrite alone_deleted_guard. unfold handleActivateTenant, Activate. destruct (GetTenant _ _); [|done..].
  case_bool_decide; [done|]. by destruct (UpdateTenant _ _ _) as [s [u|e|]].
- rewrite alone_transition. unfold handleSuspendTenant, Suspend, is_not_active.
  destruct (GetTenant _ _) as [t|e|]; cbn [answer]; rewrite ?with_store_same; try done.
  case_bool_decide; cbn [answer]; [by rewrite with_store_same|]. by destruct (UpdateTenant _ _ _) as [s [u|e|]].
- apply alone_load.
- cbn [changelog_program]. unfold changelog_program. rewrite alone_with_ctx. unfold handleReadChangelog, reading_handler.
  destruct (tenantCtx _ _) as [tc|e|]; [|done..]. cbn [answer]. destruct (changelog_query q) as [[n l]|]; [|done].
  cbn [look alone]. rewrite alone_proceed. by destruct (ReadChangelog _ _ _ _).
- unfold evaluation_program, handleAuthZenEvaluation. rewrite alone_with_header. destruct (tenantCtx _ _) as [tc|e|]; [|done..].
  cbn [answer]. destruct body as [req|e|]; [|done..]. cbn [answer]. rewrite alone_check_item. by destruct (decide_item _ _ _ _ _).
- unfold evaluations_program, handleAuthZenEvaluations. rewrite alone_with_header. destruct (tenantCtx _ _) as [tc|e|]; [|done..].
  cbn [answer]. destruct body as [req|e|]; [|done..]. cbn [answer]. rewrite alone_check_items. by destruct (decide_items _ _ _ _ _).
Qed.
End Alone.

(** ** Steps *)

Section Steps.
Context {EL : ExprLang} {DC : Decoders}.
Implicit Types (srv : Server) (r : request) (p : program).

(** Tenants stay. *)
Definition evolves srv srv' : Prop :=
∀ id, is_Some (tenants (store srv) !! id) → is_Some (tenants (store srv') !! id).

#[export] Instance evolves_preorder : PreOrder evolves.
Proof. split; [by intros srv id|]. intros a b c Hab Hbc id Hid. by apply Hbc, Hab. Qed.

(** A text and a compilation of it that the validator let through. *)
Definition accepted (data : string) (cs : CompiledSchema) : Prop :=
∃ raw now, yaml_Decode data = Ok raw ∧ Compile (sha256_hex data) now raw = Ok cs ∧ Validate cs = [].

(** What one step of a request about the tenant does to the server. *)
Inductive change (id : string) : Server → Server → Prop :=
| change_none srv : change id srv srv
| change_store now ctx o srv : about id ctx o → change id srv (with_store (perform now ctx o (store srv)).1 srv)
| change_engine data cs srv :
    accepted data cs → is_Some (tenants (store srv) !! id) → change id srv (load_engine id cs srv)
| change_registry data cs srv :
    accepted data cs → is_Some (tenants (store srv) !! id) → change id srv (load_registry id data cs srv).

(** The invariant that steps of different requests keep between them.  Unlike
  [server_ok] it does not say that the engine has the schemas of the registry. *)
Record concurrent_ok srv : Prop := {
con_history : history (store srv);
con_depth : cfg_MaxCheckDepth (eng srv) = DefaultConfig;
con_shared : sharedSchemas (eng srv) = ∅;
con_texts : dom (schema_texts srv) = dom (schema_compiled srv);
con_engine id cs :
  schemas (eng srv) !! id = Some cs → is_Some (tenants (store srv) !! id) ∧ ∃ data, accepted data cs;
con_registry id cs :
  schema_compiled srv !! id = Some cs →
  is_Some (tenants (store srv) !! id) ∧ ∃ data, schema_texts srv !! id = Some data ∧ accepted data cs }.

Lemma server_ok_concurrent srv : server_ok srv → concurrent_ok srv.
Proof.
intros [H1 H2 H3 H4 H5 H6]. split; try done.
- intros id cs. rewrite H4. intros (Ht & data & raw & now & _ & Hd)%H6. split; [done|]. by exists data, raw, now.
- intros id cs (Ht & data & raw & now & Hx & Hd)%H6. split; [done|]. exists data. split; [done|]. by exists raw, now.
Qed.

Lemma change_evolves id srv srv' : change id srv srv' → evolves srv srv'.
Proof. intros [] tid Hin; try done. by apply perform_keeps_tenants. Qed.

Lemma change_ok id srv srv' : change id srv srv' → concurrent_ok srv → concurrent_ok srv'.
Proof.
intros Hc Hs. pose proof (change_evolves id srv srv' Hc) as He.
destruct Hc as [srv|now ctx o srv Ha|data cs srv Hd Ht|data cs srv Hd Ht]; [done|..]; destruct Hs as [H1 H2 H3 H4 H5 H6].
- split; try done.
  + by apply history_step.
  + intros tid cs [Hin Hx]%H5. split; [by apply He|done].
  + intros tid cs [Hin Hx]%H6. split; [by apply He|done].
- split; try done. cbn. intros tid cs'. destruct (decide (tid = id)) as [->|Hne].
  + rewrite lookup_insert_eq. intros [= <-]. eauto.
  + rewrite lookup_insert_ne by done. apply H5.
- split; try done; cbn.
  + by rewrite !dom_insert_L, H4.
  + intros tid cs'. destruct (decide (tid = id)) as [->|Hne].
    * rewrite !lookup_insert_eq. intros [= <-]. eauto.
    * rewrite !lookup_insert_ne by done. apply H6.
Qed.

(** The tenants the step is not about. *)
Lemma change_isolates id tid srv srv' :
change id srv srv' → concurrent_ok srv → tid ≠ id →
data_of (store srv') tid = data_of (store srv) tid ∧ tenants (store srv') !! tid = tenants (store srv) !! tid ∧
schema_of srv' tid = schema_of srv tid.
Proof.
intros Hc Hs Hne. destruct Hc as [srv|now ctx o srv Ha|data cs srv Hd Ht|data cs srv Hd Ht]; [done|..].
- destruct (effect_isolates id (store srv) (perform now ctx o (store srv)).1 tid) as [Hd Ht]; [by apply effect_one| |done|].
  + apply history_ok, con_history, Hs.
  + by split_and!.
- split_and!; try done. unfold schema_of. cbn. by rewrite lookup_insert_ne.
- split_and!; try done. unfold schema_of. cbn. by rewrite !lookup_insert_ne.
Qed.

(** Every step the program can take from here on, whatever other requests do between its
  steps, is about the tenant. *)
Inductive well (id : string) : Server → program → Prop :=
| well_done srv rep : well id srv (Done rep)
| well_step srv f :
    (∀ now srv', concurrent_ok srv' → evolves srv srv' →
       change id srv' (f now srv').1 ∧ well id (f now srv').1 (f now srv').2) →
    well id srv (Step f).

Lemma well_evolves id srv srv' p : evolves srv srv' → well id srv p → well id srv' p.
Proof.
intros He Hw. destruct Hw as [|srv f Hf]; [constructor|]. constructor.
intros now srv2 Hok He2. apply Hf; [done|]. by transitivity srv'.
Qed.

Lemma well_local id srv (k : Z → Server → program) :
(∀ now srv', concurrent_ok srv' → evolves srv srv' → well id srv' (k now srv')) →
well id srv (Step (λ now srv, (srv, k now srv))).
Proof. intros Hk. constructor. intros now srv' Hok He. split; [constructor|by apply Hk]. Qed.

Lemma well_look id srv k :
(∀ srv', concurrent_ok srv' → evolves srv srv' → well id srv' (k srv')) → well id srv (look k).
Proof. intros Hk. by apply (well_local id srv (λ _, k)). Qed.

Lemma well_proceed {A} id srv (code : error → Z) (m : res A) k :
(∀ a, m = Ok a → well id srv (k a)) → well id srv (proceed code m k).
Proof. intros Hk. destruct m; [by apply Hk|constructor..]. Qed.

Lemma well_store_step {A} id srv (op : Z → Store → Store * res A) k :
(∀ now srv', concurrent_ok srv' → evolves srv srv' →
   change id srv' (with_store (op now (store srv')).1 srv') ∧
   well id (with_store (op now (store srv')).1 srv') (k (op now (store srv')).2)) →
well id srv (store_step op k).
Proof. intros Hk. constructor. intros now srv' Hok He. specialize (Hk now srv' Hok He). by destruct (op now _). Qed.

Lemma well_writing {A} id srv (body : Z → res A) op k :
(∀ tc a now srv, tc_TenantID tc = id → change id srv (with_store (op tc a now (store srv)).1 srv)) →
well id srv (writing_program id body op k).
Proof.
intros Hop. apply well_look. intros srv1 _ _. apply well_proceed. intros tc Htc%tenantCtx_id.
apply well_local. intros now srv2 _ _. apply well_proceed. intros a _.
apply well_store_step. intros now' srv3 _ _. split; [by apply Hop|constructor].
Qed.

Lemma well_reading id srv k : well id srv (reading_program id k).
Proof.
apply well_look. intros srv1 _ _. apply well_proceed. intros tc _. apply (well_local id). intros. constructor.
Qed.

Lemma well_transition id srv refused st k :
(∀ srv', well id srv' k) → well id srv (transition id refused st k).
Proof.
intros Hk. apply well_look. intros srv1 Hok _. apply well_proceed. intros t Ht.
destruct (refused t); [constructor|]. apply well_store_step. intros now srv2 _ _. split.
- apply (change_store id now None (OpUpdateTenant (with_Status t st))). cbn. unfold GetTenant in Ht.
  destruct (tenants (store srv1) !! id) eqn:E; [|done]. injection Ht as <-.
  by apply (ok_ids _ (history_ok _ (con_history _ Hok))).
- apply well_proceed. intros _ _. apply Hk.
Qed.

Lemma well_create body srv :
well (default "" (addressed (PostTenant body))) srv (create_tenant_program body).
Proof.
apply well_proceed. intros req ->. cbn [addressed default]. case_bool_decide; [constructor|].
destruct (schema_mode _) as [mode|]; [|constructor]. destruct (_ && _); [constructor|].
apply well_store_step. intros now srv1 _ _. split.
- unfold Create. destruct (ValidateTenantID _); cbn [fst]; rewrite ?with_store_same; try constructor.
  match goal with |- context [CreateTenant now _ ?t] =>
    pose proof (change_store (ct_ID req) now None (OpCreateTenant t) srv1 eq_refl) as Hc end.
  cbn [perform] in Hc. by destruct (CreateTenant _ _ _) as [s [u|e|]].
- apply well_proceed. intros t Ht. destruct (_ || _); [|constructor].
  apply well_store_step. intros now' srv2 _ _. split; [|constructor].
  apply (change_store _ now' None (OpUpdateTenant _)). cbn.
  destruct (Create now _ _ _ mode) as [s r] eqn:E. cbn in Ht. subst r. by apply Create_Ok in E as [? _].
Qed.

Lemma well_load id body srv : well id srv (load_schema_program id body).
Proof.
apply well_look. intros srv1 _ _. apply well_proceed. intros t Ht. apply well_proceed. intros data _.
apply well_local. intros now srv2 _ He2. apply well_proceed. intros cs Hcs. case_bool_decide as Hv; [|constructor].
assert (Hacc : accepted data cs).
{ destruct (yaml_Decode data) as [raw|e|] eqn:Ey; [|done..]. by exists raw, now. }
assert (Hin : is_Some (tenants (store srv1) !! id)).
{ revert Ht. unfold Get, GetTenant. by destruct (tenants (store srv1) !! id). }
constructor. intros now3 srv3 _ He3. split; [by apply (change_engine id data); [|apply He3, He2]|].
constructor. intros now4 srv4 _ He4. split; [by apply change_registry; [|apply He4, He3, He2]|]. constructor.
Qed.

Lemma well_converse {A} id srv tc (m : dialogue A) k :
(∀ a srv', well id srv' (k a)) → well id srv (converse tc m k).
Proof. intros Hk. revert srv. induction m as [a|q f IH]; intros srv; [apply Hk|]. apply (well_local id). intros. apply IH. Qed.

Lemma well_check_item id srv tc subject item k :
(∀ d srv', well id srv' (k d)) → well id srv (check_item tc subject item k).
Proof.
intros Hk. unfold check_item. case_bool_decide; [apply Hk|]. destruct (negb _); [apply Hk|].
apply well_look. intros srv1 _ _. destruct (schemaForTenant _ _); [|apply Hk|constructor].
apply well_converse. intros [[r|e|]|] srv2; try constructor; apply Hk.
Qed.

Lemma well_check_items id srv tc subject l k :
(∀ ds srv', well id srv' (k ds)) → well id srv (check_items tc subject l k).
Proof.
revert srv k. induction l as [|item l IH]; intros srv k Hk; [apply Hk|].
apply well_check_item. intros d srv'. apply IH. intros ds. apply Hk.
Qed.

Lemma well_with_header {A} id srv header (body : res A) k :
(∀ tc a srv', well id srv' (k tc a)) → well id srv (with_header header body k).
Proof.
intros Hk. apply well_look. intros srv1 _ _. apply well_proceed. intros tc _. apply well_proceed. intros a _. apply Hk.
Qed.

Lemma handler_well r srv : well (default "" (addressed r)) srv (handler r).
Proof.
destruct r; cbn [handler]; try apply well_reading; try (apply well_transition; intros srv');
  try (by apply well_look; constructor); try by constructor.
- apply well_create.
- apply well_load.
- apply well_writing. intros tc l now s Hid. by apply (change_store tenantID now (Some tc) (OpWriteTuples l)).
- apply well_writing. intros tc t now s Hid. by apply (change_store tenantID now (Some tc) (OpWriteTuples [t])).
- apply well_writing. intros tc q now s Hid. by apply (change_store tenantID now (Some tc) (OpDeleteTuple (tupleFromRequest q))).
- apply well_writing. intros tc m now s Hid. by apply (change_store tenantID now (Some tc) (OpSetObjectAttributes typ id m)).
- apply well_writing. intros tc m now s Hid. by apply (change_store tenantID now (Some tc) (OpSetSubjectAttributes typ id m)).
- apply well_look. intros srv1 _ _. apply well_proceed. intros tc _. destruct (changelog_query q) as [[n l]|]; [|constructor].
  apply well_look. intros srv2 _ _. apply well_proceed. intros entries _. apply well_look. constructor.
- apply well_with_header. intros tc a srv'. apply well_check_item. constructor.
- apply well_with_header. intros tc a srv'. apply well_check_items. constructor.
Qed.

(** ** Interleavings *)

(** The requests a server is serving, with what is left of each. *)
Definition config_ok (rs : list request) (c : config) : Prop :=
concurrent_ok (server c) ∧ Forall2 (λ r p, well (default "" (addressed r)) (server c) p) rs (threads c).

Lemma move_step i now c :
move i now c = c ∨
∃ f, threads c !! i = Some (Step f) ∧
  move i now c = MkConfig (f now (server c)).1 (<[i := (f now (server c)).2]> (threads c)).
Proof.
unfold move. destruct (threads c !! i) as [[rep|f]|] eqn:E; [by left| |by left].
right. exists f. split; [done|]. by destruct (f now (server c)).
Qed.

(** The step a thread takes is a change about the tenant of its request. *)
Lemma move_change rs i now c :
config_ok rs c →
config_ok rs (move i now c) ∧
(move i now c = c ∨ ∃ r, rs !! i = Some r ∧ change (default "" (addressed r)) (server c) (server (move i now c))).
Proof.
intros [Hok Hw]. destruct (move_step i now c) as [->|(f & Hf & ->)]; [by split; [|left]|].
destruct (Forall2_lookup_r _ _ _ _ _ Hw Hf) as (r & Hr & Hwf). inversion Hwf as [|? ? Hstep]; subst.
destruct (Hstep now (server c) Hok) as [Hc Hw']; [done|]. split; [|right; eauto].
split; [by eapply change_ok|]. cbn. rewrite <-(list_insert_id rs i r Hr). apply Forall2_insert; [|done].
eapply Forall2_impl; [exact Hw|]. intros r' p Hp. eapply well_evolves; [by eapply change_evolves|done].
Qed.

Lemma run_config_ok rs sched c : config_ok rs c → config_ok rs (run_schedule sched c).
Proof.
revert c. induction sched as [|[i now] sched IH]; intros c Hc; [done|]. apply IH. by apply (move_change rs i now c Hc).
Qed.

Lemma start_config_ok rs srv : serving srv → config_ok rs (start srv rs).
Proof.
intros Hs. split; [by apply server_ok_concurrent, serving_ok|]. cbn.
apply Forall2_fmap_r, Forall_Forall2_diag, Forall_forall. intros r _. apply handler_well.
Qed.

Lemma run_isolates rs tid sched c :
config_ok rs c → Forall (λ r, default "" (addressed r) ≠ tid) rs →
data_of (store (server (run_schedule sched c))) tid = data_of (store (server c)) tid ∧
tenants (store (server (run_schedule sched c))) !! tid = tenants (store (server c)) !! tid ∧
schema_of (server (run_schedule sched c)) tid = schema_of (server c) tid.
Proof.
intros Hc Hrs. revert c Hc. induction sched as [|[i now] sched IH]; intros c Hc; [done|].
destruct (move_change rs i now c Hc) as [Hc' Hm].
change (run_schedule ((i, now) :: sched) c) with (run_schedule sched (move i now c)). destruct (IH (move i now c) Hc') as (-> & -> & ->).
destruct Hm as [->|(r & Hr & Hm)]; [done|]. eapply change_isolates; [exact Hm|apply Hc|].
intros ->. by apply (Forall_lookup_1 _ _ _ _ Hrs Hr).
Qed.
End Steps.
