(* ===== verification/ConcurrentIsolation.v ===== *)
(** * A tenant's requests among those of others

    What a step of a request does to the tenant it names depends on nothing but what the
    server holds for that tenant.  So the requests of a tenant, interleaved with any
    requests of other tenants, do what they do without them. *)

From S2P Require Import Prelude GoLib ServerModel ServerSchema ServerEngine EngineTermination EngineSteps Changelog ServerStore StoreFacts ServerTenants ServerApi StoreProperties ApiFacts ApiIsolation Concurrent ConcurrentFacts.

Open Scope nat_scope.

(** ** Operations of the store *)

Section Twins.
Context {EL : ExprLang}.
Implicit Types (s : Store) (tid : string).

(** The two stores hold the same for the tenant. *)
Definition twins tid s s' : Prop := tenants s !! tid = tenants s' !! tid ∧ data_of s tid = data_of s' tid.

Lemma twins_parts tid s s' :
twins tid s s' →
tuples_of s tid = tuples_of s' tid ∧ default ∅ (objAttrs s !! tid) = default ∅ (objAttrs s' !! tid) ∧
default ∅ (subAttrs s !! tid) = default ∅ (subAttrs s' !! tid) ∧ log_of s tid = log_of s' tid.
Proof. intros [_ [= H1 H2 H3 H4 H5]]. split_and!; [done..|]. unfold log_of. by rewrite H4, H5. Qed.

Lemma twins_writable tid s s' : twins tid s s' → checkTenantWritable s tid = checkTenantWritable s' tid.
Proof. intros [H _]. unfold checkTenantWritable. by rewrite H. Qed.

Lemma twins_set_tuples tid ts s s' : twins tid s s' → twins tid (set_tuples tid ts s) (set_tuples tid ts s').
Proof.
intros Ht. pose proof (twins_parts _ _ _ Ht) as (_ & Ho & Hs & Hl). split; [apply Ht|].
unfold data_of, tuples_of. cbn. rewrite !lookup_insert_eq, Ho, Hs. by f_equal.
Qed.

Lemma twins_set_log tid l s s' : twins tid s s' → twins tid (set_log tid l s) (set_log tid l s').
Proof.
intros Ht. pose proof (twins_parts _ _ _ Ht) as (Hu & Ho & Hs & _). split; [apply Ht|].
unfold data_of. cbn. rewrite Ho, Hs. unfold tuples_of in *. cbn. rewrite Hu. unfold log_of. cbn.
by rewrite !lookup_insert_eq.
Qed.

Lemma twins_append now tid o t source s s' :
twins tid s s' →
twins tid (appendTupleChangelogUnsafe now tid o t source s) (appendTupleChangelogUnsafe now tid o t source s').
Proof.
intros Ht. unfold appendTupleChangelogUnsafe. pose proof (twins_parts _ _ _ Ht) as (_ & _ & _ & ->).
by apply twins_set_log.
Qed.

Lemma twins_foldl now tid l s s' :
twins tid s s' →
twins tid (foldl (λ s t, appendTupleChangelogUnsafe now tid ChangeOpInsert t "api" s) s l)
  (foldl (λ s t, appendTupleChangelogUnsafe now tid ChangeOpInsert t "api" s) s' l).
Proof. revert s s'. induction l as [|t l IH]; intros s s' Ht; [done|]. by apply IH, twins_append. Qed.

Lemma twins_put tid t s s' : twins tid s s' → twins tid (set_tenants <[tid := t]> s) (set_tenants <[tid := t]> s').
Proof. intros [_ Hd]. split; [cbn; by rewrite !lookup_insert_eq|done]. Qed.

(** The opening of the operations that write. *)
Lemma twins_writing {A} tid tc s s' (f g : string → Store * res A) :
tc_TenantID tc = tid → twins tid s s' →
(checkTenantWritable s tid = None → twins tid (f tid).1 (g tid).1 ∧ (f tid).2 = (g tid).2) →
twins tid (writing (Some tc) s f).1 (writing (Some tc) s' g).1 ∧ (writing (Some tc) s f).2 = (writing (Some tc) s' g).2.
Proof.
intros Htc Ht Hf. unfold writing. cbn. rewrite Htc, <-(twins_writable _ _ _ Ht).
destruct (checkTenantWritable s tid) as [e|]; [done|by apply Hf].
Qed.

Lemma create_twins now tid t s s' :
ID t = tid → store_ok s → store_ok s' → twins tid s s' →
twins tid (CreateTenant now s t).1 (CreateTenant now s' t).1 ∧ (CreateTenant now s t).2 = (CreateTenant now s' t).2.
Proof.
intros <- Hs Hs' Ht. pose proof Ht as [Htn Hd]. unfold CreateTenant. rewrite <-Htn.
destruct (tenants s !! ID t); [done|]. cbn [fst snd]. split; [|done]. rewrite !init_set_tenants.
apply twins_put. split; [|by rewrite !data_init].
assert (Hinit : ∀ s, tenants (initTenant (ID t) s) = tenants s) by (intros s0; unfold initTenant; by destruct (tuples s0 !! _)).
rewrite !Hinit. apply Ht.
Qed.

Lemma update_twins now tid t s s' :
ID t = tid → twins tid s s' →
twins tid (UpdateTenant now s t).1 (UpdateTenant now s' t).1 ∧ (UpdateTenant now s t).2 = (UpdateTenant now s' t).2.
Proof.
intros <- Ht. unfold UpdateTenant. rewrite <-(proj1 Ht). destruct (tenants s !! ID t); [|done]. cbn [fst snd].
split; [by apply twins_put|done].
Qed.

Lemma write_twins now tid tc l s s' :
tc_TenantID tc = tid → twins tid s s' →
twins tid (WriteTuples now (Some tc) l s).1 (WriteTuples now (Some tc) l s').1 ∧
(WriteTuples now (Some tc) l s).2 = (WriteTuples now (Some tc) l s').2.
Proof.
intros Htc Ht. apply twins_writing; [done..|]. intros _. unfold writeTuplesLocked. case_bool_decide; [done|].
pose proof (twins_parts _ _ _ Ht) as (<- & _). destruct (scan _ _ _ _ _) as [E X].
destruct (stage _ _ _ _ _) as [staged|e|]; [|done..]. destruct (place _ _ _ _) as [ts ap]. cbn [fst snd].
split; [|done]. by apply twins_foldl, twins_set_tuples.
Qed.

Lemma delete_twins now tid tc t s s' :
tc_TenantID tc = tid → twins tid s s' →
twins tid (DeleteTuple now (Some tc) t s).1 (DeleteTuple now (Some tc) t s').1 ∧
(DeleteTuple now (Some tc) t s).2 = (DeleteTuple now (Some tc) t s').2.
Proof.
intros Htc Ht. apply twins_writing; [done..|]. intros _. pose proof (twins_parts _ _ _ Ht) as (<- & _).
destruct (delete_first _ _) as [[t' ts]|]; [|done]. split; [|done]. by apply twins_append, twins_set_tuples.
Qed.

(** A bucket of attributes where the tenant's tuples have theirs. *)
Lemma writable_attrs s tid :
store_ok s → checkTenantWritable s tid = None → is_Some (objAttrs s !! tid) ∧ is_Some (subAttrs s !! tid).
Proof.
intros Hs Hw. pose proof (writable_bucket s tid Hs Hw) as Hin.
split; apply elem_of_dom; [by rewrite (ok_objAttrs s Hs)|by rewrite (ok_subAttrs s Hs)].
Qed.

Lemma set_object_twins tid tc typ id m s s' :
tc_TenantID tc = tid → store_ok s → store_ok s' → twins tid s s' →
twins tid (SetObjectAttributes (Some tc) typ id m s).1 (SetObjectAttributes (Some tc) typ id m s').1 ∧
(SetObjectAttributes (Some tc) typ id m s).2 = (SetObjectAttributes (Some tc) typ id m s').2.
Proof.
intros Htc Hs Hs' Ht. apply twins_writing; [done..|]. intros Hw.
destruct (writable_attrs s tid Hs Hw) as [[a Ha] _].
destruct (writable_attrs s' tid Hs') as [[a' Ha'] _]; [by rewrite <-(twins_writable _ _ _ Ht)|].
pose proof (twins_parts _ _ _ Ht) as (Hu & Ho & Hsu & Hl). rewrite Ha, Ha' in Ho. cbn in Ho. subst a'.
unfold set_attributes. rewrite Ha, Ha'. cbn. split; [|done]. split; [apply Ht|].
unfold data_of. cbn. unfold tuples_of, log_of in *. cbn. injection Hl as Hl1 Hl2.
by rewrite !lookup_insert_eq, Hu, Hsu, Hl1, Hl2.
Qed.

Lemma set_subject_twins tid tc typ id m s s' :
tc_TenantID tc = tid → store_ok s → store_ok s' → twins tid s s' →
twins tid (SetSubjectAttributes (Some tc) typ id m s).1 (SetSubjectAttributes (Some tc) typ id m s').1 ∧
(SetSubjectAttributes (Some tc) typ id m s).2 = (SetSubjectAttributes (Some tc) typ id m s').2.
Proof.
intros Htc Hs Hs' Ht. apply twins_writing; [done..|]. intros Hw.
destruct (writable_attrs s tid Hs Hw) as [_ [a Ha]].
destruct (writable_attrs s' tid Hs') as [_ [a' Ha']]; [by rewrite <-(twins_writable _ _ _ Ht)|].
pose proof (twins_parts _ _ _ Ht) as (Hu & Ho & Hsu & Hl). rewrite Ha, Ha' in Hsu. cbn in Hsu. subst a'.
unfold set_attributes. rewrite Ha, Ha'. cbn. split; [|done]. split; [apply Ht|].
unfold data_of. cbn. unfold tuples_of, log_of in *. cbn. injection Hl as Hl1 Hl2.
by rewrite !lookup_insert_eq, Hu, Ho, Hl1, Hl2.
Qed.
End Twins.

(** ** Programs that see one tenant *)

Section Local.
Context {EL : ExprLang} {DC : Decoders}.
Implicit Types (srv : Server) (r : request) (p : program) (tid : string).

#[export] Instance same_view_equivalence tid : Equivalence (same_view tid).
Proof.
split.
- intros srv. apply same_view_refl.
- by intros srv srv' [].
- intros a b c [] []. split; congruence.
Qed.

Lemma view_with_store tid srv srv' s s' :
same_view tid srv srv' → twins tid s s' → same_view tid (with_store s srv) (with_store s' srv').
Proof. intros [] []. by split. Qed.

Lemma view_twins tid srv srv' : same_view tid srv srv' → twins tid (store srv) (store srv').
Proof. intros []. by split. Qed.

(** From here on every step of the program does the same on servers that hold the same for
  the tenant, and goes on in the same way. *)
Inductive local tid : program → Prop :=
| local_done rep : local tid (Done rep)
| local_step f :
    (∀ now srv srv', store_ok (store srv) → store_ok (store srv') → same_view tid srv srv' →
       same_view tid (f now srv).1 (f now srv').1 ∧ (f now srv).2 = (f now srv').2 ∧ local tid (f now srv).2) →
    local tid (Step f).

Lemma local_reads tid (k : Z → Server → program) :
(∀ now srv srv', store_ok (store srv) → store_ok (store srv') → same_view tid srv srv' →
   k now srv = k now srv' ∧ local tid (k now srv)) →
local tid (Step (λ now srv, (srv, k now srv))).
Proof. intros Hk. constructor. intros now srv srv' Hs Hs' Hv. by destruct (Hk now srv srv' Hs Hs' Hv). Qed.

Lemma local_proceed {A} tid (code : error → Z) (m : res A) k :
(∀ a, m = Ok a → local tid (k a)) → local tid (proceed code m k).
Proof. intros Hk. destruct m; [by apply Hk|constructor..]. Qed.

Lemma local_store_step {A} tid (op : Z → Store → Store * res A) k :
(∀ now s s', store_ok s → store_ok s' → twins tid s s' →
   twins tid (op now s).1 (op now s').1 ∧ (op now s).2 = (op now s').2 ∧ local tid (k (op now s).2)) →
local tid (store_step op k).
Proof.
intros Hop. constructor. intros now srv srv' Hs Hs' Hv.
destruct (Hop now (store srv) (store srv') Hs Hs' (view_twins _ _ _ Hv)) as (Ht & Hr & Hk).
destruct (op now (store srv)) as [s a], (op now (store srv')) as [s' a']. cbn in *. subst a'.
split_and!; [by apply view_with_store|done..].
Qed.

Lemma local_with_ctx tid k : (∀ tc, tc_TenantID tc = tid → local tid (k tc)) → local tid (with_ctx tid k).
Proof.
intros Hk. apply (local_reads tid (λ _ _, _)). intros _ srv srv' _ _ Hv. rewrite (view_ctx _ _ _ Hv). split; [done|].
apply local_proceed. intros tc Htc. by eapply Hk, tenantCtx_id.
Qed.

Lemma local_writing {A} tid (body : Z → res A) op k :
(∀ tc a now s s', tc_TenantID tc = tid → store_ok s → store_ok s' → twins tid s s' →
   twins tid (op tc a now s).1 (op tc a now s').1 ∧ (op tc a now s).2 = (op tc a now s').2) →
local tid (writing_program tid body op k).
Proof.
intros Hop. apply local_with_ctx. intros tc Htc. apply local_reads. intros now srv srv' _ _ _. split; [done|].
apply local_proceed. intros a _. apply local_store_step. intros now' s s' Hs Hs' Ht.
destruct (Hop tc a now' s s' Htc Hs Hs' Ht). by split_and!; [..|constructor].
Qed.

Lemma local_reading tid (k : Z → Server → TenantContext → reply) :
(∀ now srv srv' tc, same_view tid srv srv' → tc_TenantID tc = tid → k now srv tc = k now srv' tc) →
local tid (reading_program tid k).
Proof.
intros Hk. apply local_with_ctx. intros tc Htc. apply local_reads. intros now srv srv' _ _ Hv.
by rewrite (Hk now srv srv' tc Hv Htc); split; [|constructor].
Qed.

Lemma local_transition tid refused st k :
local tid k → local tid (transition tid refused st k).
Proof.
intros Hk. apply (local_reads tid (λ _ _, _)). intros _ srv srv' Hs _ Hv. unfold GetTenant.
rewrite <-(view_tenant _ _ _ Hv). split; [done|]. apply local_proceed. intros t Ht. destruct (refused t); [constructor|].
assert (Hid : ID t = tid).
{ destruct (tenants (store srv) !! tid) eqn:E; [|done]. injection Ht as <-. by apply (ok_ids _ Hs). }
apply local_store_step. intros now s s' _ _ Htw.
destruct (update_twins now tid (with_Status t st) s s' Hid Htw). split_and!; [done..|].
by apply local_proceed.
Qed.

Lemma local_show tid : local tid (show_tenant tid).
Proof.
apply (local_reads tid (λ _ _, _)). intros _ srv srv' _ _ Hv. unfold tenant_now, Get, GetTenant.
by rewrite (view_tenant _ _ _ Hv); split; [|constructor].
Qed.

Lemma local_create req : local (ct_ID req) (create_tenant_program (Ok req)).
Proof.
cbn [create_tenant_program proceed]. case_bool_decide; [constructor|]. destruct (schema_mode _) as [mode|]; [|constructor].
destruct (_ && _); [constructor|]. apply local_store_step. intros now s s' Hs Hs' Ht.
assert (Hc : twins (ct_ID req) (Create now s (ct_ID req) (ct_DisplayName req) mode).1
               (Create now s' (ct_ID req) (ct_DisplayName req) mode).1 ∧
             (Create now s (ct_ID req) (ct_DisplayName req) mode).2 = (Create now s' (ct_ID req) (ct_DisplayName req) mode).2).
{ unfold Create. destruct (ValidateTenantID _); [|done..].
  match goal with |- context [CreateTenant now s ?t] => pose proof (create_twins now (ct_ID req) t s s' eq_refl Hs Hs' Ht) as [H1 H2] end.
  destruct (CreateTenant now s _) as [s1 r1], (CreateTenant now s' _) as [s2 r2]. cbn in H1, H2. subst r2. by destruct r1. }
destruct Hc as [Hc1 Hc2]. split_and!; [done..|].
apply local_proceed. intros t Et. destruct (_ || _); [|constructor]. apply local_store_step. intros now' s2 s2' _ _ Ht2.
destruct (update_twins now' (ct_ID req) (with_parent t (ct_ParentTenantID req) (ct_SharedSchemaRef req)) s2 s2') as [? ?];
  [|done|by split_and!; [..|constructor]].
destruct (Create now s _ _ mode) as [s3 r3] eqn:E. cbn in Et. subst r3. by apply Create_Ok in E as [? _].
Qed.

Lemma local_load tid body : local tid (load_schema_program tid body).
Proof.
apply (local_reads tid (λ _ _, _)). intros _ srv srv' _ _ Hv. unfold Get, GetTenant. rewrite <-(view_tenant _ _ _ Hv).
split; [done|]. apply local_proceed. intros t _. apply local_proceed. intros data _.
apply local_reads. intros now srv1 srv1' _ _ _. split; [done|]. apply local_proceed. intros cs _.
case_bool_decide; [|constructor].
constructor. intros now2 srv2 srv2' _ _ [H1 H2 H3 H4 H5]. cbn. unfold schema_of in H3. injection H3 as H6 H7 H8.
split; [|split; [done|]].
{ split; try done. unfold schema_of. cbn. by rewrite !lookup_insert_eq, H7, H8. }
constructor. intros now3 srv3 srv3' _ _ [G1 G2 G3 G4 G5]. cbn. unfold schema_of in G3. injection G3 as G6 G7 G8.
split; [|split; [done|constructor]]. split; try done. unfold schema_of. cbn. by rewrite !lookup_insert_eq, G6.
Qed.

Lemma local_converse {A} tid tc (m : dialogue A) k :
tc_TenantID tc = tid → (∀ a, local tid (k a)) → local tid (converse tc m k).
Proof.
intros Htc Hk. induction m as [a|q f IH]; [apply Hk|]. apply local_reads. intros now srv srv' _ _ Hv.
by rewrite (view_store _ _ _ Hv now tc Htc).
Qed.

Lemma local_check_item tid tc subject item k :
tc_TenantID tc = tid → (∀ d, local tid (k d)) → local tid (check_item tc subject item k).
Proof.
intros Htc Hk. unfold check_item. case_bool_decide; [apply Hk|]. destruct (negb _); [apply Hk|].
apply (local_reads tid (λ _ _, _)). intros _ srv srv' _ _ Hv.
rewrite (view_schemaForTenant _ _ _ Hv tc Htc), (view_depth _ _ _ Hv). split; [done|].
destruct (schemaForTenant _ _); [|apply Hk|constructor].
apply local_converse; [done|]. intros [[r|e|]|]; try constructor; apply Hk.
Qed.

Lemma local_check_items tid tc subject l k :
tc_TenantID tc = tid → (∀ ds, local tid (k ds)) → local tid (check_items tc subject l k).
Proof.
intros Htc. revert k. induction l as [|item l IH]; intros k Hk; [apply Hk|].
apply local_check_item; [done|]. intros d. apply IH. intros ds. apply Hk.
Qed.

Lemma local_with_header {A} tid (body : res A) k :
(∀ tc a, tc_TenantID tc = tid → local tid (k tc a)) → local tid (with_header tid body k).
Proof.
intros Hk. apply (local_reads tid (λ _ _, _)). intros _ srv srv' _ _ Hv. rewrite (view_ctx _ _ _ Hv). split; [done|].
apply local_proceed. intros tc Htc. apply local_proceed. intros a _. by eapply Hk, tenantCtx_id.
Qed.
End Local.

(** ** Handlers *)

Section Handlers.
Context {EL : ExprLang} {DC : Decoders}.
Implicit Types (srv : Server) (r : request) (p : program) (tid : string).

Lemma handler_local r tid : addressed r = Some tid → local tid (handler r).
Proof.
destruct r; cbn [addressed]; intros Ha; try done; [destruct body; [|done..]; injection Ha as <-; apply local_create|..];
  injection Ha as ->; cbn [handler].
- apply (local_reads tid (λ _ _, _)). intros _ srv srv' _ _ Hv. unfold handleGetTenant, Get, GetTenant.
  by rewrite (view_tenant _ _ _ Hv); split; [|constructor].
- apply local_transition. constructor.
- apply local_transition, local_show.
- apply local_transition, local_show.
- apply local_load.
- apply (local_reads tid (λ _ _, _)). intros _ srv srv' _ _ [_ _ Hx _ _]. unfold handleGetSchema.
  unfold schema_of in Hx. injection Hx as _ -> ->. split; [done|constructor].
- apply local_writing. intros tc l now s s' Htc _ _. by apply write_twins.
- apply local_writing. intros tc t now s s' Htc _ _. by apply write_twins.
- apply local_writing. intros tc t now s s' Htc _ _. by apply delete_twins.
- apply local_reading. intros now srv srv' tc Hv Htc. unfold read_tuples. case_match; [|done]. f_equal.
  apply (view_reading tid srv srv' Hv); [done|]. by destruct (view_parts _ _ _ Hv) as (-> & _).
- apply local_reading. intros now srv srv' tc Hv Htc. f_equal.
  apply (view_reading tid srv srv' Hv); [done|]. unfold list_attributes. by destruct (view_parts _ _ _ Hv) as (_ & -> & _).
- apply local_reading. intros now srv srv' tc Hv Htc. f_equal.
  apply (view_reading tid srv srv' Hv); [done|]. unfold get_attributes. by destruct (view_parts _ _ _ Hv) as (_ & -> & _).
- apply local_writing. intros tc m now s s' Htc Hs Hs'. by apply set_object_twins.
- apply local_reading. intros now srv srv' tc Hv Htc. f_equal.
  apply (view_reading tid srv srv' Hv); [done|]. unfold list_attributes. by destruct (view_parts _ _ _ Hv) as (_ & _ & -> & _).
- apply local_reading. intros now srv srv' tc Hv Htc. f_equal.
  apply (view_reading tid srv srv' Hv); [done|]. unfold get_attributes. by destruct (view_parts _ _ _ Hv) as (_ & _ & -> & _).
- apply local_writing. intros tc m now s s' Htc Hs Hs'. by apply set_subject_twins.
- apply local_with_ctx. intros tc Htc. destruct (changelog_query q) as [[since lim]|]; [|constructor].
  apply (local_reads tid (λ _ _, _)). intros _ srv srv' _ _ Hv. destruct (view_parts _ _ _ Hv) as (_ & _ & _ & Hl).
  unfold ReadChangelog. rewrite (view_reading tid srv srv' Hv tc _
    (λ t, Ok (read_entries (changelog (log_of (store srv') t)) since lim))) by (by rewrite ?Hl).
  split; [done|]. apply local_proceed. intros entries _.
  apply (local_reads tid (λ _ _, _)). intros _ srv2 srv2' _ _ Hv2. destruct (view_parts _ _ _ Hv2) as (_ & _ & _ & Hl2).
  unfold LatestSequence. rewrite (view_reading tid srv2 srv2' Hv2 tc _
    (λ t, Ok (seqCounter (log_of (store srv2') t)))) by (by rewrite ?Hl2). by split; [|constructor].
- apply local_reading. intros now srv srv' tc Hv Htc. unfold expand. destruct body as [req|e|]; [|done..]. destruct (_ || _); [done|].
  f_equal. apply (view_reading tid srv srv' Hv); [done|]. by destruct (view_parts _ _ _ Hv) as (-> & _).
- apply local_with_header. intros tc a Htc. apply local_check_item; [done|]. constructor.
- apply local_with_header. intros tc a Htc. apply local_check_items; [done|]. constructor.
Qed.

(** ** Runs with and without the other tenants *)

(** The thread serves a request that names the tenant. *)
Definition mine (rs : list request) tid (i : nat) : bool := bool_decide ((rs !! i ≫= addressed) = Some tid).

(** The steps of the tenant's requests. *)
Definition own_steps (rs : list request) tid (sched : list (nat * Z)) : list (nat * Z) :=
base.filter (λ s : nat * Z, mine rs tid s.1 = true) sched.

(** The tenant sees the same in both runs. *)
Record agree (rs : list request) tid (c d : config) : Prop := {
agree_left : config_ok rs c;
agree_right : config_ok rs d;
agree_view : same_view tid (server c) (server d);
agree_length : length (threads c) = length (threads d);
agree_threads i : mine rs tid i = true → threads c !! i = threads d !! i;
agree_local i p : mine rs tid i = true → threads c !! i = Some p → local tid p }.

Lemma concurrent_store_ok srv : concurrent_ok srv → store_ok (store srv).
Proof. intros Hs. apply history_ok, con_history, Hs. Qed.

Lemma agree_own rs tid c d i now :
agree rs tid c d → mine rs tid i = true → agree rs tid (move i now c) (move i now d).
Proof.
intros [Hc Hd Hv Hlen Hth Hloc] Hi.
pose proof (proj1 (move_change rs i now c Hc)) as Hc'. pose proof (proj1 (move_change rs i now d Hd)) as Hd'.
revert Hc' Hd'. unfold move. rewrite <-(Hth i Hi). destruct (threads c !! i) as [[rep|f]|] eqn:E; [done| |done].
pose proof (Hloc i _ Hi E) as Hl. inversion Hl as [|? Hf]; subst.
destruct (Hf now (server c) (server d)) as (Hv' & Hp & Hl');
  [by apply concurrent_store_ok, Hc|by apply concurrent_store_ok, Hd|done|].
destruct (f now (server c)) as [srv p], (f now (server d)) as [srv' p']. cbn in Hv', Hp, Hl'. subst p'.
intros Hc' Hd'. split; [done..| | |].
- cbn. by rewrite !length_insert.
- cbn [threads]. intros j Hj. destruct (decide (i = j)) as [<-|Hne]; [|by rewrite !list_lookup_insert_ne by done; apply Hth].
  pose proof (lookup_lt_Some _ _ _ E). by rewrite !list_lookup_insert_eq by lia.
- cbn [threads]. intros j q Hj. destruct (decide (i = j)) as [<-|Hne]; [|rewrite list_lookup_insert_ne by done; by apply Hloc].
  rewrite list_lookup_insert_eq by (by eapply lookup_lt_Some). by intros [= <-].
Qed.

Lemma agree_other rs tid c d i now :
tid ≠ ""%string → agree rs tid c d → mine rs tid i = false → agree rs tid (move i now c) d.
Proof.
intros Hne [Hc Hd Hv Hlen Hth Hloc] Hi. destruct (move_change rs i now c Hc) as [Hc' Hm].
assert (Hsame : ∀ j, mine rs tid j = true → threads (move i now c) !! j = threads c !! j).
{ intros j Hj. destruct (move_step i now c) as [->|(f & _ & ->)]; [done|]. cbn. apply list_lookup_insert_ne. congruence. }
split; [done..| | | |].
- destruct Hm as [->|(r & Hr & Hm)]; [done|]. assert (Ha : tid ≠ default "" (addressed r)).
  { unfold mine in Hi. rewrite Hr in Hi. apply bool_decide_eq_false in Hi. cbn in Hi. destruct (addressed r); cbn; congruence. }
  destruct (change_isolates _ tid _ _ Hm (proj1 Hc) Ha) as (H1 & H2 & H3). etrans; [|exact Hv].
  split; [done..| |].
  + by rewrite (con_depth _ (proj1 Hc')), (con_depth _ (proj1 Hc)).
  + by rewrite (con_shared _ (proj1 Hc')), (con_shared _ (proj1 Hc)).
- destruct (move_step i now c) as [->|(f & _ & ->)]; [done|]. cbn. by rewrite length_insert.
- intros j Hj. rewrite Hsame by done. by apply Hth.
- intros j p Hj. rewrite Hsame by done. by apply Hloc.
Qed.

Lemma agree_run rs tid c d sched :
tid ≠ ""%string → agree rs tid c d →
agree rs tid (run_schedule sched c) (run_schedule (own_steps rs tid sched) d).
Proof.
intros Hne. revert c d. induction sched as [|[i now] sched IH]; intros c d Ha; [done|].
change (run_schedule ((i, now) :: sched) c) with (run_schedule sched (move i now c)).
unfold own_steps. rewrite filter_cons. cbn [fst]. destruct (decide _) as [Hi|Hi].
- by apply (IH (move i now c) (move i now d)), agree_own.
- apply (IH (move i now c) d), agree_other; [done..|]. by apply not_true_is_false.
Qed.

Lemma start_agree rs tid srv : serving srv → agree rs tid (start srv rs) (start srv rs).
Proof.
intros Hs. pose proof (start_config_ok rs srv Hs) as Hc. split; try done. intros i p Hi.
cbn. intros (r & -> & Hr)%list_lookup_fmap_Some. apply handler_local. unfold mine in Hi. rewrite Hr in Hi. by bool_prop.
Qed.
End Handlers.

(** ** A request by itself *)

Section Lone.
Context {EL : ExprLang} {DC : Decoders}.
Implicit Types (srv : Server) (r : request) (p : program).

(** The times of a thread's steps. *)
Definition times (i : nat) (sched : list (nat * Z)) : list Z :=
(base.filter (λ s : nat * Z, s.1 = i) sched).*2.

(** A clock that shows the times one after the other. *)
Definition clock_of (ts : list Z) (n : nat) : Z := nth n ts 0%Z.

Lemma alone_run i ts c p rep :
threads c !! i = Some p → threads (run_schedule (pair i <$> ts) c) !! i = Some (Done rep) →
alone (clock_of ts) p (server c) = (server (run_schedule (pair i <$> ts) c), rep).
Proof.
revert c p. induction ts as [|now ts IH]; intros c p Hp Hd; [cbn in Hd; rewrite Hp in Hd; by injection Hd as ->|].
cbn [fmap list_fmap] in Hd |- *. change (run_schedule (?s :: ?l) c) with (run_schedule l (move s.1 s.2 c)) in Hd |- *.
cbn [fst snd] in Hd |- *. revert Hd. unfold move. rewrite Hp. destruct p as [rep'|f].
- intros Hd. pose proof (IH c (Done rep') Hp Hd) as [= <- <-]. done.
- cbn [alone]. change (clock_of (now :: ts) 0) with now. destruct (f now (server c)) as [srv p].
  intros Hd. apply (IH (MkConfig srv (<[i := p]> (threads c))) p); [|done].
  cbn. apply list_lookup_insert_eq. by eapply lookup_lt_Some.
Qed.

(** When only one thread is about the tenant, its steps are all that is left. *)
Lemma own_steps_lone rs tid i sched :
(∀ j, mine rs tid j = true ↔ j = i) → own_steps rs tid sched = pair i <$> times i sched.
Proof.
intros Hi. unfold own_steps, times. induction sched as [|[j now] sched IH]; [done|]. rewrite !filter_cons. cbn [fst].
destruct (decide (mine rs tid j = true)) as [Hj|Hj].
- pose proof (proj1 (Hi j) Hj) as ->. rewrite decide_True by done. cbn. by rewrite <-IH.
- rewrite decide_False by (by rewrite <-Hi). exact IH.
Qed.
End Lone.
