(* ===== verification/ConcurrentChecks.v ===== *)
(** * Evaluations among writes

    What a thread does is a function of the moments at which it took its steps.  So an
    evaluation that allows while other requests write is explained by what the engine and
    the store had at those moments. *)

From S2P Require Import Prelude GoLib ServerModel ServerSchema ServerEngine EngineTermination EngineSpec EngineSteps EngineMoments Changelog ServerStore StoreFacts ServerTenants ServerApi ApiFacts Concurrent ConcurrentFacts.

Open Scope nat_scope.

(** ** The moments of a thread *)

Section Moments.
Context {EL : ExprLang} {DC : Decoders}.
Implicit Types (srv : Server) (r : request) (p : program) (l : list (Z * Server)).

(** The times and the servers at which thread [i] is scheduled. *)
Fixpoint moments (i : nat) (sched : list (nat * Z)) (c : config) : list (Z * Server) :=
match sched with
| [] => []
| (j, now) :: sched =>
    (if bool_decide (j = i) then [(now, server c)] else []) ++ moments i sched (move j now c)
end.

(** The program after steps at the moments. *)
Fixpoint follow l p : program :=
match l with
| [] => p
| (now, srv) :: l => follow l match p with Done rep => Done rep | Step f => (f now srv).2 end
end.

Lemma follow_done l rep : follow l (Done rep) = Done rep.
Proof. induction l as [|[now srv] l IH]; [done|]. apply IH. Qed.

Lemma moments_follow i sched c : threads (run_schedule sched c) !! i = follow (moments i sched c) <$> threads c !! i.
Proof.
revert c. induction sched as [|[j now] sched IH]; intros c; [by destruct (_ !! _)|].
change (run_schedule ((j, now) :: sched) c) with (run_schedule sched (move j now c)). rewrite IH. cbn [moments].
case_bool_decide as Hj.
- subst j. cbn [app]. unfold move at 2. destruct (threads c !! i) as [[rep|f]|] eqn:E; rewrite ?E; [done| |done].
  destruct (f now (server c)) as [srv p] eqn:Ef. cbn [threads]. rewrite list_lookup_insert_eq by (by eapply lookup_lt_Some).
  cbn. by rewrite Ef.
- cbn [app]. f_equal. unfold move. destruct (threads c !! j) as [[rep|f]|]; [done| |done].
  destruct (f now (server c)). cbn. by rewrite list_lookup_insert_ne.
Qed.

Lemma moments_ok rs i sched c : config_ok rs c → Forall (λ m, concurrent_ok m.2) (moments i sched c).
Proof.
revert c. induction sched as [|[j now] sched IH]; intros c Hc; [constructor|]. cbn [moments].
apply Forall_app. split; [|by apply IH, move_change]. case_bool_decide; [|constructor]. constructor; [apply Hc|constructor].
Qed.

(** A moment is a step of the thread in the run. *)
Lemma moments_spec i sched c now srv :
(now, srv) ∈ moments i sched c →
∃ pre post, sched = pre ++ (i, now) :: post ∧ srv = server (run_schedule pre c).
Proof.
revert c. induction sched as [|[j t] sched IH]; intros c; [by intros ?%elem_of_nil|]. cbn [moments].
intros [H|H]%elem_of_app.
- case_bool_decide; [|by apply elem_of_nil in H]. apply list_elem_of_singleton in H as [= -> ->]. subst.
  by exists [], sched.
- destruct (IH _ H) as (pre & post & -> & ->). by exists ((j, t) :: pre), post.
Qed.

(** ** What a check was answered *)

(** The answers of the store at the moments. *)
Definition saw_at (tc : TenantContext) l (q : query) (a : res (answer_type q)) : Prop :=
∃ now srv, (now, srv) ∈ l ∧ consult (memory_store now (Some tc) (store srv)) q = a.

Lemma saw_at_mono tc l l' : l ⊆ l' → ∀ q a, saw_at tc l q a → saw_at tc l' q a.
Proof. intros Hl q a (now & srv & Hin & Ha). exists now, srv. split; [by apply Hl|done]. Qed.

Lemma converse_done {A} tc (m : dialogue A) k l rep :
follow l (converse tc m k) = Done rep →
∃ a l', ends (saw_at tc l) m a ∧ l' ⊆ l ∧ follow l' (k a) = Done rep.
Proof.
revert l. induction m as [a|q f IH]; intros l Hf; [exists a, l; by repeat constructor|].
destruct l as [|[now srv] l]; [done|]. apply IH in Hf as (a & l' & He & Hl & Hf).
exists a, l'. split_and!; [|set_solver|done].
econstructor; [exists now, srv; split; [by left|done]|].
eapply ends_mono; [|exact He]. apply saw_at_mono. set_solver.
Qed.

(** An allow of the request is explained by the moments: a schema of the engine at one of
  them grants it from what the store answered at them, and its condition is met. *)
Definition explained tc l (req : CheckRequest) : Prop :=
∃ now srv cs pd, (now, srv) ∈ l ∧ schemaForTenant (eng srv) tc = Ok cs ∧
  granted (saw_at tc l) cs req ∧ GetPermission cs (req_ObjectType req) (req_Permission req) = Ok pd ∧
  condition_seen (saw_at tc l) req (Condition pd).

Lemma explained_mono tc l l' req : l ⊆ l' → explained tc l req → explained tc l' req.
Proof.
intros Hl (now & srv & cs & pd & Hin & Hcs & Hg & Hp & Hc).
pose proof (saw_at_mono tc l l' Hl) as Hs.
exists now, srv, cs, pd. split_and!; [by apply Hl|done|by eapply granted_mono|done|by eapply condition_seen_mono].
Qed.

Lemma check_item_done tc subject item k l rep :
follow l (check_item tc subject item k) = Done rep →
rep = Crash ∨ rep = OutOfFuel ∨
∃ d l', l' ⊆ l ∧ follow l' (k d) = Done rep ∧
  (d = true → IsReadable (tc_Tenant tc) = true ∧ explained tc l (check_request subject item)).
Proof.
unfold check_item. case_bool_decide; [intros Hf; right; right; by exists false, l|].
destruct (IsReadable (tc_Tenant tc)) eqn:Er; [|intros Hf; right; right; by exists false, l]. cbn [negb].
destruct l as [|[now srv] l]; [done|]. cbn [follow look snd].
destruct (schemaForTenant (eng srv) tc) as [cs|e|] eqn:Ecs.
- intros (o & l' & He & Hl & Hf)%converse_done.
  destruct o as [[result|e|]|]; try (rewrite follow_done in Hf; injection Hf as <-; auto).
  + right. right. exists (Allowed result), l'. split; [set_solver|]. split; [done|]. intros Ha. split; [done|].
    destruct (check_schema_seen _ _ _ _ _ _ He Ha) as (Hg & pd & Hp & Hc).
    exists now, srv, cs, pd.
    assert (Hs := saw_at_mono tc l ((now, srv) :: l) ltac:(set_solver)).
    split_and!; [by left|done|by eapply granted_mono|done|by eapply condition_seen_mono].
  + right. right. exists false, l'. split; [set_solver|]. done.
- intros Hf. right. right. exists false, l. split; [set_solver|]. done.
- rewrite follow_done. intros [= <-]. by left.
Qed.
Lemma check_items_done tc subject items k l rep :
follow l (check_items tc subject items k) = Done rep →
rep = Crash ∨ rep = OutOfFuel ∨
∃ ds l', l' ⊆ l ∧ follow l' (k ds) = Done rep ∧
  Forall2 (λ item d, d = true → IsReadable (tc_Tenant tc) = true ∧ explained tc l (check_request subject item)) items ds.
Proof.
revert k l. induction items as [|item items IH]; intros k l Hf; [right; right; by exists [], l|]. cbn [check_items] in Hf.
apply check_item_done in Hf as [?|[?|(d & l1 & Hl1 & Hf & Hd)]]; [auto..|].
apply IH in Hf as [?|[?|(ds & l2 & Hl2 & Hf & Hds)]]; [auto..|].
right. right. exists (d :: ds), l2. split; [set_solver|]. split; [done|]. constructor; [done|].
eapply Forall2_impl; [exact Hds|]. intros it d' Hd' E. destruct (Hd' E) as [? ?]. split; [done|]. by eapply explained_mono.
Qed.

Lemma with_header_done {A} header (body : res A) k l rep :
follow l (with_header header body k) = Done rep →
rep = Crash ∨ rep = Fail 400 ∨
∃ now srv tc a l', l = (now, srv) :: l' ∧ tenantCtx (store srv) header = Ok tc ∧ body = Ok a ∧
  follow l' (k tc a) = Done rep.
Proof.
destruct l as [|[now srv] l]; [done|]. cbn [follow with_header look snd].
destruct (tenantCtx (store srv) header) as [tc|e|] eqn:Etc; cbn [proceed]; rewrite ?follow_done;
  [|by intros [= <-]; auto..].
destruct body as [a|e|]; cbn [proceed]; rewrite ?follow_done; [|by intros [= <-]; auto..].
intros Hf. right. right. by exists now, srv, tc, a, l.
Qed.

(** The decisions a reply to an evaluation request gives, each with the check it is of. *)
Definition decided r (rep : reply) : list (CheckRequest * bool) :=
match r, rep with
| PostEvaluation _ (Ok req), Reply _ (PDecision d) => [(check_request (ev_Subject req) (ev_Item req), d)]
| PostEvaluations _ (Ok req), Reply _ (PDecisions ds) => zip (check_request (bt_Subject req) <$> Evaluations req) ds
| _, _ => []
end.

Lemma handler_explained r l rep req :
follow l (handler r) = Done rep → (req, true) ∈ decided r rep →
∃ id now srv tc, addressed r = Some id ∧ (now, srv) ∈ l ∧ tenantCtx (store srv) id = Ok tc ∧
  IsReadable (tc_Tenant tc) = true ∧ explained tc l req.
Proof.
intros Hf Hd. destruct r; try by apply elem_of_nil in Hd.
- destruct body as [e|e|]; [|by apply elem_of_nil in Hd..].
  apply with_header_done in Hf as [->|[->|(now & srv & tc & a & l' & -> & Htc & [= <-] & Hf)]]; [by apply elem_of_nil in Hd..|].
  apply check_item_done in Hf as [->|[->|(d & l2 & _ & Hf & Hd2)]]; [by apply elem_of_nil in Hd..|].
  rewrite follow_done in Hf. injection Hf as <-. cbn [decided] in Hd. apply list_elem_of_singleton in Hd as [= -> <-].
  destruct (Hd2 eq_refl) as [Hr Hx]. exists tenantHeader, now, srv, tc. split_and!; [done|by left|done..|].
  eapply explained_mono; [|exact Hx]. set_solver.
- destruct body as [b|e|]; [|by apply elem_of_nil in Hd..].
  apply with_header_done in Hf as [->|[->|(now & srv & tc & a & l' & -> & Htc & [= <-] & Hf)]]; [by apply elem_of_nil in Hd..|].
  apply check_items_done in Hf as [->|[->|(ds & l2 & _ & Hf & Hds)]]; [by apply elem_of_nil in Hd..|].
  rewrite follow_done in Hf. injection Hf as <-. cbn [decided] in Hd.
  apply list_elem_of_lookup in Hd as [n Hn]. apply lookup_zip_Some in Hn as [Hreq Hdn].
  apply list_lookup_fmap_Some in Hreq as (item & -> & Hitem).
  destruct (Forall2_lookup_lr _ _ _ _ _ _ Hds Hitem Hdn eq_refl) as [Hr Hx].
  exists tenantHeader, now, srv, tc. split_and!; [done|by left|done..|]. eapply explained_mono; [|exact Hx]. set_solver.
Qed.

(** What the engine has for a tenant is a compilation the validator let through. *)
Lemma engine_accepted srv tc cs :
concurrent_ok srv → schemaForTenant (eng srv) tc = Ok cs → ∃ data, accepted data cs.
Proof.
intros Hs. unfold schemaForTenant. rewrite (con_shared _ Hs). destruct (tenant_SchemaMode _); [| |].
all: try (destruct (schemas (eng srv) !! tc_TenantID tc) as [cs'|] eqn:E; [intros [= <-]; by apply (con_engine _ Hs) in E as [_ ?]|done]).
Qed.
End Moments.
