(* ===== verification/ConcurrentAnswers.v ===== *)
(** * Every request is answered, whatever the others do

    Under a schedule that gives a request its turn again and again the request ends,
    however the others move in between; and its reply is a reply, with the exceptions that
    requests served one at a time have. *)

From S2P Require Import Prelude GoLib ServerModel ServerSchema ServerEngine EngineTermination EngineSpec EngineSteps EngineMoments Changelog ServerStore StoreFacts ServerTenants ServerApi EngineProperties StoreProperties ApiFacts ApiProperties Concurrent ConcurrentFacts ConcurrentChecks.

Open Scope nat_scope.

(** ** Fair schedules *)

Section Fair.
Context {EL : ExprLang} {DC : Decoders}.
Implicit Types (srv : Server) (r : request) (p : program).

(** Programs are well founded: whatever the server is at its steps, each has an end. *)
Lemma program_ends (P : program → Prop) :
(∀ rep, P (Done rep)) → (∀ f, (∀ now srv, P (f now srv).2) → P (Step f)) → ∀ p, P p.
Proof.
intros Hd Hs. fix IH 1. intros [rep|f]; [apply Hd|]. apply Hs. intros now srv.
destruct (f now srv) as [srv' p]. apply IH.
Qed.

(** Every step is of some thread; the thread's turn comes again and again. *)
Definition fair (i : nat) (sched : nat → nat * Z) : Prop := ∀ n, ∃ m, n ≤ m ∧ (sched m).1 = i.

(** The first [n] steps. *)
Definition prefix (sched : nat → nat * Z) (n : nat) : list (nat * Z) := sched <$> seq 0 n.

Lemma prefix_S sched n : prefix sched (S n) = sched 0 :: prefix (λ k, sched (S k)) n.
Proof. unfold prefix. cbn. f_equal. rewrite <-(fmap_S_seq 0 n), <-list_fmap_compose. done. Qed.

Lemma fair_later i sched : fair i sched → fair i (λ n, sched (S n)).
Proof. intros Hf n. destruct (Hf (S n)) as ([|m] & Hm & Hi); [lia|]. exists m. split; [lia|done]. Qed.

(** A step of another thread. *)
Lemma move_other i j now c p : threads c !! i = Some p → j ≠ i → threads (move j now c) !! i = Some p.
Proof.
intros Hp Hne. unfold move. destruct (threads c !! j) as [[rep|f]|]; [done| |done].
destruct (f now (server c)). cbn. by rewrite list_lookup_insert_ne.
Qed.

(** A step of the thread itself. *)
Lemma move_turn i now c f :
threads c !! i = Some (Step f) → threads (move i now c) !! i = Some (f now (server c)).2.
Proof.
intros Hp. unfold move. rewrite Hp. destruct (f now (server c)). cbn.
apply list_lookup_insert_eq. by eapply lookup_lt_Some.
Qed.

Lemma fair_done i p c sched :
threads c !! i = Some p → fair i sched →
∃ n rep, threads (run_schedule (prefix sched n) c) !! i = Some (Done rep).
Proof.
revert c sched. induction p as [rep|f IH] using program_ends; intros c sched Hp Hfair; [by exists 0, rep|].
assert (Hturn : ∀ c sched, threads c !! i = Some (Step f) → fair i sched → (sched 0).1 = i →
  ∃ n rep, threads (run_schedule (prefix sched n) c) !! i = Some (Done rep)).
{ clear c sched Hp Hfair. intros c sched Hp Hfair Hi.
  destruct (IH (sched 0).2 (server c) _ _ (move_turn i (sched 0).2 c f Hp) (fair_later i sched Hfair)) as (n & rep & Hn).
  exists (S n), rep. rewrite prefix_S. destruct (sched 0) as [j t]. cbn in Hi, Hn. by subst j. }
destruct (Hfair 0) as (m & _ & Hm). revert c sched Hp Hfair Hm. induction m as [|m IHm]; intros c sched Hp Hfair Hm; [by apply Hturn|].
destruct (decide ((sched 0).1 = i)) as [Hi|Hi]; [by apply Hturn|].
destruct (IHm (move (sched 0).1 (sched 0).2 c) _ (move_other _ _ _ _ _ Hp Hi) (fair_later i sched Hfair) Hm) as (n & rep & Hn).
exists (S n), rep. by rewrite prefix_S.
Qed.
End Fair.

(** ** Replies *)

Section Sure.
Context {EL : ExprLang} {DC : Decoders}.
Implicit Types (srv : Server) (r : request) (p : program).

(** However the program goes on, its reply is good. *)
Inductive sure (good : reply → Prop) : program → Prop :=
| sure_done rep : good rep → sure good (Done rep)
| sure_step f : (∀ now srv, concurrent_ok srv → sure good (f now srv).2) → sure good (Step f).

Lemma sure_follow good l p rep :
sure good p → Forall (λ m : Z * Server, concurrent_ok m.2) l → follow l p = Done rep → good rep.
Proof.
intros Hp Hl. revert p Hp. induction Hl as [|[now srv] l Hok Hl IH]; intros p Hp; cbn [follow].
- intros ->. by inversion Hp.
- destruct Hp as [rep' Hg|f Hf]; [rewrite follow_done; by intros [= <-]|]. by apply IH, Hf.
Qed.

(** A request whose handler may panic: a schema that makes the compiler panic, a page of
  tenants whose offset and limit overflow together. *)
Definition may_crash r : Prop :=
(∃ id data raw now, r = PutSchema id (Ok data) ∧ yaml_Decode data = Ok raw ∧ Compile (sha256_hex data) now raw = Panic) ∨
(∃ q f, r = GetTenants q ∧ tenant_query q = Some f ∧ (2 ^ 63 ≤ Offset f + Limit f)%Z).

Definition good_reply r (rep : reply) : Prop := rep ≠ OutOfFuel ∧ (rep = Crash → may_crash r).

Lemma answered_good r rep : answered rep → good_reply r rep.
Proof. by intros []. Qed.

Section Programs.
Context (r : request).
Abbreviation surely := (sure (good_reply r)).

Lemma surely_answered rep : answered rep → surely (Done rep).
Proof. intros Ha. by constructor; apply answered_good. Qed.

Lemma surely_reads (k : Z → Server → program) :
(∀ now srv, concurrent_ok srv → surely (k now srv)) → surely (Step (λ now srv, (srv, k now srv))).
Proof. intros Hk. by constructor. Qed.

Lemma surely_proceed {A} code (m : res A) k : m ≠ Panic → (∀ a, surely (k a)) → surely (proceed code m k).
Proof. intros Hm Hk. destruct m; [apply Hk| |done]. by apply surely_answered. Qed.

Lemma surely_store_step {A} (op : Z → Store → Store * res A) k :
(∀ now s, store_ok s → surely (k (op now s).2)) → surely (store_step op k).
Proof.
intros Hk. constructor. intros now srv Hs. specialize (Hk now (store srv) (history_ok _ (con_history _ Hs))).
by destruct (op now (store srv)).
Qed.

Lemma surely_with_ctx id k : (∀ tc, surely (k tc)) → surely (with_ctx id k).
Proof.
intros Hk. apply (surely_reads (λ _ _, _)). intros _ srv _. apply surely_proceed; [apply tenantCtx_no_panic|done].
Qed.

Lemma surely_writing {A} id (body : Z → res A) op k :
(∀ now, body now ≠ Panic) → (∀ tc a now s, store_ok s → (op tc a now s).2 ≠ Panic) → (∀ a, answered (k a)) →
surely (writing_program id body op k).
Proof.
intros Hb Hop Hk. apply surely_with_ctx. intros tc. apply surely_reads. intros now _ _. apply surely_proceed; [done|].
intros a. apply surely_store_step. intros now' s Hs. apply surely_answered, answer_answered; [by apply Hop|done].
Qed.

Lemma surely_reading id (k : Z → Server → TenantContext → reply) :
(∀ now srv tc, answered (k now srv tc)) → surely (reading_program id k).
Proof. intros Hk. apply surely_with_ctx. intros tc. apply surely_reads. intros now srv _. by apply surely_answered. Qed.

Lemma update_no_panic now s t : (UpdateTenant now s t).2 ≠ Panic.
Proof. unfold UpdateTenant. by destruct (_ !! _). Qed.

Lemma surely_transition id refused st k : surely k → surely (transition id refused st k).
Proof.
intros Hk. apply (surely_reads (λ _ _, _)). intros _ srv _. apply surely_proceed.
- unfold GetTenant. by destruct (_ !! _).
- intros t. destruct (refused t); [by apply surely_answered|]. apply surely_store_step. intros now s _.
  apply surely_proceed; [apply update_no_panic|done].
Qed.

Lemma surely_create body : body ≠ Panic → surely (create_tenant_program body).
Proof.
intros Hb. apply surely_proceed; [done|]. intros req. case_bool_decide; [by apply surely_answered|].
destruct (schema_mode _) as [mode|]; [|by apply surely_answered]. destruct (_ && _); [by apply surely_answered|].
apply surely_store_step. intros now s _. apply surely_proceed.
- unfold Create, ValidateTenantID. destruct (matches _ _); [|done]. unfold CreateTenant. by destruct (tenants s !! ID _).
- intros t. destruct (_ || _); [|by apply surely_answered]. apply surely_store_step. intros now' s' _.
  apply surely_answered, answer_answered; [apply update_no_panic|done].
Qed.

Lemma memory_consult now tc s q : consult (memory_store now (Some tc) s) q ≠ Panic.
Proof.
pose proof (memory_answers now (Some tc) s) as [H1 H2 H3 H4 H5]. destruct q; [apply H1|apply H2|apply H3|apply H4|apply H5].
Qed.

(** The answers any store of the server gives. *)
Definition any_answer tc (q : query) (a : res (answer_type q)) : Prop :=
∃ now s, consult (memory_store now (Some tc) s) q = a.

Lemma surely_converse {A} tc (m : dialogue A) k :
(∀ a, ends (any_answer tc) m a → surely (k a)) → surely (converse tc m k).
Proof.
intros Hk. induction m as [a|q f IH]; [apply Hk; constructor|]. apply surely_reads. intros now srv _. apply IH.
intros a He. apply Hk. econstructor; [by exists now, (store srv)|exact He].
Qed.

Lemma surely_check_item tc subject item k : (∀ d, surely (k d)) → surely (check_item tc subject item k).
Proof.
intros Hk. unfold check_item. case_bool_decide; [done|]. destruct (negb _); [done|].
apply (surely_reads (λ _ _, _)). intros _ srv _. pose proof (schemaForTenant_answers (eng srv) tc).
destruct (schemaForTenant _ _) as [cs|e|]; [|done..]. apply surely_converse. intros o Ho.
apply check_schema_settles in Ho as (a & -> & Ha); [by destruct a|].
intros q a (now & s & <-). apply memory_consult.
Qed.

Lemma surely_check_items tc subject l k : (∀ ds, surely (k ds)) → surely (check_items tc subject l k).
Proof.
revert k. induction l as [|item l IH]; intros k Hk; [apply Hk|]. apply surely_check_item. intros d. apply IH. intros ds. apply Hk.
Qed.

Lemma surely_with_header {A} header (body : res A) k :
body ≠ Panic → (∀ tc a, surely (k tc a)) → surely (with_header header body k).
Proof.
intros Hb Hk. apply (surely_reads (λ _ _, _)). intros _ srv _. apply surely_proceed; [apply tenantCtx_no_panic|].
intros tc. by apply surely_proceed.
Qed.
End Programs.
(** Loading a schema: only the compiler may panic. *)
Lemma load_surely id body :
(∀ data, yaml_Decode data ≠ Panic) → body ≠ Panic →
sure (good_reply (PutSchema id body)) (load_schema_program id body).
Proof.
intros Hy Hb. apply (surely_reads _ (λ _ _, _)). intros _ srv _. apply surely_proceed.
{ unfold Get, GetTenant. by destruct (_ !! _). }
intros _. destruct body as [data|e|]; [|by apply surely_answered|done]. cbn [proceed]. apply surely_reads. intros now _ _.
pose proof (Hy data) as Hd. destruct (yaml_Decode data) as [raw|e|] eqn:Ey; [|by apply surely_answered|done]. cbn.
destruct (Compile _ now raw) as [cs|e|] eqn:Ec; [|by apply surely_answered|].
- cbn. case_bool_decide; [|by apply surely_answered]. do 2 (constructor; intros ? ? _). by apply surely_answered.
- cbn. constructor. split; [done|]. intros _. left. by exists id, data, raw, now.
Qed.

Lemma handler_sure r :
(∀ data, yaml_Decode data ≠ Panic) → body_read r → sure (good_reply r) (handler r).
Proof.
intros Hy Hb. destruct r; cbn [handler body_read] in *.
- by apply surely_answered.
- by apply surely_create.
- apply (surely_reads _ (λ _ _, _)). intros _ srv _. constructor. destruct (list_answered q srv) as [H|(f & Hq & Hf & H)]; [by apply answered_good|].
  rewrite H. split; [done|]. intros _. right. eauto.
- apply (surely_reads _ (λ _ _, _)). intros _ srv _. apply surely_answered. unfold handleGetTenant, Get, GetTenant. by destruct (_ !! _).
- apply surely_transition. by apply surely_answered.
- apply surely_transition, (surely_reads _ (λ _ _, _)). intros _ srv _. by apply surely_answered.
- apply surely_transition, (surely_reads _ (λ _ _, _)). intros _ srv _. by apply surely_answered.
- by apply load_surely.
- apply (surely_reads _ (λ _ _, _)). intros _ srv Hs. apply surely_answered. unfold handleGetSchema. destruct (schema_texts srv !! tenantID) as [data|] eqn:Ed; [|done].
  assert (Hin : tenantID ∈ dom (schema_compiled srv)) by (rewrite <-(con_texts _ Hs); apply elem_of_dom; by eexists).
  by apply elem_of_dom in Hin as [cs ->].
- apply surely_writing; [intros now|intros tc l now s|done].
  + apply bind_no_panic; [done|]. intros l. case_bool_decide; [done|]. apply mapR_no_panic, write_tuple_of_no_panic.
  + by apply (perform_no_panic now (Some tc) (OpWriteTuples l)).
- apply surely_writing; [intros now|intros tc t now s|done].
  + apply bind_no_panic; [done|]. apply write_tuple_of_no_panic.
  + by apply (perform_no_panic now (Some tc) (OpWriteTuples [t])).
- apply surely_writing; [intros now|intros tc t now s|done].
  + apply bind_no_panic; [done|]. intros req. apply bind_no_panic; [|done].
    unfold validateTupleRequest. by repeat case_bool_decide.
  + by apply (perform_no_panic now (Some tc) (OpDeleteTuple (tupleFromRequest t))).
- apply surely_reading. intros now srv tc. unfold read_tuples. cbv zeta. case_match; [|done].
  apply answer_answered; [by apply reading_no_panic|done].
- apply surely_reading. intros now srv tc. apply answer_answered; [by apply reading_no_panic|done].
- apply surely_reading. intros now srv tc. apply answer_answered; [|done]. apply reading_no_panic. intros tid.
  unfold get_attributes. by destruct (_ !! _).
- apply surely_writing; [done|intros tc m now s|done]. by apply (perform_no_panic now (Some tc) (OpSetObjectAttributes typ id m)).
- apply surely_reading. intros now srv tc. apply answer_answered; [by apply reading_no_panic|done].
- apply surely_reading. intros now srv tc. apply answer_answered; [|done]. apply reading_no_panic. intros tid.
  unfold get_attributes. by destruct (_ !! _).
- apply surely_writing; [done|intros tc m now s|done]. by apply (perform_no_panic now (Some tc) (OpSetSubjectAttributes typ id m)).
- apply surely_with_ctx. intros tc. destruct (changelog_query q) as [[since lim]|]; [|by apply surely_answered].
  apply (surely_reads _ (λ _ _, _)). intros _ srv _. apply surely_proceed; [by apply reading_no_panic|]. intros entries.
  apply (surely_reads _ (λ _ _, _)). intros _ srv2 _. by apply surely_answered.
- apply surely_reading. intros now srv tc. unfold expand. destruct body as [req|e|]; [|done..]. destruct (_ || _); [done|].
  apply answer_answered; [by apply reading_no_panic|done].
- apply surely_with_header; [done|]. intros tc req. apply surely_check_item. intros d. by apply surely_answered.
- apply surely_with_header; [done|]. intros tc req. apply surely_check_items. intros d. by apply surely_answered.
Qed.

Lemma run_good r rs srv i sched rep :
(∀ data, yaml_Decode data ≠ Panic) → body_read r → serving srv → rs !! i = Some r →
threads (run_schedule sched (start srv rs)) !! i = Some (Done rep) → good_reply r rep.
Proof.
intros Hy Hb Hs Hr. rewrite moments_follow. cbn. rewrite list_lookup_fmap, Hr. cbn. intros [= Hf].
eapply sure_follow; [by apply handler_sure| |exact Hf]. by eapply moments_ok, start_config_ok.
Qed.
End Sure.
