(* ===== verification/ConcurrentAnomaly.v ===== *)
(** * A check that allows what no moment allows

    The check asks the store query by query and takes no snapshot.  On a permission with
    an exclusion, two deletes between its queries are enough for an allow that the server
    would have refused before, between and after them. *)

From S2P Require Import Prelude GoLib ServerModel ServerSchema ServerEngine Changelog ServerStore ServerTenants ServerApi ServerDemo ApiFacts ApiDemo Concurrent ConcurrentFacts.

Open Scope string_scope.
Open Scope list_scope.
Open Scope nat_scope.

(** Readers of a document who are not banned from it. *)
Definition guarded_raw : RawSchema := MkRawSchema "1.0" (list_to_map [
  ("user", Some (MkRawType None ∅ ∅));
  ("document", Some (MkRawType None
    (list_to_map [("reader", rel_of ["user"]); ("banned", rel_of ["user"])])
    (list_to_map [("read", Some (MkRawPermission "" [] [] ["reader"; "banned"] ""))])))]).

Definition guarded_decoders : Decoders :=
  {| yaml_Decode s := if bool_decide (s = "guarded") then Ok guarded_raw else Err (Errorf "yaml");
     sha256_hex s := s;
     parse_RFC3339 _ := None |}.

#[local] Existing Instance guarded_decoders | 0.

Definition reader_of_spec : TupleRequest := tuple_request "document" "spec" "reader" "user" "ann" "" None.
Definition banned_from_spec : TupleRequest := tuple_request "document" "spec" "banned" "user" "ann" "" None.

(** Ann is a reader of the document and banned from it. *)
Definition guarded_server : Server :=
  run [(2%Z, PutSchema "super" (Ok "guarded")); (3%Z, PostTuples "super" (Ok [reader_of_spec; banned_from_spec]))]
    (NewServer (ensureBootstrapTenant 1 NewStore).1 (New DefaultConfig)).

Lemma guarded_serving : serving guarded_server.
Proof. apply run_serving, serving_start, history_new. Qed.

(** Her access is checked while she is first removed from the readers and then from the
    banned. *)
Definition asks_to_read : request := PostEvaluation "super" (ask "document" "spec" "read" "ann").

Definition removals : list request := [
  asks_to_read; DeleteTuples "super" (Ok reader_of_spec); DeleteTuples "super" (Ok banned_from_spec)].

(** The deletes are served one after the other, between the check's first query and its
    second. *)
Definition removals_schedule : list (nat * Z) := [
  (0, 4%Z); (0, 4%Z); (0, 4%Z); (1, 5%Z); (1, 5%Z); (1, 5%Z); (2, 6%Z); (2, 6%Z); (2, 6%Z); (0, 7%Z); (0, 7%Z)].

(** C17: A check can allow what is allowed at no moment: there are requests served at the same
    time, one an evaluation, and a schedule of their steps under which the evaluation
    answers true, although at every moment of the run, whatever the clock shows, the same
    evaluation served at once answers false. *)
Theorem allowed_at_no_moment :
  ∃ srv rs sched i r, serving srv ∧ rs !! i = Some r ∧
    threads (run_schedule sched (start srv rs)) !! i = Some (Done (Reply 200 (PDecision true))) ∧
    ∀ pre post now, sched = pre ++ post →
      (serve now r (server (run_schedule pre (start srv rs)))).2 = Reply 200 (PDecision false).
Proof.
  exists guarded_server, removals, removals_schedule, 0, asks_to_read.
  split; [exact guarded_serving|]. split; [done|]. split; [by vm_compute|].
  intros pre post now E.
  assert (Hn : length pre ≤ 11) by (apply (f_equal length) in E; rewrite length_app in E; cbn in E; lia).
  assert (Hp : pre = take (length pre) removals_schedule) by (by rewrite E, take_app_length).
  rewrite Hp. clear E Hp. revert Hn. generalize (length pre). intros n Hn.
  do 12 (destruct n as [|n]; [by vm_compute|]). lia.
Qed.
