(* ===== verification/ConcurrentAtomic.v ===== *)
(** * Requests that are atomic

    A reduction in the manner of Lipton.  A request on tenant data, and every request that
    takes its context once and calls the store once, behaves under every interleaving as
    if its whole handler ran at one moment, between its first step and its last: the
    steps before the call of the store leave the server as it is, and what they learned
    of it (that the tenant exists) stays true. *)

From S2P Require Import Prelude GoLib ServerModel ServerSchema ServerEngine Changelog ServerStore StoreFacts ServerTenants ServerApi ApiFacts ApiDemo Concurrent ConcurrentFacts.

Open Scope nat_scope.

Section Atomic.
Context {EL : ExprLang} {DC : Decoders}.
Implicit Types (srv : Server) (r : request) (p : program) (ts : list Z).

(** A creation that names a parent or a shared schema writes twice, the transitions of a
  tenant read and then write, a schema is loaded in two places, and the changelog is
  read in two calls. *)
Definition atomic_request r : bool :=
match r with
| PostTenant (Ok req) => bool_decide (ct_ParentTenantID req = "") && bool_decide (ct_SharedSchemaRef req = "")
| DeleteTenantByID _ | PostActivate _ | PostSuspend _ | PutSchema _ _ | GetChangelog _ _ => false
| PostEvaluation _ _ | PostEvaluations _ _ => false
| _ => true
end.

(** ** Programs with one step that counts *)

(** The step ends the program as the whole of it, run at once with the clock of its own
  steps, would have. *)
Definition finishes (p0 : program) ts srv (res : Server * program) : Prop :=
∃ clock rep, (∀ k, clock k ∈ ts) ∧ res.2 = Done rep ∧ alone clock p0 srv = (res.1, rep).

(** What is left of [p0] after steps at the times [ts]: every further step finishes it, or
  leaves the server alone. *)
Inductive pending (p0 : program) : list Z → Server → program → Prop :=
| pending_step ts srv f :
    (∀ now srv', concurrent_ok srv' → evolves srv srv' →
       finishes p0 (now :: ts) srv' (f now srv') ∨
       (f now srv').1 = srv' ∧ pending p0 (now :: ts) srv' (f now srv').2) →
    pending p0 ts srv (Step f).

Lemma pending_evolves p0 ts srv srv' p : evolves srv srv' → pending p0 ts srv p → pending p0 ts srv' p.
Proof.
intros He Hp. destruct Hp as [ts srv f Hf]. constructor. intros now srv2 Hok He2. apply Hf; [done|]. by transitivity srv'.
Qed.

Lemma pending_one f srv : (∀ now srv, is_done (f now srv).2 = true) → pending (Step f) [] srv (Step f).
Proof.
intros Hf. constructor. intros now srv' _ _. left. specialize (Hf now srv').
destruct (f now srv') as [srv2 [rep|]] eqn:E; [|done].
exists (λ _, now), rep. split_and!; [set_solver|done|]. cbn. by rewrite E.
Qed.

Lemma tenantCtx_stays srv srv' id tc :
tenantCtx (store srv) id = Ok tc → evolves srv srv' →
∃ tc', tenantCtx (store srv') id = Ok tc' ∧ tc_TenantID tc' = tc_TenantID tc.
Proof.
intros (Hne & t & Ht & ->)%tenantCtx_Ok He. destruct (He id) as [t' Ht']; [by eexists|].
eexists. split; [by apply tenantCtx_Ok; split; [|exists t'; split]|done].
Qed.

(** The opening of a handler, at [p0]: a failure is final, a context leads on. *)
Lemma pending_with_ctx id (k : TenantContext → program) srv :
(∀ tc t0 srv, tenantCtx (store srv) id = Ok tc → pending (with_ctx id k) [t0] srv (k tc)) →
pending (with_ctx id k) [] srv (with_ctx id k).
Proof.
intros Hk. constructor. intros now srv' _ _. cbn [fst snd].
destruct (tenantCtx (store srv') id) as [tc|e|] eqn:E; [right; split; [done|]; by apply Hk|left..].
all: exists (λ _, now); eexists; split_and!; [set_solver|done|]; by rewrite alone_with_ctx, E.
Qed.

Lemma pending_reading id (k : Z → Server → TenantContext → reply) srv :
(∀ now srv tc tc', tc_TenantID tc = tc_TenantID tc' → k now srv tc = k now srv tc') →
pending (reading_program id k) [] srv (reading_program id k).
Proof.
intros Hk. apply pending_with_ctx. intros tc t0 srv1 Htc. constructor. intros now srv2 _ He. left.
destruct (tenantCtx_stays _ _ _ _ Htc He) as (tc' & Htc' & Hid).
exists (λ _, now), (k now srv2 tc). split_and!; [set_solver|done|].
rewrite (alone_reading (λ _, now) id k). unfold reading_handler. rewrite Htc'. cbn. by rewrite (Hk now srv2 tc' tc).
Qed.

Lemma pending_writing {A} id (body : Z → res A) op k srv :
(∀ tc tc' a now s, tc_TenantID tc = tc_TenantID tc' → op tc a now s = op tc' a now s) →
pending (writing_program id body op k) [] srv (writing_program id body op k).
Proof.
intros Hop. apply pending_with_ctx. intros tc t0 srv1 Htc. constructor. intros now srv2 _ He. cbn [fst snd].
destruct (body now) as [a|e|] eqn:Eb.
- right. split; [done|]. constructor. intros now' srv3 _ He3. left.
  destruct (tenantCtx_stays _ srv3 _ _ Htc) as (tc' & Htc' & Hid); [by transitivity srv2|].
  exists (λ n, if bool_decide (n = 2) then now' else now), (answer errStatus (op tc a now' (store srv3)).2 (λ _, k a)).
  split_and!; [intros n; case_bool_decide; set_solver|by destruct (op _ _ _ _)|].
  rewrite (alone_writing _ id body op k), Htc'. simpl. rewrite Eb, (Hop tc' tc) by done. by destruct (op _ _ _ _).
- left. destruct (tenantCtx_stays _ _ _ _ Htc He) as (tc' & Htc' & Hid).
  exists (λ _, now), (Fail 400). split_and!; [set_solver|done|]. rewrite (alone_writing _ id body op k), Htc'. cbv beta. by rewrite Eb.
- left. destruct (tenantCtx_stays _ _ _ _ Htc He) as (tc' & Htc' & Hid).
  exists (λ _, now), Crash. split_and!; [set_solver|done|]. rewrite (alone_writing _ id body op k), Htc'. cbv beta. by rewrite Eb.
Qed.

(** Of its context an operation of the store reads the tenant's identifier. *)
Lemma writing_same_tenant {A} tc tc' s (body : string → Store * res A) :
tc_TenantID tc = tc_TenantID tc' → writing (Some tc) s body = writing (Some tc') s body.
Proof. intros Hid. unfold writing. cbn. by rewrite Hid. Qed.

Lemma reading_same_tenant {A} tc tc' s (body : string → res A) :
tc_TenantID tc = tc_TenantID tc' → reading (Some tc) s body = reading (Some tc') s body.
Proof. intros Hid. unfold reading. cbn. by rewrite Hid. Qed.

Lemma pending_create body srv p :
atomic_request (PostTenant body) = true → create_tenant_program body = p →
pending p [] srv p ∨ is_done p = true.
Proof.
intros Ha <-. unfold create_tenant_program. destruct body as [req|e|]; cbn [proceed]; [|by right..].
apply andb_true_iff in Ha as [Hp%bool_decide_eq_true Hr%bool_decide_eq_true].
case_bool_decide; [by right|]. destruct (schema_mode _) as [mode|]; [|by right]. destruct (_ && _); [by right|].
left. apply pending_one. intros now srv'. destruct (Create _ _ _ _ _) as [s [t|e|]]; cbn; [|done..].
by rewrite !bool_decide_eq_false_2 by auto.
Qed.

(** Every atomic request starts so, or is answered without looking at the server. *)
Lemma atomic_pending r srv :
atomic_request r = true → pending (handler r) [] srv (handler r) ∨ is_done (handler r) = true.
Proof.
destruct r; try done; intros Ha; cbn [handler]; try (left; apply pending_one; by intros); try by right.
- by apply (pending_create body).
- left. apply pending_writing. intros tc tc' a now s. apply writing_same_tenant.
- left. apply pending_writing. intros tc tc' a now s. apply writing_same_tenant.
- left. apply pending_writing. intros tc tc' a now s. apply writing_same_tenant.
- left. apply pending_reading. intros now srv' tc tc' Hid. unfold read_tuples.
  destruct (if bool_decide _ then _ else _); [|done]. unfold ReadTuples. by rewrite (reading_same_tenant tc tc').
- left. apply pending_reading. intros now srv' tc tc' Hid. unfold ListObjectAttributes. by rewrite (reading_same_tenant tc tc').
- left. apply pending_reading. intros now srv' tc tc' Hid. unfold StoreGetObjectAttributes. by rewrite (reading_same_tenant tc tc').
- left. apply pending_writing. intros tc tc' a now s. apply writing_same_tenant.
- left. apply pending_reading. intros now srv' tc tc' Hid. unfold ListSubjectAttributes. by rewrite (reading_same_tenant tc tc').
- left. apply pending_reading. intros now srv' tc tc' Hid. unfold StoreGetSubjectAttributes. by rewrite (reading_same_tenant tc tc').
- left. apply pending_writing. intros tc tc' a now s. apply writing_same_tenant.
- left. apply pending_reading. intros now srv' tc tc' Hid. unfold expand, Expand. destruct body as [req|e|]; [|done..].
  destruct (_ || _); [done|]. by rewrite (reading_same_tenant tc tc').
Qed.

(** ** The coarse run *)

(** A step of a schedule seen from further away: nothing, the same step, or the whole
  handler of an atomic request at once, with the times of its clock. *)
Inductive event := Skip | Move (i : nat) (now : Z) | Whole (i : nat) (clock : nat → Z).

Definition happen (c : config) (e : event) : config :=
match e with
| Skip => c
| Move i now => move i now c
| Whole i clock =>
    match threads c !! i with
    | Some p => let '(srv, rep) := alone clock p (server c) in MkConfig srv (<[i := Done rep]> (threads c))
    | None => c
    end
end.

Definition is_atomic (rs : list request) (i : nat) : bool := default false (atomic_request <$> rs !! i).

(** The event stands for the step: it is of the same request, and shows its times. *)
Definition stands_for (rs : list request) (sched : list (nat * Z)) (step : nat * Z) (e : event) : Prop :=
match e with
| Skip => is_atomic rs step.1 = true
| Move i now => (i, now) = step ∧ is_atomic rs i = false
| Whole i clock => i = step.1 ∧ is_atomic rs i = true ∧ ∀ k, (i, clock k) ∈ sched
end.

(** What is left of a request in the two runs. *)
Inductive alike (sched : list (nat * Z)) (i : nat) r (p0 : program) srv : program → program → Prop :=
| alike_fine p : atomic_request r = false → alike sched i r p0 srv p p
| alike_done rep : alike sched i r p0 srv (Done rep) (Done rep)
| alike_pending ts p :
    atomic_request r = true → (∀ t, t ∈ ts → (i, t) ∈ sched) → pending p0 ts srv p → alike sched i r p0 srv p p0.

Lemma alike_evolves sched i r p0 srv srv' p q :
evolves srv srv' → alike sched i r p0 srv p q → alike sched i r p0 srv' p q.
Proof.
intros He Ha. destruct Ha as [p Hr|rep|ts p Hr Ht Hp]; [by apply alike_fine|by apply alike_done|].
eapply alike_pending; [done|exact Ht|]. by eapply pending_evolves.
Qed.

(** The fine run, the requests, their programs at the start and the coarse run. *)
Definition related sched (rs : list request) (ps : list program) (c d : config) : Prop :=
server d = server c ∧ length (threads d) = length (threads c) ∧
∀ i p, threads c !! i = Some p → ∃ r p0 q, rs !! i = Some r ∧ ps !! i = Some p0 ∧ threads d !! i = Some q ∧
  alike sched i r p0 (server c) p q.

(** Moving one thread in each run, to alike programs and the same server. *)
Lemma related_insert sched rs ps c d srv i r p0 p q :
related sched rs ps c d → evolves (server c) srv → i < length (threads c) →
rs !! i = Some r → ps !! i = Some p0 → alike sched i r p0 srv p q →
related sched rs ps (MkConfig srv (<[i := p]> (threads c))) (MkConfig srv (<[i := q]> (threads d))).
Proof.
intros (Hsrv & Hlen & Hall) He Hi Hr Hp0 Ha. split_and!; [done|by cbn; rewrite !length_insert|].
cbn [server threads]. intros j p'. destruct (decide (i = j)) as [<-|Hne].
- rewrite list_lookup_insert_eq by done. intros [= <-]. exists r, p0, q.
  split_and!; [done..| |done]. rewrite list_lookup_insert_eq by lia. done.
- rewrite list_lookup_insert_ne by done. intros Hp'. destruct (Hall j p' Hp') as (r' & p0' & q' & ? & ? & ? & Ha').
  exists r', p0', q'. rewrite list_lookup_insert_ne by done. split_and!; [done..|]. by eapply alike_evolves.
Qed.

(** A thread that has nothing to do. *)
Lemma related_idle sched rs ps c d i now :
related sched rs ps c d → (∀ f, threads c !! i ≠ Some (Step f)) →
∃ e, stands_for rs sched (i, now) e ∧ related sched rs ps (move i now c) (happen d e).
Proof.
intros Hrel Hidle. assert (Hc : move i now c = c).
{ destruct (move_step i now c) as [?|(f & Hf & _)]; [done|]. by apply Hidle in Hf. }
rewrite Hc. destruct (is_atomic rs i) eqn:Ha; [by exists Skip|].
exists (Move i now). split; [done|]. cbn [happen].
destruct (move_step i now d) as [->|(f & Hf & _)]; [done|]. exfalso.
destruct Hrel as (_ & Hlen & Hall).
destruct (lookup_lt_is_Some_2 (threads c) i) as [p Hp]; [rewrite <-Hlen; by eapply lookup_lt_Some|].
destruct (Hall i p Hp) as (r & p0 & q & Hr & _ & Hq & Hpq). rewrite Hf in Hq. injection Hq as <-.
unfold is_atomic in Ha. rewrite Hr in Ha. inversion Hpq as [p1 Hr1 He1 He2| |ts p1 Hr1 _ _]; subst; [by eapply Hidle|].
cbn in Ha. congruence.
Qed.

(** The three ways a step is seen. *)
Lemma related_step sched rs ps c d i now :
(i, now) ∈ sched → config_ok rs c → related sched rs ps c d →
∃ e, stands_for rs sched (i, now) e ∧ related sched rs ps (move i now c) (happen d e).
Proof.
intros Hin Hok Hrel. destruct (move_change rs i now c Hok) as [_ Hev].
assert (He : evolves (server c) (server (move i now c))).
{ destruct Hev as [->|(r & _ & Hch)]; [done|by eapply change_evolves]. }
clear Hev. destruct (threads c !! i) as [[rep|f]|] eqn:Ef; [by apply related_idle; rewrite ?Ef| |by apply related_idle; rewrite ?Ef].
pose proof (lookup_lt_Some _ _ _ Ef) as Hi. pose proof Hrel as (Hsrv & Hlen & Hall).
destruct (Hall i _ Ef) as (r & p0 & q & Hr & Hp0 & Hq & Ha).
assert (Hat : is_atomic rs i = atomic_request r) by (unfold is_atomic; by rewrite Hr).
assert (Hm : move i now c = MkConfig (f now (server c)).1 (<[i := (f now (server c)).2]> (threads c))).
{ unfold move. rewrite Ef. by destruct (f now _). }
rewrite Hm in He |- *. cbn [server] in He.
inversion Ha as [p Hr'| |ts p Hr' Hts Hp]; subst.
- exists (Move i now). split; [by rewrite <-Hat in Hr'|]. cbn [happen]. unfold move. rewrite Hq, Hsrv.
  destruct (f now (server c)) as [srv p]. eapply related_insert; try done. by apply alike_fine.
- rewrite <-Hat in Hr'. inversion Hp as [? ? ? Hf]; subst.
  destruct (Hf now (server c)) as [(clock & rep & Hclock & Hdone & Halone)|[Hsame Hp']]; [by apply Hok|done|..].
  + exists (Whole i clock). split.
    { split_and!; [done..|]. intros k. destruct (proj1 (elem_of_cons _ _ _) (Hclock k)) as [->|?]; [done|by apply Hts]. }
    cbn [happen]. rewrite Hq, Hsrv, Halone, Hdone. eapply related_insert; try done. by apply alike_done.
  + exists Skip. split; [done|]. cbn [happen]. rewrite Hsame. destruct d as [srv' l]. cbn in *. subst srv'.
    rewrite <-(list_insert_id l i q Hq). eapply (related_insert _ _ _ c (MkConfig _ l)); try done.
    eapply (alike_pending _ _ _ _ _ (now :: ts)); [by rewrite <-Hat| |done].
    intros t [->|Ht]%elem_of_cons; [done|by apply Hts].
Qed.

Lemma simulate all rs ps sched c d :
sched ⊆ all → config_ok rs c → related all rs ps c d →
∃ evs, Forall2 (stands_for rs all) sched evs ∧ related all rs ps (run_schedule sched c) (foldl happen d evs).
Proof.
revert c d. induction sched as [|[i now] sched IH]; intros c d Hall Hok Hrel; [by exists []|].
destruct (related_step all rs ps c d i now) as (e & He & Hrel'); [by apply Hall; left|done..|].
destruct (IH (move i now c) (happen d e)) as (evs & Hevs & Hend); [set_solver|by apply move_change|done|].
exists (e :: evs). split; [by constructor|done].
Qed.

Lemma start_related sched rs srv : related sched rs (handler <$> rs) (start srv rs) (start srv rs).
Proof.
split_and!; [done..|]. cbn. intros i p Hp. pose proof Hp as (r & -> & Hr)%list_lookup_fmap_Some.
exists r, (handler r), (handler r). split_and!; [done..|].
destruct (atomic_request r) eqn:Ha; [|by apply alike_fine].
destruct (atomic_pending r srv Ha) as [Hpend|Hd].
- eapply (alike_pending _ _ _ _ _ []); [done| |done]. by intros t ?%elem_of_nil.
- destruct (handler r); [apply alike_done|done].
Qed.

(** What a thread of the fine run is in the coarse one. *)
Definition seen_as r (p0 p : program) : program := if atomic_request r && negb (is_done p) then p0 else p.

Lemma alike_seen sched i r p0 srv p q : alike sched i r p0 srv p q → q = seen_as r p0 p.
Proof.
unfold seen_as. intros [p' Hr|rep|ts p' Hr _ Hp]; [by rewrite Hr|by rewrite andb_false_r|].
rewrite Hr. by destruct Hp.
Qed.

Lemma atomic_reduction rs srv sched :
serving srv →
∃ evs, Forall2 (stands_for rs sched) sched evs ∧
  let c := run_schedule sched (start srv rs) in
  let d := foldl happen (start srv rs) evs in
  server d = server c ∧
  ∀ i r p, rs !! i = Some r → threads c !! i = Some p → threads d !! i = Some (seen_as r (handler r) p).
Proof.
intros Hs.
destruct (simulate sched rs (handler <$> rs) sched (start srv rs) (start srv rs)) as (evs & Hevs & Hsrv & _ & Hall);
  [done|by apply start_config_ok|by apply start_related|].
exists evs. split; [done|]. split; [done|]. intros i r p Hr Hp.
destruct (Hall i p Hp) as (r' & p0' & q & Hr' & (r0 & -> & Hr0)%list_lookup_fmap_Some & -> & Ha). simplify_eq.
by rewrite (alike_seen _ _ _ _ _ _ _ Ha).
Qed.
End Atomic.
