(* ===== verification/ConcurrentProperties.v ===== *)
(** * Requests at the same time: the theorems

    Each is stated for a server that [main] started, any requests it is serving and any
    schedule of their steps, with a run on a concrete server. *)

From S2P Require Import Prelude GoLib ServerModel ServerSchema ServerEngine Changelog ServerStore StoreFacts ServerTenants ServerApi ServerDemo ApiFacts ApiDemo ApiProperties ApiIsolation EngineTermination EngineSteps EngineMoments Concurrent ConcurrentFacts ConcurrentIsolation ConcurrentChecks ConcurrentAnswers ConcurrentAtomic.

Open Scope nat_scope.

Section Properties.
Context {EL : ExprLang} {DC : Decoders}.


(** C14: Under every interleaving the store has a history of whole operations, every schema
  the engine decides with is a compilation, accepted by the validator, of some text for a
  tenant that exists, and the registry keeps each text with a compilation of that text. *)
Theorem interleavings_keep_invariant rs srv sched :
serving srv → concurrent_ok (server (run_schedule sched (start srv rs))).
Proof. intros Hs. by apply (run_config_ok rs), start_config_ok. Qed.

Lemma interleaving_view rs srv sched tid :
serving srv → tid ≠ ""%string → Forall (λ r, addressed r ≠ Some tid) rs →
same_view tid (server (run_schedule sched (start srv rs))) srv.
Proof.
intros Hs Hne Hrs. pose proof (start_config_ok rs srv Hs) as Hc.
destruct (run_isolates rs tid sched (start srv rs) Hc) as (Hd & Ht & Hx).
{ eapply Forall_impl; [exact Hrs|]. cbn. intros r. destruct (addressed r); cbn; congruence. }
destruct (run_config_ok rs sched (start srv rs) Hc) as [Hok _]. pose proof (serving_ok _ Hs) as Hok0.
split; [done..| |].
- by rewrite (con_depth _ Hok), (srv_depth _ Hok0).
- by rewrite (con_shared _ Hok), (srv_shared _ Hok0).
Qed.

(** However requests about other tenants interleave, they are not noticed: the reply
  to a request that names a tenant, checks included, is the same after any steps of any
  requests that name other tenants, or none, even in the middle of them. *)
Theorem interleavings_isolate rs srv sched tid now r :
serving srv → tid ≠ ""%string → Forall (λ r, addressed r ≠ Some tid) rs → addressed r = Some tid →
(serve now r (server (run_schedule sched (start srv rs)))).2 = (serve now r srv).2.
Proof.
intros Hs Hne Hrs Hr. apply (view_reply now r _ _ tid); [by eapply interleaving_view| | |done].
- destruct (run_config_ok rs sched (start srv rs)) as [Hok _]; [by apply start_config_ok|].
  apply history_ok, con_history, Hok.
- apply history_ok, srv_history, serving_ok, Hs.
Qed.

(** C8: Tenants run by themselves: take away, from any schedule of any requests, every step of
  the requests that do not name the tenant, and its own requests, checks and transitions
  included, are step for step where they were, with the same replies, and the server
  holds the same for the tenant.  A request that is the only one to name it is answered
  as if nothing interrupted it, by a clock that shows the times of its own steps. *)
Theorem tenants_run_alone rs srv sched tid :
serving srv → tid ≠ ""%string →
let c := run_schedule sched (start srv rs) in
let d := run_schedule (own_steps rs tid sched) (start srv rs) in
same_view tid (server c) (server d) ∧
(∀ i r, rs !! i = Some r → addressed r = Some tid → threads c !! i = threads d !! i) ∧
∀ i r rep, rs !! i = Some r → (∀ j, mine rs tid j = true ↔ j = i) → threads c !! i = Some (Done rep) →
  alone (clock_of (times i sched)) (handler r) srv = (server d, rep).
Proof.
intros Hs Hne c d. pose proof (agree_run rs tid _ _ sched Hne (start_agree rs tid srv Hs)) as Ha. split; [apply Ha|].
assert (Hth : ∀ i r, rs !! i = Some r → addressed r = Some tid → threads c !! i = threads d !! i).
{ intros i r Hr Hid. apply (agree_threads _ _ _ _ Ha). unfold mine. rewrite Hr. by apply bool_decide_eq_true. }
split; [done|]. intros i r rep Hr Hi Hd. subst c d. revert Hth Hd. cbn zeta. rewrite (own_steps_lone rs tid i sched Hi).
intros Hth Hd. apply (alone_run i _ (start srv rs)); [cbn; by rewrite list_lookup_fmap, Hr|]. rewrite <-(Hth i r Hr); [done|].
pose proof (proj2 (Hi i) eq_refl) as Hm. unfold mine in Hm. rewrite Hr in Hm. by bool_prop.
Qed.

(** ** Evaluations among writes *)


(** ** Answers *)

(** C21: Every request is answered, whatever other requests do between its steps: under every
  schedule in which its turn comes again and again it ends, and every schedule that ends
  it gives it a reply; its check does not run out of fuel, and its handler panics only on
  a schema that makes the compiler panic or a page of tenants that overflows. *)
Theorem every_request_is_answered rs srv i r :
(∀ data, yaml_Decode data ≠ Panic) → body_read r → serving srv → rs !! i = Some r →
(∀ sched, fair i sched → ∃ n rep, threads (run_schedule (prefix sched n) (start srv rs)) !! i = Some (Done rep)) ∧
∀ sched rep, threads (run_schedule sched (start srv rs)) !! i = Some (Done rep) →
  rep ≠ OutOfFuel ∧ (rep = Crash → may_crash r).
Proof.
intros Hy Hb Hs Hr. split.
- intros sched. apply (fair_done i (handler r)). cbn. by rewrite list_lookup_fmap, Hr.
- intros sched rep. by apply (run_good r rs srv i).
Qed.

(** ** Races *)

Lemma run_step i now sched srv ps f :
ps !! i = Some (Step f) →
run_schedule ((i, now) :: sched) (MkConfig srv ps) =
run_schedule sched (MkConfig (f now srv).1 (<[i := (f now srv).2]> ps)).
Proof. intros Hf. unfold run_schedule. cbn. unfold move at 2. cbn. rewrite Hf. by destruct (f _ _). Qed.

(** One step of a known thread. *)
Local Arguments run_schedule : simpl never.
Ltac take_step := erewrite run_step by reflexivity; cbn.

Lemma get_found s id t : tenants s !! id = Some t → GetTenant s id = Ok t.
Proof. unfold GetTenant. by intros ->. Qed.

(** A tenant as [UpdateTenant] stores it. *)
Definition updated (now : Z) (t : Tenant) : Tenant :=
MkTenant (ID t) (DisplayName t) (ParentTenantID t) (Status t) (tenant_SchemaMode t) (SharedSchemaRef t) (Config t)
  (t_CreatedAt t) now.

Lemma update_found now s t : is_Some (tenants s !! ID t) →
UpdateTenant now s t = (set_tenants <[ID t := updated now t]> s, Ok ()).
Proof. unfold UpdateTenant. by intros [u ->]. Qed.

Lemma suspend_store now id srv t :
tenants (store srv) !! id = Some t → ID t = id → Status t = TenantActive →
store (serve now (PostSuspend id) srv).1 = set_tenants <[id := updated now (with_Status t TenantSuspended)]> (store srv).
Proof.
intros Ht Hid Ha. cbn. unfold handleSuspendTenant, Suspend. rewrite (get_found _ _ _ Ht), bool_decide_eq_false_2 by auto.
rewrite update_found by (cbn; rewrite Hid; eauto). cbn. by rewrite Hid.
Qed.

Lemma suspend_refused now id srv t :
tenants (store srv) !! id = Some t → Status t ≠ TenantActive → store (serve now (PostSuspend id) srv).1 = store srv.
Proof.
intros Ht Ha. cbn. unfold handleSuspendTenant, Suspend. by rewrite (get_found _ _ _ Ht), bool_decide_eq_true_2.
Qed.

Lemma delete_store now id srv t :
tenants (store srv) !! id = Some t → ID t = id → Status t ≠ TenantDeleted →
store (serve now (DeleteTenantByID id) srv).1 = set_tenants <[id := updated now (with_Status t TenantDeleted)]> (store srv).
Proof.
intros Ht Hid Ha. cbn. unfold handleDeleteTenant, Delete. rewrite (get_found _ _ _ Ht), bool_decide_eq_false_2 by auto.
rewrite update_found by (cbn; rewrite Hid; eauto). cbn. by rewrite Hid.
Qed.

(** C15: The transitions of a tenant are not atomic, and a deletion can be lost: while an
  active tenant is suspended and deleted at the same time, there is an interleaving in
  which the deletion is answered 204 and the suspension 200 and the tenant ends
  suspended, although neither order of the two requests leaves it anything but deleted. *)
Theorem suspension_undoes_deletion srv id t :
serving srv → tenants (store srv) !! id = Some t → Status t = TenantActive →
(∃ sched u,
   let c := run_schedule sched (start srv [PostSuspend id; DeleteTenantByID id]) in
   threads c = [Done (Reply 200 (PTenant (Some u))); Done (Reply 204 PNoContent)] ∧
   tenants (store (server c)) !! id = Some u ∧ Status u = TenantSuspended) ∧
∀ now now',
  Status <$> tenants (store (run [(now, PostSuspend id); (now', DeleteTenantByID id)] srv)) !! id = Some TenantDeleted ∧
  Status <$> tenants (store (run [(now, DeleteTenantByID id); (now', PostSuspend id)] srv)) !! id = Some TenantDeleted.
Proof.
intros Hs Ht Ha. pose proof (ok_ids _ (history_ok _ (srv_history _ (serving_ok _ Hs))) id t Ht) as Hid.
assert (Hact : is_not_active t = None) by (unfold is_not_active; by rewrite bool_decide_eq_false_2 by auto).
assert (Hdel : is_deleted t = None) by (unfold is_deleted; by rewrite bool_decide_eq_false_2 by congruence).
assert (Hin : ∀ st, is_Some (tenants (store srv) !! ID (with_Status t st))) by (intros st; cbn; rewrite Hid; eauto).
split.
- exists [(0, 0%Z); (1, 0%Z); (1, 0%Z); (0, 0%Z); (0, 0%Z)], (updated 0 (with_Status t TenantSuspended)).
  unfold start. cbn [fmap list_fmap]. take_step. rewrite (get_found _ _ _ Ht). cbn. rewrite Hact.
  take_step. rewrite (get_found _ _ _ Ht). cbn. rewrite Hdel.
  take_step. rewrite update_found by done. cbn.
  take_step. rewrite update_found by (cbn; rewrite Hid, lookup_insert_eq; eauto). cbn.
  take_step. unfold tenant_now, Get, GetTenant. cbn. rewrite Hid, !lookup_insert_eq.
  unfold run_schedule. cbn. by rewrite lookup_insert_eq.
- intros now now'. split; cbn [run foldl fst snd].
  + rewrite (delete_store now' id _ (updated now (with_Status t TenantSuspended))); [cbn; by rewrite lookup_insert_eq| |done|done].
    rewrite (suspend_store now id srv t) by done. cbn. by rewrite lookup_insert_eq.
  + assert (Hd : store (serve now (DeleteTenantByID id) srv).1 =
      set_tenants <[id := updated now (with_Status t TenantDeleted)]> (store srv)) by (apply delete_store; rewrite ?Ha; done).
    rewrite (suspend_refused now' id _ (updated now (with_Status t TenantDeleted))); rewrite ?Hd; cbn;
      [by rewrite lookup_insert_eq..|done].
Qed.

Definition compiles (now : Z) (data : string) (cs : CompiledSchema) : Prop :=
(raw ← yaml_Decode data; Compile (sha256_hex data) now raw) = Ok cs ∧ Validate cs = [].

(** C16: Loading a schema is not atomic either: two loads for one tenant at the same time can
  both be answered 200 and leave the engine deciding with the second while the server
  shows the first, for good, although after requests served one at a time the engine has
  the schemas the server shows. *)
Theorem schema_loads_diverge srv id d1 d2 now1 now2 cs1 cs2 :
serving srv → is_Some (tenants (store srv) !! id) → compiles now1 d1 cs1 → compiles now2 d2 cs2 →
(∃ sched,
   let c := run_schedule sched (start srv [PutSchema id (Ok d1); PutSchema id (Ok d2)]) in
   threads c = [Done (Reply 200 (PSchema (MkSchemaResponse id (Hash cs1) (Version cs1) d1 (CompiledAt cs1))));
                Done (Reply 200 (PSchema (MkSchemaResponse id (Hash cs2) (Version cs2) d2 (CompiledAt cs2))))] ∧
   schemas (eng (server c)) !! id = Some cs2 ∧
   handleGetSchema id (server c) =
     Reply 200 (PSchema (MkSchemaResponse id (Hash cs1) (Version cs1) d1 (CompiledAt cs1)))) ∧
∀ l, schemas (eng (run l srv)) = schema_compiled (run l srv).
Proof.
intros Hs [t Ht] [Hc1 Hv1] [Hc2 Hv2].
split; [|intros l; apply srv_engine, serving_ok, run_serving, Hs].
exists [(0, 0%Z); (0, now1); (0, 0%Z); (1, 0%Z); (1, now2); (1, 0%Z); (1, 0%Z); (0, 0%Z)].
unfold start. cbn [fmap list_fmap]. take_step. unfold Get. rewrite (get_found _ _ _ Ht). cbn.
take_step. rewrite Hc1. cbn. rewrite bool_decide_eq_true_2 by done.
take_step. take_step. unfold Get. rewrite (get_found _ _ _ Ht). cbn.
take_step. rewrite Hc2. cbn. rewrite bool_decide_eq_true_2 by done.
take_step. take_step. take_step. unfold run_schedule. cbn.
split; [done|]. unfold handleGetSchema. cbn. by rewrite !lookup_insert_eq.
Qed.
End Properties.

(** ** Runs on the demo server *)

Open Scope string_scope.

(** Two writers of one tuple, a reader, and the suspension of their tenant. *)
Definition crowd : list request := [
  PostTuple "super" (Ok (tuple_request "folder" "c" "viewer" "user" "bob" "" (Some 60%Z)));
  PostTuple "super" (Ok (tuple_request "folder" "c" "viewer" "user" "bob" "" None));
  GetTuples "super" (λ q, if bool_decide (q = "object_id") then "c" else "");
  PostSuspend "super"].

(** The reader has its context before the first write and reads between the two; the
    second writer and the suspension meet. *)
Definition crowd_schedule : list (nat * Z) := [
  (0, 6%Z); (2, 6%Z); (1, 7%Z); (0, 8%Z); (3, 9%Z); (0, 10%Z); (2, 11%Z); (1, 12%Z); (1, 13%Z); (3, 14%Z); (3, 15%Z)].

Definition crowd_end : config := run_schedule crowd_schedule (start demo_server crowd).

Example crowd_replies :
  match threads crowd_end with
  | [Done (Reply 201 _); Done (Fail 409); Done (Reply 200 (PTuples l 1)); Done (Reply 200 _)] => ObjectID <$> l = ["c"]
  | _ => False
  end.
Proof. by vm_compute. Qed.


Lemma interleavings_keep_invariant_witness : concurrent_ok (server crowd_end).
Proof. exact (interleavings_keep_invariant crowd demo_server crowd_schedule demo_serving). Defined.

Lemma interleavings_isolate_witness :
  (serve 20 (PostTuple "acme" (Ok (tuple_request "folder" "a" "viewer" "user" "ann" "" None))) (server crowd_end)).2 =
  (serve 20 (PostTuple "acme" (Ok (tuple_request "folder" "a" "viewer" "user" "ann" "" None))) demo_server).2.
Proof.
  apply (interleavings_isolate crowd demo_server crowd_schedule "acme");
    [exact demo_serving|discriminate|repeat constructor; discriminate|reflexivity].
Defined.

Definition acme_tenant : Tenant :=
  match tenants (store demo_server) !! "acme" with Some t => t | None => demo_tenant TenantPending end.

Lemma suspension_undoes_deletion_witness :
  ∃ sched u,
    let c := run_schedule sched (start demo_server [PostSuspend "acme"; DeleteTenantByID "acme"]) in
    threads c = [Done (Reply 200 (PTenant (Some u))); Done (Reply 204 PNoContent)] ∧
    tenants (store (server c)) !! "acme" = Some u ∧ Status u = TenantSuspended.
Proof.
  apply (proj1 (suspension_undoes_deletion demo_server "acme" acme_tenant demo_serving
    ltac:(vm_compute; reflexivity) ltac:(vm_compute; reflexivity))).
Defined.

(** A creation that names a parent writes the new tenant once more, and takes back an
    activation in between. *)
Example creation_undoes_activation :
  let rs := [PostTenant (Ok (MkCreateTenantRequest "beta" "" "" "acme" "")); PostActivate "beta"] in
  let c := run_schedule [(0, 6%Z); (1, 7%Z); (1, 8%Z); (1, 9%Z); (0, 10%Z)] (start demo_server rs) in
  match threads c with [Done (Reply 201 _); Done (Reply 200 _)] => True | _ => False end ∧
  Status <$> tenants (store (server c)) !! "beta" = Some TenantPending.
Proof. by vm_compute. Qed.

(** The batch of writes about [super] is not noticed by [acme], whose two requests meet. *)
Definition two_tenants : list request := [
  PostTuple "super" (Ok (tuple_request "folder" "c" "viewer" "user" "bob" "" None));
  PostSuspend "acme";
  PostActivate "acme"].

Definition two_tenants_schedule : list (nat * Z) := [
  (1, 6%Z); (0, 6%Z); (2, 7%Z); (0, 8%Z); (1, 9%Z); (0, 10%Z); (2, 11%Z); (1, 12%Z); (2, 13%Z)].

Lemma tenants_run_alone_witness :
  let c := run_schedule two_tenants_schedule (start demo_server two_tenants) in
  let d := run_schedule (own_steps two_tenants "acme" two_tenants_schedule) (start demo_server two_tenants) in
  length (own_steps two_tenants "acme" two_tenants_schedule) = 6 ∧
  same_view "acme" (server c) (server d) ∧ threads c !! 2 = threads d !! 2.
Proof.
  split; [reflexivity|].
  destruct (tenants_run_alone two_tenants demo_server two_tenants_schedule "acme" demo_serving ltac:(discriminate)) as (Hv & Ht & _).
  split; [exact Hv|]. exact (Ht 2 (PostActivate "acme") eq_refl eq_refl).
Defined.

(** A check that follows an arrow while the folder gets another viewer. *)
Definition checked : list request := [
  PostEvaluation "super" (ask "folder" "a" "view" "ann");
  PostTuple "super" (Ok (tuple_request "folder" "c" "viewer" "user" "bob" "" None))].

Definition checked_schedule : list (nat * Z) := [
  (0, 6%Z); (0, 6%Z); (1, 7%Z); (0, 7%Z); (1, 8%Z); (0, 8%Z); (1, 9%Z); (0, 9%Z); (0, 10%Z)].

Example checked_allows :
  threads (run_schedule checked_schedule (start demo_server checked)) !! 0 = Some (Done (Reply 200 (PDecision true))).
Proof. by vm_compute. Qed.


Lemma every_request_is_answered_witness :
  ∃ n rep, threads (run_schedule (prefix (λ n, (Nat.modulo n 2, Z.of_nat n)) n) (start demo_server checked)) !! 0 =
    Some (Done rep).
Proof.
  apply (every_request_is_answered checked demo_server 0 (PostEvaluation "super" (ask "folder" "a" "view" "ann"))
    demo_decodes ltac:(discriminate) demo_serving eq_refl).
  intros n. exists (2 * n). cbn [fst]. split; [lia|]. rewrite Nat.mul_comm. apply Nat.Div0.mod_mul.
Defined.

(** Decoders that know two schemas. *)
Definition two_decoders : Decoders :=
  {| yaml_Decode s := if bool_decide (s = "demo") then Ok demo_raw
                      else if bool_decide (s = "plain") then Ok plain_raw else Err (Errorf "yaml");
     sha256_hex s := s;
     parse_RFC3339 _ := None |}.

Definition started : Server := NewServer (ensureBootstrapTenant 1 NewStore).1 (New DefaultConfig).

Definition compiled_at (now : Z) (data : string) (raw : RawSchema) : CompiledSchema :=
  match Compile data now raw with Ok cs => cs | _ => MkCompiledSchema ∅ "" "" 0 end.

Lemma schema_loads_diverge_witness :
  let cs1 := compiled_at 2 "demo" demo_raw in
  let cs2 := compiled_at 3 "plain" plain_raw in
  Hash cs1 ≠ Hash cs2 ∧
  ∃ sched,
    let c := run_schedule sched
      (start (DC := two_decoders) started [PutSchema "super" (Ok "demo"); PutSchema "super" (Ok "plain")]) in
    threads c = [Done (Reply 200 (PSchema (MkSchemaResponse "super" (Hash cs1) (Version cs1) "demo" (CompiledAt cs1))));
                 Done (Reply 200 (PSchema (MkSchemaResponse "super" (Hash cs2) (Version cs2) "plain" (CompiledAt cs2))))] ∧
    schemas (eng (server c)) !! "super" = Some cs2 ∧
    handleGetSchema "super" (server c) =
      Reply 200 (PSchema (MkSchemaResponse "super" (Hash cs1) (Version cs1) "demo" (CompiledAt cs1))).
Proof.
  cbv zeta. split; [by vm_compute|].
  refine (proj1 (schema_loads_diverge (DC := two_decoders) started "super" "demo" "plain" 2 3
    (compiled_at 2 "demo" demo_raw) (compiled_at 3 "plain" plain_raw) _ _ _ _)).
  - apply serving_start, history_new.
  - vm_compute. by eexists.
  - by split; vm_compute.
  - by split; vm_compute.
Defined.
