(* ===== verification/DocsSite.v ===== *)
(** * The documentation site

    [docs-site/sidebars.js] and [docs-site/docusaurus.config.js]: the sidebar, the
    navigation bar and the footer.  The site is built with
    [onBrokenLinks: 'throw'], so a link without a page fails the build.  The route
    Docusaurus gives a page is the interface [DocsRoutes]; the copyright line, the
    themes of code blocks and the colour mode are left out. *)

From S2P Require Import Prelude.

Open Scope string_scope.
Open Scope list_scope.

(** ** The sidebar *)

(** An item of a sidebar; a bare string in the code is a page without a label. *)
Inductive sidebar_item :=
  | doc (id : string) (label : option string)
  | category (label : string) (collapsed : bool) (items : list sidebar_item).

Definition page (id : string) : sidebar_item := doc id None.

Definition sidebars : list (string * list sidebar_item) := [
  ("docs", [
    doc "intro" (Some "Introduction");
    doc "getting-started" (Some "Getting Started");
    category "Core Concepts" false [
      page "core-concepts/relation-tuples"; page "core-concepts/permissions"; page "core-concepts/abac-conditions"];
    category "Schema DSL" false [
      page "schema/overview"; page "schema/types-and-relations"; page "schema/permissions"; page "schema/conditions"];
    category "Engine" false [
      page "engine/check"; page "engine/expand"; page "engine/cycle-detection"];
    category "Storage" false [
      page "storage/overview"; page "storage/postgresql"; page "storage/changelog"];
    category "Multi-Tenancy" false [
      page "multi-tenancy/overview"; page "multi-tenancy/lifecycle"; page "multi-tenancy/schema-modes";
      page "multi-tenancy/context"];
    category "Examples" false [
      page "examples/google-drive"; page "examples/group-membership"; page "examples/abac-clearance";
      page "examples/abac-manual-api"; page "examples/ai-agent-authorization"];
    category "API Reference" false [
      page "api/overview"; page "api/management"; page "api/authzen"]])].

(** The pages an item leads to, in order. *)
Fixpoint item_docs (i : sidebar_item) : list string :=
  match i with
  | doc id _ => [id]
  | category _ _ items => concat (item_docs <$> items)
  end.

Definition sidebar_docs (name : string) : list string :=
  concat (item_docs <$> concat ((λ p, p.2) <$> base.filter (λ p, p.1 = name) sidebars)).

(** ** The configuration *)

Inductive navbar_item :=
  | docSidebar (sidebarId position label : string)
  | href (url label position : string).

Record footer_link := MkFooterLink { link_label : string; to : string }.

Record footer_column := MkFooterColumn { column_title : string; column_items : list footer_link }.

Record site_config := MkSiteConfig {
  title : string;
  tagline : string;
  favicon : string;
  url : string;
  baseUrl : string;
  organizationName : string;
  projectName : string;
  onBrokenLinks : string;
  onBrokenMarkdownLinks : string;
  defaultLocale : string;
  locales : list string;
  (* the preset [classic] *)
  sidebarPath : string;
  routeBasePath : string;
  blog : bool;
  customCss : string;
  (* [themeConfig] *)
  navbar_title : string;
  navbar : list navbar_item;
  footer_style : string;
  footer : list footer_column }.

Definition config : site_config := {|
  title := "ZanGuard";
  tagline := "Zanzibar-inspired fine-grained authorization engine for Go";
  favicon := "img/favicon.ico";
  url := "https://zanguard.dev";
  baseUrl := "/";
  organizationName := "zanguard";
  projectName := "zanguard";
  onBrokenLinks := "throw";
  onBrokenMarkdownLinks := "warn";
  defaultLocale := "en";
  locales := ["en"];
  sidebarPath := "./sidebars.js";
  routeBasePath := "/";
  blog := false;
  customCss := "./src/css/custom.css";
  navbar_title := "ZanGuard";
  navbar := [
    docSidebar "docs" "left" "Docs";
    href "https://github.com/zanguard/zanguard" "GitHub" "right"];
  footer_style := "dark";
  footer := [
    MkFooterColumn "Docs" [
      MkFooterLink "Introduction" "/";
      MkFooterLink "Getting Started" "/getting-started";
      MkFooterLink "Core Concepts" "/core-concepts/relation-tuples"];
    MkFooterColumn "Reference" [
      MkFooterLink "Schema DSL" "/schema/overview";
      MkFooterLink "Engine" "/engine/check";
      MkFooterLink "Storage" "/storage/overview";
      MkFooterLink "Multi-Tenancy" "/multi-tenancy/overview"]] |}.

Definition footer_links (c : site_config) : list string := to <$> concat (column_items <$> footer c).

(** ** The pages *)

(** The files of [docs-site/docs/], each with the slug of its front matter. *)
Definition pages : list (string * option string) := [
  ("api/authzen", None); ("api/management", None); ("api/overview", None);
  ("core-concepts/abac-conditions", None); ("core-concepts/permissions", None); ("core-concepts/relation-tuples", None);
  ("engine/check", None); ("engine/cycle-detection", None); ("engine/expand", None);
  ("examples/abac-clearance", None); ("examples/abac-manual-api", None); ("examples/ai-agent-authorization", None);
  ("examples/google-drive", None); ("examples/group-membership", None);
  ("getting-started", None); ("intro", Some "/");
  ("multi-tenancy/context", None); ("multi-tenancy/lifecycle", None); ("multi-tenancy/overview", None);
  ("multi-tenancy/schema-modes", None);
  ("schema/conditions", None); ("schema/overview", None); ("schema/permissions", None); ("schema/types-and-relations", None);
  ("storage/changelog", None); ("storage/overview", None); ("storage/postgresql", None)].

(** What Docusaurus documents of routes: a page without a slug is served under its
    identifier, a page with an absolute slug under the slug, both below [routeBasePath]. *)
Class DocsRoutes := {
  route : string → string → option string → string;
  route_id base id : route base id None = base +:+ id;
  route_slug base id slug : route base id (Some ("/" +:+ slug)) = base +:+ slug }.

Section Site.
Context {DR : DocsRoutes}.

(** The routes the site serves. *)
Definition routes (c : site_config) : list string := (λ p, route (routeBasePath c) p.1 p.2) <$> pages.

(** The sidebar of the navigation bar exists, it leads to every page of the
  documentation exactly once and to nothing else, and every link of the footer is the
  route of a page: the build does not fail on them. *)
Theorem site_links_resolve :
Forall (λ i, match i with docSidebar id _ _ => id ∈ sidebars.*1 | href _ _ _ => True end) (navbar config) ∧
sidebar_docs "docs" ≡ₚ pages.*1 ∧ NoDup (sidebar_docs "docs") ∧
Forall (λ l, l ∈ routes config) (footer_links config).
Proof.
assert (Hd : NoDup (sidebar_docs "docs")) by decide_literal.
split_and!; [by repeat constructor; decide_literal| |done|].
- apply NoDup_Permutation; [done|decide_literal|]. intros x. split; revert x; apply Forall_forall; decide_literal.
- assert (Hr : ∀ id slug, (id, slug) ∈ pages → route "/" id slug ∈ routes config).
  { intros id slug Hin. unfold routes. by apply (list_elem_of_fmap_2 (λ p, route (routeBasePath config) p.1 p.2) pages (id, slug)). }
  assert (Hid : ∀ id, (id, None) ∈ pages → "/" +:+ id ∈ routes config).
  { intros id Hin. rewrite <-route_id. by apply Hr. }
  assert (Hroot : "/" ∈ routes config).
  { pose proof (Hr "intro" (Some "/")) as H. change "/" with ("/" +:+ "") in H at 3. rewrite route_slug in H. apply H. decide_literal. }
  let l := eval vm_compute in (footer_links config) in change (footer_links config) with l.
  rewrite !Forall_cons, Forall_nil. split_and!; [exact Hroot|..|done].
  + apply (Hid "getting-started"). decide_literal.
  + apply (Hid "core-concepts/relation-tuples"). decide_literal.
  + apply (Hid "schema/overview"). decide_literal.
  + apply (Hid "engine/check"). decide_literal.
  + apply (Hid "storage/overview"). decide_literal.
  + apply (Hid "multi-tenancy/overview"). decide_literal.
Qed.
End Site.

(** Routes by concatenation: a slug without its slash. *)
#[local] Instance concatenated : DocsRoutes :=
  {| route base id slug := base +:+ match slug with None => id | Some (String _ s) => s | Some EmptyString => "" end;
     route_id _ _ := eq_refl;
     route_slug _ _ _ := eq_refl |}.

Example site_builds : Forall (λ l, l ∈ routes config) (footer_links config).
Proof. apply site_links_resolve. Qed.
